(* ===== verification/_CoqProject ===== *)
-Q . S2P
Prelude.v
JsMap.v
Types.v
Hash.v
Evaluate.v
Client.v
Server.v
Convergence.v
ClientTypes.v
Broker.v
Process.v
Outbox.v
Metrics.v
System.v
GoClient.v
Percentiles.v
Chaos.v
Writers.v
Recovery.v
Loadgen.v
Soak.v
Json.v
JsonText.v
Api.v
Number.v
Fleet.v
Router.v
Middleware.v
Idle.v
Config.v
SdkText.v
Migrate.v
Visualizer.v
Why.v
Hero.v
Feed.v
Forms.v
Teach.v
Shell.v
Dashboard.v
Pages.v
Demo.v
Markup.v
Ui.v
Screens.v
Access.v
