(* ===== verification/Prelude.v ===== *)
(** * FlagPlane: a verification development

    FlagPlane is a feature-flag system.  A Go control plane keeps flags in
    Postgres, stamps every change with a global version, appends it to a durable
    event log and pushes it to clients over server-sent events; a TypeScript SDK
    mirrors the flags in the browser and decides locally; a Next.js dashboard
    edits the flags and explains, polls and draws the system.  This library
    models the dashboard and SDK ([src/frontend]), the control plane they are
    correct against ([src/backend/internal]), its stream, the Go SDK
    ([src/backend/pkg/ffclient]), the process around it all ([src/backend/cmd])
    and the tools that test a cluster with it.

    ** How the parts interact

    The dashboard's forms ([Forms]) build a request, [Api] takes it through the
    fetch wrapper and the same-origin proxy, [Router] checks the key, finds the
    route and decodes the JSON text with [JsonText], [Server] validates, writes the row
    and the event in one transaction and publishes.  [Migrate] makes the tables
    before a server listens, and [Process] is the server from there to its exit.
    [Middleware] stands around every handler.  [Outbox] relates what is
    published to what is logged; every node's subscriber hands it to the stream
    broker ([Broker]), which writes it to the open responses.  The SDK ([Client]) learns
    of the change from its stream, or, after a gap, by paging through
    [GET /api/client/events], which is [Server.Reconcile].  [Convergence] runs
    the SDK against the log of the server, [System] puts server, subscriber,
    broker, stream and SDK into one state with one step relation, and [GoClient]
    compares the SDK in Go with the one in the browser.  [Evaluate] decides on the flags the
    SDK holds.  The pages ([Fleet], [Hero], [Feed], [Visualizer], [Why]) show
    what polling, streaming and evaluating returned; [Screens] lays them out with
    the components of [Ui], and [Access] is about what a visitor can reach there.

    ** Files

    - [Prelude]: JavaScript strings as UTF-16 code units with [js] for
      literals, decimal printing and the two parsers ([parseInt],
      [strconv.ParseInt]), list lemmas, the tactics [boolify] and [cases].
    - [JsMap]: insertion-ordered [Map] and [Set], with [to_gmap] forgetting the
      order; rewriting database [fp].
    - [Types]: [types/flag.ts].
    - [Hash]: [fnv1a32] of the SDK with ECMAScript's 32-bit operators, and the
      server's [hash/rollout.go].
    - [Evaluate]: [lib/evaluate.ts] and the SDK's [isEnabled].
    - [Client]: [sdk/FeatureFlagClient.ts] as a transition system.  [world] is
      the object's fields with its [EventSource]s, timers and suspended calls;
      [exec] is one uninterrupted stretch of JavaScript: a public call, an
      answered [await], a stream event or a timer.
    - [Server]: [repository/flag_repository.go], [service/flag_service.go],
      [handler/admin_handler.go], [handler/client_handler.go],
      [model/flag.go] and the table constraints of [migrations].  A state is the
      table, the sequence and the log; [cluster] holds open transactions cut
      between [nextval] and the commit.
    - [Convergence]: the interface [EventService] between the two, its instance
      [cluster_service], and the client's theorems proved against it.
    - [ClientTypes]: the well-formedness of the SDK's object.
    - [Broker]: [sse/broker.go]; [Run] and the handlers [ServeHTTP] as a
      transition system over the clients' channels, and the text they write.
    - [Process]: [main] of [cmd/server/main.go] as a transition system: start,
      listener, subscriber and shutdown around a [Broker], with the gauge of
      [metrics/metrics.go].
    - [Outbox]: [sse/wire.go] and the requests of [Server] run to their end.
    - [Metrics]: [metrics/metrics.go] and the calls that feed it, around the
      requests of [Outbox].
    - [System]: [cmd/server/main.go]'s wiring of one node with one browser.
    - [GoClient]: [pkg/ffclient], with the line parser of the stream and the
      loop that reconnects it.
    - [Percentiles]: [pkg/ffclient/loadgen.go], in rounded arithmetic.
    - [Chaos]: [pkg/chaoskit/fleet.go], the fleet of Go clients with its monitor.
    - [Writers]: the scenario concurrent-writers of [cmd/chaos/main.go] with the
      calls of [pkg/chaoskit/chaoskit.go] it makes, over [Server.cluster].
    - [Recovery]: the scenarios sse-disconnect and missed-events: a fleet left
      behind, one more write, and its event as text on every stream.
    - [Loadgen]: [cmd/loadgen/main.go]: the evaluation benchmark's walk over flags
      and users, and the accounting of the propagation measurement.
    - [Soak]: [cmd/soak/main.go]: a fleet under a writer, its monitor and checker,
      and the verdict.
    - [JsonText]: JSON as text: both printers ([JSON.stringify],
      [json.Marshal]) behind the interface [Escapes], one parser, and the decoding
      of the request structs of [handler/admin_handler.go].
    - [Json], [Api]: parsed JSON, headers, fetch; [lib/api.ts],
      [lib/admin-proxy.ts], the routes of [app/api/admin], [lib/sse.ts],
      [hooks/useSSE.ts], [hooks/useFlags.ts].
    - [Number]: [Number(string)] and [toFixed(1)] on exact rationals.
    - [Fleet]: [hooks/useCluster.ts], [hooks/useHealth.ts],
      [hooks/useEvents.ts] and the cluster, resilience and health pages.
    - [Router]: [cmd/server/main.go]'s routes, [middleware/auth.go],
      [handler/health_handler.go], the answers as JSON text, and [upstream], the
      server as the proxy's [fetch] sees it.
    - [Middleware]: [middleware/logging.go], [middleware/cors.go],
      [reqid/reqid.go]: the response writer's wrapper and the flush through it, the
      log line, request ids, CORS headers and what a browser makes of them, over
      [Router.serve].
    - [Idle]: the loop of [ServeHTTP] in [sse/broker.go] with its clock: ticker,
      idle timer and flushes that block.
    - [Config]: [config/config.go] and the variables of [lib/admin-proxy.ts].
    - [SdkText]: the SDK over text: the bodies its fetches read and the frames
      its stream brings are the JSON the server prints.
    - [Migrate]: [migrate/migrate.go] as a transition system over the database,
      run by any number of starting replicas.
    - [Visualizer], [Why]: [RolloutVisualizer.tsx], [WhyExplainer.tsx].
    - [Hero]: [PropagationHero.tsx] and [ClusterHero.tsx]; [runFlip] cut at its
      awaits, interleaved with the stream, the timer and the clicks.
    - [Feed]: [SseConsole.tsx], [VersionTimeline.tsx].
    - [Forms]: [FlagForm.tsx], [RolloutSlider.tsx], [TargetedUsersInput.tsx],
      the new and detail pages of a flag.
    - [Teach]: the Explain switch shared by every tab, the guided tour, the
      glossary and the Learn page.
    - [Pages]: the flag list, the history drawer, the overview, the top bar and
      the sidebar.
    - [Demo]: the demo and playground pages, as observers that subscribe to
      [Client].
    - [Shell]: the providers of [app/providers.tsx] around the parts of the frame,
      and stores read with [useSyncExternalStore] ([hooks/useReducedMotion.ts],
      the Explain switch, the tour).
    - [Dashboard]: the pages' queries as transitions of cache, stream and server:
      what [hooks/useFlags.ts], [hooks/useSSE.ts] and the detail page ask of the
      query library, which is the interface [QueryClient].
    - [Markup]: a page as a tree of text, boxes, links, controls and headings,
      with what a visitor and a screen reader find in it.
    - [Ui]: the components of [components/ui], with their class strings, as
      functions from props to elements, and [lib/utils.ts].
    - [Screens]: the trees of every page, the frame around them and the parts
      they are made of.
    - [Access]: that these trees are sound.

    What a component shows is modelled twice: by a view with the texts, tones and
    states that depend on data, in the file of its page, and in [Screens] by a
    tree that adds its fixed text, links, controls and labels.  Class names
    outside [Ui], icons, tooltips, skeletons and locale date formats are left out.

    ** What the theorems show

    Replication.  [Server.outbox_faithful]: replaying the log gives the table,
    for every serial history.  The lemma [Server.interleaved_pages_ascend]: pages
    of the log are bounded and ascending under any interleaving.
    [Convergence.client_is_always_a_snapshot]: whatever frames are lost,
    repeated, delayed or reordered, and whichever calls fail, the SDK holds the
    replay of exactly the events up to the version it reports;
    [reconcile_converges] and [one_reconcile_heals]: an undisturbed reconcile
    ends live and equal to the server, from every reachable state.  The limits
    of this are theorems too: [torn_snapshot_is_permanent],
    [late_commit_is_lost] and the lemma [crossed_toggles_diverge] construct the
    interleavings that defeat it, and the lemma [quiet_snapshot_is_consistent] is
    the case in which the snapshot is sound.

    Distribution.  [channel_covers_log]: what is published announces the whole
    log in order.  [broker_no_silent_gap]: what a connection was sent is a prefix
    of what was broadcast since it registered, and a client that would miss an
    event is closed instead; [broker_never_panics] and the lemma [shutdown_drains]
    on its channels and its end.  [idle_cap_never_acts]: the cap meant for stuck
    clients ends no handler, and flush errors do not reach it either.  The lemma
    [counters_account]: each publication that was counted is on the channel or in
    the counter of errors.  [browser_mirrors_table] composes them over JSON text: a
    registered, caught-up client equals the flag table when its stream is read;
    the lemma [live_client_mirrors_table] is the same before the text.
    [sdk_reads_the_store]: the SDK's snapshot and pages are the store's, through
    router, key check and text.
    [registration_window] is the run in which a client catches up before it is
    registered, and stays live and behind.  [go_stream_round_trip]: the Go SDK
    parses what the broker prints; [sdks_agree]: both SDKs take the same steps
    and the same decisions; the lemma [go_reconcile_converges] is the Go SDK's
    own convergence, and [streamLoop_runs] says its version only rises however its
    connections go.

    The SDK's state machine.  [at_most_one_open_stream],
    [client_well_typed] and the lemmas [reconcile_exclusive],
    [version_never_regresses] and [reconciling_makes_progress] are invariants of every reachable [world]; the
    lemmas [gap_during_last_page_is_lost], [destroy_during_init_leaks], [partial_reconcile_is_silent] and
    [disconnect_then_reconcile_reports_live] are runs in which it ends in a state
    its interface does not promise.

    Decisions.  [evaluate_isEnabled_parity] with the lemmas
    [evaluate_trace_honest] and [rollout_ramp_monotone] on the two evaluators;
    [rollout_parity_ascii] and the lemma [rollout_parity_fails_non_ascii] on browser
    and server; the lemmas [grid_fills_like_a_meter] and
    [why_steps_tell_the_decision] on what the pages tell about them.

    Editing.  [no_lost_update], [create_outcomes] and the lemma
    [if_match_guards_update] on the server; the lemmas [route_paths_confined],
    [if_match_round_trip], [proxy_injects_key] and [proxy_is_transparent] on the
    path;
    [form_agrees_with_server], the lemma [slider_settles] and
    [refetched_form_overwrites] on the form, the last one showing how a stale
    form passes the guard.

    End to end.  [dashboard_reaches_service]: every operation of the API object,
    through its route file, the proxy, the router, the decoder and the encoder, is
    the handler of the same name on the same arguments.  [keys_guard_handlers]:
    without the key no handler runs, whatever the path;
    [configured_doors_are_shut]: nor does one in any environment, because no key
    is ever empty.  [origin_policy]: what a page of an allowed and of another
    origin can do and read; the stream is open to all of them.
    [request_body_round_trip]: a request body printed in the browser and decoded
    on the server is the one meant; the lemma [json_round_trip] is the same for
    any value and both printers.  The lemma [probes_round_trip]: what the health
    page reads is what the probe measured.

    Start and stop.  [migrations_run_once], [migration_completes] and the lemma
    [migration_lock_excludes]: with any number of replicas, crashes and failing
    scripts, each script is applied once, in order, by the holder of the lock.
    [shutdown_is_graceful]: nothing is accepted before that; the gauge is exact;
    after a signal the process comes to exit 0 by its own steps, each handler
    returned.

    What the pages show.  [refreshed_is_fresh]: after a mutation, an event of the
    stream or a page's request, a query on screen shows no answer but one to a
    question put since, and has one coming; the lemma [deleted_not_asked]: a
    deleted flag is not asked for again; [detail_opens_stale]: a flag's page opened
    within five seconds of its last visit shows what that visit saw.

    What the pages claim.  [hero_converged_is_real], and the lemmas
    [console_is_faithful] and [hero_wait_is_bounded], the termination of the hero's polling loop.
    [demo_keeps_up]: the demo page's copy of the flags is the client's after
    every step.  [screens_accessible]: on every screen, in every state, links lead
    to pages that exist and say so, controls have names, ids are unique and labels
    point at fields; the lemma [wrappers_forward]: the design system's components hand on
    what they are given.  As lemmas: [frame_follows_route], title and marked
    section are those of the page; [explain_keeps_controls], Explain mode adds text
    and no controls; [seeds_once] on the demo flag the heroes create; [convergence_story], [cluster_converged_is_real],
    [custom_user_unreachable], no user outside the presets can be chosen on the
    demo page, and [explain_switch], every open tab shows the stored setting.

    The tools.  The lemma [fleet_never_regresses]: the monitor never accuses a fleet of
    SDK clients, and by [monitor_exact] it accuses whatever does go back.
    [concurrent_writers_verdict]: over every interleaving of its transactions the
    scenario passes, as long as a phase has at most 500 calls; beyond that it
    reports losses that did not happen.  [missed_events_heal]: one more event
    brings a fleet up to date, whatever it has missed.  [percentiles_nearest_rank]: rounding to
    53 bits never moves a rank.  [eval_matrix_coverage]: the benchmark visits the
    whole matrix exactly when the counts of flags and users have no common
    divisor; the lemmas [latency_understates] and [delivery_is_complete] on the
    propagation report, and [soak_verdict] on the soak.

    ** Bounds and fuel

    Versions and percentages are integers; where the code bounds them the
    theorems do ([strconv.ParseInt]'s 64 bits, the hash's 32).  The SDK's paging
    loop has the guard of 10,000 pages it has in the code, [guard_limit]; the
    convergence theorems carry the bound as a hypothesis on the backlog.
    [show_fuel] prints with one unit of fuel per digit, which [log2_fuel] bounds
    by the binary logarithm.  [GoClient.reconcile_loop] has the guard of 100,000
    pages of its loop, and [go_reconcile_converges] the bound as a hypothesis.  A
    channel of the broker holds 16 events, [chan_cap].  The hero's loop needs at most 45 polls, 8000 ms by
    180 ms.  The percentiles are exact up to
    [max_samples], 2^31.  The JSON parser's fuel is the length of its text, which
    [json_size_print] shows is enough.

    ** Not modelled

    The library code the sources only call: React's scheduler beyond the order
    of effects stated where it matters, the query library (the interface
    [QueryClient] with its laws), the browser's [EventSource] beyond its states and events, Postgres
    beyond the statements used, the Prometheus queries, Redis beyond an ordered
    channel that may lose messages, the router library (the interface [Mux] with
    its laws), the CORS library (the interface [CorsLib]), Postgres' reading of a uuid (the parameter [uuid]).  Numbers in JSON
    text are integers, which is all the requests send.
    Timers fire at any moment; their durations are in the model for the heroes'
    polling and for the stream's handler in [Idle] only.  Of the Go side, tracing
    has no model: it is calls of its library whose results nothing reads.  Of the tools, the scenarios
    that stop and start containers, the reading of metrics and the HTTP transport
    are left out, and of the dashboard the settings of its bundler. *)
From Stdlib Require Export ZArith Lia.
From Stdlib Require Import Ascii String.
From stdpp Require Export base tactics list gmap sorting relations.
From stdpp Require Import strings.
Export StringSyntax.
#[global] Open Scope Z_scope.

(** ** JavaScript strings

    A JavaScript string is a sequence of 16-bit code units; [charCodeAt] and
    [length] see those units.  A Rocq literal is read as UTF-8 and re-encoded,
    so [js "—"] is the one-unit string it denotes in the source. *)
Abbreviation jstr := (list Z) (only parsing).

Fixpoint utf8_decode (bs : list Z) : list Z :=
  match bs with
  | [] => []
  | b0 :: r0 =>
      if b0 <? 128 then b0 :: utf8_decode r0
      else match r0 with
           | [] => []
           | b1 :: r1 =>
               if b0 <? 224 then
                 ((b0 - 192) * 64 + (b1 - 128)) :: utf8_decode r1
               else match r1 with
                    | [] => []
                    | b2 :: r2 =>
                        if b0 <? 240 then
                          ((b0 - 224) * 4096 + (b1 - 128) * 64 + (b2 - 128))
                            :: utf8_decode r2
                        else match r2 with
                             | [] => []
                             | b3 :: r3 =>
                                 ((b0 - 240) * 262144 + (b1 - 128) * 4096
                                  + (b2 - 128) * 64 + (b3 - 128))
                                   :: utf8_decode r3
                             end
                    end
           end
  end.

Definition utf8_encode1 (c : Z) : list Z :=
  if c <? 128 then [c]
  else if c <? 2048 then [192 + c / 64; 128 + c mod 64]
  else if c <? 65536 then
    [224 + c / 4096; 128 + c / 64 mod 64; 128 + c mod 64]
  else [240 + c / 262144; 128 + c / 4096 mod 64; 128 + c / 64 mod 64;
        128 + c mod 64].

(** The bytes Go's [[]byte(s)] sees for a string of Unicode scalar values. *)
Definition utf8_encode (cps : list Z) : list Z := cps ≫= utf8_encode1.

Definition utf16_encode1 (c : Z) : list Z :=
  if c <? 65536 then [c]
  else [55296 + (c - 65536) / 1024; 56320 + (c - 65536) mod 1024].

(** The code units JavaScript sees for the same string. *)
Definition utf16_encode (cps : list Z) : list Z := cps ≫= utf16_encode1.

Definition bytes_of (s : string) : list Z :=
  map (λ a, Z.of_N (N_of_ascii a)) (list_ascii_of_string s).

Definition js (s : string) : list Z := utf16_encode (utf8_decode (bytes_of s)).
Arguments js s%_string_scope : simpl never.

(** ** Decimal numerals

    Template literals print an integer in decimal; [parseInt(s, 10)] and Go's
    [strconv.ParseInt(s, 10, 64)] read one back. *)
Fixpoint show_fuel (fuel : nat) (n : Z) : list Z :=
  match fuel with
  | O => []
  | S f => if n <? 10 then [48 + n]
           else show_fuel f (n / 10) ++ [48 + n mod 10]
  end.

Definition show_nonneg (n : Z) : list Z :=
  show_fuel (S (Z.to_nat (Z.log2 n))) n.

Definition show (n : Z) : list Z :=
  if n <? 0 then 45 :: show_nonneg (- n) else show_nonneg n.

Definition is_digit (c : Z) : bool := (48 <=? c) && (c <=? 57).

(** The value of the longest prefix of digits, after [acc]. *)
Fixpoint take_digits (acc : Z) (s : list Z) : Z :=
  match s with
  | c :: r => if is_digit c then take_digits (acc * 10 + (c - 48)) r else acc
  | [] => acc
  end.

(** JavaScript white space and line terminators, as [trim] strips them. *)
Definition is_space (c : Z) : bool :=
  ((9 <=? c) && (c <=? 13)) || (c =? 32) || (c =? 160) || (c =? 5760)
  || ((8192 <=? c) && (c <=? 8202)) || (c =? 8232) || (c =? 8233)
  || (c =? 8239) || (c =? 8287) || (c =? 12288) || (c =? 65279).

Fixpoint trim_start (s : list Z) : list Z :=
  match s with
  | c :: r => if is_space c then trim_start r else s
  | [] => []
  end.

Definition trim (s : list Z) : list Z := reverse (trim_start (reverse (trim_start s))).

(** [parseInt(s, 10)]: [None] is [NaN]. *)
Definition parseInt10 (s : list Z) : option Z :=
  match trim_start s with
  | c :: r =>
      if is_digit c then Some (take_digits 0 (c :: r))
      else if (c =? 45) || (c =? 43) then
        match r with
        | d :: _ => if is_digit d
                    then Some ((if c =? 45 then -1 else 1) * take_digits 0 r)
                    else None
        | [] => None
        end
      else None
  | [] => None
  end.

(** [strconv.ParseInt(s, 10, 64)]: [None] is a non-nil error. *)
Definition go_ParseInt (s : list Z) : option Z :=
  let digits sign r :=
    if forallb is_digit r && negb (bool_decide (r = [])) then
      let v := sign * take_digits 0 r in
      if (- 2 ^ 63 <=? v) && (v <? 2 ^ 63) then Some v else None
    else None in
  match s with
  | c :: r => if c =? 45 then digits (-1) r
              else if c =? 43 then digits 1 r else digits 1 s
  | [] => None
  end.

(** Lexicographic order on code units: JavaScript's [<] on strings. *)
Fixpoint str_ltb (a b : list Z) : bool :=
  match a, b with
  | [], [] => false
  | [], _ :: _ => true
  | _ :: _, [] => false
  | x :: a', y :: b' => (x <? y) || ((x =? y) && str_ltb a' b')
  end.

(** ** Shared automation *)
Create HintDb fp.
Create Rewrite HintDb fp.

(** Turns boolean tests in the context and the goal into propositions. *)
Ltac boolify :=
  repeat match goal with
  | H : context [bool_decide _] |- _ => progress rewrite ?bool_decide_eq_true, ?bool_decide_eq_false in H
  | H : (_ && _)%bool = true |- _ => apply andb_true_iff in H as [??]
  | H : (_ && _)%bool = false |- _ => apply andb_false_iff in H
  | H : (_ || _)%bool = true |- _ => apply orb_true_iff in H
  | H : (_ || _)%bool = false |- _ => apply orb_false_iff in H as [??]
  | H : negb _ = true |- _ => apply negb_true_iff in H
  | H : negb _ = false |- _ => apply negb_false_iff in H
  | H : (_ <? _) = true |- _ => apply Z.ltb_lt in H
  | H : (_ <? _) = false |- _ => apply Z.ltb_ge in H
  | H : (_ <=? _) = true |- _ => apply Z.leb_le in H
  | H : (_ <=? _) = false |- _ => apply Z.leb_gt in H
  | H : (_ =? _) = true |- _ => apply Z.eqb_eq in H
  | H : (_ =? _) = false |- _ => apply Z.eqb_neq in H
  end.

(** Case analysis on the tests and matches the goal is stuck on. *)
Ltac cases := repeat (case_match; simplify_eq/=; boolify).

(** ** Decimal numerals: round trips *)
Lemma is_digit_spec c : is_digit c = true ↔ 48 ≤ c ≤ 57.
Proof. unfold is_digit. rewrite andb_true_iff, !Z.leb_le. lia. Qed.

Lemma is_space_digit c : is_digit c = true → is_space c = false.
Proof.
  rewrite is_digit_spec. intros ?. unfold is_space.
  repeat (apply orb_false_iff; split); boolify;
    try (apply andb_false_iff; (left; apply Z.leb_gt; lia) || (right; apply Z.leb_gt; lia));
    try (apply Z.eqb_neq; lia).
Qed.

Lemma take_digits_app a s r :
  Forall (λ c, is_digit c = true) s →
  take_digits a (s ++ r) = take_digits (take_digits a s) r.
Proof.
  intros Hs. revert a. induction Hs as [|c s Hc _ IH]; intros a; simpl; [done|].
  by rewrite Hc, IH.
Qed.

Lemma show_fuel_digits f n :
  0 ≤ n → Forall (λ c, is_digit c = true) (show_fuel f n).
Proof.
  revert n. induction f as [|f IH]; intros n Hn; simpl; [constructor|].
  destruct (n <? 10) eqn:E; boolify.
  - repeat constructor. apply is_digit_spec. lia.
  - apply Forall_app; split; [apply IH, Z.div_pos; lia|].
    repeat constructor. apply is_digit_spec. pose proof (Z.mod_pos_bound n 10). lia.
Qed.

Lemma show_fuel_value f n :
  0 ≤ n < 10 ^ Z.of_nat f → take_digits 0 (show_fuel f n) = n.
Proof.
  revert n. induction f as [|f IH]; intros n Hn; simpl; [simpl in Hn; lia|].
  rewrite Nat2Z.inj_succ, Z.pow_succ_r in Hn by lia.
  destruct (n <? 10) eqn:E; boolify; simpl.
  - rewrite (proj2 (is_digit_spec _)) by lia. lia.
  - rewrite take_digits_app by (apply show_fuel_digits, Z.div_pos; lia).
    rewrite IH by (split; [apply Z.div_pos|apply Z.div_lt_upper_bound]; lia).
    pose proof (Z.mod_pos_bound n 10). pose proof (Z.div_mod n 10). simpl.
    rewrite (proj2 (is_digit_spec _)) by lia. lia.
Qed.

Lemma log2_fuel n : 0 ≤ n → n < 10 ^ Z.of_nat (S (Z.to_nat (Z.log2 n))).
Proof.
  intros Hn. rewrite Nat2Z.inj_succ, Z2Nat.id by apply Z.log2_nonneg.
  destruct (Z.eq_dec n 0) as [->|]; [simpl; lia|].
  pose proof (Z.log2_spec n ltac:(lia)) as [_ ?].
  eapply Z.lt_le_trans; [done|]. apply Z.pow_le_mono_l. lia.
Qed.

Lemma show_nonneg_value n : 0 ≤ n → take_digits 0 (show_nonneg n) = n.
Proof. intros. apply show_fuel_value. eauto using log2_fuel. Qed.

Lemma show_nonneg_digits n :
  0 ≤ n → Forall (λ c, is_digit c = true) (show_nonneg n).
Proof. apply show_fuel_digits. Qed.

Lemma show_nonneg_cons n : 0 ≤ n →
  ∃ c r, show_nonneg n = c :: r ∧ is_digit c = true.
Proof.
  intros Hn. pose proof (show_nonneg_digits n Hn) as Hd.
  unfold show_nonneg in *. cbn [show_fuel] in *.
  destruct (n <? 10); [by apply Forall_cons in Hd as [? _]; eauto|].
  destruct (show_fuel _ _) as [|c r]; simpl in *; apply Forall_cons in Hd as [? _]; eauto.
Qed.

(** [parseInt] reads back every integer a template literal prints. *)
Lemma parseInt10_show n : parseInt10 (show n) = Some n.
Proof.
  unfold show. destruct (n <? 0) eqn:E; boolify.
  - destruct (show_nonneg_cons (- n)) as (c & r & Hs & Hc); [lia|].
    pose proof (show_nonneg_value (- n) ltac:(lia)) as Hv. rewrite Hs in *.
    unfold parseInt10. change (trim_start (45 :: c :: r)) with (45 :: c :: r).
    simpl is_digit. cbn [orb Z.eqb Pos.eqb]. rewrite Hc, Hv. f_equal. lia.
  - destruct (show_nonneg_cons n) as (c & r & Hs & Hc); [done|].
    pose proof (show_nonneg_value n ltac:(lia)) as Hv. rewrite Hs in *.
    unfold parseInt10. cbn [trim_start]. rewrite is_space_digit by done.
    by rewrite Hc, Hv.
Qed.

Lemma go_ParseInt_show n :
  - 2 ^ 63 ≤ n < 2 ^ 63 → go_ParseInt (show n) = Some n.
Proof.
  intros Hr.
  assert (∀ m, 0 ≤ m → forallb is_digit (show_nonneg m) = true) as Hall.
  { intros m Hm. apply forallb_forall. intros x Hx.
    pose proof (show_nonneg_digits m Hm) as Hd. rewrite Forall_forall in Hd.
    by apply Hd, list_elem_of_In. }
  unfold show. destruct (n <? 0) eqn:E; boolify.
  - destruct (show_nonneg_cons (- n)) as (c & r & Hs & Hc); [lia|].
    pose proof (show_nonneg_value (- n) ltac:(lia)) as Hv.
    specialize (Hall (- n) ltac:(lia)). rewrite Hs in *.
    unfold go_ParseInt. cbn [Z.eqb Pos.eqb]. rewrite Hall, Hv.
    rewrite bool_decide_eq_false_2 by done. cbn [andb negb].
    rewrite (proj2 (Z.leb_le _ _)), (proj2 (Z.ltb_lt _ _)) by lia.
    cbn [andb]. f_equal. lia.
  - destruct (show_nonneg_cons n) as (c & r & Hs & Hc); [done|].
    pose proof (show_nonneg_value n ltac:(lia)) as Hv.
    specialize (Hall n ltac:(lia)). rewrite Hs in *.
    apply is_digit_spec in Hc. unfold go_ParseInt.
    rewrite (proj2 (Z.eqb_neq c 45)), (proj2 (Z.eqb_neq c 43)) by lia.
    rewrite Hall, Hv. rewrite bool_decide_eq_false_2 by done. cbn [andb negb].
    rewrite (proj2 (Z.leb_le _ _)), (proj2 (Z.ltb_lt _ _)) by lia.
    cbn [andb]. f_equal. lia.
Qed.

Lemma show_inj n m : show n = show m → n = m.
Proof. intros H. apply (f_equal parseInt10) in H. rewrite !parseInt10_show in H. by simplify_eq. Qed.

(** ** Lists *)
Lemma head_elem {A} (l : list A) x : head l = Some x → x ∈ l.
Proof. destruct l; intros; simplify_eq/=. set_solver. Qed.

Lemma head_filter_None {A} (P : A → Prop) `{∀ x, Decision (P x)} (l : list A) x :
  head (filter P l) = None → x ∈ l → ¬ P x.
Proof.
  intros Hh Hx HP. assert (x ∈ filter P l) as Hin by (by apply list_elem_of_filter).
  destruct (filter P l); [set_solver | done].
Qed.

Lemma NoDup_fmap_filter {A B} (f : A → B) (P : A → Prop) `{∀ x, Decision (P x)} (l : list A) :
  NoDup (f <$> l) → NoDup (f <$> filter P l).
Proof.
  induction l as [|x l IH]; [done|]. cbn [fmap list_fmap]. intros [Hx Hl]%NoDup_cons.
  rewrite filter_cons. case_decide; [|by apply IH]. cbn [fmap list_fmap]. apply NoDup_cons.
  split; [|by apply IH]. intros (y & Hy & [_ Hin]%list_elem_of_filter)%list_elem_of_fmap.
  apply Hx. rewrite Hy. by apply list_elem_of_fmap_2.
Qed.

Lemma Forall_filter_keep {A} (Q P : A → Prop) `{∀ x, Decision (P x)} (l : list A) :
  Forall Q l → Forall Q (filter P l).
Proof.
  rewrite !Forall_forall. intros HQ x [_ Hx]%list_elem_of_filter. auto.
Qed.

Lemma NoDup_fmap_inj {A B} (f : A → B) (l : list A) x y :
  NoDup (f <$> l) → x ∈ l → y ∈ l → f x = f y → x = y.
Proof.
  induction l as [|z l IH]; [set_solver|]. cbn. rewrite NoDup_cons.
  intros [Hz Hl] [->|Hx]%elem_of_cons [->|Hy]%elem_of_cons Hf; auto.
  - destruct Hz. rewrite Hf. by apply list_elem_of_fmap_2.
  - destruct Hz. rewrite <-Hf. by apply list_elem_of_fmap_2.
Qed.

Lemma StronglySorted_snoc (l : list Z) (x : Z) :
  StronglySorted Z.lt l → Forall (λ y, y < x) l → StronglySorted Z.lt (l ++ [x]).
Proof.
  induction 1 as [|y l Hl IH Hy]; intros Hf; [repeat constructor|].
  apply Forall_cons in Hf as [? ?]. cbn. constructor; [by apply IH|].
  apply Forall_app. split; [done|]. by constructor.
Qed.

Lemma StronglySorted_take {A} (R : relation A) n (l : list A) :
  StronglySorted R l → StronglySorted R (take n l).
Proof.
  intros Hl. revert n. induction Hl as [|x l Hl IH Hx]; intros [|n]; cbn; try constructor; auto.
  by apply Forall_take.
Qed.

Lemma StronglySorted_filter {A} (R : relation A) (P : A → Prop) `{∀ x, Decision (P x)} l :
  StronglySorted R l → StronglySorted R (filter P l).
Proof.
  induction 1 as [|x l Hl IH Hx]; [constructor|]. rewrite filter_cons.
  case_decide; [|done]. constructor; [done|]. by apply Forall_filter_keep.
Qed.

Lemma NoDup_take {A} n (l : list A) : NoDup l → NoDup (take n l).
Proof. intros Hl. eapply sublist_NoDup; [exact Hl|]. apply sublist_take. Qed.

Lemma filter_none {A} (P : A → Prop) `{∀ x, Decision (P x)} (l : list A) :
  Forall (λ x, ¬ P x) l → filter P l = [].
Proof. induction 1; [done|]. by rewrite filter_cons, decide_False. Qed.

Lemma filter_all {A} (P : A → Prop) `{∀ x, Decision (P x)} (l : list A) :
  Forall P l → filter P l = l.
Proof. induction 1; [done|]. rewrite filter_cons, decide_True by done. by f_equal. Qed.

Lemma StronglySorted_app_l {A} (R : relation A) (l1 l2 : list A) :
  StronglySorted R (l1 ++ l2) → StronglySorted R l1.
Proof.
  induction l1 as [|x l1 IH]; [constructor|]. cbn. intros [Hs Hx]%StronglySorted_inv.
  constructor; [by apply IH|]. by apply Forall_app in Hx as [? _].
Qed.

Lemma sorted_NoDup (l : list Z) : StronglySorted Z.lt l → NoDup l.
Proof.
  induction 1 as [|v l Hl IH Hv]; [constructor|]. apply NoDup_cons. split; [|done].
  intros Hin. pose proof (proj1 (Forall_forall _ _) Hv v Hin). lia.
Qed.

(** [s.split(c)] for a one-unit separator *)
Fixpoint split_on (c : Z) (s : list Z) : list (list Z) :=
  match s with
  | [] => [[]]
  | x :: r => if x =? c then [] :: split_on c r
              else match split_on c r with
                   | w :: ws => (x :: w) :: ws
                   | [] => [[x]]
                   end
  end.

Lemma split_on_none c (s : jstr) : c ∉ s → split_on c s = [s].
Proof.
  induction s as [|x s IH]; intros Hs; [done|]. apply not_elem_of_cons in Hs as [Hx Hs]. simpl.
  by rewrite (proj2 (Z.eqb_neq x c)), IH by done.
Qed.
Lemma split_on_app c (s t : jstr) :
  c ∉ s → split_on c (s ++ c :: t) = s :: split_on c t.
Proof.
  induction s as [|x s IH]; intros Hs; simpl.
  - by rewrite Z.eqb_refl.
  - rewrite (proj2 (Z.eqb_neq x c)) by set_solver. rewrite IH by set_solver. done.
Qed.

(** [l.filter(Boolean)] on strings *)
Definition non_empty (l : list (list Z)) : list (list Z) := filter (λ s, s ≠ []) l.

(** [Math.max(...l)] and [Math.min(...l)] on a non-empty list *)
Definition max_list (x : Z) (l : list Z) : Z := foldl Z.max x l.
Definition min_list (x : Z) (l : list Z) : Z := foldl Z.min x l.

Lemma max_list_spec x l : x ≤ max_list x l ∧ Forall (λ y, y ≤ max_list x l) l ∧ max_list x l ∈ x :: l.
Proof.
  unfold max_list. revert x. induction l as [|y l IH]; intros x; simpl.
  - split_and!; [lia|constructor|set_solver].
  - destruct (IH (x `max` y)) as (H1 & H2 & H3). split_and!; [lia|constructor; [lia|done]|].
    destruct (Z.max_spec x y) as [[_ Hm]|[_ Hm]]; rewrite Hm in *; set_solver.
Qed.

Lemma min_list_spec x l : min_list x l ≤ x ∧ Forall (λ y, min_list x l ≤ y) l ∧ min_list x l ∈ x :: l.
Proof.
  unfold min_list. revert x. induction l as [|y l IH]; intros x; simpl.
  - split_and!; [lia|constructor|set_solver].
  - destruct (IH (x `min` y)) as (H1 & H2 & H3). split_and!; [lia|constructor; [lia|done]|].
    destruct (Z.min_spec x y) as [[_ Hm]|[_ Hm]]; rewrite Hm in *; set_solver.
Qed.

Lemma filter_ext_elem {A} (P Q : A → Prop) `{∀ x, Decision (P x), ∀ x, Decision (Q x)} (l : list A) :
  (∀ x, x ∈ l → P x ↔ Q x) → filter P l = filter Q l.
Proof.
  intros HPQ. induction l as [|x l IH]; [done|]. rewrite !filter_cons.
  rewrite IH by set_solver. specialize (HPQ x ltac:(set_solver)).
  destruct (decide (P x)); [by rewrite decide_True by tauto | by rewrite decide_False by tauto].
Qed.
