(* ===== verification/JsMap.v ===== *)
(** * JavaScript [Map] and [Set]

    A [Map] iterates in insertion order: [set] on a present key keeps its
    place, [set] on a new key appends, [delete] removes.  The dashboard iterates
    such maps, so the order is part of the model.  [to_gmap] forgets it: it is
    the abstraction the convergence specification is stated with, and every
    operation commutes with it. *)
From S2P Require Import Prelude.

Section JsMap.
Context {K V : Type} `{EqDecision K}.
Implicit Types m : list (K * V).

Fixpoint map_get m (k : K) : option V :=
  match m with
  | [] => None
  | (k', v) :: m' => if decide (k' = k) then Some v else map_get m' k
  end.

Definition map_has m (k : K) : bool :=
  match map_get m k with Some _ => true | None => false end.

Fixpoint map_set m (k : K) (v : V) : list (K * V) :=
  match m with
  | [] => [(k, v)]
  | (k', v') :: m' => if decide (k' = k) then (k, v) :: m'
                      else (k', v') :: map_set m' k v
  end.

Definition map_delete m (k : K) : list (K * V) := filter (λ p, p.1 ≠ k) m.

(** [new Map(entries)] *)
Definition map_of_entries (l : list (K * V)) : list (K * V) :=
  foldl (λ m p, map_set m p.1 p.2) [] l.

Definition map_keys m : list K := m.*1.
Definition map_values m : list V := m.*2.

(** Same bindings, whatever the order of insertion. *)
Definition map_equiv m1 m2 : Prop := ∀ k, map_get m1 k = map_get m2 k.

(** Keys are unique in every map the operations build. *)
Definition map_wf m : Prop := NoDup (map_keys m).
End JsMap.

(** [Set.prototype.add] and [delete], in insertion order. *)
Definition set_add `{EqDecision A} (s : list A) (x : A) : list A :=
  if decide (x ∈ s) then s else s ++ [x].
Definition set_delete `{EqDecision A} (s : list A) (x : A) : list A :=
  filter (λ y, y ≠ x) s.

Section laws.
Context {K V : Type} `{EqDecision K}.
Implicit Types m : list (K * V).

#[export] Instance map_equiv_equivalence : Equivalence (@map_equiv K V _).
Proof.
  split; unfold map_equiv; [done | intros ???? | intros ????? k]; [done|].
  etrans; eauto.
Qed.

Lemma map_get_set m k v k' :
  map_get (map_set m k v) k' = if decide (k = k') then Some v else map_get m k'.
Proof.
  induction m as [|[k0 v0] m IH]; simpl; [done|].
  repeat (case_decide; simpl); simplify_eq; try done; by rewrite IH; case_decide.
Qed.

Lemma map_get_set_eq m k v : map_get (map_set m k v) k = Some v.
Proof. rewrite map_get_set. by rewrite decide_True. Qed.

Lemma map_get_set_ne m k v k' : k ≠ k' → map_get (map_set m k v) k' = map_get m k'.
Proof. intros. rewrite map_get_set. by rewrite decide_False. Qed.

Lemma map_get_delete m k k' :
  map_get (map_delete m k) k' = if decide (k = k') then None else map_get m k'.
Proof.
  unfold map_delete. induction m as [|[k0 v0] m IH]; simpl; [by case_decide|].
  rewrite filter_cons; simpl.
  repeat (case_decide; simpl); simplify_eq; try done; by rewrite IH; case_decide.
Qed.

#[export] Instance map_get_proper : Proper (@map_equiv K V _ ==> eq ==> eq) map_get.
Proof. intros m1 m2 Hm k ? <-. apply Hm. Qed.

#[export] Instance map_set_proper :
  Proper (@map_equiv K V _ ==> eq ==> eq ==> map_equiv) map_set.
Proof. intros m1 m2 Hm k ? <- v ? <- k'. rewrite !map_get_set. by case_decide. Qed.

#[export] Instance map_delete_proper :
  Proper (@map_equiv K V _ ==> eq ==> map_equiv) map_delete.
Proof. intros m1 m2 Hm k ? <- k'. rewrite !map_get_delete. by case_decide. Qed.

(** Insertion order: a known key keeps its place, a new one goes last. *)
Lemma map_keys_set m k v :
  map_keys (map_set m k v) = if decide (k ∈ map_keys m) then map_keys m
                             else map_keys m ++ [k].
Proof.
  unfold map_keys. induction m as [|[k0 v0] m IH]; [done|].
  cbn [map_set fmap list_fmap fst].
  destruct (decide (k0 = k)) as [->|Hne]; cbn [fmap list_fmap fst].
  - rewrite decide_True; [done | set_solver].
  - rewrite IH. repeat case_decide; set_solver.
Qed.

Lemma map_wf_nil : map_wf ([] : list (K * V)).
Proof. constructor. Qed.

Lemma map_wf_set m k v : map_wf m → map_wf (map_set m k v).
Proof.
  unfold map_wf. rewrite map_keys_set. case_decide; [done|].
  intros ?. apply NoDup_app. split_and!; [done | set_solver | apply NoDup_singleton].
Qed.

Lemma map_wf_delete m k : map_wf m → map_wf (map_delete m k).
Proof.
  unfold map_wf, map_keys, map_delete.
  induction m as [|[k0 v0] m IH]; simpl; [done|]. intros [Hk Hm]%NoDup_cons.
  rewrite filter_cons; simpl. case_decide; simpl; [|by apply IH].
  apply NoDup_cons; split; [|by apply IH].
  rewrite list_elem_of_fmap. intros ([k1 v1] & -> & [_ Hin]%list_elem_of_filter).
  apply Hk, list_elem_of_fmap. by exists (k1, v1).
Qed.

Lemma map_get_elem m k v : map_get m k = Some v → (k, v) ∈ m.
Proof.
  induction m as [|[k0 v0] m IH]; simpl; [done|].
  case_decide; intros; simplify_eq; set_solver.
Qed.

Lemma map_get_None m k : map_get m k = None ↔ k ∉ map_keys m.
Proof.
  unfold map_keys. induction m as [|[k0 v0] m IH]; simpl; [set_solver|].
  case_decide; set_solver.
Qed.

Lemma map_get_wf m k v : map_wf m → (k, v) ∈ m → map_get m k = Some v.
Proof.
  unfold map_wf, map_keys. induction m as [|[k0 v0] m IH]; simpl; [set_solver|].
  intros [Hk Hm]%NoDup_cons [[= -> ->]|Hin]%elem_of_cons; [by rewrite decide_True|].
  rewrite decide_False; [auto|]. intros ->. apply Hk, list_elem_of_fmap. by exists (k, v).
Qed.
End laws.

(** ** Abstraction to finite maps *)
Section abstraction.
Context {K V : Type} `{Countable K}.
Implicit Types m : list (K * V).

Definition to_gmap m : gmap K V := list_to_map m.

Lemma lookup_to_gmap m k : to_gmap m !! k = map_get m k.
Proof.
  unfold to_gmap. induction m as [|[k0 v0] m IH]; simpl; [apply lookup_empty|].
  rewrite lookup_insert. by case_decide.
Qed.

Lemma to_gmap_set m k v : to_gmap (map_set m k v) = <[k:=v]> (to_gmap m).
Proof.
  apply map_eq; intros i. rewrite lookup_to_gmap, map_get_set, lookup_insert.
  case_decide; [done|]. by rewrite lookup_to_gmap.
Qed.

Lemma to_gmap_delete m k : to_gmap (map_delete m k) = delete k (to_gmap m).
Proof.
  apply map_eq; intros i. rewrite lookup_to_gmap, map_get_delete, lookup_delete.
  case_decide; [done|]. by rewrite lookup_to_gmap.
Qed.

Lemma to_gmap_equiv m1 m2 : to_gmap m1 = to_gmap m2 ↔ map_equiv m1 m2.
Proof.
  split.
  - intros Heq k. by rewrite <-!lookup_to_gmap, Heq.
  - intros Heq. apply map_eq; intros k. by rewrite !lookup_to_gmap.
Qed.
End abstraction.

#[export] Hint Resolve map_wf_nil map_wf_set map_wf_delete : fp.
#[export] Hint Rewrite @map_get_set_eq @to_gmap_set @to_gmap_delete @lookup_to_gmap : fp.

(** ** Listener sets *)
Lemma set_add_elem `{EqDecision A} (s : list A) x y : y ∈ set_add s x ↔ y = x ∨ y ∈ s.
Proof. unfold set_add. case_decide; set_solver. Qed.

Lemma set_add_NoDup `{EqDecision A} (s : list A) x : NoDup s → NoDup (set_add s x).
Proof.
  unfold set_add. case_decide; [done|]. intros.
  apply NoDup_app. split_and!; [done|set_solver|apply NoDup_singleton].
Qed.

Lemma set_delete_elem `{EqDecision A} (s : list A) x y : y ∈ set_delete s x ↔ y ≠ x ∧ y ∈ s.
Proof. unfold set_delete. by rewrite list_elem_of_filter. Qed.
