(* ===== verification/Types.v ===== *)
(** * Wire data ([types/flag.ts])

    Records for the interfaces of [frontend/types/flag.ts].  Numbers are the
    integers the Go server encodes (versions are [int64], percentages [int]);
    strings are sequences of UTF-16 code units. *)
From S2P Require Import Prelude JsMap.

Record Flag := mkFlag {
  fl_id : jstr; fl_key : jstr; fl_description : jstr; fl_enabled : bool;
  fl_rollout_percentage : Z; fl_targeted_users : list jstr; fl_version : Z;
  fl_created_at : jstr; fl_updated_at : jstr }.

Record CreateFlagInput := mkCreateFlagInput {
  ci_key : jstr; ci_description : jstr; ci_enabled : bool;
  ci_rollout_percentage : Z; ci_targeted_users : list jstr }.

(** Every field of an update may be absent ([undefined]). *)
Record UpdateFlagInput := mkUpdateFlagInput {
  ui_description : option jstr; ui_enabled : option bool;
  ui_rollout_percentage : option Z; ui_targeted_users : option (list jstr) }.

Record FlagsResponse := mkFlagsResponse {
  fr_flags : list Flag; fr_config_version : Z }.

Record FlagConfig := mkFlagConfig {
  fc_id : jstr; fc_key : jstr; fc_description : jstr; fc_enabled : bool;
  fc_rollout_percentage : Z; fc_targeted_users : list jstr; fc_version : Z }.

(** An event payload is [Record<string, unknown>]: a flag for created and
    updated events, [{id, key}] for a deletion.  The SDK casts it without a
    check, so its map can hold either shape. *)
Inductive FlagObj :=
| FullFlag (f : FlagConfig)
| KeyOnly (key : jstr).

Definition obj_key (o : FlagObj) : jstr :=
  match o with FullFlag f => fc_key f | KeyOnly k => k end.

Inductive EventType := Created | Updated | Deleted.

Record FlagEvent := mkFlagEvent {
  ev_version : Z; ev_type : EventType; ev_flag_key : jstr;
  ev_payload : FlagObj; ev_created_at : jstr }.

#[export] Instance EventType_eq_dec : EqDecision EventType.
Proof. solve_decision. Defined.
#[export] Instance FlagConfig_eq_dec : EqDecision FlagConfig.
Proof. solve_decision. Defined.
#[export] Instance FlagObj_eq_dec : EqDecision FlagObj.
Proof. solve_decision. Defined.
#[export] Instance FlagEvent_eq_dec : EqDecision FlagEvent.
Proof. solve_decision. Defined.
#[export] Instance Flag_eq_dec : EqDecision Flag.
Proof. solve_decision. Defined.
