(* ===== verification/Hash.v ===== *)
(** * Rollout hashing

    [fnv1a32] of the browser SDK, with JavaScript's 32-bit operators written
    out, and the hash of the Go server ([hash/fnv]'s 32-bit FNV-1a over the
    bytes of the string).  The two agree on the words they are fed; whether
    they are fed the same words is a question of text encoding. *)
From S2P Require Import Prelude.

(** ** 32-bit integer conversions of ECMAScript *)
Definition to_uint32 (z : Z) : Z := z mod 2 ^ 32.
Definition to_int32 (z : Z) : Z :=
  let u := z mod 2 ^ 32 in if u <? 2 ^ 31 then u else u - 2 ^ 32.

(** [a ^ b], [Math.imul(a, b)], [a >>> 0] *)
Definition js_xor (a b : Z) : Z := to_int32 (Z.lxor (to_int32 a) (to_int32 b)).
Definition js_imul (a b : Z) : Z := to_int32 (to_int32 a * to_int32 b).
Definition js_ushr0 (a : Z) : Z := to_uint32 a.

Definition fnv_offset : Z := 2166136261. (* 0x811c9dc5 *)
Definition fnv_prime : Z := 16777619. (* 0x01000193 *)

Definition fnv1a32_step (hash c : Z) : Z :=
  js_ushr0 (js_imul (js_xor hash c) fnv_prime).

Definition fnv1a32 (input : jstr) : Z := foldl fnv1a32_step fnv_offset input.

(** [fnv.New32a], [Write], [Sum32]: [uint32] arithmetic. *)
Definition go_fnv1a (bytes : list Z) : Z :=
  foldl (λ h b, (Z.lxor h b * fnv_prime) mod 2 ^ 32) fnv_offset bytes.

(** [rolloutBucket] of [lib/evaluate.ts], also inlined in the SDK's
    [isInRollout]. *)
Definition rolloutBucket (flagKey userId : jstr) : Z :=
  fnv1a32 (flagKey ++ js ":" ++ userId) mod 100.

Definition isInRollout (flagKey userId : jstr) (percentage : Z) : bool :=
  if percentage <=? 0 then false
  else if percentage >=? 100 then true
  else fnv1a32 (flagKey ++ js ":" ++ userId) mod 100 <? percentage.

(** [IsUserInRollout] of [internal/hash/rollout.go], on strings of code
    points: the server hashes their UTF-8 bytes. *)
Definition IsUserInRollout (flagKey userID : list Z) (percentage : Z) : bool :=
  if percentage <=? 0 then false
  else if percentage >=? 100 then true
  else go_fnv1a (utf8_encode (flagKey ++ js ":" ++ userID)) mod 100 <? percentage.

(** ** Words *)
Lemma to_uint32_range z : 0 ≤ to_uint32 z < 2 ^ 32.
Proof. apply Z.mod_pos_bound. lia. Qed.

Lemma to_int32_mod z : to_int32 z mod 2 ^ 32 = z mod 2 ^ 32.
Proof.
  unfold to_int32. destruct (_ <? _); [by rewrite Z.mod_mod by lia|].
  replace (z mod 2 ^ 32 - 2 ^ 32) with (z mod 2 ^ 32 + (-1) * 2 ^ 32) by lia.
  by rewrite Z.mod_add, Z.mod_mod by lia.
Qed.

Lemma to_uint32_int32 z : to_uint32 (to_int32 z) = to_uint32 z.
Proof. apply to_int32_mod. Qed.

Lemma lxor_mod_pow2 a b n : 0 ≤ n →
  Z.lxor a b mod 2 ^ n = Z.lxor (a mod 2 ^ n) (b mod 2 ^ n).
Proof.
  intros Hn. apply Z.bits_inj'; intros i Hi. rewrite Z.lxor_spec.
  destruct (Z.lt_ge_cases i n).
  - by rewrite !Z.mod_pow2_bits_low, Z.lxor_spec by lia.
  - by rewrite !Z.mod_pow2_bits_high by lia.
Qed.

Lemma js_xor_mod a b : js_xor a b mod 2 ^ 32 = Z.lxor (a mod 2 ^ 32) (b mod 2 ^ 32).
Proof. unfold js_xor. by rewrite to_int32_mod, lxor_mod_pow2, !to_int32_mod. Qed.

Lemma js_imul_mod a b : js_imul a b mod 2 ^ 32 = (a mod 2 ^ 32 * (b mod 2 ^ 32)) mod 2 ^ 32.
Proof.
  unfold js_imul. rewrite to_int32_mod, Z.mul_mod by lia.
  by rewrite !to_int32_mod.
Qed.

(** One step of the SDK's loop is one step of Go's, on unsigned words. *)
Lemma fnv1a32_step_word h c :
  0 ≤ h < 2 ^ 32 → 0 ≤ c < 2 ^ 16 →
  fnv1a32_step h c = (Z.lxor h c * fnv_prime) mod 2 ^ 32.
Proof.
  intros Hh Hc. unfold fnv1a32_step, js_ushr0, to_uint32.
  rewrite js_imul_mod, js_xor_mod, (Z.mod_small h), (Z.mod_small c) by lia.
  rewrite (Z.mod_small fnv_prime) by (unfold fnv_prime; lia). done.
Qed.

Lemma fnv1a32_range s : 0 ≤ fnv1a32 s < 2 ^ 32.
Proof.
  unfold fnv1a32. induction s as [|c s IH] using rev_ind.
  - unfold fnv_offset; simpl; lia.
  - rewrite foldl_snoc. apply to_uint32_range.
Qed.

(** Fed the same words, the two hashes are the same function. *)
Lemma fnv1a32_go_words ws :
  Forall (λ w, 0 ≤ w < 2 ^ 16) ws → fnv1a32 ws = go_fnv1a ws.
Proof.
  intros Hw. induction ws as [|w ws IH] using rev_ind; [done|].
  apply Forall_app in Hw as [Hws [Hw _]%Forall_cons]. specialize (IH Hws).
  unfold fnv1a32, go_fnv1a in *. rewrite !foldl_snoc, <-IH.
  apply fnv1a32_step_word; [apply fnv1a32_range | done].
Qed.

Lemma ascii_encodings cps :
  Forall (λ c, 0 ≤ c < 128) cps → utf8_encode cps = cps ∧ utf16_encode cps = cps.
Proof.
  induction 1 as [|c cps Hc _ [IH8 IH16]]; [done|].
  unfold utf8_encode, utf16_encode in *. cbn [mbind list_bind].
  rewrite IH8, IH16. unfold utf8_encode1, utf16_encode1.
  by rewrite (proj2 (Z.ltb_lt c 128)), (proj2 (Z.ltb_lt c 65536)) by lia.
Qed.

Lemma rolloutBucket_range k u : 0 ≤ rolloutBucket k u < 100.
Proof. apply Z.mod_pos_bound. lia. Qed.

(** The rollout test as one inequality: it is the bucket that decides. *)
Lemma isInRollout_bucket k u p :
  isInRollout k u p = (rolloutBucket k u <? p).
Proof.
  pose proof (rolloutBucket_range k u). unfold isInRollout.
  destruct (p <=? 0) eqn:E1; boolify; [symmetry; apply Z.ltb_ge; lia|].
  destruct (p >=? 100) eqn:E2; rewrite Z.geb_leb in E2; boolify;
    [symmetry; apply Z.ltb_lt; lia | done].
Qed.
