(* ===== verification/Evaluate.v ===== *)
(** * Flag evaluation ([lib/evaluate.ts] and the SDK's [isEnabled])

    [isEnabled] is the decision the SDK ships, [evaluate] the traced version the
    dashboard explains it with. *)
From S2P Require Import Prelude JsMap Types Hash.

Inductive EvalReason :=
| NoFlag | Disabled | Targeted | RolloutZero | RolloutFull | InRollout | OutOfRollout.

Record EvalTrace := mkEvalTrace {
  et_on : bool; et_reason : EvalReason; et_enabled : bool; et_targeted : bool;
  et_percentage : Z; et_bucket : option Z; et_hashInput : jstr }.

Record EvaluableFlag := mkEvaluableFlag {
  ef_key : jstr; ef_enabled : bool; ef_rollout_percentage : Z;
  ef_targeted_users : list jstr }.

#[export] Instance EvalReason_eq_dec : EqDecision EvalReason.
Proof. solve_decision. Defined.

(** [Array.prototype.includes] on strings *)
Definition includes (l : list jstr) (u : jstr) : bool := bool_decide (u ∈ l).

Definition evaluate (flag : option EvaluableFlag) (userId : jstr) : EvalTrace :=
  let hashInput := match flag with
                   | Some f => ef_key f ++ js ":" ++ userId
                   | None => userId
                   end in
  match flag with
  | None => mkEvalTrace false NoFlag false false 0 None hashInput
  | Some flag =>
      let targeted := includes (ef_targeted_users flag) userId in
      let percentage := ef_rollout_percentage flag in
      if negb (ef_enabled flag) then
        mkEvalTrace false Disabled false targeted percentage None hashInput
      else if targeted then
        mkEvalTrace true Targeted true true percentage None hashInput
      else if percentage <=? 0 then
        mkEvalTrace false RolloutZero true false percentage None hashInput
      else if percentage >=? 100 then
        mkEvalTrace true RolloutFull true false percentage None hashInput
      else
        let bucket := rolloutBucket (ef_key flag) userId in
        let on := bucket <? percentage in
        mkEvalTrace on (if on then InRollout else OutOfRollout) true false
          percentage (Some bucket) hashInput
  end.

(** [FeatureFlagClient.isEnabled] on the client's flag map.  An object without
    an [enabled] field reads as [undefined], which is falsy. *)
Definition isEnabled (flags : list (jstr * FlagObj)) (flagKey userId : jstr) : bool :=
  match map_get flags flagKey with
  | None => false
  | Some (KeyOnly _) => false
  | Some (FullFlag flag) =>
      if negb (fc_enabled flag) then false
      else if includes (fc_targeted_users flag) userId then true
      else isInRollout flagKey userId (fc_rollout_percentage flag)
  end.

(** A [FlagConfig] (or [Flag]) is passed where an [EvaluableFlag] is expected. *)
Definition evaluable (f : FlagConfig) : EvaluableFlag :=
  mkEvaluableFlag (fc_key f) (fc_enabled f) (fc_rollout_percentage f) (fc_targeted_users f).

(** [{ ...flag, rollout_percentage: pct }] *)
Definition with_pct (f : EvaluableFlag) (pct : Z) : EvaluableFlag :=
  mkEvaluableFlag (ef_key f) (ef_enabled f) pct (ef_targeted_users f).

(** ** Decision table

    What every branch of [evaluate] answers, stated without its control flow. *)
Definition decision (f : EvaluableFlag) (u : jstr) : bool :=
  ef_enabled f && (includes (ef_targeted_users f) u
                   || (rolloutBucket (ef_key f) u <? ef_rollout_percentage f)).

Lemma evaluate_decision f u : et_on (evaluate (Some f) u) = decision f u.
Proof.
  unfold evaluate, decision. pose proof (rolloutBucket_range (ef_key f) u) as Hb.
  destruct (ef_enabled f), (includes _ _); simpl; try done.
  destruct (_ <=? 0) eqn:E1; boolify; simpl; [symmetry; apply Z.ltb_ge; lia|].
  destruct (_ >=? 100) eqn:E2; rewrite Z.geb_leb in E2; boolify; simpl;
    [symmetry; apply Z.ltb_lt; lia | done].
Qed.

Lemma isEnabled_decision flags k u f :
  map_get flags k = Some (FullFlag f) → fc_key f = k →
  isEnabled flags k u = decision (evaluable f) u.
Proof.
  intros Hg <-. unfold isEnabled, decision. rewrite Hg, isInRollout_bucket. simpl.
  by destruct (fc_enabled f), (includes _ _).
Qed.

#[export] Instance isEnabled_proper : Proper (map_equiv ==> eq ==> eq ==> eq) isEnabled.
Proof. intros m1 m2 Hm k ? <- u ? <-. unfold isEnabled. by rewrite (Hm k). Qed.

Lemma decision_mono f u p p' :
  p ≤ p' → decision (with_pct f p) u = true → decision (with_pct f p') u = true.
Proof.
  unfold decision, with_pct; simpl. intros Hp. rewrite !andb_true_iff, !orb_true_iff.
  intros [? [?|?%Z.ltb_lt]]; split; auto. right. apply Z.ltb_lt. lia.
Qed.

(** ** Properties *)

(** C21: the explainer and the SDK give the same verdict.  For every flag the
    client holds under its own key, [evaluate] answers what [isEnabled]
    answers, and for a flag it does not hold both answer off. *)
Theorem evaluate_isEnabled_parity (flags : list (jstr * FlagObj)) (k u : jstr) (o : option FlagConfig) :
  map_get flags k = option_map FullFlag o →
  (∀ f, o = Some f → fc_key f = k) →
  et_on (evaluate (option_map evaluable o) u) = isEnabled flags k u.
Proof.
  intros Hg Hk. destruct o as [f|]; cbn [option_map] in *.
  - rewrite evaluate_decision. symmetry. apply isEnabled_decision; auto.
  - unfold isEnabled. by rewrite Hg.
Qed.

(** Raising a rollout percentage only adds users: whoever is on at [p]
    is still on at every larger percentage. *)
Theorem rollout_ramp_monotone (f : EvaluableFlag) (u : jstr) (p p' : Z) :
  p ≤ p' →
  et_on (evaluate (Some (with_pct f p)) u) = true →
  et_on (evaluate (Some (with_pct f p')) u) = true.
Proof. rewrite !evaluate_decision. apply decision_mono. Qed.

(** The trace is honest.  The verdict agrees with the reason, a bucket is
    disclosed exactly when the dice roll decided, it is the user's real bucket
    in [0, 99], and it is on the side of the percentage the verdict says. *)
Theorem evaluate_trace_honest (f : EvaluableFlag) (u : jstr) :
  let t := evaluate (Some f) u in
  et_on t = bool_decide (et_reason t ∈ [Targeted; RolloutFull; InRollout])
  ∧ (is_Some (et_bucket t) ↔ et_reason t ∈ [InRollout; OutOfRollout])
  ∧ (∀ b, et_bucket t = Some b →
       b = rolloutBucket (ef_key f) u ∧ 0 ≤ b < 100
       ∧ et_on t = (b <? ef_rollout_percentage f)
       ∧ et_hashInput t = ef_key f ++ js ":" ++ u)
  ∧ et_enabled t = ef_enabled f
  ∧ et_targeted t = includes (ef_targeted_users f) u.
Proof.
  pose proof (rolloutBucket_range (ef_key f) u) as Hb.
  unfold evaluate. cbn zeta.
  destruct (ef_enabled f), (includes _ _); cbn [negb];
    [| destruct (_ <=? 0); [| destruct (_ >=? 100); [| destruct (_ <? _) eqn:E]] | |].
  all: split_and!; try done; simpl;
    first [ solve [split; [by intros [] | set_solver]]
          | solve [split; [set_solver | by eexists]]
          | intros b [= <-]; auto ].
Qed.

Lemma isInRollout_ascii (k u : list Z) (p : Z) :
  Forall (λ c, 0 ≤ c < 128) k → Forall (λ c, 0 ≤ c < 128) u → isInRollout k u p = IsUserInRollout k u p.
Proof.
  intros Hk Hu. assert (Forall (λ c, 0 ≤ c < 128) (k ++ js ":" ++ u)) as Ha.
  { repeat apply Forall_app_2; auto. vm_compute. repeat constructor; done. }
  unfold isInRollout, IsUserInRollout.
  destruct (ascii_encodings _ Ha) as [-> _]. rewrite fnv1a32_go_words; [done|].
  eapply Forall_impl; [done|]. intros c Hc. simpl in Hc. lia.
Qed.

(** C22: on ASCII keys and user ids the browser SDK and the Go server put every
    user in the same rollout, at every percentage. *)
Theorem rollout_parity_ascii (k u : list Z) (p : Z) :
  Forall (λ c, 0 ≤ c < 128) k → Forall (λ c, 0 ≤ c < 128) u →
  isInRollout (utf16_encode k) (utf16_encode u) p = IsUserInRollout k u p.
Proof.
  intros Hk Hu. destruct (ascii_encodings k Hk) as [_ ->], (ascii_encodings u Hu) as [_ ->].
  by apply isInRollout_ascii.
Qed.

(** Outside ASCII the promise of identical evaluation fails.  For the user
    id [José] on flag [checkout] the SDK hashes one UTF-16 unit for the last
    letter and the server two UTF-8 bytes: the buckets are 42 and 55, so at 50%
    the SDK turns the feature on and the server's own rollout test says off. *)
Theorem rollout_parity_fails_non_ascii :
  let k := js "checkout" in let u := utf8_decode (bytes_of "José") in
  rolloutBucket (utf16_encode k) (utf16_encode u) = 42
  ∧ go_fnv1a (utf8_encode (k ++ js ":" ++ u)) mod 100 = 55
  ∧ isInRollout (utf16_encode k) (utf16_encode u) 50 = true
  ∧ IsUserInRollout k u 50 = false.
Proof. vm_compute. repeat split. Qed.

(** Golden values: the golden vector both test suites pin. *)
Theorem golden_buckets :
  map (λ p, rolloutBucket p.1 p.2)
    [(js "checkout", js "user-1"); (js "checkout", js "user-2");
     (js "dark-mode", js "alice"); (js "beta", js "u_1024");
     (js "ai-assistant", js "user-7")]
  = [60; 17; 29; 72; 19].
Proof. vm_compute. reflexivity. Qed.

(** ** Witnesses *)
Definition sample_flag : FlagConfig :=
  mkFlagConfig (js "1") (js "checkout") [] true 50 [js "alice"] 7.

Lemma evaluate_isEnabled_parity_witness :
  et_on (evaluate (Some (evaluable sample_flag)) (js "user-2")) = true
  ∧ et_on (evaluate (Some (evaluable sample_flag)) (js "user-2"))
    = isEnabled [(js "checkout", FullFlag sample_flag)] (js "checkout") (js "user-2").
Proof.
  split; [vm_compute; reflexivity|].
  apply (evaluate_isEnabled_parity [(js "checkout", FullFlag sample_flag)]
           (js "checkout") (js "user-2") (Some sample_flag)).
  - vm_compute. reflexivity.
  - intros f [= <-]. vm_compute. reflexivity.
Defined.

Lemma rollout_ramp_monotone_witness :
  et_on (evaluate (Some (with_pct (evaluable sample_flag) 80)) (js "user-1")) = true.
Proof.
  apply (rollout_ramp_monotone (evaluable sample_flag) (js "user-1") 61 80).
  - lia.
  - vm_compute. reflexivity.
Defined.

Lemma rollout_parity_ascii_witness :
  isInRollout (utf16_encode (js "beta")) (utf16_encode (js "u_1024")) 73
  = IsUserInRollout (js "beta") (js "u_1024") 73.
Proof.
  apply (rollout_parity_ascii (js "beta") (js "u_1024") 73);
    vm_compute; repeat constructor; discriminate.
Defined.
