(* ===== verification/Client.v ===== *)
(** * The browser SDK ([sdk/FeatureFlagClient.ts])

    The class is modelled with the part of the runtime it drives: the
    [EventSource] objects it has created, the timers it has set, and the
    suspended [async] calls.  A method is a function on [world]; an [await]
    cuts a method into the part before it, which leaves a [task], and the part
    after it, which [resume] runs when the answer arrives.  Between two cuts
    JavaScript runs without interruption, so the step relation interleaves
    exactly at the awaits, the stream callbacks, the timer and the public
    calls. *)
From S2P Require Import Prelude JsMap Types Hash Evaluate.

Inductive ConnectionStatus := Connecting | Live | Reconnecting | Reconciling | Offline.

#[export] Instance ConnectionStatus_eq_dec : EqDecision ConnectionStatus.
Proof. solve_decision. Defined.

Record SDKConfig := mkSDKConfig {
  baseUrl : jstr; sdkKey : jstr; refreshInterval : option Z }.

(** [EventSource.readyState] *)
Inductive ReadyState := CONNECTING | OPEN | CLOSED.
#[export] Instance ReadyState_eq_dec : EqDecision ReadyState.
Proof. solve_decision. Defined.

(** A suspended [async] call and the locals it holds: [init] waits for the
    bootstrap response, its body, then the continuation after [bootstrap()];
    [reconcile] waits for a response or a body, inside iteration [guard] of its
    loop, with the version [since] it asked from. *)
Inductive task :=
| BootFetch
| BootJson
| InitRest
| ReconFetch (prevStatus : ConnectionStatus) (changed : bool) (guard since : Z)
| ReconJson (prevStatus : ConnectionStatus) (changed : bool) (guard since : Z).

Definition is_recon (t : task) : bool :=
  match t with ReconFetch _ _ _ _ | ReconJson _ _ _ _ => true | _ => false end.

(** What an awaited promise settles to.  [BootBody None] is a body whose
    [flags] cannot be iterated. *)
Inductive answer :=
| Rejected
| Response (httpStatus : Z)
| BootBody (fl : option (list FlagObj)) (config_version : option Z)
| EventsBody (events : list FlagEvent)
| Settled.

(** Calls the client makes to its environment, in order. *)
Inductive effect :=
| Fetch (url : jstr) (key : jstr)
| OpenStream (es : nat) (url : jstr)
| CloseStream (es : nat)
| SetInterval (t : nat) (ms : Z)
| ClearInterval (t : nat)
| StatusCallback (l : nat) (s : ConnectionStatus)
| UpdateCallback (l : nat) (version : Z)
| InitResolved
| InitRejected.

Record world := mkWorld {
  (* private fields of the FeatureFlagClient object *)
  flags : list (jstr * FlagObj);
  eventSource : option nat;
  listeners : list nat;
  statusListeners : list nat;
  refreshTimer : option nat;
  configVersion : Z;
  status : ConnectionStatus;
  reconciling : bool;
  manuallyClosed : bool;
  (* the runtime it lives in *)
  sources : gmap nat ReadyState;
  nextId : nat;
  timers : list nat;
  tasks : list task;
  trace : list effect }.

Definition set_flags (x : list (jstr * FlagObj)) (w : world) : world :=
  mkWorld x (eventSource w) (listeners w) (statusListeners w) (refreshTimer w)
(configVersion w) (status w) (reconciling w) (manuallyClosed w) (sources w) (nextId w)
(timers w) (tasks w) (trace w).
Definition set_eventSource (x : option nat) (w : world) : world :=
  mkWorld (flags w) x (listeners w) (statusListeners w) (refreshTimer w) (configVersion
w) (status w) (reconciling w) (manuallyClosed w) (sources w) (nextId w) (timers w)
(tasks w) (trace w).
Definition set_listeners (x : list nat) (w : world) : world :=
  mkWorld (flags w) (eventSource w) x (statusListeners w) (refreshTimer w)
(configVersion w) (status w) (reconciling w) (manuallyClosed w) (sources w) (nextId w)
(timers w) (tasks w) (trace w).
Definition set_statusListeners (x : list nat) (w : world) : world :=
  mkWorld (flags w) (eventSource w) (listeners w) x (refreshTimer w) (configVersion w)
(status w) (reconciling w) (manuallyClosed w) (sources w) (nextId w) (timers w) (tasks
w) (trace w).
Definition set_refreshTimer (x : option nat) (w : world) : world :=
  mkWorld (flags w) (eventSource w) (listeners w) (statusListeners w) x (configVersion
w) (status w) (reconciling w) (manuallyClosed w) (sources w) (nextId w) (timers w)
(tasks w) (trace w).
Definition set_configVersion (x : Z) (w : world) : world :=
  mkWorld (flags w) (eventSource w) (listeners w) (statusListeners w) (refreshTimer w)
x (status w) (reconciling w) (manuallyClosed w) (sources w) (nextId w) (timers w)
(tasks w) (trace w).
Definition set_status (x : ConnectionStatus) (w : world) : world :=
  mkWorld (flags w) (eventSource w) (listeners w) (statusListeners w) (refreshTimer w)
(configVersion w) x (reconciling w) (manuallyClosed w) (sources w) (nextId w) (timers
w) (tasks w) (trace w).
Definition set_reconciling (x : bool) (w : world) : world :=
  mkWorld (flags w) (eventSource w) (listeners w) (statusListeners w) (refreshTimer w)
(configVersion w) (status w) x (manuallyClosed w) (sources w) (nextId w) (timers w)
(tasks w) (trace w).
Definition set_manuallyClosed (x : bool) (w : world) : world :=
  mkWorld (flags w) (eventSource w) (listeners w) (statusListeners w) (refreshTimer w)
(configVersion w) (status w) (reconciling w) x (sources w) (nextId w) (timers w) (tasks
w) (trace w).
Definition set_sources (x : gmap nat ReadyState) (w : world) : world :=
  mkWorld (flags w) (eventSource w) (listeners w) (statusListeners w) (refreshTimer w)
(configVersion w) (status w) (reconciling w) (manuallyClosed w) x (nextId w) (timers w)
(tasks w) (trace w).
Definition set_nextId (x : nat) (w : world) : world :=
  mkWorld (flags w) (eventSource w) (listeners w) (statusListeners w) (refreshTimer w)
(configVersion w) (status w) (reconciling w) (manuallyClosed w) (sources w) x (timers
w) (tasks w) (trace w).
Definition set_timers (x : list nat) (w : world) : world :=
  mkWorld (flags w) (eventSource w) (listeners w) (statusListeners w) (refreshTimer w)
(configVersion w) (status w) (reconciling w) (manuallyClosed w) (sources w) (nextId w)
x (tasks w) (trace w).
Definition set_tasks (x : list task) (w : world) : world :=
  mkWorld (flags w) (eventSource w) (listeners w) (statusListeners w) (refreshTimer w)
(configVersion w) (status w) (reconciling w) (manuallyClosed w) (sources w) (nextId w)
(timers w) x (trace w).
Definition set_trace (x : list effect) (w : world) : world :=
  mkWorld (flags w) (eventSource w) (listeners w) (statusListeners w) (refreshTimer w)
(configVersion w) (status w) (reconciling w) (manuallyClosed w) (sources w) (nextId w)
(timers w) (tasks w) x.

(** [new FeatureFlagClient(config)] *)
Definition new_client : world :=
  mkWorld [] None [] [] None 0 Offline false false ∅ 0 [] [] [].

Definition emit (e : effect) (w : world) : world := set_trace (trace w ++ [e]) w.
Definition spawn (t : task) (w : world) : world := set_tasks (tasks w ++ [t]) w.

(** ** Private helpers *)
Definition notifyListeners (w : world) : world :=
  set_trace (trace w ++ map (λ l, UpdateCallback l (configVersion w)) (listeners w)) w.

Definition setStatus (st : ConnectionStatus) (w : world) : world :=
  if decide (status w = st) then w
  else let w := set_status st w in
       set_trace (trace w ++ map (λ l, StatusCallback l st) (statusListeners w)) w.

Definition closeStream (w : world) : world :=
  match eventSource w with
  | Some es => emit (CloseStream es)
                 (set_eventSource None (set_sources (<[es:=CLOSED]> (sources w)) w))
  | None => w
  end.

Definition closeStreamIfClosed (es : nat) (w : world) : world :=
  if decide (sources w !! es = Some CLOSED ∧ eventSource w = Some es)
  then set_eventSource None w else w.

Definition eventVersion (lastEventId : jstr) (w : world) : Z :=
  match parseInt10 lastEventId with
  | Some v => v
  | None => configVersion w + 1
  end.

Section client.
Context (config : SDKConfig).

Definition flags_url : jstr := baseUrl config ++ js "/api/client/flags".
Definition stream_url : jstr :=
  baseUrl config ++ js "/api/client/stream?key=" ++ sdkKey config.
Definition events_url (since : Z) : jstr :=
  baseUrl config ++ js "/api/client/events?since=" ++ show since.

Definition connectSSE (w : world) : world :=
  let w := closeStream w in
  let es := nextId w in
  let w := set_nextId (S es) (set_sources (<[es:=CONNECTING]> (sources w)) w) in
  set_eventSource (Some es) (emit (OpenStream es stream_url) w).

(** ** [reconcile] *)

(** Iterations of its paging loop. *)
Definition guard_limit : Z := 10000.

(** One logged event on the flag map. *)
Definition apply_log_event (m : list (jstr * FlagObj)) (ev : FlagEvent) : list (jstr * FlagObj) :=
  match ev_type ev with
  | Deleted => map_delete m (ev_flag_key ev)
  | _ => map_set m (ev_flag_key ev) (ev_payload ev)
  end.

(** The body of [for (const ev of data.events)]: flag map, version, [advanced]. *)
Definition page_step (st : list (jstr * FlagObj) * Z * bool) (ev : FlagEvent) :=
  let '(m, v, adv) := st in
  if ev_version ev <=? v then st else (apply_log_event m ev, ev_version ev, true).

Definition recon_done (changed : bool) (w : world) : world :=
  let w := setStatus Live w in
  let w := if changed then notifyListeners w else w in
  set_reconciling false w.

Definition recon_not_ok (prevStatus : ConnectionStatus) (w : world) : world :=
  set_reconciling false
    (setStatus (if decide (prevStatus = Reconciling) then Reconnecting else prevStatus) w).

Definition recon_catch (w : world) : world :=
  set_reconciling false (setStatus Reconnecting w).

(** The head of the loop: issue the next page request, or leave. *)
Definition recon_loop (prevStatus : ConnectionStatus) (changed : bool) (guard : Z) (w : world) : world :=
  if guard <? guard_limit then
    spawn (ReconFetch prevStatus changed guard (configVersion w))
      (emit (Fetch (events_url (configVersion w)) (sdkKey config)) w)
  else recon_done changed w.

Definition reconcile (w : world) : world :=
  if reconciling w then w
  else let w := set_reconciling true w in
       let prevStatus := status w in
       let w := setStatus Reconciling w in
       recon_loop prevStatus false 0 w.

Definition recon_page (prevStatus : ConnectionStatus) (changed : bool) (guard : Z)
    (events : list FlagEvent) (w : world) : world :=
  match events with
  | [] => recon_done changed w
  | _ => let '(m, v, advanced) := foldl page_step (flags w, configVersion w, false) events in
         let w := set_configVersion v (set_flags m w) in
         let changed := changed || advanced in
         if advanced then recon_loop prevStatus changed (guard + 1) w
         else recon_done changed w
  end.

(** ** Live events *)
Definition applyEvent (version : Z) (mutate : list (jstr * FlagObj) → list (jstr * FlagObj))
    (w : world) : world :=
  if version <=? configVersion w then w
  else if version >? configVersion w + 1 then reconcile w
  else
    let w := set_flags (mutate (flags w)) w in
    let w := set_configVersion version w in
    let w := setStatus Live w in
    notifyListeners w.

(** The two stream listeners; [None] is data [JSON.parse] throws on. *)
Definition on_flag_updated (lastEventId : jstr) (data : option FlagObj) (w : world) : world :=
  let version := eventVersion lastEventId w in
  match data with
  | Some flag => applyEvent version (λ m, map_set m (obj_key flag) flag) w
  | None => w
  end.

Definition on_flag_deleted (lastEventId : jstr) (data : option jstr) (w : world) : world :=
  let version := eventVersion lastEventId w in
  match data with
  | Some key => applyEvent version (λ m, map_delete m key) w
  | None => w
  end.

Definition onerror (es : nat) (w : world) : world :=
  if manuallyClosed w then w
  else setStatus Reconnecting (closeStreamIfClosed es w).

(** ** Public methods *)
Definition init (w : world) : world :=
  let w := setStatus Connecting w in
  spawn BootFetch (emit (Fetch flags_url (sdkKey config)) w).

Definition boot_body (fl : option (list FlagObj)) (config_version : option Z) (w : world) : world :=
  let w := set_flags [] w in
  match fl with
  | None => emit InitRejected w
  | Some fl =>
      let w := set_flags (foldl (λ m f, map_set m (obj_key f) f) (flags w) fl) w in
      let w := match config_version with
               | Some v => set_configVersion v w
               | None => w
               end in
      spawn InitRest w
  end.

Definition init_rest (w : world) : world :=
  let w := connectSSE w in
  let w := match refreshInterval config with
           | Some ms => if ms =? 0 then w
                        else let t := nextId w in
                             let w := set_nextId (S t) (set_timers (timers w ++ [t]) w) in
                             set_refreshTimer (Some t) (emit (SetInterval t ms) w)
           | None => w
           end in
  emit InitResolved w.

Definition disconnect (w : world) : world :=
  setStatus Offline (closeStream (set_manuallyClosed true w)).

Definition reconnect (w : world) : world :=
  connectSSE (setStatus Reconnecting (set_manuallyClosed false w)).

Definition destroy (w : world) : world :=
  let w := closeStream (set_manuallyClosed true w) in
  let w := match refreshTimer w with
           | Some t => set_refreshTimer None
                         (emit (ClearInterval t)
                            (set_timers (filter (λ t', t' ≠ t) (timers w)) w))
           | None => w
           end in
  let w := set_statusListeners [] (set_listeners [] w) in
  setStatus Offline w.

Definition isStale (serverVersion : Z) (w : world) : bool := serverVersion >? configVersion w.

Definition res_ok (httpStatus : Z) : bool := (200 <=? httpStatus) && (httpStatus <=? 299).

(** The part of a method after an [await]; [None] when the answer is not one
    the awaited promise can settle to. *)
Definition resume (t : task) (a : answer) (w : world) : option world :=
  match t, a with
  | BootFetch, Rejected | BootJson, Rejected => Some (emit InitRejected w)
  | BootFetch, Response s => Some (if res_ok s then spawn BootJson w else emit InitRejected w)
  | BootJson, BootBody fl v => Some (boot_body fl v w)
  | InitRest, Settled => Some (init_rest w)
  | ReconFetch _ _ _ _, Rejected | ReconJson _ _ _ _, Rejected => Some (recon_catch w)
  | ReconFetch p c g s, Response st =>
      Some (if res_ok st then spawn (ReconJson p c g s) w else recon_not_ok p w)
  | ReconJson p c g _, EventsBody evs => Some (recon_page p c g evs w)
  | _, _ => None
  end.

(** ** The step relation *)
Inductive label :=
| LInit | LDisconnect | LReconnect | LDestroy | LReconcile
| LOnUpdate (l : nat) | LOffUpdate (l : nat) | LOnStatus (l : nat) | LOffStatus (l : nat)
| LStreamOpen (es : nat)
| LStreamUpdated (es : nat) (lastEventId : jstr) (data : option FlagObj)
| LStreamDeleted (es : nat) (lastEventId : jstr) (data : option jstr)
| LStreamError (es : nat) (gaveUp : bool)
| LInterval (t : nat)
| LResume (i : nat) (a : answer).

Definition exec (l : label) (w : world) : option world :=
  match l with
  | LInit => Some (init w)
  | LDisconnect => Some (disconnect w)
  | LReconnect => Some (reconnect w)
  | LDestroy => Some (destroy w)
  | LReconcile => Some (reconcile w)
  | LOnUpdate l => Some (set_listeners (set_add (listeners w) l) w)
  | LOffUpdate l => Some (set_listeners (set_delete (listeners w) l) w)
  | LOnStatus l => Some (set_statusListeners (set_add (statusListeners w) l) w)
  | LOffStatus l => Some (set_statusListeners (set_delete (statusListeners w) l) w)
  | LStreamOpen es =>
      if decide (sources w !! es = Some CONNECTING)
      then Some (reconcile (set_sources (<[es:=OPEN]> (sources w)) w)) else None
  | LStreamUpdated es id data =>
      if decide (sources w !! es = Some OPEN) then Some (on_flag_updated id data w) else None
  | LStreamDeleted es id data =>
      if decide (sources w !! es = Some OPEN) then Some (on_flag_deleted id data w) else None
  | LStreamError es gaveUp =>
      if decide (sources w !! es = Some CONNECTING ∨ sources w !! es = Some OPEN)
      then Some (onerror es
                   (set_sources (<[es:=if gaveUp then CLOSED else CONNECTING]> (sources w)) w))
      else None
  | LInterval t => if decide (t ∈ timers w) then Some (reconcile w) else None
  | LResume i a =>
      match tasks w !! i with
      | Some t => resume t a (set_tasks (delete i (tasks w)) w)
      | None => None
      end
  end.

(** Runs of the client in any environment: every label the runtime can
    deliver, in any order. *)
Definition step (w w' : world) : Prop := ∃ l, exec l w = Some w'.
Definition reachable (w : world) : Prop := rtc step new_client w.

Fixpoint run (ls : list label) (w : world) : option world :=
  match ls with
  | [] => Some w
  | l :: ls => exec l w ≫= run ls
  end.

End client.

(** ** Frame: what the reconcile machinery never touches

    [frame w w'] says that the stream objects, the timers and the listeners of
    [w'] are those of [w]. *)
Record frame (w w' : world) : Prop := {
  frame_sources : sources w' = sources w;
  frame_nextId : nextId w' = nextId w;
  frame_timers : timers w' = timers w;
  frame_refreshTimer : refreshTimer w' = refreshTimer w;
  frame_manuallyClosed : manuallyClosed w' = manuallyClosed w;
  frame_listeners : listeners w' = listeners w;
  frame_statusListeners : statusListeners w' = statusListeners w;
  frame_eventSource : eventSource w' = eventSource w }.

#[export] Instance frame_preorder : PreOrder frame.
Proof.
  split; [by split | intros w1 w2 w3 H1 H2].
  split; destruct H1, H2; congruence.
Qed.

Lemma frame_setStatus st w : frame w (setStatus st w).
Proof. unfold setStatus. case_decide; by split. Qed.

Lemma frame_notifyListeners w : frame w (notifyListeners w).
Proof. by split. Qed.

Lemma status_setStatus st w : status (setStatus st w) = st.
Proof. unfold setStatus. by case_decide. Qed.

Lemma flags_setStatus st w : flags (setStatus st w) = flags w.
Proof. unfold setStatus. by case_decide. Qed.

Lemma tasks_setStatus st w : tasks (setStatus st w) = tasks w.
Proof. unfold setStatus. by case_decide. Qed.

Lemma reconciling_setStatus st w : reconciling (setStatus st w) = reconciling w.
Proof. unfold setStatus. by case_decide. Qed.

Lemma configVersion_setStatus st w : configVersion (setStatus st w) = configVersion w.
Proof. unfold setStatus. by case_decide. Qed.

#[export] Hint Rewrite status_setStatus flags_setStatus tasks_setStatus
  reconciling_setStatus configVersion_setStatus : fp.
#[export] Hint Resolve frame_setStatus frame_notifyListeners : fp.

Lemma closeStream_effect w :
  flags (closeStream w) = flags w ∧ tasks (closeStream w) = tasks w
  ∧ reconciling (closeStream w) = reconciling w ∧ status (closeStream w) = status w
  ∧ configVersion (closeStream w) = configVersion w
  ∧ nextId (closeStream w) = nextId w ∧ eventSource (closeStream w) = None.
Proof. unfold closeStream. by destruct (eventSource w) eqn:E. Qed.

Lemma closeStreamIfClosed_effect es w :
  flags (closeStreamIfClosed es w) = flags w ∧ tasks (closeStreamIfClosed es w) = tasks w
  ∧ reconciling (closeStreamIfClosed es w) = reconciling w
  ∧ configVersion (closeStreamIfClosed es w) = configVersion w
  ∧ sources (closeStreamIfClosed es w) = sources w
  ∧ nextId (closeStreamIfClosed es w) = nextId w.
Proof. unfold closeStreamIfClosed. by case_decide. Qed.

Ltac frame_tac :=
  repeat first [ reflexivity | apply frame_setStatus | apply frame_notifyListeners
               | case_match | (etrans; [|solve [split; reflexivity]]) ].

Section frames.
Context (config : SDKConfig).

Lemma frame_recon_done c w : frame w (recon_done c w).
Proof.
  unfold recon_done. transitivity (setStatus Live w); [auto with fp|].
  destruct c; by split.
Qed.

Lemma frame_recon_not_ok p w : frame w (recon_not_ok p w).
Proof. unfold recon_not_ok. etrans; [apply frame_setStatus | by split]. Qed.

Lemma frame_recon_catch w : frame w (recon_catch w).
Proof. unfold recon_catch. etrans; [apply frame_setStatus | by split]. Qed.

Lemma frame_recon_loop p c g w : frame w (recon_loop config p c g w).
Proof. unfold recon_loop. case_match; [by split | apply frame_recon_done]. Qed.

Lemma frame_reconcile w : frame w (reconcile config w).
Proof.
  unfold reconcile. case_match; [reflexivity|]. etrans; [|apply frame_recon_loop].
  etrans; [|apply frame_setStatus]. by split.
Qed.

Lemma frame_recon_page p c g evs w : frame w (recon_page config p c g evs w).
Proof.
  unfold recon_page. destruct evs as [|ev evs]; [apply frame_recon_done|].
  destruct (foldl _ _ _) as [[m v] adv].
  transitivity (set_configVersion v (set_flags m w)); [by split|].
  destruct adv; [apply frame_recon_loop | apply frame_recon_done].
Qed.

Lemma frame_applyEvent v mu w : frame w (applyEvent config v mu w).
Proof.
  unfold applyEvent. case_match; [reflexivity|]. case_match; [apply frame_reconcile|].
  etrans; [|apply frame_notifyListeners]. etrans; [|apply frame_setStatus]. by split.
Qed.

Lemma frame_on_flag_updated id d w : frame w (on_flag_updated config id d w).
Proof. unfold on_flag_updated. destruct d; [apply frame_applyEvent | reflexivity]. Qed.

Lemma frame_on_flag_deleted id d w : frame w (on_flag_deleted config id d w).
Proof. unfold on_flag_deleted. destruct d; [apply frame_applyEvent | reflexivity]. Qed.
End frames.

#[export] Hint Resolve frame_recon_done frame_recon_not_ok frame_recon_catch frame_recon_loop
  frame_reconcile frame_recon_page frame_applyEvent frame_on_flag_updated
  frame_on_flag_deleted : fp.

(** ** Streams: at most one is open, and it is the one the client holds *)
Record streams_inv (w : world) : Prop := {
  inv_open : ∀ es st, sources w !! es = Some st → st ≠ CLOSED → eventSource w = Some es;
  inv_fresh : ∀ es st, sources w !! es = Some st → (es < nextId w)%nat;
  inv_held : ∀ es, eventSource w = Some es → is_Some (sources w !! es) }.

Lemma streams_frame w w' : frame w w' → streams_inv w → streams_inv w'.
Proof.
  intros [Hs Hn _ _ _ _ _ He] [Ho Hf Hh].
  split; intros es; rewrite ?Hs, ?He, ?Hn; eauto.
Qed.

Lemma streams_closeStream w : streams_inv w →
  streams_inv (closeStream w)
  ∧ ∀ es st, sources (closeStream w) !! es = Some st → st = CLOSED.
Proof.
  intros [Ho Hf Hh]. unfold closeStream. destruct (eventSource w) as [e|] eqn:He; simpl.
  - destruct (Hh e eq_refl) as [st0 Hst0].
    assert (∀ es st, <[e:=CLOSED]> (sources w) !! es = Some st → st = CLOSED) as Hc.
    { intros es st. rewrite lookup_insert. case_decide; simplify_eq; [congruence|].
      intros Hs. destruct (decide (st = CLOSED)) as [|Hne]; [done|].
      specialize (Ho _ _ Hs Hne). congruence. }
    split; [|done]. split; simpl.
    + intros es st Hs Hne. by apply Hc in Hs.
    + intros es st. rewrite lookup_insert. case_decide; simplify_eq; eauto.
    + done.
  - split; [split; rewrite ?He; eauto|].
    intros es st Hs. destruct (decide (st = CLOSED)) as [|Hne]; [done|].
    specialize (Ho _ _ Hs Hne). congruence.
Qed.

Lemma streams_mark es st0 st w :
  sources w !! es = Some st0 → st0 ≠ CLOSED →
  streams_inv w → streams_inv (set_sources (<[es:=st]> (sources w)) w).
Proof.
  intros Hs0 Hne0 [Ho Hf Hh]. split; simpl; intros es' *.
  - rewrite lookup_insert. case_decide; simplify_eq; eauto.
  - rewrite lookup_insert. case_decide; simplify_eq; eauto.
  - intros He. rewrite lookup_insert. case_decide; eauto.
Qed.

Lemma streams_closeStreamIfClosed es w :
  streams_inv w → streams_inv (closeStreamIfClosed es w).
Proof.
  intros [Ho Hf Hh]. unfold closeStreamIfClosed.
  case_decide as Hd; [destruct Hd as [Hs He]|by split].
  split; simpl; [|done|done]. intros es' st' Hs' Hne.
  specialize (Ho _ _ Hs' Hne). simplify_eq.
Qed.

Section streams.
Context (config : SDKConfig).

Lemma streams_connectSSE w : streams_inv w → streams_inv (connectSSE config w).
Proof.
  intros Hw. unfold connectSSE. destruct (streams_closeStream w Hw) as [[_ Hf _] Hc].
  pose proof (closeStream_effect w) as (_ & _ & _ & _ & _ & Hn & _).
  set (w1 := closeStream w) in *. split; simpl.
  - intros es st. rewrite lookup_insert. case_decide; simplify_eq; [done|].
    intros Hs Hne. by apply Hc in Hs.
  - intros es st. rewrite lookup_insert. case_decide; simplify_eq; [lia|].
    intros Hs. apply Hf in Hs. lia.
  - intros es [= <-]. rewrite lookup_insert. case_decide; [eauto | done].
Qed.

(** A change of timers and identifiers keeps the stream invariant. *)
Lemma streams_weaken w w' :
  sources w' = sources w → eventSource w' = eventSource w → (nextId w ≤ nextId w')%nat →
  streams_inv w → streams_inv w'.
Proof.
  intros Hs He Hn [Ho Hf Hh]. split; intros es; rewrite ?Hs, ?He; eauto.
  intros st Hst. specialize (Hf _ _ Hst). lia.
Qed.

Lemma streams_init_rest w : streams_inv w → streams_inv (init_rest config w).
Proof.
  intros Hw%streams_connectSSE. unfold init_rest.
  destruct (refreshInterval config) as [ms|]; [destruct (ms =? 0)|].
  all: eapply streams_weaken; [| | |exact Hw]; [done | done | cbn; lia].
Qed.

Lemma frame_boot_body fl v w : frame w (boot_body fl v w).
Proof. unfold boot_body. destruct fl, v; by split. Qed.

Lemma streams_resume t a w w' :
  resume config t a w = Some w' → streams_inv w → streams_inv w'.
Proof.
  intros Hr Hw. destruct t, a; simpl in Hr; simplify_eq.
  all: try (apply streams_init_rest; done).
  all: try (destruct (res_ok _)).
  all: eapply streams_frame; [|exact Hw]; eauto using frame_boot_body with fp; by split.
Qed.

Lemma streams_step w w' : step config w w' → streams_inv w → streams_inv w'.
Proof.
  intros [l Hl] Hw. destruct l; simpl in Hl; try case_decide; simplify_eq.
  - eapply streams_frame; [|exact Hw]. unfold init.
    etrans; [apply (frame_setStatus Connecting) | by split].
  - unfold disconnect. eapply streams_frame; [apply frame_setStatus|].
    apply streams_closeStream. by destruct Hw.
  - unfold reconnect. apply streams_connectSSE.
    eapply streams_frame; [apply frame_setStatus|]. by destruct Hw.
  - unfold destroy. eapply streams_frame; [apply frame_setStatus|].
    destruct (streams_closeStream (set_manuallyClosed true w)) as [Hc _]; [by destruct Hw|].
    destruct (refreshTimer _); (eapply streams_weaken; [| | |exact Hc]; [done | done | cbn; lia]).
  - eapply streams_frame; [|exact Hw]. auto with fp.
  - by destruct Hw.
  - by destruct Hw.
  - by destruct Hw.
  - by destruct Hw.
  - eapply streams_frame; [apply frame_reconcile|]. by eapply streams_mark.
  - eapply streams_frame; [|exact Hw]. auto with fp.
  - eapply streams_frame; [|exact Hw]. auto with fp.
  - assert (∃ st0, sources w !! es = Some st0 ∧ st0 ≠ CLOSED) as (st0 & Hs & Hne).
    { by destruct H as [->| ->]; eexists. }
    unfold onerror. pose proof (streams_mark es st0 (if gaveUp then CLOSED else CONNECTING) w Hs Hne Hw).
    destruct (manuallyClosed _); [done|]. eapply streams_frame; [apply frame_setStatus|].
    by apply streams_closeStreamIfClosed.
  - eapply streams_frame; [|exact Hw]. auto with fp.
  - destruct (tasks w !! i) as [t|] eqn:Ht; [|done].
    eapply streams_resume; [done|]. by destruct Hw.
Qed.

Lemma streams_reachable w : reachable config w → streams_inv w.
Proof.
  unfold reachable. intros Hr. remember new_client as w0.
  assert (streams_inv w0) as H0 by (subst; split; simpl; set_solver).
  clear Heqw0. induction Hr; eauto using streams_step.
Qed.
End streams.

(** ** Reconciles: at most one in flight, and the status never gets stuck *)
Definition n_recon (w : world) : nat := length (filter (λ t, is_recon t) (tasks w)).

Definition recon_prev (t : task) : option ConnectionStatus :=
  match t with ReconFetch p _ _ _ | ReconJson p _ _ _ => Some p | _ => None end.

Definition prevs_ok (w : world) : Prop :=
  ∀ t p, t ∈ tasks w → recon_prev t = Some p → p ≠ Reconciling.

Record recon_inv (w : world) : Prop := {
  inv_count : n_recon w = if reconciling w then 1%nat else 0%nat;
  inv_status : status w = Reconciling → reconciling w = true;
  inv_prevs : prevs_ok w }.

(** The state while the body of [reconcile] runs, between two awaits. *)
Record in_body (w : world) : Prop := {
  body_reconciling : reconciling w = true;
  body_count : n_recon w = 0%nat;
  body_prevs : prevs_ok w }.

Lemma recon_weaken w w' :
  tasks w' = tasks w → reconciling w' = reconciling w →
  (status w' = Reconciling → status w = Reconciling) →
  recon_inv w → recon_inv w'.
Proof.
  intros Ht Hr Hs [Hc Hst Hp]. split.
  - unfold n_recon in *. by rewrite Ht, Hr.
  - rewrite Hr. auto.
  - unfold prevs_ok in *. by rewrite Ht.
Qed.

Lemma body_weaken w w' :
  tasks w' = tasks w → reconciling w' = reconciling w → in_body w → in_body w'.
Proof.
  intros Ht Hr [Hc Hst Hp]. split; unfold n_recon, prevs_ok in *; by rewrite ?Hr, ?Ht.
Qed.

(** Leaving the body: whatever the final status, the guard is released. *)
Lemma body_leave st w w' :
  in_body w → tasks w' = tasks w → reconciling w' = false → status w' = st →
  st ≠ Reconciling → recon_inv w'.
Proof.
  intros [Hc Hst Hp] Ht Hr Hs Hne. split; unfold n_recon, prevs_ok in *;
    rewrite ?Hr, ?Ht, ?Hs; done.
Qed.

Lemma n_recon_spawn t w : n_recon (spawn t w) = (n_recon w + if is_recon t then 1 else 0)%nat.
Proof.
  unfold n_recon; simpl. rewrite filter_app, length_app. f_equal.
  rewrite filter_cons, filter_nil. by destruct (is_recon t).
Qed.

Lemma prevs_ok_spawn t w :
  prevs_ok w → (∀ p, recon_prev t = Some p → p ≠ Reconciling) → prevs_ok (spawn t w).
Proof.
  unfold prevs_ok. simpl. intros Hw Ht t' p [Hin| ->%list_elem_of_singleton]%elem_of_app; eauto.
Qed.

Lemma spawn_other t w : is_recon t = false → recon_inv w → recon_inv (spawn t w).
Proof.
  intros Ht [Hc Hs Hp]. split; [|done|].
  - rewrite n_recon_spawn, Ht, Nat.add_0_r. done.
  - apply prevs_ok_spawn; [done|]. intros p. by destruct t.
Qed.

Lemma filter_delete_length (l : list task) i t :
  l !! i = Some t →
  length (filter (λ t, is_recon t) l)
  = (length (filter (λ t, is_recon t) (delete i l)) + if is_recon t then 1 else 0)%nat.
Proof.
  intros Hi. rewrite <-(take_drop_middle l i t Hi) at 1. rewrite delete_take_drop.
  rewrite !filter_app, filter_cons, !length_app. destruct (is_recon t); simpl; lia.
Qed.

(** Taking a settled task off the queue. *)
Lemma settle_recon i t w :
  tasks w !! i = Some t → recon_inv w →
  let w' := set_tasks (delete i (tasks w)) w in
  (∀ p, recon_prev t = Some p → p ≠ Reconciling)
  ∧ if is_recon t then in_body w' else recon_inv w'.
Proof.
  intros Hi [Hc Hs Hp]. simpl. split.
  { intros p. apply Hp. by eapply list_elem_of_lookup_2. }
  assert (prevs_ok (set_tasks (delete i (tasks w)) w)) as Hp'.
  { intros t' p Hin. apply Hp. simpl in Hin. rewrite delete_take_drop in Hin.
    rewrite <-(take_drop_middle _ i t Hi). set_solver. }
  pose proof (filter_delete_length _ _ _ Hi) as Hl. unfold n_recon in Hc.
  destruct (is_recon t); (split; [| |done]); unfold n_recon; simpl; auto.
  all: destruct (reconciling w) eqn:Hr; auto; lia.
Qed.

Section recon.
Context (config : SDKConfig).

Lemma body_done c w : in_body w → recon_inv (recon_done c w).
Proof.
  intros Hw. eapply (body_leave Live); [exact Hw|..]; unfold recon_done; destruct c; simpl;
    autorewrite with fp; done.
Qed.

Lemma body_not_ok p w : in_body w → recon_inv (recon_not_ok p w).
Proof.
  intros Hw. unfold recon_not_ok. eapply body_leave; [exact Hw|..]; simpl;
    autorewrite with fp; try done. case_decide; congruence.
Qed.

Lemma body_catch w : in_body w → recon_inv (recon_catch w).
Proof.
  intros Hw. eapply (body_leave Reconnecting); [exact Hw|..]; simpl;
    autorewrite with fp; done.
Qed.

Lemma body_loop p c g w : p ≠ Reconciling → in_body w → recon_inv (recon_loop config p c g w).
Proof.
  intros Hp Hw. unfold recon_loop. case_match; [|by apply body_done].
  destruct Hw as [Hr Hc Hps]. split.
  - rewrite n_recon_spawn. simpl. rewrite Hr. unfold n_recon in *. simpl. lia.
  - done.
  - apply prevs_ok_spawn; [done|]. intros p' [= <-]. done.
Qed.

Lemma body_page p c g evs w :
  p ≠ Reconciling → in_body w → recon_inv (recon_page config p c g evs w).
Proof.
  intros Hp Hw. unfold recon_page. destruct evs; [by apply body_done|].
  destruct (foldl _ _ _) as [[m v] adv].
  assert (in_body (set_configVersion v (set_flags m w))) by (by eapply body_weaken; [..|exact Hw]).
  destruct adv; [by apply body_loop | by apply body_done].
Qed.

Lemma recon_inv_reconcile w : recon_inv w → recon_inv (reconcile config w).
Proof.
  intros Hw. unfold reconcile. destruct (reconciling w) eqn:Hr; [done|].
  destruct Hw as [Hc Hs Hp]. rewrite Hr in *. apply body_loop.
  - simpl. intros ?. naive_solver.
  - split; unfold prevs_ok, n_recon in *; simpl; autorewrite with fp; done.
Qed.

Lemma recon_inv_applyEvent v mu w : recon_inv w → recon_inv (applyEvent config v mu w).
Proof.
  intros Hw. unfold applyEvent. case_match; [done|]. case_match; [by apply recon_inv_reconcile|].
  eapply recon_weaken; [..|exact Hw]; simpl; autorewrite with fp; done.
Qed.

Lemma recon_inv_setStatus st w : st ≠ Reconciling → recon_inv w → recon_inv (setStatus st w).
Proof. intros ??. eapply recon_weaken; [..|done]; autorewrite with fp; done. Qed.

Lemma recon_inv_closeStream w : recon_inv w → recon_inv (closeStream w).
Proof.
  pose proof (closeStream_effect w) as (_ & Ht & Hr & Hs & _).
  intros. eapply recon_weaken; [..|done]; congruence.
Qed.

Lemma recon_inv_connectSSE w : recon_inv w → recon_inv (connectSSE config w).
Proof.
  intros Hw%recon_inv_closeStream. unfold connectSSE.
  eapply recon_weaken; [..|exact Hw]; done.
Qed.

Lemma recon_inv_init_rest w : recon_inv w → recon_inv (init_rest config w).
Proof.
  intros Hw%recon_inv_connectSSE. unfold init_rest.
  destruct (refreshInterval config) as [ms|]; [destruct (ms =? 0)|];
    (eapply recon_weaken; [..|exact Hw]); done.
Qed.

Lemma recon_inv_boot_body fl v w : recon_inv w → recon_inv (boot_body fl v w).
Proof.
  intros Hw. unfold boot_body. destruct fl; [apply spawn_other; [done|]; destruct v|];
    (eapply recon_weaken; [..|exact Hw]); done.
Qed.

Lemma recon_inv_resume i t a w w' :
  tasks w !! i = Some t →
  resume config t a (set_tasks (delete i (tasks w)) w) = Some w' →
  recon_inv w → recon_inv w'.
Proof.
  intros Hi Hres Hw. destruct (settle_recon i t w Hi Hw) as [Hp Hsettled].
  destruct t, a; simpl in Hres, Hsettled; simplify_eq.
  all: try (by eapply recon_weaken; [..|exact Hsettled]).
  all: try (destruct (res_ok _)); eauto using body_catch, body_not_ok, body_page,
    recon_inv_boot_body, recon_inv_init_rest, spawn_other.
  - by eapply recon_weaken; [..|exact Hsettled].
  - destruct Hsettled as [Hr Hc Hps]. split.
    + rewrite n_recon_spawn, Hc. cbn in Hr |- *. by rewrite Hr.
    + done.
    + apply prevs_ok_spawn; [done|]. intros p [= <-]. by apply Hp.
Qed.

Lemma recon_inv_step w w' : step config w w' → recon_inv w → recon_inv w'.
Proof.
  intros [l Hl] Hw. destruct l; simpl in Hl; try case_decide; simplify_eq.
  all: try (eapply recon_weaken; [| | |exact Hw]; done).
  all: eauto using recon_inv_reconcile.
  - unfold init. apply spawn_other; [done|]. eapply recon_weaken; [..|exact Hw];
      simpl; autorewrite with fp; done.
  - apply recon_inv_setStatus, recon_inv_closeStream; [done|].
    by eapply recon_weaken; [..|exact Hw].
  - apply recon_inv_connectSSE, recon_inv_setStatus; [done|].
    by eapply recon_weaken; [..|exact Hw].
  - unfold destroy. apply recon_inv_setStatus; [done|].
    assert (recon_inv (closeStream (set_manuallyClosed true w))) as Hc.
    { apply recon_inv_closeStream. by eapply recon_weaken; [..|exact Hw]. }
    destruct (refreshTimer _); (eapply recon_weaken; [..|exact Hc]); done.
  - apply recon_inv_reconcile. by eapply recon_weaken; [..|exact Hw].
  - unfold on_flag_updated. destruct data; auto using recon_inv_applyEvent.
  - unfold on_flag_deleted. destruct data; auto using recon_inv_applyEvent.
  - unfold onerror. case_match; [by eapply recon_weaken; [..|exact Hw]|].
    apply recon_inv_setStatus; [done|].
    match goal with |- recon_inv (closeStreamIfClosed ?e ?x) =>
      pose proof (closeStreamIfClosed_effect e x) as (_ & Ht & Hr & _) end.
    eapply recon_weaken; [exact Ht | exact Hr | | by eapply recon_weaken; [..|exact Hw]].
    unfold closeStreamIfClosed. by case_decide.
  - destruct (tasks w !! i) as [t|] eqn:Ht; [|done]. by eapply recon_inv_resume.
Qed.

Lemma recon_inv_reachable w : reachable config w → recon_inv w.
Proof.
  unfold reachable. intros Hr. remember new_client as w0.
  assert (recon_inv w0) as H0 by (subst; split; [done|done|intros ??; set_solver]).
  clear Heqw0. induction Hr; eauto using recon_inv_step.
Qed.
End recon.

(** ** Versions only move forward *)
Lemma page_step_mono evs m v adv :
  v ≤ (foldl page_step (m, v, adv) evs).1.2
  ∧ (adv = true → (foldl page_step (m, v, adv) evs).2 = true).
Proof.
  revert m v adv. induction evs as [|ev evs IH]; intros m v adv; [done|].
  cbn [foldl page_step]. case_match; boolify; [apply IH|].
  destruct (IH (apply_log_event m ev) (ev_version ev) true) as [Hv Ha]. split; [lia | auto].
Qed.

Lemma version_recon_done c w : configVersion (recon_done c w) = configVersion w.
Proof. unfold recon_done. destruct c; simpl; by autorewrite with fp. Qed.

Lemma version_closeStream w : configVersion (closeStream w) = configVersion w.
Proof. apply closeStream_effect. Qed.

Lemma version_closeStreamIfClosed es w :
  configVersion (closeStreamIfClosed es w) = configVersion w.
Proof. apply closeStreamIfClosed_effect. Qed.

#[export] Hint Rewrite version_recon_done version_closeStream version_closeStreamIfClosed : fp.

Section versions.
Context (config : SDKConfig).

Lemma version_recon_loop p c g w : configVersion (recon_loop config p c g w) = configVersion w.
Proof. unfold recon_loop. case_match; by autorewrite with fp. Qed.

Lemma version_reconcile w : configVersion (reconcile config w) = configVersion w.
Proof.
  unfold reconcile. case_match; [done|]. rewrite version_recon_loop.
  by autorewrite with fp.
Qed.

Lemma version_recon_page p c g evs w :
  configVersion w ≤ configVersion (recon_page config p c g evs w).
Proof.
  unfold recon_page. destruct evs as [|ev evs]; [rewrite version_recon_done; lia|].
  pose proof (page_step_mono (ev :: evs) (flags w) (configVersion w) false) as [Hm _].
  destruct (foldl _ _ _) as [[m v] adv]. cbn [fst snd] in Hm.
  destruct adv; rewrite ?version_recon_loop, ?version_recon_done; done.
Qed.

Lemma version_applyEvent v mu w :
  configVersion w ≤ configVersion (applyEvent config v mu w).
Proof.
  unfold applyEvent. case_match; [lia|]. case_match; [rewrite version_reconcile; lia|].
  boolify. simpl. autorewrite with fp. simpl. lia.
Qed.

Lemma version_connectSSE w : configVersion (connectSSE config w) = configVersion w.
Proof. unfold connectSSE. simpl. by autorewrite with fp. Qed.

Lemma version_init_rest w : configVersion (init_rest config w) = configVersion w.
Proof.
  rewrite <-(version_connectSSE w). unfold init_rest.
  by destruct (refreshInterval config) as [ms|]; [destruct (ms =? 0)|].
Qed.

Lemma version_resume t a w w' :
  resume config t a w = Some w' →
  configVersion w ≤ configVersion w' ∨ ∃ fl v, a = BootBody fl (Some v) ∧ configVersion w' = v.
Proof.
  intros Hr. destruct t, a; simpl in Hr; simplify_eq; try (left; simpl; lia).
  - left. by destruct (res_ok _).
  - unfold boot_body. destruct fl as [fl|]; [|by left].
    destruct config_version as [v|]; [right; eauto | by left].
  - left. rewrite version_init_rest. lia.
  - left. unfold recon_catch; simpl. rewrite configVersion_setStatus. lia.
  - left. destruct (res_ok _); [simpl; lia|]. unfold recon_not_ok; simpl.
    rewrite configVersion_setStatus. lia.
  - left. unfold recon_catch; simpl. rewrite configVersion_setStatus. lia.
  - left. apply version_recon_page.
Qed.

Lemma version_step l w w' :
  exec config l w = Some w' →
  configVersion w ≤ configVersion w'
  ∨ ∃ i fl v, l = LResume i (BootBody fl (Some v)) ∧ configVersion w' = v.
Proof.
  intros Hl. destruct l; simpl in Hl; try case_decide; simplify_eq.
  all: try (left; simpl; lia).
  - left. unfold init. simpl. autorewrite with fp. lia.
  - left. unfold disconnect. autorewrite with fp. simpl. lia.
  - left. unfold reconnect. rewrite version_connectSSE. autorewrite with fp. simpl. lia.
  - left. unfold destroy. rewrite configVersion_setStatus.
    destruct (refreshTimer _); simpl; rewrite version_closeStream; simpl; lia.
  - left. rewrite version_reconcile. lia.
  - left. rewrite version_reconcile. simpl. lia.
  - left. unfold on_flag_updated. destruct data; [apply version_applyEvent | lia].
  - left. unfold on_flag_deleted. destruct data; [apply version_applyEvent | lia].
  - left. unfold onerror. destruct (manuallyClosed _); [simpl; lia|].
    autorewrite with fp. simpl. lia.
  - left. rewrite version_reconcile. lia.
  - destruct (tasks w !! i) as [t|]; [|done].
    apply version_resume in Hl as [?|(fl & v & -> & ?)]; [left; done | right; eauto].
Qed.

(** What the continuation of [init] leaves behind. *)
Lemma init_rest_opens w :
  let w' := init_rest config w in
  eventSource w' = Some (nextId w) ∧ sources w' !! nextId w = Some CONNECTING
  ∧ manuallyClosed w' = manuallyClosed w
  ∧ (∀ ms, refreshInterval config = Some ms → ms ≠ 0 → timers w' = timers w ++ [S (nextId w)]).
Proof.
  cbn zeta. unfold init_rest, connectSSE.
  assert (nextId (closeStream w) = nextId w ∧ timers (closeStream w) = timers w
          ∧ manuallyClosed (closeStream w) = manuallyClosed w) as (Hn & Ht & Hm).
  { unfold closeStream. by destruct (eventSource w). }
  destruct (refreshInterval config) as [ms|]; [destruct (Z.eqb_spec ms 0)|]; simpl;
    rewrite ?Hn, ?Ht, ?Hm, ?lookup_insert_eq; split_and!; try done; intros; simplify_eq; done.
Qed.

Lemma run_from l ls w w1 (P : world → Prop) :
  exec config l w = Some w1 → (∃ w', run config ls w1 = Some w' ∧ P w') →
  ∃ w', run config (l :: ls) w = Some w' ∧ P w'.
Proof. intros Hl Hls. cbn [run]. by rewrite Hl. Qed.

(** A page of one new event: apply it and ask for the next page. *)
Lemma recon_page_single p c g ev w :
  configVersion w < ev_version ev → g + 1 < guard_limit →
  let w' := recon_page config p c g [ev] w in
  flags w' = apply_log_event (flags w) ev ∧ configVersion w' = ev_version ev
  ∧ tasks w' = tasks w ++ [ReconFetch p (c || true) (g + 1) (ev_version ev)]
  ∧ trace w' = trace w ++ [Fetch (events_url config (ev_version ev)) (sdkKey config)]
  ∧ status w' = status w ∧ statusListeners w' = statusListeners w.
Proof.
  intros Hv Hg. cbn zeta. unfold recon_page. cbn [foldl page_step].
  rewrite (proj2 (Z.leb_gt _ _)) by done. unfold recon_loop.
  by rewrite (proj2 (Z.ltb_lt _ _)) by done.
Qed.

(** [destroy] with no stream open and no timer set. *)
Lemma destroy_idle w :
  eventSource w = None → refreshTimer w = None →
  tasks (destroy w) = tasks w ∧ nextId (destroy w) = nextId w
  ∧ timers (destroy w) = timers w ∧ manuallyClosed (destroy w) = true.
Proof.
  intros He Hr. unfold destroy, closeStream. simpl. rewrite He. simpl. rewrite Hr.
  unfold setStatus. by case_decide.
Qed.

Lemma boot_body_effect fl v w :
  let w' := boot_body (Some fl) v w in
  tasks w' = tasks w ++ [InitRest] ∧ nextId w' = nextId w
  ∧ manuallyClosed w' = manuallyClosed w ∧ timers w' = timers w.
Proof. by destruct v. Qed.

Lemma onerror_closed es w : manuallyClosed w = true → onerror es w = w.
Proof. unfold onerror. by intros ->. Qed.

(** ** Properties *)

(** C26: no stream is ever leaked.  However calls, reconnects, bootstraps and
    stream errors interleave, at most one [EventSource] the client created is
    not closed, and it is the one the client still holds. *)
Theorem at_most_one_open_stream (w : world) (es1 es2 : nat) (st1 st2 : ReadyState) :
  reachable config w →
  sources w !! es1 = Some st1 → st1 ≠ CLOSED →
  sources w !! es2 = Some st2 → st2 ≠ CLOSED →
  es1 = es2 ∧ eventSource w = Some es1.
Proof.
  intros [Ho _ _]%streams_reachable H1 Hn1 H2 Hn2.
  pose proof (Ho _ _ H1 Hn1). pose proof (Ho _ _ H2 Hn2). split; congruence.
Qed.

(** Reconciles never overlap, and the guard [reconciling] is exactly the
    presence of one in flight; the status reads [reconciling] only while one is
    in flight, and the status a reconcile restores on a failed response is never
    [reconciling] itself. *)
Theorem reconcile_exclusive (w : world) :
  reachable config w →
  (length (filter (λ t, is_recon t) (tasks w)) = if reconciling w then 1 else 0)%nat
  ∧ (status w = Reconciling → reconciling w = true)
  ∧ (∀ t p, t ∈ tasks w → recon_prev t = Some p → p ≠ Reconciling).
Proof. intros [Hc Hs Hp]%recon_inv_reachable. auto. Qed.

(** The client never goes back.  Every step keeps or raises the applied
    version, except the body of a bootstrap, which sets it to the version the
    server reported. *)
Theorem version_never_regresses (l : label) (w w' : world) :
  exec config l w = Some w' →
  configVersion w ≤ configVersion w'
  ∨ ∃ i fl v, l = LResume i (BootBody fl (Some v)) ∧ configVersion w' = v.
Proof. apply version_step. Qed.

(** What a live event does, on every branch.  Stale and duplicate
    versions change nothing; the next version is applied, makes the client live
    and calls every update listener with the new version; a later version leaves
    map and version alone and has a reconcile in flight. *)
Theorem applyEvent_contiguous (v : Z) (mu : list (jstr * FlagObj) → list (jstr * FlagObj)) (w : world) :
  let w' := applyEvent config v mu w in
  (v ≤ configVersion w → w' = w)
  ∧ (v = configVersion w + 1 →
       flags w' = mu (flags w) ∧ configVersion w' = v ∧ status w' = Live
       ∧ ∃ pre, trace w' = pre ++ map (λ l, UpdateCallback l v) (listeners w))
  ∧ (configVersion w + 1 < v →
       flags w' = flags w ∧ configVersion w' = configVersion w ∧ reconciling w' = true
       ∧ w' = reconcile config w).
Proof.
  cbn zeta. unfold applyEvent. rewrite Z.gtb_ltb. split_and!; intros Hv.
  - by rewrite (proj2 (Z.leb_le _ _)).
  - rewrite (proj2 (Z.leb_gt _ _)), (proj2 (Z.ltb_ge _ _)) by lia.
    split_and!; simpl; autorewrite with fp; try done.
    rewrite (frame_listeners _ _ (frame_setStatus _ _)). simpl. eauto.
  - rewrite (proj2 (Z.leb_gt _ _)), (proj2 (Z.ltb_lt _ _)) by lia.
    split_and!; [| apply version_reconcile | | done].
    + unfold reconcile, recon_loop. case_match; [done|]. simpl. by rewrite flags_setStatus.
    + unfold reconcile. case_match eqn:Hr; [done|]. simpl. by autorewrite with fp.
Qed.

(** A reconcile is never stuck.  Whenever the status reads
    [reconciling] some suspended call is a reconcile, and if the network rejects
    it the guard is released and the status moves on to [reconnecting]. *)
Theorem reconciling_makes_progress (w : world) :
  reachable config w → status w = Reconciling →
  ∃ i w', exec config (LResume i Rejected) w = Some w'
          ∧ reconciling w' = false ∧ status w' = Reconnecting.
Proof.
  intros [Hc Hs _]%recon_inv_reachable Hst. rewrite (Hs Hst) in Hc. unfold n_recon in Hc.
  destruct (filter _ (tasks w)) as [|t l] eqn:Hf; [done|].
  assert (t ∈ filter (λ t, is_recon t) (tasks w)) as Hin by (rewrite Hf; set_solver).
  apply list_elem_of_filter in Hin as [Ht [i Hi]%list_elem_of_lookup].
  exists i. simpl. rewrite Hi. destruct t; try done; eexists; split; try done;
    simpl; by rewrite status_setStatus.
Qed.

(** A disconnect does not stop a reconcile in flight.  If its body arrives
    after the user disconnected, the client reports [live] although the
    stream is closed on purpose. *)
Theorem disconnect_then_reconcile_reports_live (w : world) (i : nat) p c g s :
  tasks w !! i = Some (ReconJson p c g s) →
  ∃ w', run config [LDisconnect; LResume i (EventsBody [])] w = Some w'
        ∧ status w' = Live ∧ eventSource w' = None ∧ manuallyClosed w' = true.
Proof.
  intros Hi. cbn [run mbind option_bind exec]. unfold disconnect.
  pose proof (closeStream_effect (set_manuallyClosed true w)) as (_ & Ht & _ & _ & _ & _ & He).
  rewrite tasks_setStatus, Ht. simpl tasks. rewrite Hi. cbn [resume recon_page mbind option_bind run].
  eexists; split; [done|].
  set (w1 := set_tasks _ _). destruct (frame_recon_done c w1) as [_ _ _ _ Hm _ _ He'].
  rewrite Hm, He'. unfold w1; simpl.
  rewrite (frame_eventSource _ _ (frame_setStatus _ _)), (frame_manuallyClosed _ _ (frame_setStatus _ _)).
  split_and!.
  - unfold recon_done. destruct c; simpl; by autorewrite with fp.
  - exact He.
  - unfold closeStream. by destruct (eventSource (set_manuallyClosed true w)).
Qed.

(** Destroying the client while its bootstrap is in flight leaks.  The
    bootstrap body still arrives, [init] goes on and opens a stream and, with a
    refresh interval, a timer; nothing will close them, and as [manuallyClosed]
    stays set the client ignores every error of that stream. *)
Theorem destroy_during_init_leaks (fl : list FlagObj) (v : option Z) :
  ∃ w', run config [LInit; LResume 0 (Response 200); LDestroy;
                    LResume 0 (BootBody (Some fl) v); LResume 0 Settled] new_client = Some w'
        ∧ eventSource w' = Some 0%nat ∧ sources w' !! 0%nat = Some CONNECTING
        ∧ (∀ ms, refreshInterval config = Some ms → ms ≠ 0 → timers w' = [1%nat])
        ∧ (∀ es, onerror es w' = w').
Proof.
  eapply run_from; [done|]. set (w1 := init config new_client).
  assert (tasks w1 = [BootFetch]) as H1 by done.
  eapply run_from; [cbn [exec]; rewrite H1; reflexivity|].
  change (if res_ok 200 then ?x else _) with x. set (w2 := spawn BootJson _).
  assert (tasks w2 = [BootJson] ∧ nextId w2 = 0%nat ∧ timers w2 = []
          ∧ eventSource w2 = None ∧ refreshTimer w2 = None) as (Ht & Hn & Hm & He & Hr) by done.
  clearbody w2. clear H1 w1.
  eapply run_from; [done|]. destruct (destroy_idle w2 He Hr) as (Ht' & Hn' & Hm' & Hc').
  set (w3 := destroy w2) in *. clearbody w3. rewrite Ht in Ht'. rewrite Hn in Hn'. rewrite Hm in Hm'.
  eapply run_from; [cbn [exec]; rewrite Ht'; reflexivity|].
  destruct (boot_body_effect fl v (set_tasks (delete 0%nat [BootJson]) w3)) as (Hb1 & Hb2 & Hb3 & Hb4).
  set (w4 := boot_body _ _ _) in *. clearbody w4.
  eapply run_from; [cbn [exec]; rewrite Hb1; reflexivity|].
  set (w5 := set_tasks _ w4). exists (init_rest config w5). split; [done|].
  destruct (init_rest_opens w5) as (Hi & Hs & Hmc & Hti). simpl in Hi, Hs, Hmc, Hti, Hb2, Hb3, Hb4.
  rewrite Hb2, Hn' in *. rewrite Hb3, Hc' in Hmc. rewrite Hb4, Hm' in Hti.
  split_and!; [done..|]. intros es. by apply onerror_closed.
Qed.

(** A reconcile that fails after applying a page forgets to tell.  The
    page's events are in the map and the version has advanced, but when the
    request for the following page is rejected no update listener is ever
    called. *)
Theorem partial_reconcile_is_silent (w : world) (i : nat) p c g s (ev : FlagEvent) :
  tasks w !! i = Some (ReconJson p c g s) → configVersion w < ev_version ev →
  g + 1 < guard_limit →
  ∃ w' suf,
    run config [LResume i (EventsBody [ev]);
                LResume (length (tasks w) - 1) Rejected] w = Some w'
    ∧ flags w' = apply_log_event (flags w) ev ∧ configVersion w' = ev_version ev
    ∧ reconciling w' = false
    ∧ trace w' = trace w ++ suf ∧ (∀ l v, UpdateCallback l v ∉ suf).
Proof.
  intros Hi Hv Hg. pose proof (recon_page_single p c g ev (set_tasks (delete i (tasks w)) w) Hv Hg)
    as Hpage. cbn zeta in Hpage.
  assert (length (delete i (tasks w)) = (length (tasks w) - 1)%nat) as Hl.
  { apply length_delete. by eexists. }
  set (w1 := recon_page config p c g [ev] _) in Hpage. destruct Hpage as (Hf & Hc & Ht & Htr & Hs & Hsl).
  assert (∃ w', run config [LResume i (EventsBody [ev]); LResume (length (tasks w) - 1) Rejected] w
                = Some w' ∧ w' = recon_catch (set_tasks (delete i (tasks w)) w1)) as (w' & Hrun & ->).
  { eapply run_from; [cbn [exec]; rewrite Hi; reflexivity|]. fold w1. clearbody w1.
    simpl in Ht. eapply run_from.
    - cbn [exec]. rewrite Ht, lookup_app_r, Hl, Nat.sub_diag by lia. reflexivity.
    - eexists. split; [done|]. do 2 f_equal. rewrite <-Hl, delete_middle. by rewrite app_nil_r. }
  clearbody w1. simpl in *.
  exists (recon_catch (set_tasks (delete i (tasks w)) w1)).
  exists (Fetch (events_url config (ev_version ev)) (sdkKey config) ::
    if decide (status w = Reconnecting) then []
    else map (λ l, StatusCallback l Reconnecting) (statusListeners w)).
  unfold recon_catch. simpl. autorewrite with fp. simpl. split_and!; try done.
  - unfold setStatus. simpl. rewrite Hs. case_decide; simpl; rewrite Htr; [done|].
    by rewrite Hsl, <-(assoc_L (++)).
  - intros l v. case_decide; set_solver.
Qed.

(** A gap seen while a reconcile is in flight is dropped.  The gap event
    finds [reconciling] set and starts nothing; when the page that was already
    on its way turns out empty, the client reports [live], has no call pending,
    and is behind the version it was told about. *)
Theorem gap_during_last_page_is_lost (w : world) (i es : nat) p g s (v : Z) (o : FlagObj) :
  tasks w !! i = Some (ReconJson p false g s) → sources w !! es = Some OPEN →
  reconciling w = true → 0 ≤ v → configVersion w + 1 < v →
  ∃ w', run config [LStreamUpdated es (show v) (Some o); LResume i (EventsBody [])] w = Some w'
        ∧ status w' = Live ∧ reconciling w' = false ∧ tasks w' = delete i (tasks w)
        ∧ flags w' = flags w ∧ isStale v w' = true.
Proof.
  intros Hi Hes Hr H0 Hv. cbn [run exec mbind option_bind]. rewrite decide_True by done.
  cbn [mbind option_bind run exec]. unfold on_flag_updated, eventVersion.
  rewrite parseInt10_show by done. unfold applyEvent. rewrite Z.gtb_ltb.
  rewrite (proj2 (Z.leb_gt _ _)), (proj2 (Z.ltb_lt _ _)) by lia.
  unfold reconcile. rewrite Hr, Hi. cbn [resume recon_page mbind option_bind run].
  eexists; split; [done|]. unfold isStale. rewrite Z.gtb_ltb, Z.ltb_lt, version_recon_done.
  unfold recon_done. simpl. autorewrite with fp. split_and!; try done. simpl. lia.
Qed.
End versions.

(** ** Witnesses *)
Definition demo_config : SDKConfig :=
  mkSDKConfig (js "http://localhost:8080") (js "sdk-test") (Some 30000).

(** One flag, and the world after the labels of a run. *)
Definition demo_flag (v : Z) : FlagObj :=
  FullFlag (mkFlagConfig (js "1") (js "dark-mode") [] true 50 [] v).

Definition demo_event (v : Z) : FlagEvent :=
  mkFlagEvent v Updated (js "dark-mode") (demo_flag v) [].

Definition world_after (ls : list label) : world :=
  default new_client (run demo_config ls new_client).

Lemma world_after_reachable ls : reachable demo_config (world_after ls).
Proof.
  unfold world_after, reachable.
  assert (∀ w, run demo_config ls w = None ∨ ∃ w', run demo_config ls w = Some w'
               ∧ rtc (step demo_config) w w') as H.
  { induction ls as [|l ls IH]; intros w; [right; by eexists|]. cbn [run].
    destruct (exec demo_config l w) as [w1|] eqn:Hl; [|by left].
    destruct (IH w1) as [?|(w' & ? & ?)]; [by left|]. right. exists w'. split; [done|].
    eapply rtc_l; [by exists l | done]. }
  destruct (H new_client) as [-> |(w' & -> & Hw)]; [apply rtc_refl | done].
Qed.

(** A stream that is open, with a reconcile waiting for the body of its first
    page. *)
Definition demo_run : list label :=
  [LInit; LResume 0 (Response 200); LResume 0 (BootBody (Some [demo_flag 4]) (Some 4));
   LResume 0 Settled; LOnUpdate 7; LStreamOpen 0; LResume 0 (Response 200)].

Definition demo_world : world := Eval vm_compute in world_after demo_run.

Lemma demo_world_eq : demo_world = world_after demo_run.
Proof. vm_compute. reflexivity. Qed.

Lemma demo_world_reachable : reachable demo_config demo_world.
Proof. rewrite demo_world_eq. apply world_after_reachable. Qed.

Lemma at_most_one_open_stream_witness :
  sources demo_world !! 0%nat = Some OPEN
  ∧ 0%nat = 0%nat ∧ eventSource demo_world = Some 0%nat.
Proof.
  split; [reflexivity|].
  apply (at_most_one_open_stream demo_config demo_world 0 0 OPEN OPEN demo_world_reachable);
    (reflexivity || discriminate).
Defined.

Lemma reconcile_exclusive_witness :
  (length (filter (λ t, is_recon t) (tasks demo_world)) = if reconciling demo_world then 1 else 0)%nat
  ∧ (status demo_world = Reconciling → reconciling demo_world = true)
  ∧ (∀ t p, t ∈ tasks demo_world → recon_prev t = Some p → p ≠ Reconciling).
Proof. exact (reconcile_exclusive demo_config demo_world demo_world_reachable). Defined.

Lemma version_never_regresses_witness :
  ∃ w', exec demo_config (LResume 0 (EventsBody [demo_event 5])) demo_world = Some w'
        ∧ (4 ≤ configVersion w' ∨ ∃ i fl v, LResume 0 (EventsBody [demo_event 5])
              = LResume i (BootBody fl (Some v)) ∧ configVersion w' = v).
Proof.
  eexists. split; [vm_compute; reflexivity|].
  apply (version_never_regresses demo_config (LResume 0 (EventsBody [demo_event 5])) demo_world).
  vm_compute. reflexivity.
Defined.

Lemma reconciling_makes_progress_witness :
  status demo_world = Reconciling
  ∧ ∃ i w', exec demo_config (LResume i Rejected) demo_world = Some w'
          ∧ reconciling w' = false ∧ status w' = Reconnecting.
Proof.
  split; [reflexivity|].
  exact (reconciling_makes_progress demo_config demo_world demo_world_reachable eq_refl).
Defined.

Lemma disconnect_then_reconcile_reports_live_witness :
  ∃ w', run demo_config [LDisconnect; LResume 0 (EventsBody [])] demo_world = Some w'
        ∧ status w' = Live ∧ eventSource w' = None ∧ manuallyClosed w' = true.
Proof.
  exact (disconnect_then_reconcile_reports_live demo_config demo_world 0 _ _ _ _ eq_refl).
Defined.

Lemma partial_reconcile_is_silent_witness :
  listeners demo_world = [7%nat]
  ∧ ∃ w' suf,
    run demo_config [LResume 0 (EventsBody [demo_event 5]); LResume 0 Rejected] demo_world = Some w'
    ∧ flags w' = apply_log_event (flags demo_world) (demo_event 5) ∧ configVersion w' = 5
    ∧ reconciling w' = false
    ∧ trace w' = trace demo_world ++ suf ∧ (∀ l v, UpdateCallback l v ∉ suf).
Proof.
  split; [reflexivity|].
  apply (partial_reconcile_is_silent demo_config demo_world 0 Connecting false 0 4 (demo_event 5));
    (reflexivity || (vm_compute; reflexivity)).
Defined.

Lemma gap_during_last_page_is_lost_witness :
  ∃ w', run demo_config [LStreamUpdated 0 (show 6) (Some (demo_flag 6)); LResume 0 (EventsBody [])]
          demo_world = Some w'
        ∧ status w' = Live ∧ reconciling w' = false
        ∧ tasks w' = delete 0%nat (tasks demo_world)
        ∧ flags w' = flags demo_world ∧ isStale 6 w' = true.
Proof.
  apply (gap_during_last_page_is_lost demo_config demo_world 0 0 Connecting 0 4 6 (demo_flag 6));
    (reflexivity || (vm_compute; reflexivity) || (vm_compute; discriminate)).
Defined.
