(* ===== verification/Server.v ===== *)
(** * The control plane ([backend/internal])

    The repository over Postgres (the flag table, the sequence
    [config_version_seq], the append-only [flag_events] log), the service's
    validation and publishing, and the HTTP handlers the dashboard and the SDK
    call.  A write is cut where Postgres lets transactions interleave: after
    [nextval], which is never rolled back, and before the row statement, which
    holds the row until the commit. *)
From S2P Require Import Prelude JsMap Types.

(** ** Data *)

(** A row of [feature_flags]; times are microseconds. *)
Record row := mkRow { r_flag : FlagConfig; r_created : Z; r_updated : Z }.
Abbreviation r_id r := (fc_id (r_flag r)).
Abbreviation r_key r := (fc_key (r_flag r)).

Record db := mkDb {
  seq : Z;                 (* last value [nextval] handed out *)
  rows : list row;         (* in insertion order *)
  log : list FlagEvent }.  (* in commit order *)

Definition empty_db : db := mkDb 0 [] [].

Inductive dberr := VersionConflict | FlagNotFound | SqlError.

Inductive result (A : Type) := Ok (a : A) | Err (e : dberr).
Arguments Ok {A} a.
Arguments Err {A} e.

(** [model.UpdateFlagRequest] is [UpdateFlagInput] with the expected version. *)
Record UpdateFlagRequest := mkUpdateFlagRequest {
  ur_fields : UpdateFlagInput; ur_expected : option Z }.

(** Bytes of a string in Go, characters of it in Postgres. *)
Definition unit_bytes (c : Z) : Z :=
  if c <? 128 then 1 else if c <? 2048 then 2
  else if (55296 <=? c) && (c <? 56320) then 4
  else if (56320 <=? c) && (c <? 57344) then 0 else 3.
Definition go_len (s : jstr) : Z := foldr (λ c n, unit_bytes c + n) 0 s.
Definition is_low_surrogate (c : Z) : bool := (56320 <=? c) && (c <? 57344).
Definition char_count (s : jstr) : Z :=
  Z.of_nat (length (filter (λ c, is_low_surrogate c = false) s)).

Section repository.
(** [time.Time]'s JSON text *)
Context (fmt_time : Z → jstr).

(** ** Repository ([flag_repository.go]) *)
Definition nextVersion (d : db) : Z * db :=
  (seq d + 1, mkDb (seq d + 1) (rows d) (log d)).

Definition appendEvent (v : Z) (ty : EventType) (key : jstr) (payload : FlagObj) (now : Z) (d : db) : db :=
  mkDb (seq d) (rows d) (log d ++ [mkFlagEvent v ty key payload (fmt_time now)]).

Definition GetByID (id : jstr) (d : db) : option row :=
  head (filter (λ r, r_id r = id) (rows d)).
Definition GetByKey (key : jstr) (d : db) : option row :=
  head (filter (λ r, r_key r = key) (rows d)).

(** [ORDER BY created_at DESC] *)
Definition newer (a b : row) : Prop := r_created b ≤ r_created a.
#[export] Instance newer_dec : RelDecision newer := λ a b, decide (r_created b ≤ r_created a).
Definition List (d : db) : list row := merge_sort newer (rows d).

(** The [CHECK] and [VARCHAR] constraints of [feature_flags]. *)
Definition row_ok (f : FlagConfig) : bool :=
  (char_count (fc_key f) <=? 64) && (char_count (fc_description f) <=? 256)
  && (0 <=? fc_rollout_percentage f) && (fc_rollout_percentage f <=? 100).

Definition Create_commit (v now : Z) (id : jstr) (i : CreateFlagInput) (d : db) : result row * db :=
  let f := mkFlagConfig id (ci_key i) (ci_description i) (ci_enabled i)
             (ci_rollout_percentage i) (ci_targeted_users i) v in
  let r := mkRow f now now in
  if row_ok f && bool_decide (GetByKey (ci_key i) d = None) && bool_decide (GetByID id d = None) then
    (Ok r, appendEvent v Created (ci_key i) (FullFlag f) now (mkDb (seq d) (rows d ++ [r]) (log d)))
  else (Err SqlError, d).

Definition Create (now : Z) (id : jstr) (i : CreateFlagInput) (d : db) : result row * db :=
  let '(v, d) := nextVersion d in Create_commit v now id i d.

(** [UPDATE feature_flags SET ... WHERE id = $id]; the trigger sets [updated_at]. *)
Definition set_row (id : jstr) (f : FlagConfig → FlagConfig) (now : Z) (l : list row) : list row :=
  map (λ r, if decide (r_id r = id) then mkRow (f (r_flag r)) (r_created r) now else r) l.

Definition set_fields (v : Z) (u : UpdateFlagInput) (f : FlagConfig) : FlagConfig :=
  mkFlagConfig (fc_id f) (fc_key f) (default (fc_description f) (ui_description u))
    (default (fc_enabled f) (ui_enabled u))
    (default (fc_rollout_percentage f) (ui_rollout_percentage u))
    (default (fc_targeted_users f) (ui_targeted_users u)) v.

Definition flip_enabled (v : Z) (f : FlagConfig) : FlagConfig :=
  mkFlagConfig (fc_id f) (fc_key f) (fc_description f) (negb (fc_enabled f))
    (fc_rollout_percentage f) (fc_targeted_users f) v.

(** The statement, event and commit shared by [Update] and [Toggle]. *)
Definition write_row (v now : Z) (id : jstr) (f : FlagConfig → FlagConfig) (r : row) (d : db) : result (option row) * db :=
  if row_ok (f (r_flag r)) then
    (Ok (Some (mkRow (f (r_flag r)) (r_created r) now)),
     appendEvent v Updated (r_key r) (FullFlag (f (r_flag r))) now
       (mkDb (seq d) (set_row id f now (rows d)) (log d)))
  else (Err SqlError, d).

Definition no_fields (u : UpdateFlagInput) : bool :=
  match u with mkUpdateFlagInput None None None None => true | _ => false end.

(** The guard [AND version = $n], when an expected version is given. *)
Definition version_differs (expected : option Z) (f : FlagConfig) : bool :=
  match expected with Some e => negb (e =? fc_version f) | None => false end.

Definition Update_commit (v now : Z) (id : jstr) (req : UpdateFlagRequest) (d : db) : result (option row) * db :=
  match GetByID id d with
  | None => (Ok None, d)
  | Some r =>
      if version_differs (ur_expected req) (r_flag r) then (Err VersionConflict, d)
      else write_row v now id (set_fields v (ur_fields req)) r d
  end.

Definition Update (now : Z) (id : jstr) (req : UpdateFlagRequest) (d : db) : result (option row) * db :=
  if no_fields (ur_fields req) then (Ok (GetByID id d), d)
  else let '(v, d) := nextVersion d in Update_commit v now id req d.

Definition Toggle_commit (v now : Z) (id : jstr) (d : db) : result (option row) * db :=
  match GetByID id d with
  | None => (Ok None, d)
  | Some r => write_row v now id (flip_enabled v) r d
  end.

Definition Toggle (now : Z) (id : jstr) (d : db) : result (option row) * db :=
  let '(v, d) := nextVersion d in Toggle_commit v now id d.

(** [Delete] reads the key first; the [DELETE] does not look at how many rows
    it removed. *)
Definition Delete_commit (v now : Z) (id key : jstr) (d : db) : result Z * db :=
  (Ok v, appendEvent v Deleted key (KeyOnly key) now
           (mkDb (seq d) (filter (λ r, r_id r ≠ id) (rows d)) (log d))).

Definition Delete (now : Z) (id : jstr) (d : db) : result Z * db :=
  match GetByID id d with
  | None => (Err FlagNotFound, d)
  | Some r => let '(v, d) := nextVersion d in Delete_commit v now id (r_key r) d
  end.

(** [SELECT COALESCE(MAX(version), 0)] *)
Definition GetLatestVersion (d : db) : Z := foldr (λ e m, ev_version e `max` m) 0 (log d).

Definition version_le (a b : FlagEvent) : Prop := ev_version a ≤ ev_version b.
#[export] Instance version_le_dec : RelDecision version_le :=
  λ a b, decide (ev_version a ≤ ev_version b).
Definition version_ge (a b : FlagEvent) : Prop := ev_version b ≤ ev_version a.
#[export] Instance version_ge_dec : RelDecision version_ge :=
  λ a b, decide (ev_version b ≤ ev_version a).

Definition clamp_limit (dflt cap limit : Z) : Z :=
  let limit := if limit <=? 0 then dflt else limit in
  if limit >? cap then cap else limit.

Definition ListEventsByFlag (key : jstr) (limit : Z) (d : db) : list FlagEvent :=
  take (Z.to_nat (clamp_limit 50 200 limit))
    (merge_sort version_ge (filter (λ e, ev_flag_key e = key) (log d))).

Definition ListEventsSince (since limit : Z) (d : db) : list FlagEvent :=
  take (Z.to_nat (clamp_limit 500 1000 limit))
    (merge_sort version_le (filter (λ e, since < ev_version e) (log d))).

(** ** Service ([flag_service.go]) *)

(** The envelopes published to Redis, in order. *)
Inductive envelope :=
| FlagUpdated (version : Z) (payload : FlagConfig)
| FlagDeleted (version : Z) (key : jstr).

Record server := mkServer { s_db : db; s_published : list envelope }.

Inductive svc_error :=
| KeyRequired | KeyFormat | PercentageRange | DuplicateKey | Repo (e : dberr).

Definition is_key_char (c : Z) : bool :=
  ((97 <=? c) && (c <=? 122)) || ((65 <=? c) && (c <=? 90)) || is_digit c || (c =? 45).
(** [keyRegex.MatchString] *)
Definition key_matches (k : jstr) : bool := negb (bool_decide (k = [])) && forallb is_key_char k.

Definition validate_create (i : CreateFlagInput) : option svc_error :=
  if bool_decide (ci_key i = []) || (go_len (ci_key i) >? 64) then Some KeyRequired
  else if negb (key_matches (ci_key i)) then Some KeyFormat
  else if (ci_rollout_percentage i <? 0) || (ci_rollout_percentage i >? 100) then Some PercentageRange
  else None.

Definition publish_update (r : row) (s : server) : server :=
  mkServer (s_db s) (s_published s ++ [FlagUpdated (fc_version (r_flag r)) (r_flag r)]).

Definition CreateFlag (now : Z) (id : jstr) (i : CreateFlagInput) (s : server) : (svc_error + row) * server :=
  match validate_create i with
  | Some e => (inl e, s)
  | None =>
      if bool_decide (GetByKey (ci_key i) (s_db s) = None) then
        let '(r, d) := Create now id i (s_db s) in
        let s := mkServer d (s_published s) in
        match r with
        | Err e => (inl (Repo e), s)
        | Ok r => (inr r, publish_update r s)
        end
      else (inl DuplicateKey, s)
  end.

Definition bad_percentage (u : UpdateFlagInput) : bool :=
  match ui_rollout_percentage u with Some p => (p <? 0) || (p >? 100) | None => false end.

(** The tail shared by [UpdateFlag] and [ToggleFlag]. *)
Definition publish_result (rd : result (option row) * db) (s : server) : (svc_error + option row) * server :=
  let s := mkServer rd.2 (s_published s) in
  match rd.1 with
  | Err e => (inl (Repo e), s)
  | Ok None => (inr None, s)
  | Ok (Some r) => (inr (Some r), publish_update r s)
  end.

Definition UpdateFlag (now : Z) (id : jstr) (req : UpdateFlagRequest) (s : server) : (svc_error + option row) * server :=
  if bad_percentage (ur_fields req) then (inl PercentageRange, s)
  else publish_result (Update now id req (s_db s)) s.

Definition ToggleFlag (now : Z) (id : jstr) (s : server) : (svc_error + option row) * server :=
  publish_result (Toggle now id (s_db s)) s.

Definition DeleteFlag (now : Z) (id : jstr) (s : server) : (svc_error + unit) * server :=
  match GetByID id (s_db s) with
  | None => (inl (Repo FlagNotFound), s)
  | Some r =>
      let '(res, d) := Delete now id (s_db s) in
      match res with
      | Err e => (inl (Repo e), mkServer d (s_published s))
      | Ok v => (inr tt, mkServer d (s_published s ++ [FlagDeleted v (r_key r)]))
      end
  end.

Definition GetFlagHistory (id : jstr) (limit : Z) (s : server) : option (list FlagEvent) :=
  match GetByID id (s_db s) with
  | None => None
  | Some r => Some (ListEventsByFlag (r_key r) limit (s_db s))
  end.

(** ** Handlers ([admin_handler.go], [client_handler.go]) *)

Definition toResponse (r : row) : Flag :=
  let f := r_flag r in
  mkFlag (fc_id f) (fc_key f) (fc_description f) (fc_enabled f) (fc_rollout_percentage f)
    (fc_targeted_users f) (fc_version f) (fmt_time (r_created r)) (fmt_time (r_updated r)).

(** What a handler writes: the status, and the body by its shape. *)
Inductive body :=
| NoBody | ErrorBody (error message : String.string) | FlagBody (f : Flag)
| FlagsBody (r : FlagsResponse) | ClientFlagsBody (fl : list FlagConfig) (v : Z)
| EventsOnly (evs : list FlagEvent) | ReconcileBody (evs : list FlagEvent) (v : Z)
| VersionBody (node_id : jstr) (v clients : Z).

Record response := mkResponse { rs_status : Z; rs_body : body }.
Definition writeError (st : Z) (e message : String.string) : response := mkResponse st (ErrorBody e message).
Arguments writeError st (e message)%_string_scope.

(** [err.Error()] of the service's own errors. *)
#[local] Open Scope string_scope.
Definition error_text (e : svc_error) : String.string :=
  match e with
  | KeyRequired => "key is required and must be at most 64 characters"
  | KeyFormat => "key must be alphanumeric with hyphens only"
  | PercentageRange => "rollout_percentage must be between 0 and 100"
  | DuplicateKey => "duplicate_key"
  | Repo VersionConflict => "version conflict"
  | Repo FlagNotFound => "flag not found"
  | Repo SqlError => "sql error"
  end.
#[local] Close Scope string_scope.

Definition handle_CreateFlag now id (i : option CreateFlagInput) (s : server) : response * server :=
  match i with
  | None => (writeError 400 "invalid_request" "Invalid request body", s)
  | Some i =>
      let '(r, s) := CreateFlag now id i s in
      (match r with
       | inl DuplicateKey => writeError 409 "duplicate_key" "A flag with this key already exists"
       | inl ((KeyRequired | KeyFormat | PercentageRange) as e) => writeError 400 "validation_error" (error_text e)
       | inl (Repo _) => writeError 500 "internal_error" "Failed to create flag"
       | inr r => mkResponse 201 (FlagBody (toResponse r))
       end, s)
  end.

(** [strings.Trim] with the cutset of one double quote *)
Fixpoint trim_quotes_start (s : jstr) : jstr :=
  match s with c :: r => if c =? 34 then trim_quotes_start r else s | [] => [] end.
Definition trim_quotes (s : jstr) : jstr :=
  reverse (trim_quotes_start (reverse (trim_quotes_start s))).

(** The expected version an [If-Match] header carries; a missing header reads
    as the empty string. *)
Definition if_match_version (h : jstr) : option Z :=
  let t := trim_quotes h in
  if bool_decide (t = []) then None else go_ParseInt t.

Definition handle_UpdateFlag now id (fields : option UpdateFlagInput) (ifMatch : jstr) (s : server) : response * server :=
  match fields with
  | None => (writeError 400 "invalid_request" "Invalid request body", s)
  | Some u =>
      let '(r, s) := UpdateFlag now id (mkUpdateFlagRequest u (if_match_version ifMatch)) s in
      (match r with
       | inl (Repo VersionConflict) => writeError 409 "version_conflict" "This flag was changed by someone else. Reload and try again."
       | inl ((KeyRequired | KeyFormat | PercentageRange) as e) => writeError 400 "validation_error" (error_text e)
       | inl _ => writeError 500 "internal_error" "Failed to update flag"
       | inr None => writeError 404 "not_found" "Flag not found"
       | inr (Some r) => mkResponse 200 (FlagBody (toResponse r))
       end, s)
  end.

Definition handle_ToggleFlag now id (s : server) : response * server :=
  let '(r, s) := ToggleFlag now id s in
  (match r with
   | inl _ => writeError 500 "internal_error" "Failed to toggle flag"
   | inr None => writeError 404 "not_found" "Flag not found"
   | inr (Some r) => mkResponse 200 (FlagBody (toResponse r))
   end, s).

Definition handle_DeleteFlag now id (s : server) : response * server :=
  let '(r, s) := DeleteFlag now id s in
  (match r with
   | inl (Repo FlagNotFound) => writeError 404 "not_found" "Flag not found"
   | inl _ => writeError 500 "internal_error" "Failed to delete flag"
   | inr _ => mkResponse 204 NoBody
   end, s).

Definition handle_GetFlag id (s : server) : response :=
  match GetByID id (s_db s) with
  | None => writeError 404 "not_found" "Flag not found"
  | Some r => mkResponse 200 (FlagBody (toResponse r))
  end.

Definition handle_GetFlagHistory id (s : server) : response :=
  match GetFlagHistory id 50 s with
  | None => writeError 404 "not_found" "Flag not found"
  | Some evs => mkResponse 200 (EventsOnly evs)
  end.

(** The list handlers read the flags and then the version, in two statements:
    [d] and [d'] are the database at the two reads. *)
Definition handle_ListFlags (d d' : db) : response :=
  mkResponse 200 (FlagsBody (mkFlagsResponse (map toResponse (List d)) (GetLatestVersion d'))).

Definition GetAllFlags (d d' : db) : response :=
  mkResponse 200 (ClientFlagsBody (map r_flag (List d)) (GetLatestVersion d')).

Definition Reconcile (since : jstr) (d d' : db) : response :=
  let go v := mkResponse 200 (ReconcileBody (ListEventsSince v 0 d) (GetLatestVersion d')) in
  if bool_decide (since = []) then go 0
  else match go_ParseInt since with
       | Some v => if v <? 0 then writeError 400 "invalid_since" "since must be a non-negative integer" else go v
       | None => writeError 400 "invalid_since" "since must be a non-negative integer"
       end.

(** [Version]: the node, its view of the version and its stream clients. *)
Definition handle_Version (node_id : jstr) (clients : nat) (d : db) : response :=
  mkResponse 200 (VersionBody node_id (GetLatestVersion d) (Z.of_nat clients)).

(** ** Writes as the log sees them *)
Inductive write :=
| WCreate (id : jstr) (i : CreateFlagInput)
| WUpdate (id : jstr) (req : UpdateFlagRequest)
| WToggle (id : jstr)
| WDelete (id : jstr).

Definition write_db (now : Z) (w : write) (d : db) : db :=
  match w with
  | WCreate id i => (Create now id i d).2
  | WUpdate id req => (Update now id req d).2
  | WToggle id => (Toggle now id d).2
  | WDelete id => (Delete now id d).2
  end.

(** Databases reached by writes that do not overlap. *)
Inductive serial : db → Prop :=
| serial_empty : serial empty_db
| serial_write now w d : serial d → serial (write_db now w d).

(** Overlapping writes: [Begin] takes the version, [Finish] runs the row
    statement, appends the event and commits. *)
Record cluster := mkCluster { c_db : db; c_open : list (Z * write * jstr) }.

Inductive tx_label := Begin (w : write) | Finish (i : nat) (now : Z).

Definition finish (v now : Z) (w : write) (key : jstr) (d : db) : db :=
  match w with
  | WCreate id i => (Create_commit v now id i d).2
  | WUpdate id req => (Update_commit v now id req d).2
  | WToggle id => (Toggle_commit v now id d).2
  | WDelete id => (Delete_commit v now id key d).2
  end.

(** The key a delete reads before it takes its version; [None] when the
    transaction ends before [nextval]. *)
Definition begin_key (w : write) (d : db) : option jstr :=
  match w with
  | WUpdate _ req => if no_fields (ur_fields req) then None else Some []
  | WDelete id => (λ r, r_key r) <$> GetByID id d
  | _ => Some []
  end.

Definition tx_exec (l : tx_label) (c : cluster) : option cluster :=
  match l with
  | Begin w =>
      match begin_key w (c_db c) with
      | None => Some c
      | Some key => let '(v, d) := nextVersion (c_db c) in
                    Some (mkCluster d (c_open c ++ [(v, w, key)]))
      end
  | Finish i now =>
      '(v, w, key) ← c_open c !! i;
      Some (mkCluster (finish v now w key (c_db c)) (delete i (c_open c)))
  end.

Fixpoint tx_run (ls : list tx_label) (c : cluster) : option cluster :=
  match ls with
  | [] => Some c
  | l :: ls => tx_exec l c ≫= tx_run ls
  end.

(** A write is its two halves run back to back. *)
Lemma write_db_begin_finish now w d :
  tx_run (if begin_key w d then [Begin w; Finish 0 now] else [Begin w]) (mkCluster d [])
  = Some (mkCluster (write_db now w d) []).
Proof.
  destruct w as [| id req | | id]; simpl; try done.
  - unfold Update. destruct (no_fields _) eqn:E; simpl; by rewrite E.
  - unfold Delete. destruct (GetByID id d) eqn:E; simpl; by rewrite E.
Qed.

(** ** The abstract state a log describes *)
Definition log_step (m : gmap jstr FlagObj) (e : FlagEvent) : gmap jstr FlagObj :=
  match ev_type e with
  | Deleted => delete (ev_flag_key e) m
  | _ => <[ev_flag_key e := ev_payload e]> m
  end.
Definition log_state (l : list FlagEvent) : gmap jstr FlagObj := foldl log_step ∅ l.

Definition row_entry (r : row) : jstr * FlagObj := (r_key r, FullFlag (r_flag r)).
Definition table_map (l : list row) : gmap jstr FlagObj := list_to_map (row_entry <$> l).

Lemma log_state_snoc l e : log_state (l ++ [e]) = log_step (log_state l) e.
Proof. unfold log_state. by rewrite foldl_app. Qed.

Lemma row_entry_keys l : (row_entry <$> l).*1 = (λ r, r_key r) <$> l.
Proof. by rewrite <-list_fmap_compose. Qed.

Lemma GetByID_Some id d r : GetByID id d = Some r → r ∈ rows d ∧ r_id r = id.
Proof. intros [? ?]%head_elem%list_elem_of_filter. done. Qed.

Lemma GetByID_None id d : GetByID id d = None → id ∉ (λ r, r_id r) <$> rows d.
Proof.
  intros Hh [r [-> Hr]]%list_elem_of_fmap. exact (head_filter_None _ _ r Hh Hr eq_refl).
Qed.

Lemma GetByKey_None key d : GetByKey key d = None → key ∉ (λ r, r_key r) <$> rows d.
Proof.
  intros Hh [r [-> Hr]]%list_elem_of_fmap. exact (head_filter_None _ _ r Hh Hr eq_refl).
Qed.

Lemma table_map_lookup l k o :
  NoDup ((λ r, r_key r) <$> l) →
  table_map l !! k = Some o ↔ ∃ r, r ∈ l ∧ r_key r = k ∧ o = FullFlag (r_flag r).
Proof.
  intros Hk. unfold table_map. rewrite <-elem_of_list_to_map by (by rewrite row_entry_keys).
  rewrite list_elem_of_fmap. unfold row_entry. naive_solver.
Qed.

(** The rows an [UPDATE] leaves, keyed. *)
Lemma set_row_fields id f now l :
  (∀ x, fc_id (f x) = fc_id x ∧ fc_key (f x) = fc_key x) →
  ((λ r, r_id r) <$> set_row id f now l) = ((λ r, r_id r) <$> l)
  ∧ ((λ r, r_key r) <$> set_row id f now l) = ((λ r, r_key r) <$> l).
Proof.
  intros Hf. unfold set_row. induction l as [|r l [IH1 IH2]]; [done|].
  cbn. rewrite IH1, IH2. case_decide; [|done]. cbn. by destruct (Hf (r_flag r)) as [-> ->].
Qed.

Lemma table_map_set_row id f now l r :
  NoDup ((λ r, r_id r) <$> l) → NoDup ((λ r, r_key r) <$> l) →
  (∀ x, fc_id (f x) = fc_id x ∧ fc_key (f x) = fc_key x) →
  r ∈ l → r_id r = id →
  table_map (set_row id f now l) = <[r_key r := FullFlag (f (r_flag r))]> (table_map l).
Proof.
  intros Hi Hk Hf Hr <-. induction l as [|r0 l IH]; [set_solver|].
  cbn in Hi, Hk. apply NoDup_cons in Hi as [Hi0 Hi], Hk as [Hk0 Hk].
  cbn [set_row map]. fold (set_row (r_id r) f now l). unfold table_map in *. cbn.
  apply elem_of_cons in Hr as [<-|Hr].
  - rewrite decide_True by done. cbn. destruct (Hf (r_flag r)) as [_ ->].
    rewrite insert_insert_eq. f_equal.
    assert (set_row (r_id r) f now l = l) as ->; [|done]. clear -Hi0.
    induction l as [|r1 l IH]; [done|]. cbn in *. apply not_elem_of_cons in Hi0 as [? ?].
    rewrite decide_False by done. f_equal. by apply IH.
  - rewrite decide_False.
    + cbn. rewrite IH by done. apply insert_insert_ne. intros Heq. apply Hk0. rewrite Heq.
      apply list_elem_of_fmap. eauto.
    + intros Heq. apply Hi0. rewrite Heq. apply list_elem_of_fmap. eauto.
Qed.

Lemma table_map_filter id l r :
  NoDup ((λ r, r_id r) <$> l) → NoDup ((λ r, r_key r) <$> l) → r ∈ l → r_id r = id →
  table_map (filter (λ r', r_id r' ≠ id) l) = delete (r_key r) (table_map l).
Proof.
  intros Hi Hk Hr <-. unfold table_map. induction l as [|r0 l IH]; [set_solver|].
  cbn in Hi, Hk. apply NoDup_cons in Hi as [Hi0 Hi], Hk as [Hk0 Hk].
  rewrite filter_cons. apply elem_of_cons in Hr as [<-|Hr].
  - rewrite decide_False by (intros ?; done). cbn. rewrite delete_insert_eq.
    rewrite (delete_id (list_to_map _)).
    + do 2 f_equal. clear -Hi0. induction l as [|r1 l IH]; [done|]. cbn in Hi0, IH.
      apply not_elem_of_cons in Hi0 as [? ?]. rewrite filter_cons, decide_True by done.
      f_equal. by apply IH.
    + apply not_elem_of_list_to_map. by rewrite row_entry_keys.
  - rewrite decide_True.
    + cbn. rewrite IH by done. symmetry. apply delete_insert_ne. intros Heq. apply Hk0. rewrite <-Heq.
      apply list_elem_of_fmap. eauto.
    + intros Heq. apply Hi0. rewrite Heq. apply list_elem_of_fmap. eauto.
Qed.

(** ** The invariant of non-overlapping writes *)
Record db_inv (d : db) : Prop := {
  inv_ids : NoDup ((λ r, r_id r) <$> rows d);
  inv_keys : NoDup ((λ r, r_key r) <$> rows d);
  inv_rows : Forall (λ r, row_ok (r_flag r) = true ∧ 0 < fc_version (r_flag r) ≤ seq d) (rows d);
  inv_state : log_state (log d) = table_map (rows d);
  inv_sorted : StronglySorted Z.lt (ev_version <$> log d);
  inv_bound : Forall (λ e, 0 < ev_version e ≤ seq d) (log d);
  inv_seq : 0 ≤ seq d }.

(** A version no committed event has yet. *)
Definition fresh (v : Z) (d : db) : Prop :=
  0 < v ≤ seq d ∧ Forall (λ e, ev_version e < v) (log d).

Lemma inv_nextVersion d v d' :
  nextVersion d = (v, d') → db_inv d →
  db_inv d' ∧ fresh v d' ∧ rows d' = rows d ∧ log d' = log d ∧ v = seq d + 1.
Proof.
  intros [= <- <-] [Hi Hk Hr Hs Hl Hb H0]. split_and!; [split; simpl | split; simpl | done..]; auto.
  - eapply Forall_impl; [exact Hr|]. simpl. intros r [? ?]. split; [done|lia].
  - eapply Forall_impl; [exact Hb|]. simpl. intros; lia.
  - lia.
  - lia.
  - eapply Forall_impl; [exact Hb|]. simpl. intros; lia.
Qed.

Lemma inv_commit d v rows' ty key payload now :
  db_inv d → fresh v d →
  NoDup ((λ r, r_id r) <$> rows') → NoDup ((λ r, r_key r) <$> rows') →
  Forall (λ r, row_ok (r_flag r) = true ∧ 0 < fc_version (r_flag r) ≤ seq d) rows' →
  table_map rows' = log_step (table_map (rows d)) (mkFlagEvent v ty key payload (fmt_time now)) →
  db_inv (appendEvent v ty key payload now (mkDb (seq d) rows' (log d))).
Proof.
  intros [Hi Hk Hr Hs Hl Hb H0] [Hv Hf] Hi' Hk' Hr' Hs'. split; simpl; auto.
  - by rewrite log_state_snoc, Hs.
  - rewrite fmap_app. cbn. apply StronglySorted_snoc; [done|]. by apply Forall_fmap.
  - apply Forall_app. split; [done|]. by apply Forall_singleton.
Qed.

Lemma inv_Create_commit v now id i d :
  db_inv d → fresh v d → db_inv (Create_commit v now id i d).2.
Proof.
  intros Hd Hv. unfold Create_commit. destruct (_ && _ && _) eqn:E; [|done]. boolify.
  repeat match goal with
  | H : GetByKey _ _ = None |- _ => apply GetByKey_None in H
  | H : GetByID _ _ = None |- _ => apply GetByID_None in H
  end. simpl.
  apply inv_commit; [done..| | | |].
  - rewrite fmap_app. apply NoDup_app. split_and!; [apply Hd | set_solver | apply NoDup_singleton].
  - rewrite fmap_app. apply NoDup_app. split_and!; [apply Hd | set_solver | apply NoDup_singleton].
  - apply Forall_app. split; [apply Hd|]. repeat constructor; simpl; [done| |]; apply Hv.
  - unfold log_step, table_map; simpl. rewrite fmap_app, list_to_map_app. cbn.
    rewrite <-insert_union_r; [by rewrite (right_id_L ∅ (∪))|].
    apply not_elem_of_list_to_map. by rewrite row_entry_keys.
Qed.

Lemma inv_write_row v now id f r d :
  db_inv d → fresh v d → r ∈ rows d → r_id r = id →
  (∀ x, fc_id (f x) = fc_id x ∧ fc_key (f x) = fc_key x) → (∀ x, fc_version (f x) = v) →
  db_inv (write_row v now id f r d).2.
Proof.
  intros Hd Hv Hr Hid Hf Hver. unfold write_row. destruct (row_ok _) eqn:Hok; [|done]. simpl.
  destruct (set_row_fields id f now (rows d) Hf) as [Hids Hkeys].
  apply inv_commit; [done..| | | |].
  - rewrite Hids. apply Hd.
  - rewrite Hkeys. apply Hd.
  - apply Forall_forall. unfold set_row. intros r' Hin.
    apply list_elem_of_fmap in Hin as (r0 & -> & Hin).
    pose proof (proj1 (Forall_forall _ _) (inv_rows d Hd) r0 Hin) as Hr0. case_decide as Hid0; [|done].
    cbn. rewrite Hver. assert (r0 = r) as ->; [|split; [done|apply Hv]].
    eapply NoDup_fmap_inj; [apply (inv_ids d Hd)|done..|]. simpl; congruence.
  - unfold log_step; simpl. by apply table_map_set_row; [apply Hd..| | |].
Qed.

Lemma set_fields_keeps v u x :
  fc_id (set_fields v u x) = fc_id x ∧ fc_key (set_fields v u x) = fc_key x.
Proof. done. Qed.

Lemma inv_write_db now w d : db_inv d → db_inv (write_db now w d).
Proof.
  intros Hd. destruct w as [id i|id req|id|id]; simpl.
  - unfold Create. destruct (nextVersion d) as [v d'] eqn:Hn.
    destruct (inv_nextVersion _ _ _ Hn Hd) as (? & ? & _). by apply inv_Create_commit.
  - unfold Update. destruct (no_fields _); [done|]. destruct (nextVersion d) as [v d'] eqn:Hn.
    destruct (inv_nextVersion _ _ _ Hn Hd) as (? & ? & _). unfold Update_commit.
    destruct (GetByID id d') as [r|] eqn:Hr; [|done]. destruct (version_differs _ _); [done|].
    apply GetByID_Some in Hr as [? ?]. by apply inv_write_row.
  - unfold Toggle. destruct (nextVersion d) as [v d'] eqn:Hn.
    destruct (inv_nextVersion _ _ _ Hn Hd) as (? & ? & _). unfold Toggle_commit.
    destruct (GetByID id d') as [r|] eqn:Hr; [|done].
    apply GetByID_Some in Hr as [? ?]. by apply inv_write_row.
  - unfold Delete. destruct (GetByID id d) as [r|] eqn:Hr; [|done].
    destruct (nextVersion d) as [v d'] eqn:Hn.
    destruct (inv_nextVersion _ _ _ Hn Hd) as (Hd' & ? & Hrows & _). unfold Delete_commit. simpl.
    apply GetByID_Some in Hr as [Hr Hid]. rewrite <-Hrows in Hr.
    apply inv_commit; [done..| | | |].
    + apply NoDup_fmap_filter, Hd'.
    + apply NoDup_fmap_filter, Hd'.
    + apply Forall_filter_keep, Hd'.
    + unfold log_step; simpl. by apply table_map_filter; [apply Hd'..| |].
Qed.

Lemma serial_inv d : serial d → db_inv d.
Proof.
  induction 1; [|by apply inv_write_db].
  split; simpl; try constructor; done.
Qed.

(** ** Versions under overlapping writes *)
Record cluster_inv (c : cluster) : Prop := {
  ci_distinct : NoDup ((ev_version <$> log (c_db c)) ++ ((λ t, t.1.1) <$> c_open c));
  ci_bound : Forall (λ v, 0 < v ≤ seq (c_db c))
               ((ev_version <$> log (c_db c)) ++ ((λ t, t.1.1) <$> c_open c));
  ci_seq : 0 ≤ seq (c_db c) }.

Inductive interleaved : cluster → Prop :=
| interleaved_empty : interleaved (mkCluster empty_db [])
| interleaved_step l c c' : interleaved c → tx_exec l c = Some c' → interleaved c'.

(** A committed write adds at most its own version to the log. *)
Lemma finish_log v now w key d :
  seq (finish v now w key d) = seq d
  ∧ (log (finish v now w key d) = log d
     ∨ ∃ e, ev_version e = v ∧ log (finish v now w key d) = log d ++ [e]).
Proof.
  destruct w; simpl; unfold Create_commit, Update_commit, Toggle_commit, write_row, Delete_commit;
    repeat case_match; simpl; (split; [done|]);
    first [by left | right; eexists; split; [|reflexivity]; done].
Qed.

Lemma cluster_inv_step l c c' : tx_exec l c = Some c' → cluster_inv c → cluster_inv c'.
Proof.
  intros Hl [Hn Hb Hs]. destruct l as [w|i now]; simpl in Hl.
  - destruct (begin_key w (c_db c)); simplify_eq; [|by split]. split; simpl; [| |lia].
    + rewrite fmap_app, (assoc_L (++)). apply NoDup_app. split_and!; [done| |apply NoDup_singleton].
      intros v Hv Hin. apply (Forall_forall _ _) with (x := v) in Hb; [|done]. set_solver by lia.
    + rewrite fmap_app, (assoc_L (++)). apply Forall_app. split.
      * eapply Forall_impl; [exact Hb|]. simpl. lia.
      * apply Forall_singleton. simpl. lia.
  - destruct (c_open c !! i) as [[[v w] key]|] eqn:Hi; simplify_eq/=.
    destruct (finish_log v now w key (c_db c)) as [Hseq Hlog].
    assert ((ev_version <$> log (c_db c)) ++ ((λ t, t.1.1) <$> c_open c)
            ≡ₚ ((ev_version <$> log (c_db c)) ++ [v]) ++ ((λ t, t.1.1) <$> delete i (c_open c))) as Hp.
    { rewrite <-(assoc_L (++)). f_equiv. rewrite <-(take_drop_middle _ i _ Hi) at 1.
      rewrite delete_take_drop, !fmap_app. cbn. symmetry. apply Permutation_middle. }
    rewrite Hp in Hn, Hb. split; simpl; rewrite ?Hseq; [| |done].
    + destruct Hlog as [-> |(e & <- & ->)]; [|by rewrite fmap_app].
      rewrite <-(assoc_L (++)) in Hn. eapply sublist_NoDup; [exact Hn|].
      apply sublist_app; [done|]. by apply sublist_inserts_l.
    + destruct Hlog as [-> |(e & <- & ->)]; [|by rewrite fmap_app].
      rewrite !Forall_app in *. tauto.
Qed.

Lemma interleaved_inv c : interleaved c → cluster_inv c.
Proof.
  induction 1; [|by eapply cluster_inv_step]. split; simpl; [constructor | constructor | done].
Qed.

(** ** The event log as readers see it *)

#[export] Instance version_le_total : Total version_le.
Proof. intros a b. unfold version_le. lia. Qed.
#[export] Instance version_le_trans : Transitive version_le.
Proof. intros a b c. unfold version_le. lia. Qed.

(** The log in version order. *)
Definition sorted_log (d : db) : list FlagEvent := merge_sort version_le (log d).

Lemma sorted_log_perm d : sorted_log d ≡ₚ log d.
Proof. apply merge_sort_Permutation. Qed.

Lemma sorted_le_lt (l : list FlagEvent) :
  NoDup (ev_version <$> l) → StronglySorted version_le l → StronglySorted Z.lt (ev_version <$> l).
Proof.
  intros Hn Hs. induction Hs as [|e l Hl IH He]; [constructor|]. cbn in *.
  apply NoDup_cons in Hn as [Hne Hn]. constructor; [by apply IH|].
  rewrite Forall_fmap. rewrite Forall_forall in *. intros e' Hin. specialize (He e' Hin).
  unfold version_le in He. simpl. assert (ev_version e ≠ ev_version e'); [|lia].
  intros Heq. apply Hne. rewrite Heq. by apply list_elem_of_fmap_2.
Qed.

Lemma sorted_log_ascending d :
  NoDup (ev_version <$> log d) → StronglySorted Z.lt (ev_version <$> sorted_log d).
Proof.
  intros Hn. apply sorted_le_lt; [|apply StronglySorted_merge_sort; apply _].
  unfold sorted_log. by rewrite merge_sort_Permutation.
Qed.

(** Filtering before or after the sort is the same. *)
Lemma ListEventsSince_page since limit d :
  NoDup (ev_version <$> log d) →
  ListEventsSince since limit d
  = take (Z.to_nat (clamp_limit 500 1000 limit)) (filter (λ e, since < ev_version e) (sorted_log d)).
Proof.
  intros Hn. unfold ListEventsSince. f_equal.
  apply (StronglySorted_unique_strong version_le).
  - intros e1 e2 H1 H2 H12 H21. eapply (NoDup_fmap_inj ev_version); [exact Hn|..].
    + rewrite merge_sort_Permutation in H1. apply list_elem_of_filter in H1 as [_ ?]. done.
    + apply list_elem_of_filter in H2 as [_ H2]. by rewrite sorted_log_perm in H2.
    + unfold version_le in *. lia.
  - apply StronglySorted_merge_sort; apply _.
  - apply StronglySorted_filter, StronglySorted_merge_sort; apply _.
  - rewrite merge_sort_Permutation, sorted_log_perm. done.
Qed.

Lemma interleaved_log c : interleaved c → NoDup (ev_version <$> log (c_db c)).
Proof. intros [Hn _ _]%interleaved_inv. by apply NoDup_app in Hn as [? _]. Qed.

Lemma GetLatestVersion_ub d e : e ∈ log d → ev_version e ≤ GetLatestVersion d.
Proof.
  unfold GetLatestVersion. induction (log d) as [|e0 l IH]; [set_solver|]. simpl.
  intros [->|Hin]%elem_of_cons; [lia|]. specialize (IH Hin). lia.
Qed.

Lemma sorted_lt_le (l : list FlagEvent) :
  StronglySorted Z.lt (ev_version <$> l) → StronglySorted version_le l.
Proof.
  induction l as [|e l IH]; [constructor|]. cbn. intros [Hs He]%StronglySorted_inv.
  constructor; [by apply IH|]. rewrite Forall_fmap in He. eapply Forall_impl; [exact He|].
  unfold version_le. simpl. lia.
Qed.

(** Any ascending arrangement of the log is the log in version order. *)
Lemma sorted_log_unique l d :
  StronglySorted Z.lt (ev_version <$> l) → log d ≡ₚ l → sorted_log d = l.
Proof.
  intros Hs Hp. apply (StronglySorted_unique_strong version_le).
  - intros e1 e2 H1 H2 ??. eapply (NoDup_fmap_inj ev_version l); [by apply sorted_NoDup| |done|].
    + by rewrite sorted_log_perm, Hp in H1.
    + unfold version_le in *. lia.
  - apply StronglySorted_merge_sort; apply _.
  - by apply sorted_lt_le.
  - by rewrite sorted_log_perm.
Qed.

Lemma serial_sorted_log d : serial d → sorted_log d = log d.
Proof. intros Hd%serial_inv. apply sorted_log_unique; [apply Hd | done]. Qed.

(** ** Properties *)


(** The event log's primary key is never violated.  However transactions
    interleave, committed versions are pairwise distinct, positive and never ahead
    of the sequence, so a page of [/events] is a run of distinct versions in
    ascending order, all after [since], of at most 500 events. *)
Theorem interleaved_pages_ascend (c : cluster) (since : Z) :
  interleaved c →
  let page := ListEventsSince since 0 (c_db c) in
  NoDup (ev_version <$> log (c_db c))
  ∧ StronglySorted Z.lt (ev_version <$> page)
  ∧ Forall (λ e, e ∈ log (c_db c) ∧ since < ev_version e ≤ seq (c_db c)) page
  ∧ (length page ≤ 500)%nat.
Proof.
  intros Hc. pose proof (interleaved_log c Hc) as Hn. cbn zeta.
  rewrite ListEventsSince_page by done. change (Z.to_nat (clamp_limit 500 1000 0)) with 500%nat.
  split_and!; [done| | |rewrite length_take; lia].
  - pose proof (sorted_log_ascending _ Hn) as Hs. apply sorted_le_lt.
    + rewrite fmap_take. apply NoDup_take, NoDup_fmap_filter. by rewrite sorted_log_perm.
    + apply StronglySorted_take. apply StronglySorted_filter, StronglySorted_merge_sort; apply _.
  - apply Forall_forall. intros e He. apply (subseteq_take 500) in He.
    apply list_elem_of_filter in He as [Hs He].
    rewrite sorted_log_perm in He. split_and!; [done..|].
    destruct (interleaved_inv c Hc) as [_ Hb _]. rewrite Forall_app, Forall_fmap in Hb.
    destruct Hb as [Hb _]. apply (proj1 (Forall_forall _ _) Hb e He).
Qed.

(** ** Optimistic concurrency *)
Lemma GetByID_set_row id f now d r sq lg :
  (∀ x, fc_id (f x) = fc_id x ∧ fc_key (f x) = fc_key x) → GetByID id d = Some r →
  GetByID id (mkDb sq (set_row id f now (rows d)) lg) = Some (mkRow (f (r_flag r)) (r_created r) now).
Proof.
  intros Hf. unfold GetByID, set_row. simpl. induction (rows d) as [|r0 l IH]; [done|].
  cbn [map]. rewrite !filter_cons. destruct (decide (r_id r0 = id)) as [Hid|Hid].
  - simpl. intros [= ->]. rewrite decide_True; [done|]. simpl. by destruct (Hf (r_flag r)) as [-> _].
  - by rewrite decide_False.
Qed.

(** What an update with a matching, respectively stale, expected version does. *)
Lemma Update_fresh now id u d r e :
  GetByID id d = Some r → no_fields u = false → e = fc_version (r_flag r) →
  row_ok (set_fields (seq d + 1) u (r_flag r)) = true →
  ∃ d', Update now id (mkUpdateFlagRequest u (Some e)) d
        = (Ok (Some (mkRow (set_fields (seq d + 1) u (r_flag r)) (r_created r) now)), d')
        ∧ rows d' = set_row id (set_fields (seq d + 1) u) now (rows d) ∧ seq d' = seq d + 1
        ∧ log d' = log d ++ [mkFlagEvent (seq d + 1) Updated (r_key r)
                      (FullFlag (set_fields (seq d + 1) u (r_flag r))) (fmt_time now)].
Proof.
  intros Hr Hu -> Hok. unfold Update; simpl. rewrite Hu. unfold Update_commit.
  change (GetByID id (mkDb (seq d + 1) (rows d) (log d))) with (GetByID id d). rewrite Hr. simpl.
  rewrite Z.eqb_refl. simpl. unfold write_row. rewrite Hok. eauto.
Qed.

Lemma Update_stale now id u d r e :
  GetByID id d = Some r → no_fields u = false → e ≠ fc_version (r_flag r) →
  Update now id (mkUpdateFlagRequest u (Some e)) d
  = (Err VersionConflict, mkDb (seq d + 1) (rows d) (log d)).
Proof.
  intros Hr Hu He. unfold Update; simpl. rewrite Hu. unfold Update_commit.
  change (GetByID id (mkDb (seq d + 1) (rows d) (log d))) with (GetByID id d). rewrite Hr. simpl.
  by rewrite (proj2 (Z.eqb_neq _ _)).
Qed.

Lemma handle_stale now id u h s r e :
  GetByID id (s_db s) = Some r → no_fields u = false → bad_percentage u = false →
  if_match_version h = Some e → e ≠ fc_version (r_flag r) →
  handle_UpdateFlag now id (Some u) h s
  = (writeError 409 "version_conflict" "This flag was changed by someone else. Reload and try again.",
     mkServer (mkDb (seq (s_db s) + 1) (rows (s_db s)) (log (s_db s))) (s_published s)).
Proof.
  intros Hr Hu Hb Hh He. unfold handle_UpdateFlag, UpdateFlag. simpl. rewrite Hb, Hh.
  by rewrite (Update_stale _ _ _ _ r).
Qed.

(** The optimistic guard, on both sides.  With a stale [If-Match]
    the handler answers 409 and touches neither flags, log nor subscribers (only
    a version number is burnt); with the current one it answers 200 and exactly
    one event and one envelope carry the next version. *)
Theorem if_match_guards_update (now : Z) (id : jstr) (u : UpdateFlagInput) (h : jstr) (s : server)
    (r : row) (e : Z) :
  GetByID id (s_db s) = Some r → no_fields u = false → bad_percentage u = false →
  if_match_version h = Some e → row_ok (set_fields (seq (s_db s) + 1) u (r_flag r)) = true →
  let '(res, s') := handle_UpdateFlag now id (Some u) h s in
  let v := seq (s_db s) + 1 in
  let f := set_fields v u (r_flag r) in
  seq (s_db s') = v ∧
  if e =? fc_version (r_flag r) then
    rs_status res = 200 ∧ GetByID id (s_db s') = Some (mkRow f (r_created r) now)
    ∧ log (s_db s') = log (s_db s) ++ [mkFlagEvent v Updated (r_key r) (FullFlag f) (fmt_time now)]
    ∧ s_published s' = s_published s ++ [FlagUpdated v f]
  else rs_status res = 409 ∧ rows (s_db s') = rows (s_db s) ∧ log (s_db s') = log (s_db s)
       ∧ s_published s' = s_published s.
Proof.
  intros Hr Hu Hb Hh Hok. destruct (Z.eqb_spec e (fc_version (r_flag r))) as [He|He].
  - destruct (Update_fresh now id u (s_db s) r e Hr Hu He Hok) as (d' & Hup & Hrows & Hs & Hl).
    unfold handle_UpdateFlag, UpdateFlag. simpl. rewrite Hb, Hh, Hup. simpl. split_and!; try done.
    destruct d' as [sq rs lg]; simpl in *; subst. by apply GetByID_set_row.
  - by rewrite (handle_stale now id u h s r e).
Qed.


(** ** Overlapping writes *)
Lemma set_row_twice id f g now1 now2 l :
  (∀ x, fc_id (f x) = fc_id x) →
  set_row id g now2 (set_row id f now1 l) = set_row id (g ∘ f) now2 l.
Proof.
  intros Hf. unfold set_row. rewrite map_map. apply map_ext. intros r.
  destruct (decide (r_id r = id)) as [Hr|Hr]; simpl; [|by rewrite decide_False].
  by rewrite decide_True by (by rewrite Hf).
Qed.

(** The state after two toggles of one flag that took their versions in one
    order and committed in the other. *)
Definition crossed_toggles (id : jstr) (now1 now2 : Z) : list tx_label :=
  [Begin (WToggle id); Begin (WToggle id); Finish 1 now1; Finish 0 now2].

Lemma crossed_toggles_run d r id now1 now2 :
  GetByID id d = Some r → row_ok (r_flag r) = true →
  let f1 := flip_enabled (seq d + 2) (r_flag r) in
  let f2 := flip_enabled (seq d + 1) f1 in
  tx_run (crossed_toggles id now1 now2) (mkCluster d []) = Some (mkCluster
    (mkDb (seq d + 2) (set_row id (flip_enabled (seq d + 1)) now2
                         (set_row id (flip_enabled (seq d + 2)) now1 (rows d)))
       (log d ++ [mkFlagEvent (seq d + 2) Updated (r_key r) (FullFlag f1) (fmt_time now1);
                  mkFlagEvent (seq d + 1) Updated (r_key r) (FullFlag f2) (fmt_time now2)])) []).
Proof.
  intros Hr Hok f1 f2. unfold crossed_toggles. cbn [tx_run tx_exec begin_key nextVersion mbind option_bind].
  replace (seq d + 1 + 1) with (seq d + 2) by lia. simpl.
  replace (seq d + 1 + 1) with (seq d + 2) by lia.
  unfold Toggle_commit at 2. change (GetByID id (mkDb _ (rows d) (log d))) with (GetByID id d).
  rewrite Hr. unfold write_row. change (row_ok (flip_enabled _ (r_flag r))) with (row_ok (r_flag r)).
  rewrite Hok. simpl. unfold Toggle_commit, appendEvent. simpl.
  rewrite (GetByID_set_row _ _ _ d r) by done. unfold write_row. simpl.
  change (row_ok (flip_enabled _ (flip_enabled _ (r_flag r)))) with (row_ok (r_flag r)).
  rewrite Hok. unfold appendEvent. simpl. by rewrite <-(assoc_L (++)).
Qed.

(** Versions are not commit order.  Two toggles of one flag may take
    versions [v+1] and [v+2] and commit in the opposite order; the row then ends
    with the toggle that committed last, back where it started, while the log,
    replayed by version, ends with the flag flipped. *)
Theorem crossed_toggles_diverge (d : db) (r : row) (id : jstr) (now1 now2 : Z) :
  serial d → GetByID id d = Some r →
  ∃ c, tx_run (crossed_toggles id now1 now2) (mkCluster d []) = Some c ∧ c_open c = []
    ∧ (∃ f, table_map (rows (c_db c)) !! r_key r = Some (FullFlag f)
            ∧ fc_enabled f = fc_enabled (r_flag r))
    ∧ (∃ f, log_state (sorted_log (c_db c)) !! r_key r = Some (FullFlag f)
            ∧ fc_enabled f = negb (fc_enabled (r_flag r)))
    ∧ log_state (sorted_log (c_db c)) ≠ table_map (rows (c_db c)).
Proof.
  intros Hd%serial_inv Hr. destruct (GetByID_Some _ _ _ Hr) as [Hin Hid].
  pose proof (proj1 (Forall_forall _ _) (inv_rows _ Hd) r Hin) as [Hok _].
  eexists. split; [by apply (crossed_toggles_run d r)|]. simpl.
  set (e1 := mkFlagEvent (seq d + 1) _ _ _ _). set (e2 := mkFlagEvent (seq d + 2) _ _ _ _).
  set (d' := mkDb _ _ _).
  assert (StronglySorted Z.lt (ev_version <$> (log d ++ [e1; e2]))) as Hs.
  { rewrite (app_assoc _ [e1] [e2]), fmap_app, fmap_app. cbn.
    pose proof (inv_bound _ Hd) as Hb.
    apply StronglySorted_snoc; [apply StronglySorted_snoc; [apply Hd|]|].
    - rewrite Forall_fmap. eapply Forall_impl; [exact Hb|]. simpl. lia.
    - apply Forall_app. split; [|apply Forall_singleton; lia].
      rewrite Forall_fmap. eapply Forall_impl; [exact Hb|]. simpl. lia. }
  assert (sorted_log d' = log d ++ [e1; e2]) as ->.
  { apply sorted_log_unique; [exact Hs|]. simpl. f_equiv. apply perm_swap. }
  assert (table_map (rows d') !! r_key r
          = Some (FullFlag (flip_enabled (seq d + 1) (flip_enabled (seq d + 2) (r_flag r))))) as Htab.
  { simpl. rewrite set_row_twice by done.
    rewrite (table_map_set_row id _ _ _ r); [|apply Hd|apply Hd|done|done|done].
    by rewrite lookup_insert_eq. }
  assert (log_state (log d ++ [e1; e2]) !! r_key r
          = Some (FullFlag (flip_enabled (seq d + 2) (r_flag r)))) as Hlog.
  { rewrite (app_assoc _ [e1] [e2]), log_state_snoc. unfold log_step. simpl. by rewrite lookup_insert_eq. }
  split_and!; [done| | |].
  - eexists. split; [exact Htab|]. simpl. apply negb_involutive.
  - eexists. by split.
  - intros Heq. rewrite Heq in Hlog. pose proof (eq_trans (eq_sym Hlog) Htab). simplify_eq/=. lia.
Qed.

(** ** Creating a flag *)
Lemma key_chars k : key_matches k = true → char_count k = go_len k.
Proof.
  unfold key_matches. rewrite andb_true_iff. intros [_ Hk].
  unfold char_count, go_len. induction k as [|c k IH]; [done|]. simpl in Hk.
  apply andb_true_iff in Hk as [Hc Hk]. specialize (IH Hk).
  assert (0 <= c < 128) as Hr.
  { unfold is_key_char, is_digit in Hc. repeat (apply orb_true_iff in Hc as [Hc|Hc]);
      boolify; lia. }
  rewrite filter_cons, decide_True.
  - cbn [length foldr]. unfold unit_bytes at 1. rewrite (proj2 (Z.ltb_lt _ _)) by lia. lia.
  - unfold is_low_surrogate. apply andb_false_iff. left. apply Z.leb_gt. lia.
Qed.


(** ** Reading the log over HTTP *)
Lemma Reconcile_show since d d' :
  0 ≤ since < 2 ^ 63 →
  Reconcile (show since) d d'
  = mkResponse 200 (ReconcileBody (ListEventsSince since 0 d) (GetLatestVersion d')).
Proof.
  intros Hs. unfold Reconcile. rewrite go_ParseInt_show by lia.
  rewrite (proj2 (Z.ltb_ge _ _)) by lia. case_bool_decide as E; [|done].
  pose proof (parseInt10_show since) as Hp. by rewrite E in Hp.
Qed.
End repository.
#[global] Arguments writeError st (e message)%_string_scope.

(** ** Witnesses *)
Definition demo_input : CreateFlagInput :=
  mkCreateFlagInput (js "dark-mode") (js "Dark theme") true 50 [].
Definition demo_db : db := write_db show 1000 (WCreate (js "id-1") demo_input) empty_db.
Definition demo_server : server := mkServer demo_db [].
Definition demo_row : row :=
  mkRow (mkFlagConfig (js "id-1") (js "dark-mode") (js "Dark theme") true 50 [] 1) 1000 1000.
Definition demo_update (p : Z) : UpdateFlagInput := mkUpdateFlagInput None None (Some p) None.
(** The header value ["1"], with its quotes. *)
Definition demo_if_match : jstr := [34] ++ js "1" ++ [34].

Lemma demo_serial : serial show demo_db.
Proof. apply serial_write, serial_empty. Qed.


Definition demo_open : cluster :=
  default (mkCluster empty_db []) (tx_exec show (Begin (WCreate (js "id-1") demo_input)) (mkCluster empty_db [])).
Definition demo_cluster : cluster := default demo_open (tx_exec show (Finish 0 1000) demo_open).

Lemma demo_interleaved : interleaved show demo_cluster.
Proof.
  apply (interleaved_step show (Finish 0 1000) demo_open); [|reflexivity].
  apply (interleaved_step show (Begin (WCreate (js "id-1") demo_input)) (mkCluster empty_db []));
    [apply interleaved_empty | reflexivity].
Qed.

Lemma interleaved_pages_ascend_witness :
  let page := ListEventsSince 0 0 (c_db demo_cluster) in
  NoDup (ev_version <$> log (c_db demo_cluster))
  ∧ StronglySorted Z.lt (ev_version <$> page)
  ∧ Forall (λ e, e ∈ log (c_db demo_cluster) ∧ 0 < ev_version e ≤ seq (c_db demo_cluster)) page
  ∧ (length page ≤ 500)%nat.
Proof. exact (interleaved_pages_ascend show demo_cluster 0 demo_interleaved). Defined.

Lemma if_match_guards_update_witness :
  rs_status (handle_UpdateFlag show 2000 (js "id-1") (Some (demo_update 75)) demo_if_match demo_server).1 = 200.
Proof.
  pose proof (if_match_guards_update show 2000 (js "id-1") (demo_update 75) demo_if_match demo_server
    demo_row 1) as H.
  destruct (handle_UpdateFlag _ _ _ _ _ _) as [res s'].
  apply H; vm_compute; reflexivity.
Defined.


Lemma crossed_toggles_diverge_witness :
  ∃ c, tx_run show (crossed_toggles (js "id-1") 2000 3000) (mkCluster demo_db []) = Some c ∧ c_open c = []
    ∧ (∃ f, table_map (rows (c_db c)) !! r_key demo_row = Some (FullFlag f)
            ∧ fc_enabled f = fc_enabled (r_flag demo_row))
    ∧ (∃ f, log_state (sorted_log (c_db c)) !! r_key demo_row = Some (FullFlag f)
            ∧ fc_enabled f = negb (fc_enabled (r_flag demo_row)))
    ∧ log_state (sorted_log (c_db c)) ≠ table_map (rows (c_db c)).
Proof.
  apply (crossed_toggles_diverge show demo_db demo_row (js "id-1") 2000 3000 demo_serial).
  vm_compute. reflexivity.
Defined.

