(* ===== verification/Convergence.v ===== *)
(** * The SDK against the control plane

    [EventService] is what the server promises the client about
    [GET /api/client/events]; the client's theorems are proved against it and
    [cluster_service] discharges it for every state of the server.  The
    specification of the client is the state a prefix of the log describes: the
    client holds, at version [v], exactly the replay of the events up to [v]. *)
From S2P Require Import Prelude JsMap Types Client Server.

Class EventService := {
  es_log : list FlagEvent;
  es_limit : nat;
  es_page : Z → list FlagEvent;
  es_ascending : StronglySorted Z.lt (ev_version <$> es_log);
  es_positive : Forall (λ e, 0 < ev_version e) es_log;
  es_limit_pos : (0 < es_limit)%nat;
  es_page_spec since : es_page since = take es_limit (filter (λ e, since < ev_version e) es_log) }.

Program Definition cluster_service fmt (c : cluster) (Hc : interleaved fmt c) : EventService := {|
  es_log := sorted_log (c_db c);
  es_limit := 500;
  es_page since := ListEventsSince since 0 (c_db c) |}.
Next Obligation. intros. by eapply sorted_log_ascending, interleaved_log. Qed.
Next Obligation.
  intros fmt c Hc. destruct (interleaved_inv fmt c Hc) as [_ Hb _]. simpl.
  rewrite sorted_log_perm. rewrite Forall_app, Forall_fmap in Hb. destruct Hb as [Hb _].
  eapply Forall_impl; [exact Hb|]. simpl. lia.
Qed.
Next Obligation. simpl. lia. Qed.
Next Obligation. intros fmt c Hc since. by eapply ListEventsSince_page, interleaved_log. Qed.

(** ** Replaying a sorted log *)
Lemma filter_le_gt_split (l : list FlagEvent) v :
  StronglySorted Z.lt (ev_version <$> l) →
  l = filter (λ e, ev_version e ≤ v) l ++ filter (λ e, v < ev_version e) l.
Proof.
  induction l as [|e l IH]; [done|]. cbn [fmap list_fmap]. intros [Hs He]%StronglySorted_inv.
  rewrite !filter_cons. destruct (decide (ev_version e ≤ v)) as [Hle|Hgt].
  - rewrite (decide_False (P := v < ev_version e)) by lia. cbn. f_equal. by apply IH.
  - rewrite (decide_True (P := v < ev_version e)) by lia.
    rewrite Forall_fmap in He. assert (filter (λ e, ev_version e ≤ v) l = []) as ->.
    { apply filter_none. eapply Forall_impl; [exact He|]. simpl. lia. }
    cbn. f_equal. symmetry. apply filter_all. eapply Forall_impl; [exact He|]. simpl. lia.
Qed.

Definition last_version (v : Z) (page : list FlagEvent) : Z :=
  default v (ev_version <$> last page).

Lemma to_gmap_apply m e : to_gmap (apply_log_event m e) = log_step (to_gmap m) e.
Proof. unfold apply_log_event, log_step. destruct (ev_type e); by autorewrite with fp. Qed.

Lemma to_gmap_foldl page m :
  to_gmap (foldl apply_log_event m page) = foldl log_step (to_gmap m) page.
Proof.
  revert m. induction page as [|e page IH]; intros m; [done|]. cbn [foldl]. by rewrite IH, to_gmap_apply.
Qed.

(** A page of new events is applied whole. *)
Lemma page_fold page m v adv :
  StronglySorted Z.lt (ev_version <$> page) → Forall (λ e, v < ev_version e) page →
  foldl page_step (m, v, adv) page
  = (foldl apply_log_event m page, last_version v page, adv || negb (bool_decide (page = []))).
Proof.
  revert m v adv. induction page as [|e page IH]; intros m v adv Hs Hv.
  - by rewrite orb_false_r.
  - apply Forall_cons in Hv as [He Hv]. cbn [fmap list_fmap] in Hs.
    apply StronglySorted_inv in Hs as [Hs Hlt]. rewrite Forall_fmap in Hlt.
    cbn [foldl page_step]. rewrite (proj2 (Z.leb_gt _ _)) by done. rewrite IH by done.
    rewrite orb_true_l. cbn [negb]. rewrite bool_decide_false, orb_true_r by done. f_equal. f_equal.
    unfold last_version. rewrite last_cons. by destruct (last page).
Qed.

(** Events already applied are skipped. *)
Lemma page_fold_old page m v adv :
  Forall (λ e, ev_version e ≤ v) page → foldl page_step (m, v, adv) page = (m, v, adv).
Proof.
  induction 1 as [|e page He _ IH]; [done|]. cbn [foldl page_step].
  by rewrite (proj2 (Z.leb_le _ _)).
Qed.

Section service.
Context `{EventService}.

(** The configuration the log describes at version [v]. *)
Definition state_upto (v : Z) : gmap jstr FlagObj :=
  log_state (filter (λ e, ev_version e ≤ v) es_log).

Definition backlog (v : Z) : list FlagEvent := filter (λ e, v < ev_version e) es_log.

Lemma backlog_sorted v : StronglySorted Z.lt (ev_version <$> backlog v).
Proof.
  unfold backlog. pose proof es_ascending as Hs. induction es_log as [|e l IH]; [done|].
  cbn [fmap list_fmap] in Hs. apply StronglySorted_inv in Hs as [Hs He]. rewrite filter_cons.
  case_decide; [|by apply IH]. cbn [fmap list_fmap]. constructor; [by apply IH|].
  rewrite Forall_fmap in *. by apply Forall_filter_keep.
Qed.

Lemma backlog_gt v : Forall (λ e, v < ev_version e) (backlog v).
Proof. apply Forall_forall. by intros e [? _]%list_elem_of_filter. Qed.

Lemma take_sorted (l : list FlagEvent) n :
  StronglySorted Z.lt (ev_version <$> l) → StronglySorted Z.lt (ev_version <$> take n l).
Proof. rewrite fmap_take. apply StronglySorted_take. Qed.

(** Versions of a sorted list up to and beyond the last of a prefix. *)
Lemma sorted_app (l1 l2 : list FlagEvent) :
  StronglySorted Z.lt (ev_version <$> (l1 ++ l2)) →
  ∀ e1 e2, e1 ∈ l1 → e2 ∈ l2 → ev_version e1 < ev_version e2.
Proof.
  induction l1 as [|e l1 IH]; intros Hs e1 e2 H1 H2; [set_solver|].
  cbn in Hs. apply StronglySorted_inv in Hs as [Hs He]. rewrite fmap_app in He.
  apply elem_of_cons in H1 as [->|H1]; [|by eapply IH].
  rewrite Forall_app, !Forall_fmap in He. destruct He as [_ He]. by apply (proj1 (Forall_forall _ _) He).
Qed.

(** A run of the backlog leads from one state of the specification to another. *)
Lemma state_upto_page v n :
  let page := take n (backlog v) in
  state_upto (last_version v page) = foldl log_step (state_upto v) page
  ∧ backlog (last_version v page) = drop n (backlog v)
  ∧ v ≤ last_version v page.
Proof.
  cbn zeta. set (page := take n (backlog v)).
  destruct (last page) as [e|] eqn:Hl.
  2: { apply last_None in Hl. unfold last_version. rewrite Hl. cbn. split_and!; [done| |lia].
       unfold page in Hl. rewrite <-(take_drop n (backlog v)) at 1. by rewrite Hl. }
  assert (e ∈ page) as Hin by (by apply last_Some_elem_of).
  unfold last_version. rewrite Hl. cbn.
  assert (v < ev_version e) as Hv.
  { apply (proj1 (Forall_forall _ _) (backlog_gt v)). by apply (subseteq_take n). }
  pose proof (filter_le_gt_split es_log v es_ascending) as Hlog. fold (backlog v) in Hlog.
  rewrite <-(take_drop n (backlog v)) in Hlog. fold page in Hlog.
  assert (StronglySorted Z.lt (ev_version <$> page)) as Hs
    by (apply take_sorted, backlog_sorted).
  assert (Forall (λ e', ev_version e' ≤ ev_version e) page) as Hpage.
  { clear Hlog. destruct page as [|e0 page' _] using rev_ind; [done|]. rewrite last_snoc in Hl. simplify_eq.
    apply Forall_app. split; [|by apply Forall_singleton].
    apply Forall_forall. intros e' He'. apply Z.lt_le_incl.
    apply (sorted_app _ _ Hs); [done|]. set_solver. }
  assert (Forall (λ e', ev_version e < ev_version e') (drop n (backlog v))) as Hrest.
  { clear Hs. pose proof (backlog_sorted v) as Hs. rewrite <-(take_drop n (backlog v)) in Hs.
    apply Forall_forall. intros e' He'. by apply (sorted_app _ _ Hs). }
  assert (Forall (λ e', ev_version e' ≤ v) (filter (λ e', ev_version e' ≤ v) es_log)) as Hpre.
  { apply Forall_forall. by intros e' [? _]%list_elem_of_filter. }
  unfold state_upto, backlog at 1. rewrite Hlog at 1 3.
  rewrite !filter_app. split_and!; [| |lia].
  - rewrite (filter_all _ (filter _ es_log)), (filter_all _ page), (filter_none _ (drop _ _)), app_nil_r.
    + unfold log_state. by rewrite foldl_app.
    + eapply Forall_impl; [exact Hrest|]. simpl. lia.
    + done.
    + eapply Forall_impl; [exact Hpre|]. simpl. lia.
  - rewrite (filter_none _ (filter _ es_log)), (filter_none _ page), (filter_all _ (drop _ _)).
    + done.
    + done.
    + eapply Forall_impl; [exact Hpage|]. simpl. lia.
    + eapply Forall_impl; [exact Hpre|]. simpl. lia.
Qed.

(** A page asked for at an older version overlaps what is applied by now; what
    is new in it is again a run of the backlog. *)
Lemma old_page_overlap s v n :
  s ≤ v → ∃ m, filter (λ e, v < ev_version e) (take n (backlog s)) = take m (backlog v).
Proof.
  intros Hsv. pose proof (filter_le_gt_split (backlog s) v (backlog_sorted s)) as Hsp.
  assert (filter (λ e, v < ev_version e) (backlog s) = backlog v) as Hb.
  { unfold backlog. rewrite list_filter_filter. apply list_filter_iff. intros e. lia. }
  rewrite Hb in Hsp. set (mid := filter (λ e, ev_version e ≤ v) (backlog s)) in Hsp.
  exists (n - length mid)%nat. rewrite Hsp, take_app, filter_app.
  rewrite (filter_none _ (take _ mid)), (filter_all _ (take _ (backlog v))); [done|..].
  - apply Forall_take, backlog_gt.
  - apply Forall_take, Forall_forall. intros e [? _]%list_elem_of_filter. lia.
Qed.

(** ** Synchronisation

    [in_sync w]: the client holds the configuration of its version. *)
Definition in_sync (w : world) : Prop := to_gmap (flags w) = state_upto (configVersion w).

Lemma in_sync_same w w' :
  flags w' = flags w → configVersion w' = configVersion w → in_sync w → in_sync w'.
Proof. unfold in_sync. by intros -> ->. Qed.

(** The effect of one page on flags and version. *)
Lemma page_in_sync s n w adv :
  in_sync w → s ≤ configVersion w →
  ∃ m v, foldl page_step (flags w, configVersion w, adv) (take n (backlog s))
         = (m, v, adv || negb (bool_decide (filter (λ e, configVersion w < ev_version e)
                                              (take n (backlog s)) = [])))
         ∧ to_gmap m = state_upto v ∧ configVersion w ≤ v.
Proof.
  intros Hw Hs. set (v0 := configVersion w) in *.
  pose proof (filter_le_gt_split _ v0 (take_sorted _ n (backlog_sorted s))) as Hsp.
  destruct (old_page_overlap s v0 n Hs) as [k Hk]. rewrite Hk in *.
  rewrite Hsp, foldl_app, page_fold_old by (apply Forall_forall; by intros e [? _]%list_elem_of_filter).
  rewrite page_fold; [|apply take_sorted, backlog_sorted | apply Forall_take, backlog_gt].
  destruct (state_upto_page v0 k) as (Hst & _ & Hle).
  do 2 eexists. split; [done|]. split; [|done]. by rewrite to_gmap_foldl, Hw, Hst.
Qed.

(** Applying the next event is one step of the specification. *)
Lemma next_event_state e :
  e ∈ es_log → state_upto (ev_version e) = log_step (state_upto (ev_version e - 1)) e.
Proof.
  intros He. set (v := ev_version e - 1).
  assert (backlog v = e :: backlog (ev_version e)) as Hb.
  { pose proof (filter_le_gt_split (backlog v) (ev_version e) (backlog_sorted v)) as Hsp.
    assert (filter (λ e', ev_version e < ev_version e') (backlog v) = backlog (ev_version e)) as Hb.
    { unfold backlog. rewrite list_filter_filter. apply list_filter_iff. intros e'. unfold v. lia. }
    rewrite Hb in Hsp. rewrite Hsp. change (e :: ?l) with ([e] ++ l). f_equal.
    assert (∀ e', e' ∈ filter (λ e', ev_version e' ≤ ev_version e) (backlog v) ↔ e' = e) as Hel.
    { intros e'. rewrite list_elem_of_filter. unfold backlog. rewrite list_elem_of_filter. split.
      - intros (? & ? & Hin). eapply (NoDup_fmap_inj ev_version); [|exact Hin|exact He|unfold v in *; lia].
        apply sorted_NoDup, es_ascending.
      - intros ->. unfold v. split_and!; [lia|lia|done]. }
    pose proof (backlog_sorted v) as Hs. rewrite Hsp in Hs. rewrite fmap_app in Hs.
    apply StronglySorted_app_l in Hs.
    destruct (filter _ _) as [|e1 [|e2 l]].
    - pose proof (proj2 (Hel e) eq_refl). set_solver.
    - f_equal. apply Hel. set_solver.
    - exfalso. assert (e1 = e) as -> by (apply Hel; set_solver).
      assert (e2 = e) as -> by (apply Hel; set_solver). cbn in Hs.
      apply StronglySorted_inv in Hs as [_ Hs]. apply Forall_cons in Hs as [? _]. lia. }
  destruct (state_upto_page v 1) as (Hst & _ & _). rewrite Hb in Hst. cbn in Hst. done.
Qed.

(** ** An uninterrupted reconcile

    [serve] answers the reconcile that was started last, request by request,
    as the service does; everything else in the world stands still. *)
Context (config : SDKConfig).

Definition serve_step (w : world) : option world :=
  let i := (length (tasks w) - 1)%nat in
  match last (tasks w) with
  | Some (ReconFetch _ _ _ _) => exec config (LResume i (Response 200)) w
  | Some (ReconJson _ _ _ since) => exec config (LResume i (EventsBody (es_page since))) w
  | _ => None
  end.

Fixpoint serve (n : nat) (w : world) : option world :=
  match n with
  | O => Some w
  | S n => serve_step w ≫= serve n
  end.

Lemma serve_app n m w : serve (n + m) w = serve n w ≫= serve m.
Proof.
  revert w. induction n as [|n IH]; intros w; [done|]. simpl.
  destruct (serve_step w); [apply IH | done].
Qed.

Lemma set_tasks_spawn t w : set_tasks (tasks w) (spawn t w) = w.
Proof. by destruct w. Qed.

Lemma exec_last t a w :
  exec config (LResume (length (tasks (spawn t w)) - 1) a) (spawn t w) = resume config t a w.
Proof.
  simpl. rewrite length_app. simpl.
  replace (length (tasks w) + 1 - 1)%nat with (length (tasks w)) by lia.
  rewrite lookup_app_r, Nat.sub_diag by lia. simpl.
  rewrite delete_middle, app_nil_r. by destruct w.
Qed.

Lemma last_spawn t w : last (tasks (spawn t w)) = Some t.
Proof. apply last_snoc. Qed.

Lemma serve_step_fetch p c g s w :
  serve_step (spawn (ReconFetch p c g s) w) = Some (spawn (ReconJson p c g s) w).
Proof. unfold serve_step. rewrite last_spawn. by rewrite exec_last. Qed.

Lemma serve_step_json p c g s w :
  serve_step (spawn (ReconJson p c g s) w) = Some (recon_page config p c g (es_page s) w).
Proof. unfold serve_step. rewrite last_spawn. by rewrite exec_last. Qed.

Lemma serve_round p c g w :
  g < guard_limit →
  serve 2 (recon_loop config p c g w)
  = Some (recon_page config p c g (es_page (configVersion w))
            (emit (Fetch (events_url config (configVersion w)) (sdkKey config)) w)).
Proof.
  intros Hg. unfold recon_loop. rewrite (proj2 (Z.ltb_lt _ _)) by done. cbn [serve].
  rewrite serve_step_fetch. cbn [mbind option_bind]. by rewrite serve_step_json.
Qed.

Lemma state_upto_all v : backlog v = [] → state_upto v = log_state es_log.
Proof.
  intros Hb. pose proof (filter_le_gt_split es_log v es_ascending) as Hs. fold (backlog v) in Hs.
  rewrite Hb, app_nil_r in Hs. unfold state_upto. by rewrite <-Hs.
Qed.

(** What a finished reconcile has established, from a world [w] on. *)
Record converged (c : bool) (w w' : world) : Prop := {
  conv_status : status w' = Live;
  conv_reconciling : reconciling w' = false;
  conv_flags : to_gmap (flags w') = log_state es_log;
  conv_version : backlog (configVersion w') = [] ∧ configVersion w ≤ configVersion w';
  conv_tasks : tasks w' = tasks w;
  conv_notified : c = true ∨ backlog (configVersion w) ≠ [] →
    ∃ pre, trace w' = pre ++ map (λ l, UpdateCallback l (configVersion w')) (listeners w) }.

Lemma recon_done_converged c w e :
  in_sync w → backlog (configVersion w) = [] → converged c w (recon_done c (emit e w)).
Proof.
  intros Hw Hb. split; try (unfold recon_done; destruct c; simpl; autorewrite with fp; done).
  - transitivity (to_gmap (flags w)); [|by rewrite Hw; apply state_upto_all].
    unfold recon_done. destruct c; simpl; by autorewrite with fp.
  - intros [->|]; [|done]. simpl. rewrite (frame_listeners _ _ (frame_setStatus _ _)). by eexists.
Qed.

Lemma recon_page_nonempty p c g evs w :
  evs ≠ [] →
  recon_page config p c g evs w =
  let '(m, v, advanced) := foldl page_step (flags w, configVersion w, false) evs in
  let w := set_configVersion v (set_flags m w) in
  if advanced then recon_loop config p (c || advanced) (g + 1) w
  else recon_done (c || advanced) w.
Proof. by destruct evs. Qed.

(** One round on a client that is behind applies one page of the backlog. *)
Lemma serve_round_behind p c g w :
  in_sync w → g < guard_limit → backlog (configVersion w) ≠ [] →
  ∃ w1, serve 2 (recon_loop config p c g w) = Some (recon_loop config p true (g + 1) w1)
    ∧ in_sync w1 ∧ backlog (configVersion w1) = drop es_limit (backlog (configVersion w))
    ∧ configVersion w ≤ configVersion w1 ∧ tasks w1 = tasks w ∧ listeners w1 = listeners w.
Proof.
  intros Hw Hg Hb. rewrite serve_round by done. rewrite es_page_spec. fold (backlog (configVersion w)).
  set (we := emit _ w). change (configVersion w) with (configVersion we) in Hb |- *.
  assert (in_sync we) as Hwe by done.
  pose proof (state_upto_page (configVersion we) es_limit) as (Hst & Hdrop & Hle).
  assert (take es_limit (backlog (configVersion we)) ≠ []) as Hne.
  { pose proof es_limit_pos. destruct es_limit; [lia|]. by destruct (backlog _). }
  pose proof (page_fold (take es_limit (backlog (configVersion we))) (flags we) (configVersion we) false
    (take_sorted _ _ (backlog_sorted _)) (Forall_take _ _ _ (backlog_gt _))) as Hf.
  rewrite bool_decide_false in Hf by done. cbn [orb negb] in Hf.
  rewrite recon_page_nonempty by done. rewrite Hf, orb_true_r. eexists. split; [done|]. split_and!; try done.
  red. etrans; [apply to_gmap_foldl|]. rewrite Hwe. symmetry. exact Hst.
Qed.

Lemma serve_converges k p c g w :
  in_sync w → (length (backlog (configVersion w)) ≤ k * es_limit)%nat → g + Z.of_nat k < guard_limit →
  ∃ n w', (n ≤ 2 * k + 2)%nat ∧ serve n (recon_loop config p c g w) = Some w' ∧ converged c w w'.
Proof.
  revert c g w. induction k as [|k IH]; intros c g w Hw Hk Hg.
  all: destruct (decide (backlog (configVersion w) = [])) as [Hb|Hb].
  1, 3: exists 2%nat; eexists; rewrite serve_round by lia; (split_and!; [lia|done|]);
    rewrite es_page_spec; fold (backlog (configVersion w)); rewrite Hb, take_nil; cbn [recon_page];
    by apply recon_done_converged.
  - destruct Hb. apply nil_length_inv. lia.
  - destruct (serve_round_behind p c g w Hw ltac:(lia) Hb) as (w1 & Hr & Hw1 & Hb1 & Hv1 & Ht1 & Hl1).
    destruct (IH true (g + 1) w1 Hw1) as (n & w' & Hn & Hserve & [? ? ? [? ?] ? Hnot]);
      [rewrite Hb1, length_drop; lia | lia|].
    exists (2 + n)%nat, w'. split_and!; [lia| |].
    { rewrite serve_app, Hr. done. }
    split; [done..|split; [done|lia]|congruence|]. intros _. rewrite <-Hl1. apply Hnot. by left.
Qed.

(** C3: convergence.  A client that holds the configuration of its
    version and whose backlog fits the paging loop catches up: a reconcile that
    nothing interrupts ends, after at most two requests' worth of steps per page
    and one empty page, with the client live, holding exactly the configuration
    of the whole log, with nothing left to fetch, every other call untouched,
    and, if anything was missing, every update listener called last. *)
Theorem reconcile_converges (w : world) (k : nat) :
  in_sync w → reconciling w = false →
  (length (backlog (configVersion w)) ≤ k * es_limit)%nat → Z.of_nat k < guard_limit →
  ∃ n w', (n ≤ 2 * k + 2)%nat ∧ serve n (reconcile config w) = Some w' ∧ converged false w w'.
Proof.
  intros Hw Hr Hk Hg. unfold reconcile. rewrite Hr.
  set (w1 := setStatus Reconciling (set_reconciling true w)).
  assert (configVersion w1 = configVersion w ∧ flags w1 = flags w ∧ tasks w1 = tasks w
          ∧ listeners w1 = listeners w) as (Hv & Hf & Ht & Hl).
  { unfold w1. rewrite configVersion_setStatus, flags_setStatus, tasks_setStatus.
    by rewrite (frame_listeners _ _ (frame_setStatus _ _)). }
  destruct (serve_converges k (status (set_reconciling true w)) false 0 w1) as (n & w' & Hn & Hs & Hc).
  - by eapply in_sync_same.
  - by rewrite Hv.
  - lia.
  - exists n, w'. split_and!; [done..|]. destruct Hc. rewrite Hv, Ht, Hl in *. by split.
Qed.

(** ** Any schedule, any loss, any duplication

    What an honest environment may deliver.  User calls, stream errors, failed
    and rejected requests and timers are arbitrary.  A live event is some event of
    the log, at any time, in any order, any number of times or never.  A page is a
    run of the backlog after the version it was asked for, cut anywhere, whatever
    the client has applied meanwhile.  A snapshot is the configuration of the
    version it carries, and is not older than what the client holds. *)
Inductive honest (w : world) : label → Prop :=
| honest_call l :
    match l with
    | LStreamUpdated _ _ (Some _) | LStreamDeleted _ _ (Some _)
    | LResume _ (BootBody _ _) | LResume _ (EventsBody _) => False
    | _ => True
    end → honest w l
| honest_updated es e :
    e ∈ es_log → ev_type e ≠ Deleted → obj_key (ev_payload e) = ev_flag_key e →
    honest w (LStreamUpdated es (show (ev_version e)) (Some (ev_payload e)))
| honest_deleted es e :
    e ∈ es_log → ev_type e = Deleted →
    honest w (LStreamDeleted es (show (ev_version e)) (Some (ev_flag_key e)))
| honest_snapshot i fl v :
    to_gmap (foldl (λ m f, map_set m (obj_key f) f) [] fl) = state_upto v →
    configVersion w ≤ v → honest w (LResume i (BootBody (Some fl) (Some v)))
| honest_page i p c g s n :
    tasks w !! i = Some (ReconJson p c g s) →
    honest w (LResume i (EventsBody (take n (backlog s)))).

Inductive honest_reachable : world → Prop :=
| honest_new : honest_reachable new_client
| honest_step w l w' :
    honest_reachable w → honest w l → exec config l w = Some w' → honest_reachable w'.

Definition task_since (t : task) : option Z :=
  match t with ReconFetch _ _ _ s | ReconJson _ _ _ s => Some s | _ => None end.

(** No page is awaited from a version the client has not reached. *)
Definition sinces_ok (w : world) : Prop :=
  ∀ t s, t ∈ tasks w → task_since t = Some s → s ≤ configVersion w.

(** The sinces of [w'] are those of [w], or the version of [w']. *)
Definition sinces_from (w w' : world) : Prop :=
  ∀ t s, t ∈ tasks w' → task_since t = Some s →
    (∃ t', t' ∈ tasks w ∧ task_since t' = Some s) ∨ s = configVersion w'.

Lemma sinces_same w w' : (∀ t, t ∈ tasks w' → t ∈ tasks w) → sinces_from w w'.
Proof. intros Ht t s Hin Hs. left. eauto. Qed.

Lemma sinces_spawn w w' t :
  (∀ t', t' ∈ tasks w' → t' ∈ tasks w) →
  (∀ s, task_since t = Some s → s = configVersion w' ∨ ∃ t', t' ∈ tasks w ∧ task_since t' = Some s) →
  sinces_from w (spawn t w').
Proof.
  intros Ht Hs t' s [Hin| ->%list_elem_of_singleton]%elem_of_app Hs'.
  - left. eauto.
  - destruct (Hs s Hs') as [->|?]; auto.
Qed.

Lemma sinces_from_recon_done c w w' :
  (∀ t, t ∈ tasks w' → t ∈ tasks w) → sinces_from w (recon_done c w').
Proof.
  intros Ht. apply sinces_same. unfold recon_done. destruct c; simpl; by rewrite tasks_setStatus.
Qed.

Lemma sinces_from_recon_loop p c g w w' :
  (∀ t, t ∈ tasks w' → t ∈ tasks w) → sinces_from w (recon_loop config p c g w').
Proof.
  intros Ht. unfold recon_loop. case_match; [|by apply sinces_from_recon_done].
  apply sinces_spawn; [done|]. intros s [= <-]. by left.
Qed.

Lemma sinces_from_reconcile w w' :
  (∀ t, t ∈ tasks w' → t ∈ tasks w) → sinces_from w (reconcile config w').
Proof.
  intros Ht. unfold reconcile. case_match; [by apply sinces_same|].
  apply sinces_from_recon_loop. by rewrite tasks_setStatus.
Qed.

Lemma sinces_from_applyEvent v mu w : sinces_from w (applyEvent config v mu w).
Proof.
  unfold applyEvent. case_match; [by apply sinces_same|].
  case_match; [by apply sinces_from_reconcile|].
  apply sinces_same. simpl. by rewrite tasks_setStatus.
Qed.

Lemma sinces_from_recon_page p c g evs w w' :
  (∀ t, t ∈ tasks w' → t ∈ tasks w) → sinces_from w (recon_page config p c g evs w').
Proof.
  intros Ht. destruct (decide (evs = [])) as [->|He]; [by apply sinces_from_recon_done|].
  rewrite recon_page_nonempty by done. destruct (foldl _ _ _) as [[m v] adv].
  destruct adv; [by apply sinces_from_recon_loop | by apply sinces_from_recon_done].
Qed.

Lemma tasks_connectSSE w : tasks (connectSSE config w) = tasks w.
Proof. unfold connectSSE. simpl. by destruct (closeStream_effect w) as (_ & -> & _). Qed.

Lemma tasks_init_rest w : tasks (init_rest config w) = tasks w.
Proof.
  rewrite <-(tasks_connectSSE w). unfold init_rest.
  by destruct (refreshInterval config) as [ms|]; [destruct (ms =? 0)|].
Qed.

Lemma sinces_from_resume i t a w w' :
  tasks w !! i = Some t → resume config t a (set_tasks (delete i (tasks w)) w) = Some w' →
  sinces_from w w'.
Proof.
  intros Hi Hr. set (w0 := set_tasks _ w) in Hr.
  assert (∀ t, t ∈ tasks w0 → t ∈ tasks w) as Hd.
  { intros t'. simpl. rewrite delete_take_drop, elem_of_app.
    intros [?%subseteq_take|?%subseteq_drop]; done. }
  assert (∀ s, task_since t = Some s → ∃ t', t' ∈ tasks w ∧ task_since t' = Some s) as Ht.
  { intros s Hs. exists t. split; [by eapply list_elem_of_lookup_2|done]. }
  destruct t, a; simpl in Hr; simplify_eq; try (by apply sinces_same).
  all: try (apply sinces_same; unfold recon_catch; simpl; by rewrite tasks_setStatus).
  - destruct (res_ok _); [by apply sinces_spawn | by apply sinces_same].
  - unfold boot_body. destruct fl as [fl|]; [|by apply sinces_same].
    apply sinces_spawn; [|done]. by destruct config_version.
  - apply sinces_same. by rewrite tasks_init_rest.
  - destruct (res_ok _).
    + apply sinces_spawn; [done|]. intros s [= <-]. right. by apply Ht.
    + apply sinces_same. unfold recon_not_ok. simpl. by rewrite tasks_setStatus.
  - by apply sinces_from_recon_page.
Qed.

Lemma sinces_from_exec l w w' : exec config l w = Some w' → sinces_from w w'.
Proof.
  intros Hl. destruct l; simpl in Hl; try case_decide; simplify_eq.
  all: try (by apply sinces_same). all: try (by apply sinces_from_reconcile).
  - apply sinces_spawn; [|done]. simpl. by rewrite tasks_setStatus.
  - apply sinces_same. unfold disconnect. rewrite tasks_setStatus.
    by destruct (closeStream_effect (set_manuallyClosed true w)) as (_ & -> & _).
  - apply sinces_same. unfold reconnect. by rewrite tasks_connectSSE, tasks_setStatus.
  - apply sinces_same. unfold destroy. rewrite tasks_setStatus.
    destruct (refreshTimer _); simpl;
      by destruct (closeStream_effect (set_manuallyClosed true w)) as (_ & -> & _).
  - unfold on_flag_updated. destruct data; [apply sinces_from_applyEvent | by apply sinces_same].
  - unfold on_flag_deleted. destruct data; [apply sinces_from_applyEvent | by apply sinces_same].
  - apply sinces_same. unfold onerror. case_match; [done|]. rewrite tasks_setStatus.
    by match goal with |- context [closeStreamIfClosed ?e ?x] =>
      destruct (closeStreamIfClosed_effect e x) as (_ & -> & _) end.
  - destruct (tasks w !! i) as [t|] eqn:Ht; [|done]. by eapply sinces_from_resume.
Qed.

(** What a step leaves of the flag map. *)
Lemma flags_recon_done c w : flags (recon_done c w) = flags w.
Proof. unfold recon_done. destruct c; simpl; by autorewrite with fp. Qed.

Lemma flags_recon_loop p c g w : flags (recon_loop config p c g w) = flags w.
Proof. unfold recon_loop. case_match; [done | apply flags_recon_done]. Qed.

Lemma flags_reconcile w : flags (reconcile config w) = flags w.
Proof. unfold reconcile. case_match; [done|]. rewrite flags_recon_loop. by autorewrite with fp. Qed.

Lemma flags_connectSSE w : flags (connectSSE config w) = flags w.
Proof. unfold connectSSE. simpl. by destruct (closeStream_effect w) as (-> & _). Qed.

Lemma flags_init_rest w : flags (init_rest config w) = flags w.
Proof.
  rewrite <-(flags_connectSSE w). unfold init_rest.
  by destruct (refreshInterval config) as [ms|]; [destruct (ms =? 0)|].
Qed.

Lemma in_sync_reconcile w : in_sync w → in_sync (reconcile config w).
Proof. apply in_sync_same; [apply flags_reconcile | apply version_reconcile]. Qed.

Lemma in_sync_setStatus st w : in_sync w → in_sync (setStatus st w).
Proof. apply in_sync_same; by autorewrite with fp. Qed.

Lemma in_sync_closeStream w : in_sync w → in_sync (closeStream w).
Proof. destruct (closeStream_effect w) as (? & _ & _ & _ & ? & _). by apply in_sync_same. Qed.

(** A live event of the log, whenever it arrives. *)
Lemma in_sync_applyEvent e mu w :
  e ∈ es_log → (∀ m, to_gmap (mu m) = log_step (to_gmap m) e) →
  in_sync w → in_sync (applyEvent config (ev_version e) mu w).
Proof.
  intros He Hmu Hw. unfold applyEvent. destruct (_ <=? _) eqn:H1; [done|].
  rewrite Z.gtb_ltb. destruct (_ <? _) eqn:H2; [by apply in_sync_reconcile|]. boolify.
  assert (configVersion w = ev_version e - 1) as Hv by lia.
  unfold in_sync. simpl. autorewrite with fp. simpl.
  by rewrite Hmu, next_event_state, Hw, Hv.
Qed.

Lemma eventVersion_show v w : eventVersion (show v) w = v.
Proof. unfold eventVersion. by rewrite parseInt10_show. Qed.

Lemma in_sync_page p c g s n w :
  in_sync w → s ≤ configVersion w → in_sync (recon_page config p c g (take n (backlog s)) w).
Proof.
  intros Hw Hs. destruct (page_in_sync s n w false Hw Hs) as (m & v & Hf & Hm & _).
  destruct (decide (take n (backlog s) = [])) as [->|Hne].
  { eapply in_sync_same; [apply flags_recon_done | apply version_recon_done | done]. }
  rewrite recon_page_nonempty by done. rewrite Hf.
  set (adv := false || _). clearbody adv. set (w1 := set_configVersion v (set_flags m w)).
  assert (in_sync w1) as Hw1 by done.
  destruct adv; (eapply in_sync_same; [| |exact Hw1]); rewrite
    ?flags_recon_loop, ?flags_recon_done, ?version_recon_loop, ?version_recon_done; done.
Qed.

Lemma in_sync_resume i t a w w' :
  in_sync w → sinces_ok w → tasks w !! i = Some t → honest w (LResume i a) →
  resume config t a (set_tasks (delete i (tasks w)) w) = Some w' → in_sync w'.
Proof.
  intros Hw Hs Hi Hh Hr. set (w0 := set_tasks _ w) in Hr. assert (in_sync w0) as Hw0 by done.
  destruct t, a; simpl in Hr; simplify_eq; try done.
  - by destruct (res_ok _).
  - inversion Hh; subst; [done|]. red. done.
  - eapply in_sync_same; [apply flags_init_rest | apply version_init_rest | done].
  - unfold recon_catch. by apply (in_sync_same (setStatus Reconnecting w0)), in_sync_setStatus.
  - destruct (res_ok _); [done|]. unfold recon_not_ok.
    by eapply (in_sync_same (setStatus _ w0)), in_sync_setStatus.
  - unfold recon_catch. by apply (in_sync_same (setStatus Reconnecting w0)), in_sync_setStatus.
  - inversion Hh as [| | | |? p c g s n Ht]; subst; [done|]. rewrite Hi in Ht. simplify_eq.
    apply in_sync_page; [done|]. eapply Hs; [by eapply list_elem_of_lookup_2|done].
Qed.

Lemma in_sync_exec l w w' :
  in_sync w → sinces_ok w → honest w l → exec config l w = Some w' → in_sync w'.
Proof.
  intros Hw Hs Hh Hl. destruct l; simpl in Hl; try case_decide; simplify_eq.
  all: try done. all: try (by apply in_sync_reconcile).
  - by apply (in_sync_same (setStatus Connecting w)), in_sync_setStatus.
  - unfold disconnect. by apply in_sync_setStatus, in_sync_closeStream.
  - unfold reconnect. eapply in_sync_same; [apply flags_connectSSE | apply version_connectSSE|].
    by apply in_sync_setStatus.
  - unfold destroy. apply in_sync_setStatus.
    eapply (in_sync_same (closeStream (set_manuallyClosed true w))); [| |by apply in_sync_closeStream].
    all: by destruct (refreshTimer _).
  - inversion Hh as [? Hc|? e He Hty Hkey| | |]; subst; [by destruct data|].
    unfold on_flag_updated. rewrite eventVersion_show, Hkey. apply in_sync_applyEvent; [done| |done].
    intros m. rewrite to_gmap_set. unfold log_step. by destruct (ev_type e).
  - inversion Hh as [? Hc| |? e He Hty| |]; subst; [by destruct data|].
    unfold on_flag_deleted. rewrite eventVersion_show. apply in_sync_applyEvent; [done| |done].
    intros m. rewrite to_gmap_delete. unfold log_step. by rewrite Hty.
  - unfold onerror. case_match; [done|]. apply in_sync_setStatus.
    match goal with |- context [closeStreamIfClosed ?e ?x] =>
      destruct (closeStreamIfClosed_effect e x) as (? & _ & _ & ? & _) end.
    by eapply in_sync_same.
  - destruct (tasks w !! i) as [t|] eqn:Ht; [|done]. by eapply in_sync_resume.
Qed.

Lemma honest_version l w w' :
  honest w l → exec config l w = Some w' → configVersion w ≤ configVersion w'.
Proof.
  intros Hh [?|(i & fl & v & -> & ->)]%version_step; [done|].
  by inversion Hh.
Qed.

Lemma honest_inv w : honest_reachable w → in_sync w ∧ sinces_ok w.
Proof.
  induction 1 as [|w l w' _ [IH1 IH2] Hh Hl].
  - split; [|by intros ? ? ?%elem_of_nil]. unfold in_sync, state_upto. simpl.
    rewrite filter_none; [done|]. eapply Forall_impl; [apply es_positive|]. simpl. lia.
  - split; [by eapply in_sync_exec|]. intros t s Hin Hs.
    destruct (sinces_from_exec _ _ _ Hl t s Hin Hs) as [(t' & Hin' & Hs')| ->]; [|lia].
    etrans; [by eapply IH2 | by eapply honest_version].
Qed.

(** C2: safety.  Whatever the network loses, repeats, reorders or delays,
    however the user disconnects, reconnects and destroys, and at every point of a
    reconcile, the client's flags are exactly the configuration the server had at
    the version the client reports. *)
Theorem client_is_always_a_snapshot (w : world) :
  honest_reachable w → to_gmap (flags w) = state_upto (configVersion w).
Proof. intros [Hw _]%honest_inv. exact Hw. Qed.

(** A reconcile from a state in sync, with the guard bounding the whole log. *)
Lemma reconcile_heals w :
  in_sync w → reconciling w = false → Z.of_nat (length es_log) < guard_limit →
  ∃ n w', serve n (reconcile config w) = Some w'
    ∧ status w' = Live ∧ reconciling w' = false
    ∧ to_gmap (flags w') = log_state es_log ∧ backlog (configVersion w') = []
    ∧ configVersion w ≤ configVersion w'.
Proof.
  intros Hw Hr Hlen. pose proof es_limit_pos.
  set (w1 := setStatus Reconciling (set_reconciling true w)).
  assert (in_sync w1) as Hw1 by (by apply in_sync_setStatus).
  destruct (serve_converges (length es_log) (status (set_reconciling true w)) false 0 w1)
    as (n & w' & _ & Hs & [? ? ? [? Hle] _ _]).
  - done.
  - unfold backlog. pose proof (length_filter (λ e, configVersion w1 < ev_version e) es_log).
    nia.
  - lia.
  - assert (configVersion w1 = configVersion w) as Hv by (unfold w1; by rewrite configVersion_setStatus).
    rewrite Hv in Hle. exists n, w'. unfold reconcile. rewrite Hr. done.
Qed.

(** C4: self-healing.  From any state the client can be in, if no reconcile is
    in flight then one undisturbed reconcile makes it live and equal to the
    server. *)
Theorem one_reconcile_heals (w : world) :
  honest_reachable w → reconciling w = false →
  Z.of_nat (length es_log) < guard_limit →
  ∃ n w', serve n (reconcile config w) = Some w'
    ∧ status w' = Live ∧ to_gmap (flags w') = log_state es_log ∧ backlog (configVersion w') = [].
Proof.
  intros [Hw _]%honest_inv Hr Hlen.
  destruct (reconcile_heals w Hw Hr Hlen) as (n & w' & ? & ? & _ & ? & ? & _). by exists n, w'.
Qed.
End service.

(** ** Snapshots *)
Lemma foldl_map_set_union (l : list FlagObj) (m : list (jstr * FlagObj)) :
  NoDup (obj_key <$> l) →
  to_gmap (foldl (λ m f, map_set m (obj_key f) f) m l)
  = list_to_map ((λ f, (obj_key f, f)) <$> l) ∪ to_gmap m.
Proof.
  revert m. induction l as [|f l IH]; intros m Hn; cbn [foldl fmap list_fmap list_to_map foldr].
  - symmetry. apply (left_id_L ∅ (∪)).
  - cbn [fmap list_fmap] in Hn. apply NoDup_cons in Hn as [Hf Hn]. rewrite IH, to_gmap_set by done.
    cbn [fst snd curry uncurry]. rewrite <-insert_union_l. symmetry. apply insert_union_r.
    apply not_elem_of_list_to_map. by rewrite <-list_fmap_compose.
Qed.

(** The map a bootstrap builds from the flags of a table. *)
Lemma snapshot_table (l : list row) :
  NoDup ((λ r, r_key r) <$> l) →
  to_gmap (foldl (λ m f, map_set m (obj_key f) f) [] (map FullFlag (map r_flag (merge_sort newer l))))
  = table_map l.
Proof.
  intros Hn. rewrite map_map. rewrite foldl_map_set_union.
  - change (to_gmap []) with (∅ : gmap jstr FlagObj). rewrite (right_id_L ∅ (∪)).
    unfold table_map. change (map ?f ?l) with (f <$> l). rewrite <-list_fmap_compose.
    apply list_to_map_proper.
    + rewrite <-list_fmap_compose. by rewrite merge_sort_Permutation.
    + rewrite merge_sort_Permutation. done.
  - change (map ?f ?l) with (f <$> l). rewrite <-list_fmap_compose.
    by rewrite merge_sort_Permutation.
Qed.

(** A quiet snapshot is sound.  If no write falls between the two reads
    of [GET /api/client/flags], the flags it returns are the configuration of the
    version it returns, as the client's safety needs. *)
Theorem quiet_snapshot_is_consistent fmt (c : cluster) (Hc : interleaved fmt c) (fl : list FlagConfig) (v : Z) :
  serial fmt (c_db c) →
  GetAllFlags (c_db c) (c_db c) = mkResponse 200 (ClientFlagsBody fl v) →
  to_gmap (foldl (λ m f, map_set m (obj_key f) f) [] (map FullFlag fl))
  = @state_upto (cluster_service fmt c Hc) v.
Proof.
  intros Hd [= <- <-]. pose proof (serial_inv _ _ Hd) as Hi.
  unfold Server.List. rewrite snapshot_table by apply Hi.
  rewrite <-(inv_state _ Hi), state_upto_all; simpl.
  - by rewrite (serial_sorted_log fmt).
  - unfold backlog; simpl. apply filter_none, Forall_forall. intros e He.
    rewrite sorted_log_perm in He. pose proof (GetLatestVersion_ub _ _ He). lia.
Qed.

(** C16: a torn snapshot is for ever.  If a toggle commits between the two
    reads, the client boots with the old flag and the new version: it holds the
    flag as it was, no page it can ask for contains the toggle, and a reconcile
    finds nothing to do. *)
Theorem torn_snapshot_is_permanent fmt (config : SDKConfig) (d : db) (r : row) (id : jstr) (now : Z)
    (fl : list FlagConfig) (v : Z) (w0 : world) :
  serial fmt d → GetByID id d = Some r →
  let d' := write_db fmt now (WToggle id) d in
  GetAllFlags d d' = mkResponse 200 (ClientFlagsBody fl v) →
  let w := boot_body (Some (map FullFlag fl)) (Some v) w0 in
  map_get (flags w) (r_key r) = Some (FullFlag (r_flag r))
  ∧ table_map (rows d') !! r_key r = Some (FullFlag (flip_enabled v (r_flag r)))
  ∧ configVersion w = v
  ∧ (∀ since limit, v ≤ since → ListEventsSince since limit d' = [])
  ∧ recon_page config Connecting false 0 (ListEventsSince v 0 d') w = recon_done false w.
Proof.
  intros Hd Hr d' Hg w. pose proof (serial_inv _ _ Hd) as Hi.
  destruct (GetByID_Some _ _ _ Hr) as [Hin Hid].
  pose proof (proj1 (Forall_forall _ _) (inv_rows _ Hi) r Hin) as [Hok _].
  assert (d' = mkDb (seq d + 1) (set_row id (flip_enabled (seq d + 1)) now (rows d))
    (log d ++ [mkFlagEvent (seq d + 1) Updated (r_key r)
                 (FullFlag (flip_enabled (seq d + 1) (r_flag r))) (fmt now)])) as Hd'.
  { unfold d'. simpl. unfold Toggle, Toggle_commit; simpl.
    change (GetByID id (mkDb _ (rows d) (log d))) with (GetByID id d). rewrite Hr.
    unfold write_row. change (row_ok (flip_enabled _ (r_flag r))) with (row_ok (r_flag r)).
    by rewrite Hok. }
  assert (db_inv d') as Hi' by (by apply inv_write_db).
  assert (GetLatestVersion d' = seq d + 1) as Hlatest.
  { apply Z.le_antisymm.
    - rewrite Hd'. unfold GetLatestVersion. simpl.
      pose proof (inv_bound _ Hi) as Hb. pose proof (inv_seq _ Hi).
      clear -Hb H. induction (log d) as [|e l IH]; simpl; [lia|].
      apply Forall_cons in Hb as [? ?]. specialize (IH H1). lia.
    - pose proof (GetLatestVersion_ub d' (mkFlagEvent (seq d + 1) Updated (r_key r)
        (FullFlag (flip_enabled (seq d + 1) (r_flag r))) (fmt now))) as Hub. apply Hub.
      rewrite Hd'. simpl. set_solver. }
  injection Hg as <- <-. rewrite Hlatest.
  assert (∀ since limit, seq d + 1 ≤ since → ListEventsSince since limit d' = []) as Hnil.
  { intros since limit Hs. unfold ListEventsSince. rewrite filter_none; [apply take_nil|].
    eapply Forall_impl; [apply (inv_bound _ Hi')|]. rewrite Hd'. simpl. lia. }
  split_and!; [| |done|done|by rewrite Hnil].
  - rewrite <-lookup_to_gmap. unfold w. simpl. unfold Server.List. rewrite snapshot_table by apply Hi.
    apply table_map_lookup; [apply Hi|]. eauto.
  - rewrite Hd'. simpl. rewrite (table_map_set_row id _ _ _ r); [|apply Hi|apply Hi|done|done|done].
    by rewrite lookup_insert_eq.
Qed.

(** ** Late commits *)
Definition created (id : jstr) (i : CreateFlagInput) (v : Z) : FlagConfig :=
  mkFlagConfig id (ci_key i) (ci_description i) (ci_enabled i) (ci_rollout_percentage i)
    (ci_targeted_users i) v.

Lemma GetByKey_app key d r sq lg :
  r_key r ≠ key → GetByKey key (mkDb sq (rows d ++ [r]) lg) = GetByKey key d.
Proof.
  intros Hr. unfold GetByKey. simpl. rewrite filter_app, filter_cons, decide_False by done.
  by rewrite filter_nil, app_nil_r.
Qed.

Lemma GetByID_app id d r sq lg :
  r_id r ≠ id → GetByID id (mkDb sq (rows d ++ [r]) lg) = GetByID id d.
Proof.
  intros Hr. unfold GetByID. simpl. rewrite filter_app, filter_cons, decide_False by done.
  by rewrite filter_nil, app_nil_r.
Qed.

Lemma Create_commit_ok fmt v now id i d :
  row_ok (created id i v) = true → GetByKey (ci_key i) d = None → GetByID id d = None →
  Create_commit fmt v now id i d
  = (Ok (mkRow (created id i v) now now),
     appendEvent fmt v Created (ci_key i) (FullFlag (created id i v)) now
       (mkDb (seq d) (rows d ++ [mkRow (created id i v) now now]) (log d))).
Proof.
  intros Hok Hk Hid. unfold Create_commit. fold (created id i v). by rewrite Hok, Hk, Hid.
Qed.

(** C32: a commit that comes late is never seen.  Two creations take
    versions [v+1] and [v+2] and the second commits first.  A client that has
    applied [v+2] holds no flag for the first creation; when that commits the
    table has it, but no page the client can ask for contains it and its live
    event is dropped as stale. *)
Theorem late_commit_is_lost fmt (config : SDKConfig) (d : db) (id1 id2 : jstr)
    (i1 i2 : CreateFlagInput) (now1 now2 : Z) :
  serial fmt d → GetByKey (ci_key i1) d = None → GetByKey (ci_key i2) d = None →
  GetByID id1 d = None → GetByID id2 d = None → ci_key i1 ≠ ci_key i2 → id1 ≠ id2 →
  row_ok (created id1 i1 0) = true → row_ok (created id2 i2 0) = true →
  ∃ c1 c2,
    tx_run fmt [Begin (WCreate id1 i1); Begin (WCreate id2 i2); Finish 1 now1] (mkCluster d []) = Some c1
    ∧ tx_exec fmt (Finish 0 now2) c1 = Some c2
    ∧ GetLatestVersion (c_db c1) = seq d + 2
    ∧ log_state (sorted_log (c_db c1)) !! ci_key i1 = None
    ∧ table_map (rows (c_db c2)) !! ci_key i1 = Some (FullFlag (created id1 i1 (seq d + 1)))
    ∧ (∀ since limit, seq d + 2 ≤ since → ListEventsSince since limit (c_db c2) = [])
    ∧ (∀ w o, configVersion w = seq d + 2 → on_flag_updated config (show (seq d + 1)) o w = w).
Proof.
  intros Hd Hk1 Hk2 Hi1 Hi2 Hk Hid Hok1 Hok2. pose proof (serial_inv _ _ Hd) as Hi.
  set (r1 := mkRow (created id1 i1 (seq d + 1)) now2 now2).
  set (r2 := mkRow (created id2 i2 (seq d + 2)) now1 now1).
  set (e1 := mkFlagEvent (seq d + 1) Created (ci_key i1) (FullFlag (r_flag r1)) (fmt now2)).
  set (e2 := mkFlagEvent (seq d + 2) Created (ci_key i2) (FullFlag (r_flag r2)) (fmt now1)).
  exists (mkCluster (mkDb (seq d + 2) (rows d ++ [r2]) (log d ++ [e2])) [(seq d + 1, WCreate id1 i1, [])]).
  exists (mkCluster (mkDb (seq d + 2) ((rows d ++ [r2]) ++ [r1]) ((log d ++ [e2]) ++ [e1])) []).
  pose proof (inv_bound _ Hi) as Hb. pose proof (inv_seq _ Hi) as Hseq.
  assert (seq d + 1 + 1 = seq d + 2) as Hs2 by lia.
  split_and!.
  - cbn. rewrite Hs2. rewrite Create_commit_ok by done. done.
  - cbn. rewrite Create_commit_ok; [done|done| |].
    + rewrite GetByKey_app; [done|]. simpl. congruence.
    + rewrite GetByID_app; [done|]. simpl. congruence.
  - unfold GetLatestVersion. simpl. clear -Hb Hseq. induction (log d) as [|e l IH]; simpl; [lia|].
    apply Forall_cons in Hb as [? Hb]. specialize (IH Hb). lia.
  - simpl. assert (sorted_log (mkDb (seq d + 2) (rows d ++ [r2]) (log d ++ [e2])) = log d ++ [e2]) as ->.
    { apply sorted_log_unique; [|done]. rewrite fmap_app. apply StronglySorted_snoc; [apply Hi|].
      apply Forall_fmap. eapply Forall_impl; [exact Hb|]. simpl. lia. }
    rewrite log_state_snoc, (inv_state _ Hi). unfold log_step. simpl. rewrite lookup_insert_ne by congruence.
    apply not_elem_of_list_to_map. rewrite row_entry_keys. by apply GetByKey_None.
  - simpl. apply table_map_lookup.
    + rewrite !fmap_app. cbn. apply GetByKey_None in Hk1, Hk2.
      apply NoDup_app. split_and!; [apply NoDup_app; split_and!| |apply NoDup_singleton].
      * apply Hi.
      * set_solver.
      * apply NoDup_singleton.
      * set_solver.
    + exists r1. split_and!; [set_solver|done|done].
  - intros since limit Hs. unfold ListEventsSince. rewrite filter_none; [apply take_nil|]. simpl.
    rewrite !Forall_app, !Forall_singleton. split_and!; simpl; [|lia|lia].
    eapply Forall_impl; [exact Hb|]. simpl. lia.
  - intros w o Hw. unfold on_flag_updated. rewrite eventVersion_show. destruct o; [|done].
    unfold applyEvent. by rewrite (proj2 (Z.leb_le _ _)) by lia.
Qed.

(** ** Witnesses *)
#[local] Instance demo_service : EventService := cluster_service show demo_cluster demo_interleaved.

Lemma demo_new_in_sync : in_sync new_client.
Proof. vm_compute. reflexivity. Qed.

Lemma reconcile_converges_witness :
  backlog (configVersion new_client) ≠ []
  ∧ ∃ n w', (n ≤ 4)%nat ∧ serve demo_config n (reconcile demo_config new_client) = Some w'
            ∧ converged false new_client w'.
Proof.
  split; [vm_compute; discriminate|].
  apply (reconcile_converges demo_config new_client 1 demo_new_in_sync eq_refl);
    [apply Nat.leb_le; vm_compute; reflexivity | reflexivity].
Defined.

(** The demo event arrives live on an open stream, before any reconcile. *)
Definition demo_honest_world : world :=
  default new_client (exec demo_config LReconnect new_client).

Lemma demo_honest : honest_reachable demo_config demo_honest_world.
Proof.
  apply (honest_step demo_config new_client LReconnect); [apply honest_new | by apply honest_call|].
  reflexivity.
Qed.

Lemma client_is_always_a_snapshot_witness :
  to_gmap (flags demo_honest_world) = state_upto (configVersion demo_honest_world).
Proof. exact (client_is_always_a_snapshot demo_config demo_honest_world demo_honest). Defined.

Lemma one_reconcile_heals_witness :
  ∃ n w', serve demo_config n (reconcile demo_config demo_honest_world) = Some w'
    ∧ status w' = Live ∧ to_gmap (flags w') = log_state es_log ∧ backlog (configVersion w') = [].
Proof.
  apply (one_reconcile_heals demo_config demo_honest_world demo_honest); vm_compute; reflexivity.
Defined.

Lemma demo_cluster_serial : serial show (c_db demo_cluster).
Proof.
  assert (c_db demo_cluster = demo_db) as -> by (vm_compute; reflexivity). apply demo_serial.
Qed.

Lemma quiet_snapshot_is_consistent_witness :
  to_gmap (foldl (λ m f, map_set m (obj_key f) f) []
             (map FullFlag (map r_flag (Server.List (c_db demo_cluster)))))
  = state_upto 1.
Proof.
  apply (quiet_snapshot_is_consistent show demo_cluster demo_interleaved _ _ demo_cluster_serial).
  vm_compute. reflexivity.
Defined.

Lemma torn_snapshot_is_permanent_witness :
  let d' := write_db show 2000 (WToggle (js "id-1")) demo_db in
  let w := boot_body (Some (map FullFlag (map r_flag (Server.List demo_db)))) (Some 2) new_client in
  map_get (flags w) (r_key demo_row) = Some (FullFlag (r_flag demo_row))
  ∧ table_map (rows d') !! r_key demo_row = Some (FullFlag (flip_enabled 2 (r_flag demo_row)))
  ∧ configVersion w = 2
  ∧ (∀ since limit, 2 ≤ since → ListEventsSince since limit d' = [])
  ∧ recon_page demo_config Connecting false 0 (ListEventsSince 2 0 d') w = recon_done false w.
Proof.
  apply (torn_snapshot_is_permanent show demo_config demo_db demo_row (js "id-1") 2000 _ 2 new_client
    demo_serial); vm_compute; reflexivity.
Defined.

Definition demo_input2 : CreateFlagInput := mkCreateFlagInput (js "beta") [] false 0 [].

Lemma late_commit_is_lost_witness :
  ∃ c1 c2,
    tx_run show [Begin (WCreate (js "id-2") demo_input2); Begin (WCreate (js "id-1") demo_input);
                 Finish 1 1000] (mkCluster empty_db []) = Some c1
    ∧ tx_exec show (Finish 0 2000) c1 = Some c2
    ∧ GetLatestVersion (c_db c1) = 0 + 2
    ∧ log_state (sorted_log (c_db c1)) !! js "beta" = None
    ∧ table_map (rows (c_db c2)) !! js "beta"
      = Some (FullFlag (created (js "id-2") demo_input2 (0 + 1)))
    ∧ (∀ since limit, 0 + 2 ≤ since → ListEventsSince since limit (c_db c2) = [])
    ∧ (∀ w o, configVersion w = 0 + 2 → on_flag_updated demo_config (show (0 + 1)) o w = w).
Proof.
  apply (late_commit_is_lost show demo_config empty_db (js "id-2") (js "id-1") demo_input2 demo_input
    1000 2000 (serial_empty show)); (reflexivity || (vm_compute; discriminate)).
Defined.
