(* ===== verification/ClientTypes.v ===== *)
(** * Well-formed clients

    The types of [FeatureFlagClient]'s fields promise more than the records of
    [Client] say: a [Map] has each key once, a [Set] each member once, a stream
    or timer held in a field exists.  Every reachable world keeps the promise. *)
From S2P Require Import Prelude JsMap Types Client Convergence.

Record well_typed (w : world) : Prop := {
  wt_flags : map_wf (flags w);
  wt_listeners : NoDup (listeners w);
  wt_statusListeners : NoDup (statusListeners w);
  wt_timers : NoDup (timers w) ∧ Forall (λ t, (t < nextId w)%nat) (timers w);
  wt_refreshTimer : ∀ t, refreshTimer w = Some t → t ∈ timers w }.

(** Everything but the flags is in the frame. *)
Lemma well_typed_frame w w' : frame w w' → map_wf (flags w') → well_typed w → well_typed w'.
Proof. intros [_ Hn Ht Hr _ Hl Hs _] Hf [_ ? ? ? ?]. split; rewrite ?Hn, ?Ht, ?Hr, ?Hl, ?Hs; done. Qed.

Lemma well_typed_same w w' :
  flags w' = flags w → listeners w' = listeners w → statusListeners w' = statusListeners w →
  timers w' = timers w → refreshTimer w' = refreshTimer w → (nextId w ≤ nextId w')%nat →
  well_typed w → well_typed w'.
Proof.
  intros Hf Hl Hs Ht Hr Hn [? ? ? [? Hb] ?]. split; rewrite ?Hf, ?Hl, ?Hs, ?Ht, ?Hr; try done. split; [done|].
  eapply Forall_impl; [exact Hb|]. simpl. lia.
Qed.

(** ** The flag map *)
Lemma wf_log_event m ev : map_wf m → map_wf (apply_log_event m ev).
Proof. unfold apply_log_event. destruct (ev_type ev); auto using map_wf_set, map_wf_delete. Qed.

Lemma wf_page evs m v adv : map_wf m → map_wf (foldl page_step (m, v, adv) evs).1.1.
Proof.
  revert m v adv. induction evs as [|ev evs IH]; intros m v adv Hm; [done|]. cbn [foldl]. unfold page_step at 2.
  destruct (ev_version ev <=? v); [by apply IH|]. by apply IH, wf_log_event.
Qed.

Lemma wf_snapshot fl m : map_wf m → map_wf (foldl (λ m f, map_set m (obj_key f) f) m fl).
Proof. revert m. induction fl as [|f fl IH]; intros m Hm; [done|]. cbn. by apply IH, map_wf_set. Qed.

Section client.
Context (config : SDKConfig).

Lemma wf_applyEvent v mu w :
  (∀ m, map_wf m → map_wf (mu m)) → map_wf (flags w) → map_wf (flags (applyEvent config v mu w)).
Proof.
  intros Hmu Hw. unfold applyEvent. destruct (v <=? _); [done|]. destruct (v >? _); [by rewrite flags_reconcile|].
  cbn [notifyListeners flags set_trace]. rewrite flags_setStatus. by apply Hmu.
Qed.

Lemma wf_recon_page p c g evs w : map_wf (flags w) → map_wf (flags (recon_page config p c g evs w)).
Proof.
  intros Hw. destruct evs as [|ev evs]; cbn [recon_page]; [by rewrite flags_recon_done|].
  pose proof (wf_page (ev :: evs) (flags w) (configVersion w) false Hw) as Hf.
  destruct (foldl _ _ _) as [[m v] adv]. cbn in Hf.
  destruct adv; [rewrite flags_recon_loop|rewrite flags_recon_done]; done.
Qed.

Lemma well_typed_init_rest w : well_typed w → well_typed (init_rest config w).
Proof.
  intros Hw. assert (well_typed (connectSSE config w)) as [Hf Hl Hs [Ht Hb] Hr].
  { unfold connectSSE, closeStream. eapply well_typed_same; [..|exact Hw]; destruct (eventSource w); cbn; auto. }
  unfold init_rest. destruct (refreshInterval config) as [ms|]; [destruct (ms =? 0)|]; try by split.
  split; cbn; try done.
  - split.
    + apply NoDup_app. split_and!; [done| |apply NoDup_singleton]. intros t Hin ->%list_elem_of_singleton.
      rewrite Forall_forall in Hb. specialize (Hb _ Hin). cbn in Hb. lia.
    + apply Forall_app. split; [eapply Forall_impl; [exact Hb|]; cbn; lia|]. apply Forall_cons_2; [lia|apply Forall_nil_2].
  - intros t [= <-]. set_solver.
Qed.

Lemma well_typed_resume t a w w' : resume config t a w = Some w' → well_typed w → well_typed w'.
Proof.
  intros Hr Hw. pose proof (wt_flags w Hw) as Hf. destruct t, a; cbn in Hr; simplify_eq.
  all: try (by apply well_typed_init_rest).
  all: try (destruct (res_ok _)).
  all: eapply well_typed_frame; [| |exact Hw]; eauto using frame_boot_body with fp; try by split.
  all: try done; try (unfold recon_catch, recon_not_ok; cbn; by rewrite flags_setStatus); try (by apply wf_recon_page).
  unfold boot_body. destruct fl as [fl|]; [|apply map_wf_nil].
  destruct config_version; cbn; apply wf_snapshot, map_wf_nil.
Qed.

Lemma well_typed_exec l w w' : exec config l w = Some w' → well_typed w → well_typed w'.
Proof.
  intros He Hw. pose proof Hw as [Hf Hl Hs [Ht Hb] Hr].
  destruct l as [| | | | |x|x|x|x|es|es id data|es id data|es gaveUp|t|i a]; cbn [exec] in He; try case_decide; simplify_eq.
  - unfold init. eapply well_typed_frame; [| |exact Hw].
    + etrans; [apply (frame_setStatus Connecting)|by split].
    + cbn. by rewrite flags_setStatus.
  - unfold disconnect. eapply well_typed_frame; [apply frame_setStatus|rewrite flags_setStatus|].
    all: unfold closeStream; destruct (eventSource _); try done; by split.
  - unfold reconnect, connectSSE, closeStream.
    assert (well_typed (setStatus Reconnecting (set_manuallyClosed false w))) as H1.
    { eapply well_typed_frame; [apply frame_setStatus|by rewrite flags_setStatus|by split]. }
    eapply well_typed_same; [..|exact H1]; destruct (eventSource _); cbn; auto.
  - unfold destroy. set (w1 := closeStream _).
    assert (well_typed w1) as [Hf1 Hl1 Hs1 [Ht1 Hb1] Hr1] by (unfold w1, closeStream; destruct (eventSource _); by split).
    eapply well_typed_frame; [apply frame_setStatus|rewrite flags_setStatus|].
    all: destruct (refreshTimer w1) as [t|] eqn:E; cbn; try done.
    + split; cbn; try done; try apply NoDup_nil_2. split; [by apply NoDup_filter|by apply Forall_filter_keep].
    + split; cbn; try done; try apply NoDup_nil_2. by rewrite E.
  - eapply well_typed_frame; [apply frame_reconcile|by rewrite flags_reconcile|done].
  - split; cbn; try done. unfold set_add. case_decide; [done|]. apply NoDup_app. split_and!; [done|set_solver|apply NoDup_singleton].
  - split; cbn; try done. by apply NoDup_filter.
  - split; cbn; try done. unfold set_add. case_decide; [done|]. apply NoDup_app. split_and!; [done|set_solver|apply NoDup_singleton].
  - split; cbn; try done. by apply NoDup_filter.
  - eapply well_typed_frame; [apply frame_reconcile|by rewrite flags_reconcile|by split].
  - eapply well_typed_frame; [apply frame_on_flag_updated| |done]. unfold on_flag_updated. destruct data; [|done].
    apply wf_applyEvent; [|done]. intros. by apply map_wf_set.
  - eapply well_typed_frame; [apply frame_on_flag_deleted| |done]. unfold on_flag_deleted. destruct data; [|done].
    apply wf_applyEvent; [|done]. intros. by apply map_wf_delete.
  - unfold onerror. destruct (manuallyClosed _); [by split|].
    eapply well_typed_frame; [apply frame_setStatus|rewrite flags_setStatus|].
    all: unfold closeStreamIfClosed; case_decide; try done; by split.
  - eapply well_typed_frame; [apply frame_reconcile|by rewrite flags_reconcile|by split].
  - destruct (tasks w !! i) as [t|]; [|done]. eapply well_typed_resume; [exact He|]. by split.
Qed.

(** C27: the client's fields keep their types.  In every reachable world the flag
    map has each key once and so answers [get] with the entry it iterates over,
    the two listener sets have each member once, timers are distinct and the one
    to clear is running, and the stream held is one that was opened. *)
Theorem client_well_typed (w : world) :
  reachable config w →
  well_typed w
  ∧ (∀ k o, (k, o) ∈ flags w ↔ map_get (flags w) k = Some o)
  ∧ (∀ es, eventSource w = Some es → is_Some (sources w !! es)).
Proof.
  intros Hr. assert (well_typed w) as Hw.
  { assert (well_typed new_client) as H0 by (split; cbn; [apply map_wf_nil|apply NoDup_nil_2..|split; [apply NoDup_nil_2|done]|done]).
    unfold reachable in Hr. revert H0. induction Hr as [w|w1 w2 w3 [l Hl] _ IH]; eauto using well_typed_exec. }
  split_and!; [done| |].
  - intros k o. split; [apply map_get_wf, Hw|apply map_get_elem].
  - apply (inv_held w (streams_reachable config w Hr)).
Qed.
End client.

Definition two_writes : list label :=
  [LOnUpdate 1; LOnUpdate 1; LInit; LResume 0 (Response 200);
   LResume 0 (BootBody (Some [KeyOnly (js "a"); KeyOnly (js "b"); KeyOnly (js "a")]) (Some 3)); LResume 0 Settled].

Lemma client_well_typed_witness :
  let w := world_after two_writes in
  map_keys (flags w) = [js "a"; js "b"] ∧ listeners w = [1%nat] ∧ timers w = [1%nat]
  ∧ well_typed w
  ∧ (∀ k o, (k, o) ∈ flags w ↔ map_get (flags w) k = Some o)
  ∧ (∀ es, eventSource w = Some es → is_Some (sources w !! es)).
Proof.
  intros w. split; [vm_compute; reflexivity|]. split; [vm_compute; reflexivity|]. split; [vm_compute; reflexivity|].
  apply (client_well_typed demo_config w). apply world_after_reachable; vm_compute; discriminate.
Defined.
