(* ===== verification/Broker.v ===== *)
(** * The stream broker ([internal/sse/broker.go], [internal/sse/wire.go])

    One node of the control plane: the goroutine [Run] that owns the set of
    clients, the connection handlers [ServeHTTP], and the callers of
    [Broadcast], [ClientCount] and [Shutdown].  A channel without a buffer is a
    rendezvous, so a step of [Run] and the step of the goroutine it meets are
    one transition; everything else a handler does is a transition of its own.
    A send on a closed channel and a second [close] are the outcome [Panic]. *)
From S2P Require Import Prelude.

Record SSEEvent := mkSSEEvent { Event : jstr; Data : jstr; Version : Z }.

#[export] Instance SSEEvent_eq_dec : EqDecision SSEEvent.
Proof. solve_decision. Defined.

(** Where a handler is in [ServeHTTP]: before the first flush, at the [select]
    on [register], before the greeting, in the loop, at the deferred [select]
    on [unregister], and returned. *)
Inductive pc := Flushing | Registering | Greeting | Looping | Leaving | Exited.

#[export] Instance pc_eq_dec : EqDecision pc.
Proof. solve_decision. Defined.

(** What a handler writes to its response. *)
Inductive chunk := StreamHeaders | Unsupported | Comment (text : jstr) | Frame (e : SSEEvent).

(** A handler with its channel [make(chan SSEEvent, 16)].  [c_joined] counts
    the events broadcast before it registered; no code reads it. *)
Record conn := mkConn {
  c_pc : pc; c_buf : list SSEEvent; c_closed : bool; c_out : list chunk; c_joined : nat }.

(** [n_clients] is [Broker.clients], a channel named by the index of its
    connection; [n_shutdown] and [n_done] are the channels of that name, closed
    or not.  [n_history] lists the events [Run] has fanned out; no code reads it. *)
Record node := mkNode {
  n_clients : gset nat; n_shutdown : bool; n_done : bool;
  n_conns : list conn; n_history : list SSEEvent }.

Definition NewBroker : node := mkNode ∅ false false [] [].

Inductive outcome (A : Type) := Next (a : A) | Panic.
Arguments Next {A} a.
Arguments Panic {A}.

Definition chan_cap : nat := 16.

Definition goto (p : pc) (c : conn) : conn := mkConn p (c_buf c) (c_closed c) (c_out c) (c_joined c).
Definition write_out (x : chunk) (c : conn) : conn :=
  mkConn (c_pc c) (c_buf c) (c_closed c) (c_out c ++ [x]) (c_joined c).
Definition push_buf (e : SSEEvent) (c : conn) : conn :=
  mkConn (c_pc c) (c_buf c ++ [e]) (c_closed c) (c_out c) (c_joined c).
Definition set_buf (l : list SSEEvent) (c : conn) : conn :=
  mkConn (c_pc c) l (c_closed c) (c_out c) (c_joined c).
Definition join_at (k : nat) (c : conn) : conn :=
  mkConn (c_pc c) (c_buf c) (c_closed c) (c_out c) k.

(** [close(client)] *)
Definition chan_close (c : conn) : outcome conn :=
  if c_closed c then Panic else Next (mkConn (c_pc c) (c_buf c) true (c_out c) (c_joined c)).

(** [select { case client <- event: default: }]; [None] is the default. *)
Definition try_send (e : SSEEvent) (c : conn) : outcome (option conn) :=
  if c_closed c then Panic
  else Next (if decide (length (c_buf c) < chan_cap)%nat then Some (push_buf e c) else None).

Definition set_conn (i : nat) (c : conn) (n : node) : node :=
  mkNode (n_clients n) (n_shutdown n) (n_done n) (<[i:=c]> (n_conns n)) (n_history n).
Definition set_clients (s : gset nat) (n : node) : node :=
  mkNode s (n_shutdown n) (n_done n) (n_conns n) (n_history n).

(** [delete(b.clients, client); close(client)] *)
Definition drop_client (i : nat) (c : conn) (n : node) : outcome node :=
  match chan_close c with
  | Panic => Panic
  | Next c => Next (set_conn i c (set_clients (n_clients n ∖ {[i]}) n))
  end.

(** The body of [for client := range b.clients] in a broadcast. *)
Definition offer (e : SSEEvent) (i : nat) (n : node) : outcome node :=
  match n_conns n !! i with
  | None => Next n
  | Some c => match try_send e c with
              | Panic => Panic
              | Next (Some c) => Next (set_conn i c n)
              | Next None => drop_client i c n
              end
  end.

(** The same in a drain. *)
Definition drain_one (i : nat) (n : node) : outcome node :=
  match n_conns n !! i with
  | None => Next n
  | Some c => drop_client i c n
  end.

Fixpoint for_each (f : nat → node → outcome node) (l : list nat) (n : node) : outcome node :=
  match l with
  | [] => Next n
  | i :: l => match f i n with Next n => for_each f l n | Panic => Panic end
  end.

(** ** Cases of [Run] *)
Definition run_register (i : nat) (c : conn) (n : node) : node :=
  set_conn i (join_at (length (n_history n)) (goto Greeting c)) (set_clients ({[i]} ∪ n_clients n) n).

Definition run_unregister (i : nat) (c : conn) (n : node) : outcome node :=
  if decide (i ∈ n_clients n) then drop_client i (goto Exited c) n
  else Next (set_conn i (goto Exited c) n).

(** [order] is the order in which [range] visits the map. *)
Definition run_broadcast (e : SSEEvent) (order : list nat) (n : node) : outcome node :=
  for_each (offer e) order
    (mkNode (n_clients n) (n_shutdown n) (n_done n) (n_conns n) (n_history n ++ [e])).

Definition run_drain (order : list nat) (n : node) : outcome node :=
  match for_each drain_one order n with
  | Panic => Panic
  | Next n => Next (mkNode (n_clients n) (n_shutdown n) true (n_conns n) (n_history n))
  end.

Definition ClientCount (n : node) : nat := if n_done n then 0 else size (n_clients n).

(** ** The handler's own steps *)

(** [rc.Flush()] commits the headers, before the channel is registered. *)
Definition first_flush (ok : bool) (c : conn) : conn :=
  if ok then goto Registering (write_out StreamHeaders c)
  else goto Exited (write_out Unsupported c).

Definition greet (c : conn) : conn := goto Looping (write_out (Comment (js " connected")) c).

(** A frame or a heartbeat, then [rc.Flush()]. *)
Definition deliver (x : chunk) (flushed : bool) (c : conn) : conn :=
  let c := write_out x c in if flushed then c else goto Leaving c.

(** [case event, ok := <-client]; [None] when the channel is empty and open. *)
Definition receive (flushed : bool) (c : conn) : option conn :=
  match c_buf c with
  | e :: l => Some (deliver (Frame e) flushed (set_buf l c))
  | [] => if c_closed c then Some (goto Leaving c) else None
  end.

(** ** Transitions *)
Inductive label :=
| Connect
| FirstFlush (i : nat) (ok : bool)
| Register (i : nat)
| Greet (i : nat)
| Receive (i : nat) (flushed : bool)
| Heartbeat (i : nat) (flushed : bool)
| Quit (i : nat)                      (* the request's context ended, or the idle timer fired *)
| Unregister (i : nat)
| Broadcast (e : SSEEvent) (order : list nat)
| RequestShutdown
| Drain (order : list nat).

(** Handler [i], when it is at [p]. *)
Definition at_pc (p : pc) (i : nat) (n : node) : option conn :=
  c ← n_conns n !! i; if decide (c_pc c = p) then Some c else None.

Definition exec (l : label) (n : node) : option (outcome node) :=
  match l with
  | Connect =>
      Some (Next (mkNode (n_clients n) (n_shutdown n) (n_done n)
                    (n_conns n ++ [mkConn Flushing [] false [] 0]) (n_history n)))
  | FirstFlush i ok => c ← at_pc Flushing i n; Some (Next (set_conn i (first_flush ok c) n))
  | Register i =>
      c ← at_pc Registering i n;
      Some (Next (if n_done n then set_conn i (goto Exited c) n else run_register i c n))
  | Greet i => c ← at_pc Greeting i n; Some (Next (set_conn i (greet c) n))
  | Receive i flushed =>
      c ← at_pc Looping i n; c ← receive flushed c; Some (Next (set_conn i c n))
  | Heartbeat i flushed =>
      c ← at_pc Looping i n;
      Some (Next (set_conn i (deliver (Comment (js " heartbeat")) flushed c) n))
  | Quit i => c ← at_pc Looping i n; Some (Next (set_conn i (goto Leaving c) n))
  | Unregister i =>
      c ← at_pc Leaving i n;
      Some (if n_done n then Next (set_conn i (goto Exited c) n) else run_unregister i c n)
  | Broadcast e order =>
      if n_done n then Some (Next n)
      else if decide (order ≡ₚ elements (n_clients n)) then Some (run_broadcast e order n) else None
  | RequestShutdown =>
      Some (Next (mkNode (n_clients n) true (n_done n) (n_conns n) (n_history n)))
  | Drain order =>
      if n_shutdown n && negb (n_done n)
      then if decide (order ≡ₚ elements (n_clients n)) then Some (run_drain order n) else None
      else None
  end.

Definition step (n n' : node) : Prop := ∃ l, exec l n = Some (Next n').
Definition reachable (n : node) : Prop := rtc step NewBroker n.

Fixpoint run (ls : list label) (n : node) : option (outcome node) :=
  match ls with
  | [] => Some (Next n)
  | l :: ls => match exec l n with
               | Some (Next n) => run ls n
               | r => r
               end
  end.

(** ** The text on the wire *)
Definition newline : Z := 10.

Definition frame_text (e : SSEEvent) : list Z :=
  (if Version e >? 0 then js "id: " ++ show (Version e) ++ [newline] else [])
  ++ js "event: " ++ Event e ++ [newline] ++ js "data: " ++ Data e ++ [newline; newline].

Definition chunk_text (x : chunk) : list Z :=
  match x with
  | StreamHeaders => []
  | Unsupported => js "Streaming unsupported" ++ [newline]
  | Comment t => js ":" ++ t ++ [newline; newline]
  | Frame e => frame_text e
  end.

Definition body_text (c : conn) : list Z := c_out c ≫= chunk_text.

(** ** What a connection was sent *)
Definition frame_of (x : chunk) : option SSEEvent :=
  match x with Frame e => Some e | _ => None end.
Definition delivered (c : conn) : list SSEEvent := omap frame_of (c_out c).

(** Everything [Run] put into the channel: what is written, then what waits. *)
Definition taken (c : conn) : list SSEEvent := delivered c ++ c_buf c.
Definition offered (c : conn) (n : node) : list SSEEvent := drop (c_joined c) (n_history n).

(** ** The invariant *)

(** The handler of a registered channel is between its two [select]s. *)
Definition in_service (p : pc) : bool :=
  match p with Greeting | Looping | Leaving => true | _ => false end.

Record conn_ok (i : nat) (n : node) (c : conn) : Prop := {
  ok_client : i ∈ n_clients n → in_service (c_pc c) = true ∧ c_closed c = false;
  ok_fresh : c_pc c = Flushing ∨ c_pc c = Registering →
             c_closed c = false ∧ taken c = [] ∧ c_joined c = 0%nat;
  ok_dropped : in_service (c_pc c) = true → i ∉ n_clients n → c_closed c = true;
  ok_cap : (length (c_buf c) ≤ chan_cap)%nat;
  ok_whole : i ∈ n_clients n → taken c = offered c n;
  ok_prefix : taken c `prefix_of` offered c n;
  ok_joined : (c_joined c ≤ length (n_history n))%nat }.

Record node_ok (n : node) : Prop := {
  ok_conns : ∀ i c, n_conns n !! i = Some c → conn_ok i n c;
  ok_known : ∀ i, i ∈ n_clients n → is_Some (n_conns n !! i);
  ok_done : n_done n = true → n_clients n = ∅ }.

(** A connection's invariant looks at its membership and at the history. *)
Lemma conn_ok_frame i n n' c :
  (i ∈ n_clients n' ↔ i ∈ n_clients n) → n_history n' = n_history n → conn_ok i n c → conn_ok i n' c.
Proof. unfold offered. intros Hi Hh []; split; unfold offered in *; rewrite ?Hi, ?Hh; auto. Qed.

Lemma conns_set_conn i c n j :
  is_Some (n_conns n !! i) →
  n_conns (set_conn i c n) !! j = if decide (j = i) then Some c else n_conns n !! j.
Proof.
  intros [c0 Hi]. cbn. case_decide as Hj; [subst; eapply list_lookup_insert_eq, lookup_lt_Some, Hi|].
  by apply list_lookup_insert_ne.
Qed.

(** One connection moves, its membership with it. *)
Lemma node_ok_set i c S n :
  node_ok n → is_Some (n_conns n !! i) → (∀ j, j ≠ i → j ∈ S ↔ j ∈ n_clients n) →
  (n_done n = true → S = ∅) → conn_ok i (set_clients S n) c →
  node_ok (set_conn i c (set_clients S n)).
Proof.
  intros [Hc Hk Hd] Hi HS HdS Hok. split.
  - intros j cj. rewrite conns_set_conn by done. case_decide as Hj; [intros [= <-]; subst|intros Hcj].
    + eapply conn_ok_frame; [| |exact Hok]; done.
    + eapply conn_ok_frame; [| |by apply Hc]; [by apply HS|done].
  - intros j Hj. rewrite conns_set_conn by done. case_decide; [by eexists|]. by apply Hk, HS.
  - done.
Qed.

Lemma node_ok_move i c c' n :
  node_ok n → n_conns n !! i = Some c → conn_ok i n c' → node_ok (set_conn i c' n).
Proof.
  intros Hn Hi Hc. replace n with (set_clients (n_clients n) n) at 1 by (by destruct n).
  apply node_ok_set; [done|by eexists|done|by apply ok_done|]. by destruct n.
Qed.

(** ** The loops of [Run] over its clients *)
Definition close_conn (c : conn) : conn := mkConn (c_pc c) (c_buf c) true (c_out c) (c_joined c).
Definition has_room (c : conn) : bool := bool_decide (length (c_buf c) < chan_cap)%nat.
Definition offer_conn (e : SSEEvent) (c : conn) : conn := if has_room c then push_buf e c else close_conn c.

Section loops.
Context (f : nat → node → outcome node) (g : conn → conn) (keep : conn → bool).
Hypothesis f_open : ∀ i n c, n_conns n !! i = Some c → c_closed c = false →
  f i n = Next (set_conn i (g c) (set_clients (if keep c then n_clients n else n_clients n ∖ {[i]}) n)).

(** On open channels the loop does not panic, and what it does to one does not
    depend on the order it visits them in. *)
Lemma for_each_open l n :
  NoDup l → (∀ i, i ∈ l → ∃ c, n_conns n !! i = Some c ∧ c_closed c = false) →
  ∃ n', for_each f l n = Next n'
  ∧ n_shutdown n' = n_shutdown n ∧ n_done n' = n_done n ∧ n_history n' = n_history n
  ∧ (∀ j, n_conns n' !! j = if decide (j ∈ l) then g <$> n_conns n !! j else n_conns n !! j)
  ∧ (∀ j, j ∈ n_clients n' ↔ j ∈ n_clients n ∧ (j ∈ l → (keep <$> n_conns n !! j) = Some true)).
Proof.
  revert n. induction l as [|i l IH]; intros n Hl Hc.
  - exists n. split_and!; try done; set_solver.
  - apply NoDup_cons in Hl as [Hi Hl]. destruct (Hc i ltac:(set_solver)) as (c & Hci & Hop).
    cbn [for_each]. rewrite (f_open i n c Hci Hop). set (n1 := set_conn i (g c) _).
    assert (∀ j, j ≠ i → n_conns n1 !! j = n_conns n !! j) as Hne.
    { intros j Hj. unfold n1. rewrite conns_set_conn by (by eexists). by rewrite decide_False. }
    assert (n_conns n1 !! i = Some (g c)) as Heq.
    { unfold n1. rewrite conns_set_conn by (by eexists). by rewrite decide_True. }
    destruct (IH n1 Hl) as (n' & -> & Hs & Hd & Hh & Hcs & Hm).
    { intros j Hj. rewrite Hne by congruence. apply Hc. set_solver. }
    exists n'. split_and!; try done.
    + intros j. rewrite Hcs. destruct (decide (j = i)) as [->|Hj].
      * rewrite decide_False, Heq, decide_True, Hci by set_solver. done.
      * rewrite Hne by done. repeat case_decide; set_solver.
    + intros j. rewrite Hm. destruct (decide (j = i)) as [->|Hj].
      * rewrite Hci. unfold n1. cbn. destruct (keep c); set_solver.
      * rewrite Hne by done. unfold n1. cbn. destruct (keep c); set_solver.
Qed.
End loops.

Lemma offer_open e i n c :
  n_conns n !! i = Some c → c_closed c = false →
  offer e i n = Next (set_conn i (offer_conn e c)
                        (set_clients (if has_room c then n_clients n else n_clients n ∖ {[i]}) n)).
Proof.
  intros Hi Ho. unfold offer, try_send, drop_client, chan_close, offer_conn, has_room, close_conn.
  rewrite Hi, Ho. case_decide; [|by rewrite bool_decide_false]. rewrite bool_decide_true by done. by destruct n.
Qed.

Lemma drain_open i n c :
  n_conns n !! i = Some c → c_closed c = false →
  drain_one i n = Next (set_conn i (close_conn c)
                          (set_clients (if false then n_clients n else n_clients n ∖ {[i]}) n)).
Proof. intros Hi Ho. unfold drain_one, drop_client, chan_close. by rewrite Hi, Ho. Qed.

(** The channels in [clients] are open. *)
Lemma clients_open n order :
  node_ok n → order ≡ₚ elements (n_clients n) →
  NoDup order ∧ (∀ j, j ∈ order ↔ j ∈ n_clients n)
  ∧ ∀ i, i ∈ order → ∃ c, n_conns n !! i = Some c ∧ c_closed c = false.
Proof.
  intros Hn Ho. assert (∀ j, j ∈ order ↔ j ∈ n_clients n) as He by (intros j; rewrite Ho; apply elem_of_elements).
  split; [rewrite Ho; apply NoDup_elements|]. split; [done|].
  intros i Hi%He. destruct (ok_known n Hn i Hi) as [c Hc]. exists c. split; [done|].
  by apply (ok_client i n c (ok_conns n Hn i c Hc)).
Qed.

(** ** Every transition keeps the invariant, and none panics *)
Lemma conn_ok_moves i n c c' :
  conn_ok i n c → taken c' = taken c → (length (c_buf c') ≤ length (c_buf c))%nat →
  c_closed c' = c_closed c → c_joined c' = c_joined c →
  (i ∈ n_clients n → in_service (c_pc c') = true) →
  (in_service (c_pc c') = true → in_service (c_pc c) = true) →
  (c_pc c' = Flushing ∨ c_pc c' = Registering → c_pc c = Flushing ∨ c_pc c = Registering) →
  conn_ok i n c'.
Proof.
  intros [] Ht Hb Hc Hj Hin Hs Hf. split; unfold offered in *; rewrite ?Ht, ?Hc, ?Hj; auto.
  - intros Hi. split; [auto|]. naive_solver.
  - lia.
Qed.

Lemma taken_write x c : frame_of x = None → taken (write_out x c) = taken c.
Proof. intros Hx. unfold taken, delivered. cbn. rewrite omap_app. cbn. by rewrite Hx, app_nil_r. Qed.

Lemma taken_pop e l c : c_buf c = e :: l → taken (write_out (Frame e) (set_buf l c)) = taken c.
Proof. intros Hb. unfold taken, delivered. cbn. by rewrite omap_app, Hb, <-app_assoc. Qed.

Lemma at_pc_Some p i n c : at_pc p i n = Some c → n_conns n !! i = Some c ∧ c_pc c = p.
Proof. unfold at_pc. intros (c' & Hi & H)%bind_Some. case_decide; by simplify_eq. Qed.

(** A handler in service writes something that is not a frame and goes on. *)
Lemma conn_ok_service i n c c' :
  conn_ok i n c → in_service (c_pc c) = true → in_service (c_pc c') = true →
  taken c' = taken c → (length (c_buf c') ≤ length (c_buf c))%nat →
  c_closed c' = c_closed c → c_joined c' = c_joined c → conn_ok i n c'.
Proof. intros Hc Hs Hs' ????. eapply conn_ok_moves; eauto. intros [E|E]; by rewrite E in Hs'. Qed.

Lemma conn_ok_deliver i n c c' x flushed :
  conn_ok i n c → in_service (c_pc c) = true → c_pc c' = c_pc c → taken (write_out x c') = taken c →
  (length (c_buf c') ≤ length (c_buf c))%nat → c_closed c' = c_closed c → c_joined c' = c_joined c →
  conn_ok i n (deliver x flushed c').
Proof. intros Hc Hs Hp ????. apply (conn_ok_service i n c); try done; by destruct flushed; cbn; rewrite ?Hp. Qed.

Lemma conn_ok_receive i n c c' flushed :
  conn_ok i n c → c_pc c = Looping → receive flushed c = Some c' → conn_ok i n c'.
Proof.
  intros Hc Hp Hr. unfold receive in Hr. destruct (c_buf c) as [|e l] eqn:Hb.
  - destruct (c_closed c) eqn:E; simplify_eq. apply (conn_ok_service i n c); try done. by rewrite Hp.
  - simplify_eq. apply (conn_ok_deliver i n c); try done; [by rewrite Hp|by apply taken_pop|].
    rewrite Hb. cbn. lia.
Qed.

Lemma register_ok i n c :
  node_ok n → n_done n = false → n_conns n !! i = Some c → c_pc c = Registering →
  node_ok (run_register i c n).
Proof.
  intros Hn Hd Hi Hp. destruct (ok_conns n Hn i c Hi) as [Hcl Hf _ Hcap _ _ _].
  destruct (Hf (or_intror Hp)) as (Ho & Ht & _). unfold run_register.
  apply node_ok_set; [done|by eexists|set_solver|by rewrite Hd|].
  assert (drop (length (n_history n)) (n_history n) = []) as He by (by rewrite drop_ge).
  split; unfold offered; cbn; try done; try (by intros [|]).
  - set_solver.
  - intros _. change (taken c = drop (length (n_history n)) (n_history n)). by rewrite Ht, He.
  - change (taken c `prefix_of` drop (length (n_history n)) (n_history n)). by rewrite Ht, He.
Qed.

Lemma unregister_ok i n c :
  node_ok n → n_conns n !! i = Some c → c_pc c = Leaving →
  ∃ n', run_unregister i c n = Next n' ∧ node_ok n'.
Proof.
  intros Hn Hi Hp. pose proof (ok_conns n Hn i c Hi) as Hc. unfold run_unregister, drop_client, chan_close.
  case_decide as Hin.
  - destruct (ok_client i n c Hc Hin) as [_ Ho]. cbn. rewrite Ho. eexists. split; [done|].
    apply node_ok_set; [done|by eexists|set_solver|intros Hd; rewrite (ok_done n Hn Hd); set_solver|].
    destruct Hc. split; unfold offered in *; cbn; try done; [set_solver|by intros [|]|set_solver].
  - eexists. split; [done|]. eapply node_ok_move; [done..|].
    apply (conn_ok_moves i n c); try done. by intros [|].
Qed.

(** A broadcast offers the event to every client; those without room are closed. *)
Lemma broadcast_result e order n :
  node_ok n → order ≡ₚ elements (n_clients n) →
  ∃ n', run_broadcast e order n = Next n'
  ∧ n_shutdown n' = n_shutdown n ∧ n_done n' = n_done n ∧ n_history n' = n_history n ++ [e]
  ∧ (∀ j, n_conns n' !! j = if decide (j ∈ n_clients n) then offer_conn e <$> n_conns n !! j else n_conns n !! j)
  ∧ (∀ j, j ∈ n_clients n' ↔ j ∈ n_clients n ∧ (has_room <$> n_conns n !! j) = Some true).
Proof.
  intros Hn Ho. destruct (clients_open n order Hn Ho) as (Hl & He & Hop). unfold run_broadcast.
  destruct (for_each_open (offer e) (offer_conn e) has_room (offer_open e) order
              (mkNode (n_clients n) (n_shutdown n) (n_done n) (n_conns n) (n_history n ++ [e])) Hl Hop)
    as (n' & -> & Hs & Hd & Hh & Hc & Hm).
  exists n'. split_and!; try done.
  - intros j. rewrite Hc. cbn. specialize (He j). repeat case_decide; tauto.
  - intros j. rewrite Hm. cbn. specialize (He j). tauto.
Qed.

Lemma drain_result order n :
  node_ok n → order ≡ₚ elements (n_clients n) →
  ∃ n', run_drain order n = Next n'
  ∧ n_shutdown n' = n_shutdown n ∧ n_done n' = true ∧ n_history n' = n_history n
  ∧ (∀ j, n_conns n' !! j = if decide (j ∈ n_clients n) then close_conn <$> n_conns n !! j else n_conns n !! j)
  ∧ n_clients n' = ∅.
Proof.
  intros Hn Ho. destruct (clients_open n order Hn Ho) as (Hl & He & Hop). unfold run_drain.
  destruct (for_each_open drain_one close_conn (λ _, false) drain_open order n Hl Hop)
    as (n' & -> & Hs & Hd & Hh & Hc & Hm).
  eexists. split; [done|]. cbn. split_and!; try done.
  - intros j. rewrite Hc. specialize (He j). repeat case_decide; tauto.
  - apply leibniz_equiv. intros j. rewrite Hm. split; [|set_solver]. intros [Hj Hk].
    specialize (Hk (proj2 (He j) Hj)). by destruct (n_conns n !! j).
Qed.

Lemma offered_snoc c n n' e :
  n_history n' = n_history n ++ [e] → (c_joined c ≤ length (n_history n))%nat →
  offered c n' = offered c n ++ [e].
Proof.
  intros Hh Hj. unfold offered. rewrite Hh, drop_app.
  by replace (c_joined c - length (n_history n))%nat with 0%nat by lia.
Qed.

Lemma has_room_spec c : has_room c = true ↔ (length (c_buf c) < chan_cap)%nat.
Proof. unfold has_room. by rewrite bool_decide_eq_true. Qed.

(** A client after a broadcast. *)
Lemma conn_ok_offered e i n n' c :
  conn_ok i n c → i ∈ n_clients n → n_history n' = n_history n ++ [e] →
  (i ∈ n_clients n' ↔ has_room c = true) → conn_ok i n' (offer_conn e c).
Proof.
  intros [Hcl Hf Hd Hcap Hw Hp Hj] Hin Hh Hm. destruct (Hcl Hin) as [Hs Ho]. specialize (Hw Hin).
  pose proof (offered_snoc c n n' e Hh Hj) as Hoff. unfold offer_conn.
  destruct (has_room c) eqn:Hr.
  - apply has_room_spec in Hr.
    assert (taken (push_buf e c) = offered c n') as Ht by (unfold taken in *; cbn; by rewrite Hoff, <-Hw, app_assoc).
    split; try done.
    + cbn. intros [E|E]; by rewrite E in Hs.
    + intros _ []. by apply Hm.
    + cbn. rewrite length_app. cbn. lia.
    + by rewrite Ht.
    + cbn. rewrite Hh, length_app. lia.
  - assert (i ∉ n_clients n') as Hout by (rewrite Hm; by intros [=]).
    split; try done.
    + cbn. intros [E|E]; by rewrite E in Hs.
    + change (taken c `prefix_of` offered c n'). rewrite Hoff, Hw. by apply prefix_app_r.
    + cbn. rewrite Hh, length_app. lia.
Qed.

(** A connection that is not a client, after a broadcast. *)
Lemma conn_ok_bystander e i n n' c :
  conn_ok i n c → i ∉ n_clients n → i ∉ n_clients n' → n_history n' = n_history n ++ [e] → conn_ok i n' c.
Proof.
  intros [Hcl Hf Hd Hcap Hw Hp Hj] Hin Hin' Hh. split; try done; [by intros; apply Hd| |rewrite Hh, length_app; lia].
  rewrite (offered_snoc c n n' e) by done. by apply prefix_app_r.
Qed.

Lemma broadcast_ok e order n :
  node_ok n → n_done n = false → order ≡ₚ elements (n_clients n) →
  ∃ n', run_broadcast e order n = Next n' ∧ node_ok n'.
Proof.
  intros Hn Hd Ho. destruct (broadcast_result e order n Hn Ho) as (n' & Hr & _ & Hd' & Hh & Hc & Hm).
  exists n'. split; [done|]. split.
  - intros i c Hi. rewrite Hc in Hi. case_decide as Hin.
    + destruct (n_conns n !! i) as [c0|] eqn:E; simplify_eq/=.
      apply (conn_ok_offered e i n); try done; [by apply ok_conns|].
      rewrite Hm, E. cbn. split; [intros [_ [= ?]]; done|intros ->; done].
    + apply (conn_ok_bystander e i n); try done; [by apply ok_conns|]. rewrite Hm. tauto.
  - intros i [Hin _]%Hm. rewrite Hc. rewrite decide_True by done.
    by destruct (ok_known n Hn i Hin) as [c ->].
  - by rewrite Hd', Hd.
Qed.

Lemma drain_ok order n :
  node_ok n → order ≡ₚ elements (n_clients n) → ∃ n', run_drain order n = Next n' ∧ node_ok n'.
Proof.
  intros Hn Ho. destruct (drain_result order n Hn Ho) as (n' & Hr & _ & _ & Hh & Hc & He).
  exists n'. split; [done|]. split; [|by rewrite He; set_solver|done].
  intros i c Hi. rewrite Hc in Hi. case_decide as Hin.
  - destruct (n_conns n !! i) as [c0|] eqn:E; simplify_eq/=.
    destruct (ok_conns n Hn i c0 E) as [Hcl Hf Hd Hcap Hw Hp Hj].
    split; unfold offered in *; rewrite ?He, ?Hh; try done; try (by intros ?%not_elem_of_empty).
    intros Hfr. destruct (Hcl Hin) as [Hs _]. by destruct Hfr as [Hfr|Hfr]; cbn in Hfr; rewrite Hfr in Hs.
  - destruct (ok_conns n Hn i c Hi) as [Hcl Hf Hd Hcap Hw Hp Hj].
    split; unfold offered in *; rewrite ?He, ?Hh; try done. by intros; apply Hd.
Qed.

Lemma connect_ok n :
  node_ok n → node_ok (mkNode (n_clients n) (n_shutdown n) (n_done n)
                         (n_conns n ++ [mkConn Flushing [] false [] 0]) (n_history n)).
Proof.
  intros Hn. split; cbn.
  - intros i c Hi. apply lookup_app_Some in Hi as [Hi|[Hl Hi]].
    + by apply (conn_ok_frame i n _ c), (ok_conns n Hn i c Hi).
    + apply list_lookup_singleton_Some in Hi as [Hi <-].
      assert (i ∉ n_clients n) as Hnin.
      { intros Hin. destruct (ok_known n Hn i Hin) as [c Hc]. apply lookup_lt_Some in Hc. lia. }
      split; try done; cbn; [lia|by apply prefix_nil|lia].
  - intros i Hi. destruct (ok_known n Hn i Hi) as [c Hc]. exists c. by apply lookup_app_l_Some.
  - by apply ok_done.
Qed.

Lemma node_ok_flags s n :
  node_ok n → node_ok (mkNode (n_clients n) s (n_done n) (n_conns n) (n_history n)).
Proof.
  intros []. split; cbn; try done. intros i c Hi. apply (conn_ok_frame i n _ c); auto.
Qed.

(** The invariant is kept and [Panic] is no outcome. *)
Lemma exec_ok l n o : node_ok n → exec l n = Some o → ∃ n', o = Next n' ∧ node_ok n'.
Proof.
  intros Hn He. destruct l; cbn [exec] in He;
    try (apply bind_Some in He as (c & [Hi Hp]%at_pc_Some & He); pose proof (ok_conns n Hn i c Hi) as Hc).
  - simplify_eq. eexists. split; [done|]. by apply connect_ok.
  - simplify_eq. eexists. split; [done|]. eapply node_ok_move; [done..|].
    assert (taken (first_flush ok c) = taken c) as Ht by (destruct ok; apply taken_write; done).
    apply (conn_ok_moves i n c); try done; try (by destruct ok).
    + intros Hin. destruct (ok_client i n c Hc Hin) as [Hs _]. by rewrite Hp in Hs.
    + destruct ok; [|by intros [|]]. auto.
  - destruct (n_done n) eqn:Hd; simplify_eq; eexists; (split; [done|]); [|by apply register_ok].
    eapply node_ok_move; [done..|]. apply (conn_ok_moves i n c); try done; [|by intros [|]].
    rewrite ok_done by done. set_solver.
  - simplify_eq. eexists. split; [done|]. eapply node_ok_move; [done..|].
    apply (conn_ok_service i n c); try done; [by rewrite Hp|]. by apply (taken_write _ c).
  - apply bind_Some in He as (c' & Hr & He). simplify_eq. eexists. split; [done|].
    eapply node_ok_move; [done..|]. by eapply conn_ok_receive.
  - simplify_eq. eexists. split; [done|]. eapply node_ok_move; [done..|].
    apply (conn_ok_deliver i n c); try done; [by rewrite Hp|by apply taken_write].
  - simplify_eq. eexists. split; [done|]. eapply node_ok_move; [done..|].
    apply (conn_ok_service i n c); try done. by rewrite Hp.
  - destruct (n_done n) eqn:Hd; simplify_eq; [|by apply unregister_ok].
    eexists. split; [done|]. eapply node_ok_move; [done..|].
    apply (conn_ok_moves i n c); try done; [|by intros [|]]. rewrite ok_done by done. set_solver.
  - destruct (n_done n) eqn:Hd; simplify_eq; [by eexists|]. case_decide; simplify_eq. by apply broadcast_ok.
  - simplify_eq. eexists. split; [done|]. by apply node_ok_flags.
  - destruct (n_shutdown n && negb (n_done n)); [|done]. case_decide; simplify_eq. by apply drain_ok.
Qed.

Lemma NewBroker_ok : node_ok NewBroker.
Proof. split; [by intros [|i] c Hi|cbn; set_solver|done]. Qed.

Lemma step_ok n n' : node_ok n → step n n' → node_ok n'.
Proof. intros Hn [l Hl]. by destruct (exec_ok l n _ Hn Hl) as (? & [= <-] & ?). Qed.

Lemma reachable_ok n : reachable n → node_ok n.
Proof.
  unfold reachable. intros Hr. pose proof NewBroker_ok as H0. revert H0.
  induction Hr as [n|n1 n2 n3 Hs _ IH]; [done|]. intros H1. eauto using step_ok.
Qed.

(** ** One connection's view of a transition *)
Inductive conn_step (c : conn) : conn → Prop :=
| cs_same : conn_step c c
| cs_flush ok : c_pc c = Flushing → conn_step c (first_flush ok c)
| cs_register k : c_pc c = Registering → conn_step c (join_at k (goto Greeting c))
| cs_exit : c_pc c = Registering ∨ c_pc c = Leaving → conn_step c (goto Exited c)
| cs_greet : c_pc c = Greeting → conn_step c (greet c)
| cs_receive flushed c' : c_pc c = Looping → receive flushed c = Some c' → conn_step c c'
| cs_heartbeat flushed : c_pc c = Looping → conn_step c (deliver (Comment (js " heartbeat")) flushed c)
| cs_quit : c_pc c = Looping → conn_step c (goto Leaving c)
| cs_offer e : conn_step c (offer_conn e c)
| cs_close : conn_step c (close_conn c)
| cs_unregister : c_pc c = Leaving → conn_step c (close_conn (goto Exited c)).

Lemma set_conn_step j c c' n i ci :
  n_conns n !! j = Some c → conn_step c c' → n_conns n !! i = Some ci →
  ∃ ci', n_conns (set_conn j c' n) !! i = Some ci' ∧ conn_step ci ci'.
Proof.
  intros Hj Hs Hi. rewrite conns_set_conn by (by eexists). case_decide; simplify_eq; eauto using conn_step.
Qed.

Lemma exec_conn l n n' i c :
  node_ok n → exec l n = Some (Next n') → n_conns n !! i = Some c →
  ∃ c', n_conns n' !! i = Some c' ∧ conn_step c c'.
Proof.
  intros Hn He Hi. destruct l as [|j ok|j|j|j flushed|j flushed|j|j|e order| |order]; cbn [exec] in He;
    try (apply bind_Some in He as (cj & [Hj Hp]%at_pc_Some & He)).
  - simplify_eq. exists c. split; [by apply lookup_app_l_Some|constructor].
  - simplify_eq. eapply set_conn_step; eauto using conn_step.
  - destruct (n_done n); simplify_eq; [eapply set_conn_step; eauto using conn_step|].
    unfold run_register. eapply (set_conn_step j cj _ (set_clients _ n)); eauto using conn_step.
  - simplify_eq. eapply set_conn_step; eauto using conn_step.
  - apply bind_Some in He as (c' & Hr & He). simplify_eq. eapply set_conn_step; eauto using conn_step.
  - simplify_eq. eapply set_conn_step; eauto using conn_step.
  - simplify_eq. eapply set_conn_step; eauto using conn_step.
  - destruct (n_done n); simplify_eq; [eapply set_conn_step; eauto using conn_step|].
    unfold run_unregister, drop_client, chan_close in He. case_decide as Hin.
    + destruct (ok_client j n cj (ok_conns n Hn j cj Hj) Hin) as [_ Ho]. cbn in He. rewrite Ho in He. simplify_eq.
      eapply (set_conn_step j cj _ (set_clients _ n)); eauto. change (conn_step cj (close_conn (goto Exited cj))).
      by constructor.
    + simplify_eq. eapply set_conn_step; eauto using conn_step.
  - destruct (n_done n) eqn:Hd; simplify_eq; [eauto using conn_step|]. case_decide as Ho; [|done]. simplify_eq.
    destruct (broadcast_result e order n Hn Ho) as (n1 & Hr & _ & _ & _ & Hc & _).
    rewrite Hr in He. simplify_eq.
    rewrite Hc, Hi. case_decide; eauto using conn_step.
  - simplify_eq. eauto using conn_step.
  - destruct (n_shutdown n && negb (n_done n)); [|done]. case_decide as Ho; [|done]. simplify_eq.
    destruct (drain_result order n Hn Ho) as (n1 & Hr & _ & _ & _ & Hc & _).
    rewrite Hr in He. simplify_eq.
    rewrite Hc, Hi. case_decide; eauto using conn_step.
Qed.

(** After the headers a handler writes comments and frames only. *)
Definition plain (x : chunk) : Prop := match x with Comment _ | Frame _ => True | _ => False end.

Definition settled (p : pc) : Prop := p ≠ Flushing ∧ p ≠ Registering.

Record follows (c c' : conn) : Prop := {
  fol_out : ∃ l, c_out c' = c_out c ++ l ∧ Forall plain l;
  fol_joined : c_joined c' = c_joined c;
  fol_settled : settled (c_pc c') }.

Lemma conn_step_follows c c' : settled (c_pc c) → conn_step c c' → follows c c'.
Proof.
  intros [Hf Hr] Hs.
  assert (∀ x, plain x → ∃ l, c_out c ++ [x] = c_out c ++ l ∧ Forall plain l) as H1.
  { intros x Hx. exists [x]. by split; [|apply Forall_singleton]. }
  assert (∃ l, c_out c = c_out c ++ l ∧ Forall plain l) as H0 by (exists []; by rewrite app_nil_r).
  destruct Hs; try done; try (by split).
  - split; try done. by apply H1.
  - unfold receive in *. destruct (c_buf c); [destruct (c_closed c)|]; simplify_eq; [by split|].
    unfold deliver. destruct flushed; split; try done; by apply H1.
  - unfold deliver. destruct flushed; split; try done; by apply H1.
  - unfold offer_conn. destruct (has_room c); by split.
Qed.

Lemma conn_step_out c c' : conn_step c c' → c_out c `prefix_of` c_out c'.
Proof.
  destruct 1 as [|ok| | | |flushed c' _ Hr|flushed| |e| |]; try done; try (by eexists).
  - destruct ok; by eexists.
  - unfold receive in Hr. destruct (c_buf c); [destruct (c_closed c)|]; simplify_eq; [done|].
    unfold deliver. destruct flushed; by eexists.
  - unfold deliver. destruct flushed; by eexists.
  - unfold offer_conn. by destruct (has_room c).
Qed.

Lemma follows_trans c1 c2 c3 : follows c1 c2 → follows c2 c3 → follows c1 c3.
Proof.
  intros [(l1 & H1 & P1) J1 _] [(l2 & H2 & P2) J2 S2]. split; [|congruence|done].
  exists (l1 ++ l2). split; [by rewrite H2, H1, app_assoc|by apply Forall_app].
Qed.

(** The shape of a response. *)
Definition response_ok (c : conn) : Prop :=
  match c_pc c with
  | Flushing => c_out c = []
  | p => (c_out c = [Unsupported] ∧ p = Exited) ∨ ∃ l, c_out c = StreamHeaders :: l ∧ Forall plain l
  end.

Lemma response_ok_out c c' :
  c_pc c ≠ Flushing → c_pc c' ≠ Flushing → (c_pc c = Exited → c_pc c' = Exited ∧ c_out c' = c_out c) →
  (∃ l, c_out c' = c_out c ++ l ∧ Forall plain l) → response_ok c → response_ok c'.
Proof.
  intros Hf Hf' He (l & Ho & Hl) Hr. unfold response_ok in *.
  assert (c_out c = [Unsupported] ∧ c_pc c = Exited ∨ ∃ l, c_out c = StreamHeaders :: l ∧ Forall plain l) as [[Hu Hp]|(l0 & H0 & Hl0)]
    by (by destruct (c_pc c)).
  - destruct (He Hp) as [-> ->]. by left.
  - assert (∃ l, c_out c' = StreamHeaders :: l ∧ Forall plain l) as Hg.
    { exists (l0 ++ l). rewrite Ho, H0. split; [done|]. by apply Forall_app. }
    destruct (c_pc c'); by auto.
Qed.

Lemma response_ok_step c c' : response_ok c → conn_step c c' → response_ok c'.
Proof.
  intros Hr Hs.
  assert (∀ c', c_out c' = c_out c → c_pc c' = c_pc c → response_ok c') as Hsame.
  { intros c0 Ho Hp. unfold response_ok in *. by rewrite Hp, Ho. }
  assert (∀ c', c_pc c ≠ Flushing → c_pc c' ≠ Flushing → c_pc c ≠ Exited →
    (∃ l, c_out c' = c_out c ++ l ∧ Forall plain l) → response_ok c') as Hgo.
  { intros c0 H1 H2 H3 H4. apply (response_ok_out c); try done. }
  assert (∃ l, c_out c = c_out c ++ l ∧ Forall plain l) as H0 by (exists []; by rewrite app_nil_r).
  destruct Hs as [|ok Hp|k Hp|Hp|Hp|flushed c' Hp Hrc|flushed Hp|Hp|e| |Hp]; try done;
    try (apply Hgo; try done; rewrite ?Hp; try done; naive_solver).
  - unfold response_ok in *. rewrite Hp in Hr. unfold first_flush. destruct ok; cbn; rewrite Hr; [right|left]; eauto.
  - apply Hgo; try done; by destruct Hp as [-> | ->].
  - apply Hgo; rewrite ?Hp; try done. exists [Comment (js " connected")]. by split; [|apply Forall_singleton].
  - unfold receive in Hrc. destruct (c_buf c) as [|e l]; [destruct (c_closed c)|]; simplify_eq; apply Hgo; rewrite ?Hp; try done;
      unfold deliver; destruct flushed; cbn; rewrite ?Hp; try done;
      (exists [Frame e]; by split; [|apply Forall_singleton]).
  - apply Hgo; rewrite ?Hp; try done; unfold deliver; destruct flushed; cbn; rewrite ?Hp; try done;
      (exists [Comment (js " heartbeat")]; by split; [|apply Forall_singleton]).
  - apply Hsame; unfold offer_conn; by destruct (has_room c).
Qed.

Lemma exec_no_new l n n' i :
  node_ok n → exec l n = Some (Next n') → l ≠ Connect → n_conns n !! i = None → n_conns n' !! i = None.
Proof.
  intros Hn He Hl Hi.
  assert (∀ j c, is_Some (n_conns n !! j) → (<[j:=c]> (n_conns n)) !! i = None) as Hins.
  { intros j c Hj. rewrite list_lookup_insert_ne; [done|]. intros ->. rewrite Hi in Hj. by destruct Hj. }
  destruct l as [|j ok|j|j|j flushed|j flushed|j|j|e order| |order]; [done|..]; cbn [exec] in He;
    try (apply bind_Some in He as (cj & [Hj _]%at_pc_Some & He));
    try (apply bind_Some in He as (c1 & _ & He)); try (simplify_eq; cbn; rewrite ?Hins by eauto; done).
  - destruct (n_done n); simplify_eq; cbn; by rewrite Hins by eauto.
  - destruct (n_done n); simplify_eq; [cbn; by rewrite Hins by eauto|].
    unfold run_unregister, drop_client in He.
    case_decide; [destruct (chan_close _)|]; simplify_eq; cbn; by rewrite Hins by eauto.
  - destruct (n_done n); simplify_eq; [done|]. case_decide as Ho; [|done]. simplify_eq.
    destruct (broadcast_result e order n Hn Ho) as (n1 & Hr & _ & _ & _ & Hc & _).
    rewrite Hr in He. simplify_eq. rewrite Hc, Hi. by case_decide.
  - destruct (n_shutdown n && negb (n_done n)); [|done]. case_decide as Ho; [|done]. simplify_eq.
    destruct (drain_result order n Hn Ho) as (n1 & Hr & _ & _ & _ & Hc & _).
    rewrite Hr in He. simplify_eq. rewrite Hc, Hi. by case_decide.
Qed.

#[export] Instance label_is_connect l : Decision (l = Connect).
Proof. destruct l; first [by left|by right]. Defined.

Lemma exec_new l n n' i c' :
  node_ok n → exec l n = Some (Next n') → n_conns n !! i = None → n_conns n' !! i = Some c' → response_ok c'.
Proof.
  intros Hn He Hi Hi'. destruct (decide (l = Connect)) as [->|Hl]; [|by rewrite (exec_no_new l n n' i) in Hi'].
  cbn in He. simplify_eq. cbn in Hi'. apply lookup_app_Some in Hi' as [Hi'|[_ Hi']]; [congruence|].
  by apply list_lookup_singleton_Some in Hi' as [_ <-].
Qed.

Lemma reachable_response n i c : reachable n → n_conns n !! i = Some c → response_ok c.
Proof.
  intros Hr Hi. assert (node_ok n ∧ ∀ i c, n_conns n !! i = Some c → response_ok c) as [_ H]; [|by eapply H].
  clear i c Hi. unfold reachable in Hr.
  assert (node_ok NewBroker ∧ ∀ i c, n_conns NewBroker !! i = Some c → response_ok c) as H0.
  { split; [apply NewBroker_ok|]. by intros []. }
  revert H0. induction Hr as [n|n1 n2 n3 Hs _ IH]; [done|]. intros [Hn Hc]. apply IH.
  split; [by eapply step_ok|]. destruct Hs as [l Hl]. intros i c' Hi'.
  destruct (n_conns n1 !! i) as [c|] eqn:Hi.
  - destruct (exec_conn l n1 n2 i c Hn Hl Hi) as (c2 & Hi2 & Hs). simplify_eq. eapply response_ok_step; eauto.
  - by eapply exec_new.
Qed.

(** ** What the broker promises *)

(** C9: a stream has no hole.  What a connection has been sent, with what waits
    in its channel, is a prefix of the broadcasts since it registered; for a
    channel the broker still holds it is all of them, and one that has been let
    go is closed, so its handler will end the response instead of skipping an
    event.  The channel never holds more than its capacity. *)
Theorem broker_no_silent_gap (n : node) (i : nat) (c : conn) :
  reachable n → n_conns n !! i = Some c →
  taken c `prefix_of` offered c n
  ∧ (i ∈ n_clients n → taken c = offered c n)
  ∧ (in_service (c_pc c) = true → i ∉ n_clients n → c_closed c = true)
  ∧ (length (c_buf c) ≤ chan_cap)%nat.
Proof. intros Hn Hi. by destruct (ok_conns n (reachable_ok n Hn) i c Hi). Qed.

(** C28: the broker does not panic and nobody waits for it for ever.  No
    transition of a reachable node sends on a closed channel or closes one
    twice; a handler at its first or its last [select] can always go on; and
    until the drain is done a broadcast is served, in whatever order the clients
    are visited. *)
Theorem broker_never_panics (n : node) :
  reachable n →
  (∀ l, exec l n ≠ Some Panic)
  ∧ (∀ i c, n_conns n !! i = Some c → c_pc c = Registering → ∃ n', exec (Register i) n = Some (Next n'))
  ∧ (∀ i c, n_conns n !! i = Some c → c_pc c = Leaving → ∃ n', exec (Unregister i) n = Some (Next n'))
  ∧ (∀ e order, order ≡ₚ elements (n_clients n) → ∃ n', exec (Broadcast e order) n = Some (Next n')).
Proof.
  intros Hn%reachable_ok.
  assert (∀ l o, exec l n = Some o → ∃ n', exec l n = Some (Next n')) as Hnext.
  { intros l o Ho. destruct (exec_ok l n o Hn Ho) as (n' & -> & _). eauto. }
  split_and!.
  - intros l Hl. by destruct (exec_ok l n _ Hn Hl) as (? & [=] & _).
  - intros i c Hi Hp. eapply Hnext. cbn. unfold at_pc. rewrite Hi. cbn. by rewrite decide_True.
  - intros i c Hi Hp. eapply Hnext. cbn. unfold at_pc. rewrite Hi. cbn. by rewrite decide_True.
  - intros e order Ho. destruct (n_done n) eqn:Hd; [cbn; rewrite Hd; eauto|].
    eapply Hnext. cbn. by rewrite Hd, decide_True.
Qed.

(** A broadcast drops a client exactly when its channel is full. *)
Lemma broadcast_drops_only_full (n n' : node) (e : SSEEvent) (order : list nat) (i : nat) (c : conn) :
  reachable n → n_done n = false → exec (Broadcast e order) n = Some (Next n') →
  i ∈ n_clients n → n_conns n !! i = Some c →
  (i ∈ n_clients n' ↔ length (c_buf c) ≠ chan_cap)
  ∧ n_conns n' !! i = Some (if has_room c then push_buf e c else close_conn c).
Proof.
  intros Hn%reachable_ok Hd He Hin Hi. cbn in He. rewrite Hd in He. case_decide as Ho; [|done].
  destruct (broadcast_result e order n Hn Ho) as (n1 & Hr & _ & _ & _ & Hc & Hm).
  rewrite Hr in He. simplify_eq. pose proof (ok_cap i n c (ok_conns n Hn i c Hi)) as Hcap. rewrite Hm, Hc, Hi, decide_True by done. cbn.
  split; [|done]. destruct (has_room c) eqn:E.
  - apply has_room_spec in E. split; [lia|done].
  - assert (¬ (length (c_buf c) < chan_cap)%nat) by (rewrite <-has_room_spec; congruence).
    split; [by intros [_ [=]]|lia].
Qed.

(** ** Shutting down *)

(** Steps a handler takes when nothing but the broker ends its request: no
    heartbeat, no timeout, no cancelled context. *)
Definition is_handler (l : label) : bool :=
  match l with
  | FirstFlush _ _ | Register _ | Greet _ | Receive _ _ | Unregister _ => true
  | _ => false
  end.

(** The steps a handler has left, at most, if nothing more is put into its
    channel. *)
Definition remaining (c : conn) : nat :=
  match c_pc c with
  | Exited => 0 | Leaving => 1 | Registering => 4 | Flushing => 5
  | Looping => 2 + length (c_buf c) | Greeting => 3 + length (c_buf c)
  end.
Definition work_left (n : node) : nat := sum_list_with remaining (n_conns n).

Lemma sum_insert_lt (l : list conn) i c c' :
  l !! i = Some c → (remaining c' < remaining c)%nat →
  (sum_list_with remaining (<[i:=c']> l) < sum_list_with remaining l)%nat.
Proof.
  revert i. induction l as [|c0 l IH]; intros [|i] Hi Hr; simplify_eq/=; [lia|].
  specialize (IH i Hi Hr). lia.
Qed.

Lemma set_conn_work i c c' n :
  n_conns n !! i = Some c → (remaining c' < remaining c)%nat →
  (work_left (set_conn i c' n) < work_left n)%nat.
Proof. apply sum_insert_lt. Qed.

Lemma remaining_cap n i c : node_ok n → n_conns n !! i = Some c → (remaining c ≤ 19)%nat.
Proof.
  intros Hn Hi. pose proof (ok_cap i n c (ok_conns n Hn i c Hi)) as Hc. unfold chan_cap in Hc.
  unfold remaining. destruct (c_pc c); lia.
Qed.

Lemma work_left_cap n : node_ok n → (work_left n ≤ 19 * length (n_conns n))%nat.
Proof.
  intros Hn. assert (Forall (λ c, remaining c ≤ 19)%nat (n_conns n)) as Hall.
  { apply Forall_lookup. intros i c Hi. by eapply remaining_cap. }
  unfold work_left. clear Hn. induction Hall as [|c l Hc _ IH]; cbn [sum_list_with length]; lia.
Qed.

(** A handler's step leaves less work. *)
Lemma handler_step_decreases l n n' :
  node_ok n → is_handler l = true → exec l n = Some (Next n') →
  n_done n' = n_done n ∧ n_shutdown n' = n_shutdown n
  ∧ (work_left n' < work_left n)%nat ∧ length (n_conns n') = length (n_conns n).
Proof.
  intros Hn Hl He. destruct l; try done; cbn [exec] in He;
    apply bind_Some in He as (c & [Hi Hp]%at_pc_Some & He).
  - simplify_eq. split_and!; [done..| |apply length_insert]. apply set_conn_work with c; [done|].
    unfold remaining. rewrite Hp. destruct ok; cbn; lia.
  - destruct (ok_fresh i n c (ok_conns n Hn i c Hi) (or_intror Hp)) as (_ & [_ Hb]%app_nil & _).
    destruct (n_done n) eqn:Hd; simplify_eq; (split_and!; [done..| |apply length_insert]);
      (eapply (set_conn_work i c _ (set_clients _ n)) || apply set_conn_work with c); try done; unfold remaining; rewrite Hp; cbn; rewrite ?Hb; cbn; lia.
  - simplify_eq. split_and!; [done..| |apply length_insert]. apply set_conn_work with c; [done|].
    unfold remaining. rewrite Hp. cbn. lia.
  - apply bind_Some in He as (c' & Hr & He). simplify_eq. split_and!; [done..| |apply length_insert].
    apply set_conn_work with c; [done|]. unfold remaining. rewrite Hp.
    unfold receive in Hr. destruct (c_buf c) eqn:Hb; [destruct (c_closed c)|]; simplify_eq; cbn; [lia|].
    destruct flushed; cbn; rewrite ?Hp; lia.
  - destruct (n_done n) eqn:Hd; [|unfold run_unregister, drop_client in He; case_decide; [destruct (chan_close _) eqn:Hc|]];
      simplify_eq; (split_and!; [done..| |apply length_insert]);
      (eapply (set_conn_work i c _ (set_clients _ n)) || apply set_conn_work with c); try done; unfold remaining; rewrite Hp; cbn; try lia.
    unfold chan_close in Hc. cbn in Hc. destruct (c_closed c); simplify_eq. cbn. lia.
Qed.

(** With every handler's next step gone, every handler has returned. *)
Lemma handlers_returned n i c :
  node_ok n → n_done n = true → (∀ l, is_handler l = true → exec l n = None) →
  n_conns n !! i = Some c → c_pc c = Exited.
Proof.
  intros Hn Hd Hstuck Hi. pose proof (ok_conns n Hn i c Hi) as Hc.
  assert (∀ p, c_pc c = p → at_pc p i n = Some c) as Hat.
  { intros p Hp. unfold at_pc. rewrite Hi. cbn. by rewrite decide_True. }
  destruct (c_pc c) eqn:Hp; try done; specialize (Hat _ eq_refl).
  - specialize (Hstuck (FirstFlush i true) eq_refl). cbn in Hstuck. by rewrite Hat in Hstuck.
  - specialize (Hstuck (Register i) eq_refl). cbn in Hstuck. by rewrite Hat in Hstuck.
  - specialize (Hstuck (Greet i) eq_refl). cbn in Hstuck. by rewrite Hat in Hstuck.
  - specialize (Hstuck (Receive i true) eq_refl). cbn in Hstuck. rewrite Hat in Hstuck. cbn in Hstuck.
    unfold receive in Hstuck. destruct (c_buf c); [|done].
    rewrite (ok_dropped i n c Hc) in Hstuck; [done|by rewrite Hp|rewrite ok_done by done; set_solver].
  - specialize (Hstuck (Unregister i) eq_refl). cbn in Hstuck. by rewrite Hat in Hstuck.
Qed.

(** A shutdown lets every stream end.  Once the broker is drained, the
    handlers' own steps, in any order and with any outcome of their flushes, come
    to an end after at most nineteen per connection, and when none is left every
    handler has returned; so the server's [Shutdown], which waits for them,
    does. *)
Theorem shutdown_drains (n : node) (ls : list label) (n' : node) :
  reachable n → n_done n = true → Forall (λ l, is_handler l = true) ls →
  run ls n = Some (Next n') →
  (length ls ≤ 19 * length (n_conns n))%nat
  ∧ ((∀ l, is_handler l = true → exec l n' = None) →
     ∀ i c, n_conns n' !! i = Some c → c_pc c = Exited).
Proof.
  intros Hn%reachable_ok Hd Hls Hr. pose proof (work_left_cap n Hn) as Hcap.
  assert ((length ls + work_left n' ≤ work_left n)%nat ∧ node_ok n' ∧ n_done n' = true) as (Hw & Hn' & Hd').
  { clear Hcap. revert n Hn Hd Hr. induction Hls as [|l ls Hl _ IH]; intros n Hn Hd Hr; cbn in Hr.
    - simplify_eq. split_and!; [cbn; lia|done..].
    - destruct (exec l n) as [[n1|]|] eqn:He; try done.
      destruct (handler_step_decreases l n n1 Hn Hl He) as (Hd1 & _ & Hlt & _). rewrite Hd in Hd1.
      assert (node_ok n1) as Hn1 by (eapply step_ok; [done|by exists l]).
      destruct (IH n1 Hn1 Hd1 Hr) as (? & ? & ?). split_and!; [cbn; lia|done..]. }
  split; [lia|]. intros Hstuck i c. by apply handlers_returned.
Qed.

(** ** Witnesses *)
Definition ev (v : Z) : SSEEvent := mkSSEEvent (js "flag_updated") (js "{}") v.

(** One connection registers; a second stops reading and is dropped by the
    seventeenth broadcast, which the first, reading along, survives. *)
Definition two_streams : list label :=
  [Connect; FirstFlush 0 true; Register 0; Greet 0; Connect; FirstFlush 1 true; Register 1; Greet 1].
Definition busy_hour (k : nat) : list label :=
  flat_map (λ v, [Broadcast (ev (Z.of_nat v)) [0%nat; 1%nat]; Receive 0 true]) (seq 1 k).
Definition after_node (ls : list label) (n : node) : node :=
  match run ls n with Some (Next n) => n | _ => NewBroker end.
Definition busy : node := after_node (two_streams ++ busy_hour 17) NewBroker.
Definition drained : node := after_node [RequestShutdown; Drain [0%nat]] busy.

Lemma run_rtc ls n n' : run ls n = Some (Next n') → rtc step n n'.
Proof.
  revert n. induction ls as [|l ls IH]; intros n Hr; cbn in Hr; [by simplify_eq|].
  destruct (exec l n) as [[n1|]|] eqn:He; try done. eapply rtc_l; [by exists l|by apply IH].
Qed.

Lemma busy_reachable : reachable busy.
Proof. apply (run_rtc (two_streams ++ busy_hour 17)). vm_compute. reflexivity. Qed.

Lemma drained_reachable : reachable drained.
Proof. apply (run_rtc (two_streams ++ busy_hour 17 ++ [RequestShutdown; Drain [0%nat]])). vm_compute. reflexivity. Qed.

Lemma broker_no_silent_gap_witness :
  ∃ c, n_conns busy !! 1%nat = Some c ∧ length (n_history busy) = 17%nat ∧ length (taken c) = 16%nat
  ∧ taken c `prefix_of` offered c busy
  ∧ (1%nat ∈ n_clients busy → taken c = offered c busy)
  ∧ (in_service (c_pc c) = true → 1%nat ∉ n_clients busy → c_closed c = true)
  ∧ (length (c_buf c) ≤ chan_cap)%nat.
Proof.
  destruct (n_conns busy !! 1%nat) as [c|] eqn:Hc; [|vm_compute in Hc; discriminate Hc].
  exists c. split; [reflexivity|]. split; [vm_compute; reflexivity|].
  split; [vm_compute in Hc; injection Hc as <-; reflexivity|].
  apply (broker_no_silent_gap busy 1%nat c busy_reachable Hc).
Defined.

Lemma broker_never_panics_witness :
  (∀ l, exec l busy ≠ Some Panic)
  ∧ ∃ n', exec (Broadcast (ev 18) [0%nat]) busy = Some (Next n').
Proof.
  destruct (broker_never_panics busy busy_reachable) as (Hp & _ & _ & Hb).
  split; [exact Hp|]. apply Hb. vm_compute. reflexivity.
Defined.

Definition last_words : list label :=
  Receive 0 true :: Unregister 0 :: flat_map (λ _, [Receive 1 true]) (seq 1 17) ++ [Unregister 1].

Lemma shutdown_drains_witness :
  ∃ n', run last_words drained = Some (Next n') ∧ (length last_words ≤ 19 * length (n_conns drained))%nat
  ∧ ((∀ l, is_handler l = true → exec l n' = None) → ∀ i c, n_conns n' !! i = Some c → c_pc c = Exited).
Proof.
  destruct (run last_words drained) as [[n'|]|] eqn:Hr; [|vm_compute in Hr; discriminate Hr..].
  exists n'. split; [reflexivity|].
  apply (shutdown_drains drained last_words n' drained_reachable); [vm_compute; reflexivity| |exact Hr].
  repeat constructor.
Defined.
