(* ===== verification/Process.v ===== *)
(** * The life of a server process ([cmd/server/main.go], with the gauge of
    [internal/metrics/metrics.go])

    What [main] does from its first statement to its exit code: starting what the
    server needs, serving beside the goroutines of the broker ([Broker]), of the
    subscriber and of the listener, and shutting down when a signal comes or the
    listener fails. *)
From S2P Require Import Prelude Broker.

(** ** The state *)

(** What is started before the goroutines, in order. *)
Inductive stage := ConnectPool | RunMigrations | ParseRedisURL | InitTracing.

(** Where [main] is.  After the [select]: the statements of the shutdown, and
    those of the case of a serve error; the last three have the exit code. *)
Inductive main_pc :=
| Boot (s : stage) | Select
| StopSub | GoDrain | CloseListeners | WaitHandlers | TraceShutdown
| FailStopSub | FailDrain | FailWait
| ClosePool (code : Z) | CloseRedis (code : Z) | Exit (code : Z).

Inductive listener := NotYet | Listening | Closed.
Inductive subscriber := Unstarted | Subscribed | Cancelled | Returned.

(** [p_serveErr] is the channel of that name holding an error; [p_plain] counts
    the requests in their handlers other than streams; [p_drainer] is the
    goroutine of [broker.Shutdown], before its first statement.  [p_late] says
    the deadline ended the wait; no code reads it. *)
Record process := mkProcess {
  p_main : main_pc; p_pool : bool; p_redis : bool; p_signalled : bool; p_serveErr : bool;
  p_listener : listener; p_sub : subscriber; p_drainer : bool; p_late : bool;
  p_plain : nat; p_node : node; p_connected : Z }.

Definition at_start : process :=
  mkProcess (Boot ConnectPool) false false false false NotYet Unstarted false false 0 NewBroker 0.

Definition with_main (m : main_pc) (p : process) : process :=
  mkProcess m (p_pool p) (p_redis p) (p_signalled p) (p_serveErr p) (p_listener p) (p_sub p) (p_drainer p) (p_late p)
    (p_plain p) (p_node p) (p_connected p).
Definition with_pool (b : bool) (p : process) : process :=
  mkProcess (p_main p) b (p_redis p) (p_signalled p) (p_serveErr p) (p_listener p) (p_sub p) (p_drainer p) (p_late p)
    (p_plain p) (p_node p) (p_connected p).
Definition with_redis (b : bool) (p : process) : process :=
  mkProcess (p_main p) (p_pool p) b (p_signalled p) (p_serveErr p) (p_listener p) (p_sub p) (p_drainer p) (p_late p)
    (p_plain p) (p_node p) (p_connected p).
Definition with_signal (p : process) : process :=
  mkProcess (p_main p) (p_pool p) (p_redis p) true (p_serveErr p) (p_listener p) (p_sub p) (p_drainer p) (p_late p)
    (p_plain p) (p_node p) (p_connected p).
Definition with_listener (l : listener) (err : bool) (p : process) : process :=
  mkProcess (p_main p) (p_pool p) (p_redis p) (p_signalled p) err l (p_sub p) (p_drainer p) (p_late p)
    (p_plain p) (p_node p) (p_connected p).
Definition with_sub (s : subscriber) (p : process) : process :=
  mkProcess (p_main p) (p_pool p) (p_redis p) (p_signalled p) (p_serveErr p) (p_listener p) s (p_drainer p) (p_late p)
    (p_plain p) (p_node p) (p_connected p).
Definition with_drainer (b : bool) (p : process) : process :=
  mkProcess (p_main p) (p_pool p) (p_redis p) (p_signalled p) (p_serveErr p) (p_listener p) (p_sub p) b (p_late p)
    (p_plain p) (p_node p) (p_connected p).
Definition with_late (p : process) : process :=
  mkProcess (p_main p) (p_pool p) (p_redis p) (p_signalled p) (p_serveErr p) (p_listener p) (p_sub p) (p_drainer p) true
    (p_plain p) (p_node p) (p_connected p).
Definition with_plain (k : nat) (p : process) : process :=
  mkProcess (p_main p) (p_pool p) (p_redis p) (p_signalled p) (p_serveErr p) (p_listener p) (p_sub p) (p_drainer p) (p_late p)
    k (p_node p) (p_connected p).
Definition with_node (n : node) (g : Z) (p : process) : process :=
  mkProcess (p_main p) (p_pool p) (p_redis p) (p_signalled p) (p_serveErr p) (p_listener p) (p_sub p) (p_drainer p) (p_late p)
    (p_plain p) n g.

(** ** The gauge of connected clients *)

(** The calls of [metrics.SetConnectedClients] in the cases of [Run]; [n] before
    and [n'] after the case. *)
Definition SetConnectedClients (l : label) (n n' : node) (g : Z) : Z :=
  match l with
  | Register _ => if n_done n then g else Z.of_nat (size (n_clients n'))
  | Unregister i => if n_done n then g else if decide (i ∈ n_clients n) then Z.of_nat (size (n_clients n')) else g
  | Broadcast _ _ => if n_done n then g else Z.of_nat (size (n_clients n'))
  | Drain _ => 0
  | _ => g
  end.

(** ** Transitions *)
Inductive plabel :=
| PBoot (ok : bool)           (* main's next stage *)
| PListen (ok : bool)         (* the goroutine of [ListenAndServe] binds *)
| PServeFails                 (* accepting fails *)
| PSignal
| PSelect (failed : bool)     (* the case that [main] takes *)
| PMain                       (* main's next statement *)
| PDeadline                   (* [shutdownCtx] ends the wait *)
| PAccept (stream : bool)
| PReply                      (* a request's handler returns *)
| PSubscriberReturns
| PDrainer                    (* [close(b.shutdown)] in the goroutine *)
| PBroker (l : label).

Definition exited (p : process) : bool := match p_main p with Exit _ => true | _ => false end.
Definition booting (p : process) : bool := match p_main p with Boot _ => true | _ => false end.

Definition boot_next (s : stage) (p : process) : process :=
  match s with
  | ConnectPool => with_main (Boot RunMigrations) (with_pool true p)
  | RunMigrations => with_main (Boot ParseRedisURL) p
  | ParseRedisURL => with_main (Boot InitTracing) (with_redis true p)
  | InitTracing => with_main Select (with_sub Subscribed p)
  end.

(** No handler is left. *)
Definition returned (c : conn) : bool := match c_pc c with Exited => true | _ => false end.
Definition all_returned (p : process) : bool := (p_plain p =? 0)%nat && forallb returned (n_conns (p_node p)).

Definition main_step (p : process) : option process :=
  match p_main p with
  | StopSub => Some (with_main GoDrain (with_sub Cancelled p))
  | GoDrain => Some (with_main CloseListeners (with_drainer true p))
  | CloseListeners => Some (with_main WaitHandlers (with_listener Closed (p_serveErr p) p))
  | WaitHandlers => if all_returned p then Some (with_main TraceShutdown p) else None
  | TraceShutdown => Some (with_main (ClosePool 0) p)
  | FailStopSub => Some (with_main FailDrain (with_sub Cancelled p))
  | FailDrain =>
      let n := p_node p in
      Some (with_main FailWait (with_node (mkNode (n_clients n) true (n_done n) (n_conns n) (n_history n)) (p_connected p) p))
  | FailWait => if n_done (p_node p) then Some (with_main (ClosePool 1) p) else None
  | ClosePool code => Some (with_main (CloseRedis code) (with_pool false p))
  | CloseRedis code => Some (with_main (Exit code) (with_redis false p))
  | Boot _ | Select | Exit _ => None
  end.

(** The broker's own steps; connections come from the listener, the drain is
    asked for by [main], and only the subscriber broadcasts. *)
Definition broker_may (l : label) (p : process) : bool :=
  match l with
  | Connect | RequestShutdown => false
  | Broadcast _ _ => match p_sub p with Subscribed | Cancelled => true | _ => false end
  | _ => true
  end.

Definition pexec (l : plabel) (p : process) : option process :=
  if exited p then None else
  match l with
  | PBoot ok => match p_main p with
                | Boot s => Some (if ok then boot_next s p else with_main (Exit 1) p)
                | _ => None
                end
  | PListen ok => if booting p then None else
                  match p_listener p with
                  | NotYet => Some (if ok then with_listener Listening (p_serveErr p) p else with_listener Closed true p)
                  | _ => None
                  end
  | PServeFails => match p_listener p with Listening => Some (with_listener Closed true p) | _ => None end
  | PSignal => Some (with_signal p)
  | PSelect failed => match p_main p with
                      | Select => if failed then (if p_serveErr p then Some (with_main FailStopSub p) else None)
                                  else if p_signalled p then Some (with_main StopSub p) else None
                      | _ => None
                      end
  | PMain => main_step p
  | PDeadline => match p_main p with WaitHandlers => Some (with_main TraceShutdown (with_late p)) | _ => None end
  | PAccept stream =>
      match p_listener p with
      | Listening => if stream then match exec Connect (p_node p) with
                                    | Some (Next n) => Some (with_node n (p_connected p) p)
                                    | _ => None
                                    end
                     else Some (with_plain (S (p_plain p)) p)
      | _ => None
      end
  | PReply => match p_plain p with S k => Some (with_plain k p) | O => None end
  | PSubscriberReturns => match p_sub p with Cancelled => Some (with_sub Returned p) | _ => None end
  | PDrainer => if p_drainer p
                then match exec RequestShutdown (p_node p) with
                     | Some (Next n) => Some (with_drainer false (with_node n (p_connected p) p))
                     | _ => None
                     end
                else None
  | PBroker l => if booting p || negb (broker_may l p) then None
                 else match exec l (p_node p) with
                      | Some (Next n) => Some (with_node n (SetConnectedClients l (p_node p) n (p_connected p)) p)
                      | _ => None
                      end
  end.

Definition pstep (p p' : process) : Prop := ∃ l, pexec l p = Some p'.
Definition preachable (p : process) : Prop := rtc pstep at_start p.

Fixpoint prun (ls : list plabel) (p : process) : option process :=
  match ls with [] => Some p | l :: ls => pexec l p ≫= prun ls end.

(** ** What stays true *)
Definition in_shutdown (m : main_pc) : bool :=
  match m with
  | WaitHandlers | TraceShutdown => true
  | ClosePool c | CloseRedis c | Exit c => c =? 0
  | _ => false
  end.
(** The wait for the handlers is over. *)
Definition past_wait (m : main_pc) : bool :=
  match m with TraceShutdown => true | ClosePool c | CloseRedis c | Exit c => c =? 0 | _ => false end.
Definition failing (m : main_pc) : bool :=
  match m with
  | FailStopSub | FailDrain | FailWait => true
  | ClosePool c | CloseRedis c | Exit c => negb (c =? 0)
  | _ => false
  end.
Definition connected (m : main_pc) : bool := match m with Boot ConnectPool => false | _ => true end.
Definition past_pool (m : main_pc) : bool := match m with CloseRedis _ | Exit _ => true | _ => false end.

Definition drain_started (m : main_pc) : bool := match m with CloseListeners => true | _ => in_shutdown m end.

Lemma past_in m : past_wait m = true → in_shutdown m = true.
Proof. by destruct m. Qed.

Record process_ok (p : process) : Prop := {
  po_node : node_ok (p_node p);
  po_gauge : p_connected p = Z.of_nat (size (n_clients (p_node p)));
  po_boot : booting p = true →
    p_listener p = NotYet ∧ p_plain p = 0%nat ∧ p_node p = NewBroker ∧ p_sub p = Unstarted ∧ p_drainer p = false;
  po_closed : in_shutdown (p_main p) = true → p_listener p = Closed;
  po_draining : drain_started (p_main p) = true → p_drainer p = true ∨ n_shutdown (p_node p) = true;
  po_waited : past_wait (p_main p) = true → p_late p = true ∨ all_returned p = true;
  po_late : p_late p = true → past_wait (p_main p) = true;
  po_pool : connected (p_main p) = true → failing (p_main p) = false → past_pool (p_main p) = false → p_pool p = true }.

(** A broker with no handler left gets none by a step of its own. *)
Lemma returned_stays l n n' :
  node_ok n → exec l n = Some (Next n') → l ≠ Connect →
  forallb returned (n_conns n) = true → forallb returned (n_conns n') = true.
Proof.
  intros Hn He Hl Hr. apply forallb_forall. intros c' Hc'%list_elem_of_In. apply list_elem_of_lookup in Hc' as [i Hi'].
  destruct (n_conns n !! i) as [c|] eqn:Hi; [|by rewrite (exec_no_new l n n' i) in Hi'].
  destruct (exec_conn l n n' i c Hn He Hi) as (c1 & Hi1 & Hs). simplify_eq.
  assert (c_pc c = Exited) as Hp.
  { assert (returned c = true) as Hrc by (apply (proj1 (forallb_forall _ _) Hr), list_elem_of_In; by eapply list_elem_of_lookup_2).
    unfold returned in Hrc. by destruct (c_pc c). }
  unfold returned. assert (c_pc c' = Exited) as ->; [|done].
  destruct Hs; try congruence; try done; try (by destruct H; congruence).
  unfold offer_conn. by destruct (has_room c).
Qed.

Lemma gauge_step l n n' g :
  node_ok n → exec l n = Some (Next n') → g = Z.of_nat (size (n_clients n)) →
  SetConnectedClients l n n' g = Z.of_nat (size (n_clients n')).
Proof.
  intros Hn He ->. destruct l as [|i ok|i|i|i f|i f|i|i|e order| |order]; cbn [exec SetConnectedClients] in *;
    try (apply bind_Some in He as (c & _ & He)); try (by simplify_eq).
  - destruct (n_done n); by simplify_eq.
  - apply bind_Some in He as (c' & _ & He). by simplify_eq.
  - destruct (n_done n); simplify_eq; [done|]. unfold run_unregister in He. case_decide; [done|]. by simplify_eq.
  - destruct (n_done n); by simplify_eq.
  - destruct (n_shutdown n && negb (n_done n)); [|done]. case_decide as Ho; [|done]. simplify_eq.
    destruct (drain_result order n Hn Ho) as (n1 & Hr & _ & _ & _ & _ & Hc). rewrite Hr in He. simplify_eq. by rewrite Hc.
Qed.

Lemma shutdown_stays l n n' :
  node_ok n → exec l n = Some (Next n') → n_shutdown n = true → n_shutdown n' = true.
Proof.
  intros Hn He Hs. destruct l as [|i ok|i|i|i f|i f|i|i|e order| |order]; cbn [exec] in He;
    try (apply bind_Some in He as (c & _ & He)); try (by simplify_eq).
  - by destruct (n_done n); simplify_eq.
  - apply bind_Some in He as (c' & _ & He). by simplify_eq.
  - destruct (n_done n); simplify_eq; [done|]. unfold run_unregister, drop_client in He.
    case_decide; [destruct (chan_close _)|]; by simplify_eq.
  - destruct (n_done n); simplify_eq; [done|]. case_decide as Ho; [|done]. simplify_eq.
    destruct (broadcast_result e order n Hn Ho) as (n1 & Hr & Hs1 & _). rewrite Hr in He. simplify_eq. congruence.
  - destruct (n_shutdown n && negb (n_done n)); [|done]. case_decide as Ho; [|done]. simplify_eq.
    destruct (drain_result order n Hn Ho) as (n1 & Hr & Hs1 & _). rewrite Hr in He. simplify_eq. congruence.
Qed.

Lemma at_start_ok : process_ok at_start.
Proof. split; try done; apply NewBroker_ok. Qed.

Ltac known :=
  repeat match goal with
  | H : false = true → _ |- _ => clear H
  | H : true = false → _ |- _ => clear H
  | H : ?x = ?x → _ |- _ => specialize (H eq_refl)
  | H : _ ∧ _ |- _ => destruct H
  | H : ?P → _, H' : ?P |- _ => specialize (H H')
  end.
Ltac phase :=
  unfold all_returned in *; split; cbn in *; try done; unfold booting in *; cbn in *; intros; known; try congruence; auto 10.

Lemma pexec_ok l p p' : process_ok p → pexec l p = Some p' → process_ok p'.
Proof.
  intros [Hn Hg Hb Hc Hdr Hw Hl Hp] He. unfold pexec in He. destruct (exited p) eqn:Hx; [done|]. unfold exited in Hx.
  unfold booting in Hb. destruct l as [ok|ok| | |failed| | |stream| | | |l].
  - destruct (p_main p) as [s| | | | | | | | | | | |] eqn:Hm; try done.
    destruct ok; simplify_eq; [destruct s|]; phase.
  - destruct (booting p) eqn:Hbt; [done|]. destruct (p_listener p) eqn:Hli; try done. unfold booting in *.
    destruct ok; simplify_eq; phase.
  - destruct (p_listener p) eqn:Hli; try done. simplify_eq. phase.
  - simplify_eq. phase.
  - destruct (p_main p) eqn:Hm; try done.
    destruct failed; [destruct (p_serveErr p)|destruct (p_signalled p)]; simplify_eq; phase.
  - unfold main_step in He. destruct (p_main p) eqn:Hm; try done;
      try (destruct (all_returned p) eqn:Hr; [|done]); try (destruct (n_done (p_node p)); [|done]);
      simplify_eq; phase. by apply node_ok_flags.
  - destruct (p_main p) eqn:Hm; try done. simplify_eq. phase.
  - destruct (p_listener p) eqn:Hli; try done. pose proof (past_in (p_main p)). destruct stream; simplify_eq/=; phase. by apply connect_ok.
  - destruct (p_plain p) as [|k] eqn:Hk; [done|]. simplify_eq. unfold all_returned in Hw. rewrite Hk in Hw. phase. by destruct Hw; auto.
  - destruct (p_sub p) eqn:Hs; try done. simplify_eq. phase.
  - destruct (p_drainer p) eqn:Hd; [|done]. simplify_eq/=. phase. by apply node_ok_flags.
  - destruct (booting p || negb (broker_may l p)) eqn:Hbm; [done|]. boolify.
    destruct (exec l (p_node p)) as [[n|]|] eqn:Hex; try done. simplify_eq.
    assert (l ≠ Connect) as Hlc by (by intros ->).
    destruct (exec_ok l _ _ Hn Hex) as (n1 & Heq & Hn'). injection Heq as <-.
    split; cbn; try done; unfold booting in *; cbn.
    + by apply gauge_step.
    + intros Hbt. congruence.
    + intros Hs. destruct (Hdr Hs) as [?|?]; auto. right. by apply (shutdown_stays l (p_node p)).
    + intros Hs. destruct (Hw Hs) as [?|Hr]; auto. right. unfold all_returned in *. cbn in *.
      apply andb_true_iff in Hr as [-> Hr]. by apply (returned_stays l (p_node p)).
Qed.

Lemma preachable_ok p : preachable p → process_ok p.
Proof.
  unfold preachable. intros Hr. pose proof at_start_ok as H0. revert H0.
  induction Hr as [p|p1 p2 p3 [l Hl] _ IH]; [done|]. eauto using pexec_ok.
Qed.

(** ** The shutdown ends *)

(** What the process does by itself once it waits: [main], the drainer, the
    broker's drain and the handlers' own steps. *)
Definition internal (l : plabel) : bool :=
  match l with
  | PMain | PDrainer | PReply => true
  | PBroker (Drain _) => true
  | PBroker l => is_handler l
  | _ => false
  end.
Definition main_left (m : main_pc) : nat :=
  match m with WaitHandlers => 4 | TraceShutdown => 3 | ClosePool _ => 2 | CloseRedis _ => 1 | _ => 0 end.
Definition to_do (p : process) : nat :=
  (main_left (p_main p) + p_plain p + (if p_drainer p then 1 else 0) + (if n_done (p_node p) then 0 else 1)
   + work_left (p_node p))%nat.

Lemma drain_work order n :
  node_ok n → order ≡ₚ elements (n_clients n) →
  ∃ n', run_drain order n = Next n' ∧ n_done n' = true ∧ work_left n' = work_left n.
Proof.
  intros Hn Ho. destruct (drain_result order n Hn Ho) as (n' & Hr & _ & Hd & _ & Hc & _).
  exists n'. split_and!; [done..|]. unfold work_left.
  assert (∀ l, sum_list_with remaining l = sum_list (remaining <$> l)) as Hsum
    by (intros l; induction l as [|c l IH]; [done|]; cbn; by rewrite IH).
  rewrite !Hsum. f_equal. apply list_eq. intros j. rewrite !list_lookup_fmap, Hc.
  case_decide; [|done]. by destruct (n_conns n !! j).
Qed.

Lemma internal_decreases l p p' :
  node_ok (p_node p) → internal l = true → pexec l p = Some p' →
  in_shutdown (p_main p) = true → in_shutdown (p_main p') = true ∧ (to_do p' < to_do p)%nat ∧ p_late p' = p_late p.
Proof.
  intros Hn Hl He Hs. unfold pexec in He. destruct (exited p) eqn:Hx; [done|]. unfold exited in Hx.
  destruct l as [ok|ok| | |failed| | |stream| | | |l]; try done.
  - unfold main_step in He. destruct (p_main p) eqn:Hm; try done; try (destruct (all_returned p); [|done]); simplify_eq;
      unfold to_do; rewrite Hm; cbn in *; (split_and!; [done|lia|done]).
  - destruct (p_plain p) as [|k] eqn:Hk; [done|]. simplify_eq. split_and!; [done| |done]. unfold to_do. cbn. rewrite Hk. lia.
  - destruct (p_drainer p) eqn:Hd; [|done]. simplify_eq/=. split_and!; [done| |done]. unfold to_do. cbn. rewrite Hd.
    unfold work_left. cbn. lia.
  - destruct (booting p || negb (broker_may l p)); [done|]. destruct (exec l (p_node p)) as [[n|]|] eqn:Hex; try done.
    simplify_eq. split_and!; [done| |done]. unfold to_do. cbn.
    destruct (is_handler l) eqn:Hh.
    + destruct (handler_step_decreases l _ _ Hn Hh Hex) as (-> & _ & Hw & _). lia.
    + destruct l as [|i ok|i|i|i f|i f|i|i|e order| |order]; try done. cbn [exec] in Hex.
      destruct (n_shutdown (p_node p) && negb (n_done (p_node p))) eqn:Hsd; [|done]. boolify. case_decide as Ho; [|done]. simplify_eq.
      destruct (drain_work order _ Hn Ho) as (n1 & Hr & Hd1 & Hw). rewrite Hr in Hex. simplify_eq.
      rewrite Hd1, Hw. match goal with H : n_done _ = false |- _ => rewrite H end. lia.
Qed.

(** With nothing left to do by itself, the process has exited. *)
Lemma stuck_exited p :
  process_ok p → in_shutdown (p_main p) = true → (∀ l, internal l = true → pexec l p = None) → p_main p = Exit 0.
Proof.
  intros Hok Hs Hstuck. pose proof (po_node p Hok) as Hn.
  destruct (exited p) eqn:Hx; [unfold exited in Hx; destruct (p_main p) as [| | | | | | | | | | | |code] eqn:Hm; try done;
    cbn in Hs; apply Z.eqb_eq in Hs; by subst|]. exfalso.
  assert (p_drainer p = false) as Hd.
  { specialize (Hstuck PDrainer eq_refl). unfold pexec in Hstuck. rewrite Hx in Hstuck. by destruct (p_drainer p). }
  assert (p_plain p = 0%nat) as Hpl.
  { specialize (Hstuck PReply eq_refl). unfold pexec in Hstuck. rewrite Hx in Hstuck. by destruct (p_plain p). }
  assert (booting p = false) as Hb by (unfold booting; by destruct (p_main p)).
  assert (∀ l, internal (PBroker l) = true → exec l (p_node p) = None) as Hbr.
  { intros l Hl. specialize (Hstuck (PBroker l) Hl). unfold pexec in Hstuck. rewrite Hx, Hb in Hstuck.
    assert (broker_may l p = true) as Hmay by (by destruct l). rewrite Hmay in Hstuck. cbn in Hstuck.
    destruct (exec l (p_node p)) as [o|] eqn:He; [|done]. by destruct (exec_ok l _ o Hn He) as (n' & -> & _). }
  assert (n_shutdown (p_node p) = true) as Hsd.
  { destruct (po_draining p Hok) as [?|?]; [|congruence|done]. unfold drain_started. by destruct (p_main p). }
  assert (n_done (p_node p) = true) as Hdone.
  { specialize (Hbr (Drain (elements (n_clients (p_node p)))) eq_refl). cbn in Hbr. rewrite Hsd in Hbr.
    destruct (n_done (p_node p)); [done|]. cbn in Hbr. by rewrite decide_True in Hbr. }
  assert (all_returned p = true) as Hall.
  { unfold all_returned. rewrite Hpl. cbn. apply forallb_forall. intros c Hc%list_elem_of_In.
    apply list_elem_of_lookup in Hc as [i Hi]. unfold returned.
    rewrite (handlers_returned (p_node p) i c); [done..| |done]. intros l Hl. apply Hbr. by destruct l. }
  specialize (Hstuck PMain eq_refl). unfold pexec, main_step in Hstuck. rewrite Hx in Hstuck.
  unfold exited in Hx. destruct (p_main p); try done. by rewrite Hall in Hstuck.
Qed.

Lemma to_do_cap p :
  node_ok (p_node p) → p_main p = WaitHandlers → (to_do p ≤ 6 + p_plain p + 19 * length (n_conns (p_node p)))%nat.
Proof.
  intros Hn Hm. pose proof (work_left_cap _ Hn). unfold to_do. rewrite Hm. cbn. destruct (p_drainer p), (n_done (p_node p)); lia.
Qed.

(** C29: A process starts and stops in order.  However its parts interleave:
    nothing is accepted before the pool is connected and the migrations have run;
    the gauge of connected clients is the number of the broker's clients; the
    pool stays open while a request is served, unless the listener failed or the
    deadline passed; and an exit with status 0 is one with the listener closed
    and, unless the deadline passed, every handler returned.  Once a signal has
    brought [main] to wait for the handlers, what the process does by itself comes
    to an end, within six steps, one per request and nineteen per stream, and the
    end is that exit, before any deadline. *)
Theorem shutdown_is_graceful (p : process) :
  preachable p →
  (booting p = true → p_listener p = NotYet ∧ p_plain p = 0%nat ∧ n_conns (p_node p) = [])
  ∧ p_connected p = Z.of_nat (size (n_clients (p_node p)))
  ∧ (booting p = false → failing (p_main p) = false → p_pool p = true ∨ p_late p = true ∨ all_returned p = true)
  ∧ (p_main p = Exit 0 → p_listener p = Closed ∧ (p_late p = true ∨ all_returned p = true))
  ∧ (p_main p = WaitHandlers → ∀ ls p', Forall (λ l, internal l = true) ls → prun ls p = Some p' →
       (length ls ≤ 6 + p_plain p + 19 * length (n_conns (p_node p)))%nat
       ∧ ((∀ l, internal l = true → pexec l p' = None) →
          p_main p' = Exit 0 ∧ p_late p' = false ∧ all_returned p' = true)).
Proof.
  intros Hok%preachable_ok. split_and!.
  - intros Hb. destruct (po_boot p Hok Hb) as (? & ? & -> & _). done.
  - apply (po_gauge p Hok).
  - intros Hb Hf. destruct (past_pool (p_main p)) eqn:Hp.
    + right. apply (po_waited p Hok). unfold failing, past_pool, past_wait in *. destruct (p_main p); try done; by apply negb_false_iff.
    + left. apply (po_pool p Hok); [|done..]. unfold booting, connected in *. by destruct (p_main p).
  - intros Hm. split; [apply (po_closed p Hok)|apply (po_waited p Hok)]; by rewrite Hm.
  - intros Hm ls p' Hls Hr. pose proof (to_do_cap p (po_node p Hok) Hm) as Hcap.
    assert (p_late p = false) as Hlate.
    { destruct (p_late p) eqn:E; [|done]. pose proof (po_late p Hok E) as Hp. by rewrite Hm in Hp. }
    assert (in_shutdown (p_main p) = true) as Hs by (by rewrite Hm). clear Hm.
    assert ((length ls + to_do p' ≤ to_do p)%nat ∧ process_ok p' ∧ in_shutdown (p_main p') = true ∧ p_late p' = false)
      as (Hlen & Hok' & Hs' & Hlate').
    { clear Hcap. revert p Hok Hr Hlate Hs. induction Hls as [|l ls Hl _ IH]; intros p Hok Hr Hlate Hs; cbn in Hr.
      - simplify_eq. split_and!; [cbn; lia|done..].
      - apply bind_Some in Hr as (p1 & He & Hr).
        destruct (internal_decreases l p p1 (po_node p Hok) Hl He Hs) as (Hs1 & Hlt & Hl1).
        destruct (IH p1) as (? & ? & ? & ?); [by eapply pexec_ok|done|congruence|done|]. split_and!; [cbn; lia|done..]. }
    split; [lia|]. intros Hstuck. pose proof (stuck_exited p' Hok' Hs' Hstuck) as Hm'. split_and!; [done..|].
    destruct (po_waited p' Hok') as [?|?]; [by rewrite Hm'|congruence|done].
Qed.

(** A stream and a request are open when the signal comes; the process drains
    them and exits with 0. *)
Definition demo_serving : list plabel :=
  [PBoot true; PBoot true; PBoot true; PBoot true; PListen true; PAccept true; PBroker (FirstFlush 0 true);
   PBroker (Register 0); PBroker (Greet 0); PAccept false; PSignal; PSelect false; PMain; PMain; PMain].
Definition demo_draining : list plabel :=
  [PDrainer; PBroker (Drain [0%nat]); PBroker (Receive 0 true); PReply; PBroker (Unregister 0); PMain; PMain; PMain; PMain].
Definition demo_process : process := default at_start (prun demo_serving at_start).
Definition demo_gone : process := default at_start (prun demo_draining demo_process).

Lemma prun_rtc ls p p' : prun ls p = Some p' → rtc pstep p p'.
Proof.
  revert p. induction ls as [|l ls IH]; intros p Hr; cbn in Hr; [by simplify_eq|].
  apply bind_Some in Hr as (p1 & He & Hr). eapply rtc_l; [by exists l|by apply IH].
Qed.

Lemma shutdown_is_graceful_witness :
  p_connected demo_process = 1 ∧ p_main demo_process = WaitHandlers
  ∧ (length demo_draining ≤ 6 + 1 + 19 * 1)%nat ∧ p_main demo_gone = Exit 0 ∧ p_late demo_gone = false.
Proof.
  assert (preachable demo_process) as Hr by (apply prun_rtc with demo_serving; vm_compute; reflexivity).
  destruct (shutdown_is_graceful demo_process Hr) as (_ & Hg & _ & _ & H).
  split; [rewrite Hg; vm_compute; reflexivity|]. split; [vm_compute; reflexivity|].
  destruct (H eq_refl demo_draining demo_gone) as [Hlen Hend]; [repeat constructor|vm_compute; reflexivity|].
  split; [exact Hlen|]. split; vm_compute; reflexivity.
Defined.
