(* ===== verification/Outbox.v ===== *)
(** * From the log to the wire ([service/flag_service.go], [internal/sse/wire.go])

    A mutation appends an event to the log and publishes an envelope to Redis;
    every node's subscriber turns envelopes into stream events.  This file
    relates the three: what is published is what is logged, in the same order,
    but for an update without fields, which publishes again the state an
    earlier event already has. *)
From S2P Require Import Prelude JsMap Types Server Broker.

(** ** [wire.go] *)

(** [Envelope]; [Ts] and [Traceparent] may be missing. *)
Record Envelope := mkEnvelope {
  env_Type : jstr; env_Version : Z; env_Data : jstr; env_Ts : Z; env_Traceparent : jstr }.

Section wire.
(** [encoding/json] on a payload *)
Context (marshal : FlagObj → jstr).

Definition envelope_type (e : envelope) : jstr :=
  match e with FlagUpdated _ _ => js "flag_updated" | FlagDeleted _ _ => js "flag_deleted" end.
Definition envelope_version (e : envelope) : Z :=
  match e with FlagUpdated v _ => v | FlagDeleted v _ => v end.
Definition envelope_payload (e : envelope) : FlagObj :=
  match e with FlagUpdated _ f => FullFlag f | FlagDeleted _ k => KeyOnly k end.

(** [Publish], called by [publishFlagUpdate] and [publishFlagDelete], at [now]. *)
Definition Publish (now : Z) (traceparent : jstr) (e : envelope) : Envelope :=
  mkEnvelope (envelope_type e) (envelope_version e) (marshal (envelope_payload e)) now traceparent.

Definition sse_event (env : Envelope) : SSEEvent :=
  mkSSEEvent (env_Type env) (env_Data env) (env_Version env).

(** The loop of [Subscribe] over the messages of the channel; [None] is a
    payload that is not an envelope.  The second component lists the delays it
    observes, [None] when the publisher sent no time. *)
Definition Subscribe (msgs : list (option Envelope)) : list SSEEvent := omap (fmap sse_event) msgs.
Definition observed (env : Envelope) (now : Z) : option Z :=
  if env_Ts env >? 0 then Some (now - env_Ts env) else None.

(** What a stream event says. *)
Definition event_of (e : envelope) : SSEEvent :=
  mkSSEEvent (envelope_type e) (marshal (envelope_payload e)) (envelope_version e).

(** The clock and the trace do not reach the stream. *)
Lemma Subscribe_Publish now tp es :
  Subscribe (map (λ e, Some (Publish now tp e)) es) = map event_of es.
Proof. induction es as [|e es IH]; [done|]. cbn. by rewrite <-IH. Qed.
End wire.

(** ** Requests ([flag_service.go]) *)

Section service.
Context (fmt_time : Z → jstr).

(** An admin request served from start to end. *)
Definition serve_write (now : Z) (w : write) (s : server) : server :=
  match w with
  | WCreate id i => (CreateFlag fmt_time now id i s).2
  | WUpdate id req => (UpdateFlag fmt_time now id req s).2
  | WToggle id => (ToggleFlag fmt_time now id s).2
  | WDelete id => (DeleteFlag fmt_time now id s).2
  end.

(** The envelope that announces a logged event. *)
Definition announces (e : FlagEvent) : envelope :=
  match ev_type e, ev_payload e with
  | Deleted, _ => FlagDeleted (ev_version e) (ev_flag_key e)
  | _, FullFlag f => FlagUpdated (ev_version e) f
  | _, KeyOnly k => FlagDeleted (ev_version e) k
  end.

(** Events carry their own version and key. *)
Definition event_ok (e : FlagEvent) : Prop :=
  match ev_type e, ev_payload e with
  | Deleted, KeyOnly k => k = ev_flag_key e
  | (Created | Updated), FullFlag f => fc_key f = ev_flag_key e ∧ fc_version f = ev_version e
  | _, _ => False
  end.

(** What a request logs when it logs something. *)
Definition logged_type (w : write) : EventType :=
  match w with WCreate _ _ => Created | WUpdate _ _ | WToggle _ => Updated | WDelete _ => Deleted end.

(** What one request does to the log and to the channel: an event and its
    envelope, nothing, or - an update without fields - the state of a row once
    more. *)
Inductive logs_as (w : write) (s s' : server) : list FlagEvent → list envelope → Prop :=
| logs_event e :
    event_ok e → ev_type e = logged_type w → log (s_db s') = log (s_db s) ++ [e] → s_published s' = s_published s ++ [announces e] →
    logs_as w s s' [e] [announces e]
| logs_nothing :
    log (s_db s') = log (s_db s) → s_published s' = s_published s → logs_as w s s' [] []
| logs_again r :
    (∃ id req, w = WUpdate id req) → r ∈ rows (s_db s) → log (s_db s') = log (s_db s) →
    s_published s' = s_published s ++ [FlagUpdated (fc_version (r_flag r)) (r_flag r)] →
    logs_as w s s' [] [FlagUpdated (fc_version (r_flag r)) (r_flag r)].

Definition logs (w : write) (s s' : server) : Prop := ∃ evs envs, logs_as w s s' evs envs.

Lemma logs_refl w s s' : log (s_db s') = log (s_db s) → s_published s' = s_published s → logs w s s'.
Proof. intros. do 2 eexists. by apply logs_nothing. Qed.

Lemma logs_written w s s' e :
  event_ok e → ev_type e = logged_type w →
  log (s_db s') = log (s_db s) ++ [e] → s_published s' = s_published s ++ [announces e] → logs w s s'.
Proof. intros. do 2 eexists. by apply (logs_event _ _ _ e). Qed.

(** The tail of [UpdateFlag] and [ToggleFlag]. *)
Lemma write_row_logs w v now id f r d s : logged_type w = Updated →
  (∀ x, fc_key (f x) = fc_key x) → (∀ x, fc_version (f x) = v) → log d = log (s_db s) →
  logs w s (publish_result (write_row fmt_time v now id f r d) s).2.
Proof.
  intros Hw Hf Hv Hl. unfold write_row. destruct (row_ok _); [|by apply logs_refl].
  apply (logs_written _ _ _ (mkFlagEvent v Updated (r_key r) (FullFlag (f (r_flag r))) (fmt_time now))).
  - by split.
  - done.
  - cbn. by rewrite Hl.
  - cbn. by rewrite Hv.
Qed.

Lemma serve_write_logs now w s : logs w s (serve_write now w s).
Proof.
  destruct w as [id i|id req|id|id]; cbn [serve_write].
  - unfold CreateFlag. destruct (validate_create i); [by apply logs_refl|].
    destruct (bool_decide _); [|by apply logs_refl]. unfold Create, nextVersion, Create_commit. cbn.
    destruct (_ && _ && _); [|by apply logs_refl].
    eapply logs_written; cycle 2; [reflexivity|reflexivity|by split|done].
  - unfold UpdateFlag. destruct (bad_percentage _); [by apply logs_refl|]. unfold Update.
    destruct (no_fields _).
    + destruct (GetByID id (s_db s)) as [r|] eqn:Hr; [|by apply logs_refl].
      apply GetByID_Some in Hr as [Hr _]. exists [], [FlagUpdated (fc_version (r_flag r)) (r_flag r)].
      apply logs_again; [by do 2 eexists|done..].
    + unfold nextVersion, Update_commit. destruct (GetByID _ _) as [r|]; [|by apply logs_refl].
      destruct (version_differs _ _); [by apply logs_refl|]. by apply write_row_logs.
  - unfold ToggleFlag, Toggle, nextVersion, Toggle_commit.
    destruct (GetByID _ _) as [r|]; [|by apply logs_refl]. by apply write_row_logs.
  - unfold DeleteFlag. destruct (GetByID id (s_db s)) as [r|] eqn:Hr; [|by apply logs_refl].
    unfold Delete. rewrite Hr. unfold nextVersion, Delete_commit. cbn.
    eapply logs_written; cycle 2; [reflexivity|reflexivity|done|done].
Qed.

(** The database is the one of the write without its publishing. *)
Lemma serve_write_serial now w s : serial fmt_time (s_db s) → serial fmt_time (s_db (serve_write now w s)).
Proof.
  intros Hs. destruct w as [id i|id req|id|id]; cbn [serve_write].
  - unfold CreateFlag. destruct (validate_create i); [done|]. destruct (bool_decide _); [|done].
    pose proof (serial_write fmt_time now (WCreate id i) _ Hs) as Hw. cbn [write_db] in Hw.
    destruct (Create _ _ _ _ _) as [[r|e] d]; done.
  - unfold UpdateFlag. destruct (bad_percentage _); [done|].
    pose proof (serial_write fmt_time now (WUpdate id req) _ Hs) as Hw. cbn [write_db] in Hw. unfold publish_result.
    by destruct (Update _ _ _ _ _) as [[[r|]|e] d].
  - unfold ToggleFlag. pose proof (serial_write fmt_time now (WToggle id) _ Hs) as Hw. cbn [write_db] in Hw.
    unfold publish_result. by destruct (Toggle _ _ _ _) as [[[r|]|e] d].
  - unfold DeleteFlag. pose proof (serial_write fmt_time now (WDelete id) _ Hs) as Hw. cbn [write_db] in Hw.
    destruct (GetByID _ _); [|done]. by destruct (Delete _ _ _ _) as [[v|e] d].
Qed.

(** ** A channel that covers a log

    [covers seen rest ps]: the envelopes [ps] announce the events [rest] in
    order, with announcements of events already seen in between. *)
Inductive covers : list FlagEvent → list FlagEvent → list envelope → Prop :=
| covers_nil seen : covers seen [] []
| covers_again seen rest e ps :
    e ∈ seen → covers seen rest ps → covers seen rest (announces e :: ps)
| covers_next seen e rest ps :
    covers (seen ++ [e]) rest ps → covers seen (e :: rest) (announces e :: ps).

Lemma covers_snoc_next seen rest ps e :
  covers seen rest ps → covers seen (rest ++ [e]) (ps ++ [announces e]).
Proof. induction 1; cbn; eauto using covers. Qed.

Lemma covers_snoc_again seen rest ps e :
  covers seen rest ps → e ∈ seen ++ rest → covers seen rest (ps ++ [announces e]).
Proof.
  induction 1 as [seen|seen rest e' ps He' _ IH|seen e' rest ps _ IH]; cbn; intros He.
  - rewrite app_nil_r in He. eauto using covers.
  - eauto using covers.
  - apply covers_next, IH. by rewrite <-app_assoc.
Qed.

Lemma covers_front seen rest old ps :
  Forall (λ p, ∃ e, e ∈ seen ∧ p = announces e) old → covers seen rest ps → covers seen rest (old ++ ps).
Proof. induction 1 as [|p old (e & He & ->) _ IH]; cbn; eauto using covers. Qed.

(** ** Servers that have served some requests *)
Inductive served : server → Prop :=
| served_init : served (mkServer empty_db [])
| served_write now w s : served s → served (serve_write now w s).

Lemma log_state_lookup l k o :
  log_state l !! k = Some o → ∃ e, e ∈ l ∧ ev_type e ≠ Deleted ∧ ev_flag_key e = k ∧ ev_payload e = o.
Proof.
  induction l as [|e l IH] using rev_ind; [unfold log_state; cbn; by rewrite lookup_empty|].
  rewrite log_state_snoc. unfold log_step. intros Hk.
  assert (log_state l !! k = Some o ∨ ev_type e ≠ Deleted ∧ ev_flag_key e = k ∧ ev_payload e = o) as [Hl|He].
  { destruct (ev_type e) eqn:Ht;
      [apply lookup_insert_Some in Hk as [[-> ->]|[_ ?]]..|apply lookup_delete_Some in Hk as [_ ?]]; auto. }
  - destruct (IH Hl) as (e' & ? & ?). exists e'. set_solver.
  - exists e. set_solver.
Qed.

(** The state of a row is the payload of an event of the log. *)
Lemma row_announced d r :
  serial fmt_time d → Forall event_ok (log d) → r ∈ rows d →
  ∃ e, e ∈ log d ∧ FlagUpdated (fc_version (r_flag r)) (r_flag r) = announces e.
Proof.
  intros Hd%serial_inv Hok Hr.
  assert (table_map (rows d) !! r_key r = Some (FullFlag (r_flag r))) as Ht.
  { apply table_map_lookup; [apply Hd|by exists r]. }
  rewrite <-(inv_state _ Hd) in Ht. apply log_state_lookup in Ht as (e & He & Hty & Hk & Hp).
  exists e. split; [done|]. pose proof (proj1 (Forall_forall _ _) Hok e He) as Ho.
  unfold event_ok, announces in *. rewrite Hp in Ho |- *.
  destruct (ev_type e); try done; by destruct Ho as [_ ->].
Qed.

Record served_ok (s : server) : Prop := {
  so_serial : serial fmt_time (s_db s);
  so_events : Forall event_ok (log (s_db s));
  so_published : Forall (λ p, ∃ e, e ∈ log (s_db s) ∧ p = announces e) (s_published s) }.

(** One request extends log and channel together. *)
Lemma serve_write_covers now w s :
  served_ok s → let s' := serve_write now w s in
  served_ok s' ∧ ∃ rest ps, log (s_db s') = log (s_db s) ++ rest ∧ s_published s' = s_published s ++ ps
  ∧ ∀ seen mid sent, log (s_db s) = seen ++ mid → covers seen mid sent → covers seen (mid ++ rest) (sent ++ ps).
Proof.
  intros [Hs He Hp]. cbn. pose proof (serve_write_serial now w s Hs) as Hs'.
  assert (∀ e0, Forall (λ p, ∃ e, e ∈ log (s_db s) ++ [e0] ∧ p = announces e) (s_published s)) as Hp'.
  { intros e0. eapply Forall_impl; [exact Hp|]. intros p (e & ? & ->). exists e. set_solver. }
  destruct (serve_write_logs now w s) as (evs & envs & [e Hok _ Hl Hpub|Hl Hpub|r _ Hr Hl Hpub]).
  - split.
    + split; [done|..]; rewrite Hl, ?Hpub; apply Forall_app; (split; [done|]); apply Forall_singleton; [done|].
      exists e. set_solver.
    + exists [e], [announces e]. split_and!; [done..|]. intros seen mid sent _. apply covers_snoc_next.
  - split; [split; [done|..]; by rewrite Hl, ?Hpub|]. exists [], []. rewrite !app_nil_r. split_and!; [done..|].
    intros seen mid sent _. by rewrite !app_nil_r.
  - destruct (row_announced (s_db s) r Hs He Hr) as (e & Hin & Heq). split.
    + split; [done|by rewrite Hl|]. rewrite Hl, Hpub. apply Forall_app. split; [done|]. apply Forall_singleton. eauto.
    + exists [], [announces e]. rewrite app_nil_r, <-Heq. split_and!; [done..|].
      intros seen mid sent Hlog Hc. rewrite app_nil_r, Heq. apply covers_snoc_again; [done|]. by rewrite <-Hlog.
Qed.

Lemma served_inv s : served s → served_ok s ∧ covers [] (log (s_db s)) (s_published s).
Proof.
  induction 1 as [|now w s _ [IH Hc]]; [split; [split; constructor|constructor]|].
  destruct (serve_write_covers now w s IH) as (Hok & rest & ps & Hl & Hp & Hcov).
  split; [done|]. rewrite Hl, Hp. by apply Hcov.
Qed.

(** Requests in a row, from any state. *)
Lemma serve_writes_cover (ws : list (Z * write)) s :
  served_ok s → let s' := foldl (λ s w, serve_write w.1 w.2 s) s ws in
  served_ok s' ∧ ∃ rest ps, log (s_db s') = log (s_db s) ++ rest ∧ s_published s' = s_published s ++ ps
  ∧ covers (log (s_db s)) rest ps.
Proof.
  intros Hs. cbn. induction ws as [|w ws (Hok & rest & ps & Hl & Hp & Hc)] using rev_ind.
  - cbn. split; [done|]. exists [], []. rewrite !app_nil_r. split_and!; [done..|constructor].
  - rewrite foldl_app. cbn. destruct (serve_write_covers w.1 w.2 _ Hok) as (Hok' & rest' & ps' & Hl' & Hp' & Hc').
    split; [done|]. exists (rest ++ rest'), (ps ++ ps').
    rewrite Hl', Hl, Hp', Hp, <-!app_assoc. split_and!; [done..|]. by apply Hc'.
Qed.

End service.

(** ** Witness: a flag is created, put without fields, toggled and deleted *)
Definition four_writes : list (Z * write) :=
  [(1, WCreate (js "id-1") (mkCreateFlagInput (js "dark-mode") [] false 50 []));
   (2, WUpdate (js "id-1") (mkUpdateFlagRequest (mkUpdateFlagInput None None None None) None));
   (3, WToggle (js "id-1")); (4, WDelete (js "id-1"))].
Definition demo_served : server :=
  foldl (λ s w, serve_write show w.1 w.2 s) (mkServer empty_db []) four_writes.

Lemma demo_is_served : served show demo_served.
Proof.
  apply (served_write _ 4 (WDelete (js "id-1"))), (served_write _ 3 (WToggle (js "id-1"))),
    (served_write _ 2 (WUpdate (js "id-1") (mkUpdateFlagRequest (mkUpdateFlagInput None None None None) None))),
    (served_write _ 1 (WCreate (js "id-1") (mkCreateFlagInput (js "dark-mode") [] false 50 []))), served_init.
Qed.

