(* ===== verification/Metrics.v ===== *)
(** * What the metrics count ([internal/metrics/metrics.go] and its callers)

    The counters and histograms of a node, and the requests of [Outbox] with the
    calls that feed them: a mutation is counted where it is published, and a
    publication that Redis refuses is counted as an error.  The gauge of connected
    clients is moved in [Process]; how Prometheus stores and serves the values is
    its library's. *)
From S2P Require Import Prelude JsMap Types Server Broker Outbox.

(** The metrics of one node: a counter per label, a counter, and the values three
    histograms have observed, in nanoseconds, the newest last. *)
Record metrics := mkMetrics {
  FlagUpdates : gmap jstr Z; RedisPublishErrors : Z; ConfigPropagation : list Z;
  DBQuery : list (jstr * Z); Reconciliation : list Z }.
Definition no_metrics : metrics := mkMetrics ∅ 0 [] [] [].

(** A label that was never used counts zero. *)
Definition updates_of (eventType : jstr) (m : metrics) : Z := default 0 (FlagUpdates m !! eventType).

Definition ObserveFlagUpdate (eventType : jstr) (m : metrics) : metrics :=
  mkMetrics (<[eventType := updates_of eventType m + 1]> (FlagUpdates m)) (RedisPublishErrors m)
    (ConfigPropagation m) (DBQuery m) (Reconciliation m).
Definition ObservePropagation (d : Z) (m : metrics) : metrics :=
  mkMetrics (FlagUpdates m) (RedisPublishErrors m) (ConfigPropagation m ++ [if d <? 0 then 0 else d])
    (DBQuery m) (Reconciliation m).
Definition IncRedisPublishError (m : metrics) : metrics :=
  mkMetrics (FlagUpdates m) (RedisPublishErrors m + 1) (ConfigPropagation m) (DBQuery m) (Reconciliation m).
(** The functions that [TimeDB] and [TimeReconcile] return, called at [now]. *)
Definition TimeDB (query : jstr) (start now : Z) (m : metrics) : metrics :=
  mkMetrics (FlagUpdates m) (RedisPublishErrors m) (ConfigPropagation m) (DBQuery m ++ [(query, now - start)]) (Reconciliation m).
Definition TimeReconcile (start now : Z) (m : metrics) : metrics :=
  mkMetrics (FlagUpdates m) (RedisPublishErrors m) (ConfigPropagation m) (DBQuery m) (Reconciliation m ++ [now - start]).

(** ** The publishing side *)

(** Redis, as [Publish] finds it. *)
Inductive rdb := NoClient | Reachable | Unreachable.

(** A node with the envelopes that reached the channel. *)
Record metered := mkMetered { t_server : server; t_channel : list envelope; t_metrics : metrics }.

Definition Publish_to (r : rdb) (e : envelope) (n : metered) : metered :=
  match r with
  | NoClient => n
  | Reachable => mkMetered (t_server n) (t_channel n ++ [e]) (t_metrics n)
  | Unreachable => mkMetered (t_server n) (t_channel n) (IncRedisPublishError (t_metrics n))
  end.

(** [publishFlagUpdate] and [publishFlagDelete] *)
Definition publishFlag (action : jstr) (r : rdb) (e : envelope) (n : metered) : metered :=
  Publish_to r e (mkMetered (t_server n) (t_channel n) (ObserveFlagUpdate action (t_metrics n))).

Definition action_of (w : write) : jstr :=
  match w with
  | WCreate _ _ => js "created" | WUpdate _ _ => js "updated" | WToggle _ => js "toggled" | WDelete _ => js "deleted"
  end.

Section metrics.
Context (fmt_time : Z → jstr).

(** A request, with what it publishes handed to Redis. *)
Definition mutate (now : Z) (w : write) (r : rdb) (n : metered) : metered :=
  let s := serve_write fmt_time now w (t_server n) in
  foldl (λ n e, publishFlag (action_of w) r e n) (mkMetered s (t_channel n) (t_metrics n))
    (drop (length (s_published (t_server n))) (s_published s)).

(** Requests one after the other, from the start of the node *)
Inductive runs : metered → Prop :=
| runs_start : runs (mkMetered (mkServer empty_db []) [] no_metrics)
| runs_mutate now w r n : runs n → r ≠ NoClient → runs (mutate now w r n).

(** [Subscribe] on a message: an envelope without a time is not measured. *)
Definition consume (env : Envelope) (now : Z) (m : metrics) : metrics :=
  if env_Ts env >? 0 then ObservePropagation (now - env_Ts env) m else m.

Definition count_type (ty : EventType) (l : list FlagEvent) : Z := Z.of_nat (length (filter (λ e, ev_type e = ty) l)).
Definition total_updates (m : metrics) : Z :=
  updates_of (js "created") m + updates_of (js "updated") m + updates_of (js "toggled") m + updates_of (js "deleted") m.

Lemma updates_observe a b m : updates_of a (ObserveFlagUpdate b m) = updates_of a m + (if decide (a = b) then 1 else 0).
Proof.
  unfold updates_of at 1, ObserveFlagUpdate. cbn [FlagUpdates]. case_decide as H; subst.
  - by rewrite lookup_insert_eq.
  - rewrite lookup_insert_ne by done. unfold updates_of. lia.
Qed.

Lemma count_type_snoc ty l e : count_type ty (l ++ [e]) = count_type ty l + (if decide (ev_type e = ty) then 1 else 0).
Proof. unfold count_type. rewrite filter_app, length_app, filter_cons, filter_nil. case_decide; cbn; lia. Qed.

(** A request counts what it publishes, as the kind it is, and nothing else. *)
Lemma mutate_published now w r n :
  ∃ evs envs, logs_as w (t_server n) (serve_write fmt_time now w (t_server n)) evs envs
  ∧ mutate now w r n = foldl (λ n e, publishFlag (action_of w) r e n)
      (mkMetered (serve_write fmt_time now w (t_server n)) (t_channel n) (t_metrics n)) envs.
Proof.
  destruct (serve_write_logs fmt_time now w (t_server n)) as (evs & envs & Hl). exists evs, envs. split; [done|].
  unfold mutate. f_equal. destruct Hl as [e _ _ _ ->|_ ->|r' _ _ _ ->]; try by rewrite drop_app_length.
  by rewrite drop_all.
Qed.

Record accounted (n : metered) : Prop := {
  ac_total : total_updates (t_metrics n) = Z.of_nat (length (s_published (t_server n)));
  ac_errors : RedisPublishErrors (t_metrics n) + Z.of_nat (length (t_channel n)) = total_updates (t_metrics n);
  ac_sub : t_channel n `sublist_of` s_published (t_server n);
  ac_created : updates_of (js "created") (t_metrics n) = count_type Created (log (s_db (t_server n)));
  ac_deleted : updates_of (js "deleted") (t_metrics n) = count_type Deleted (log (s_db (t_server n)));
  ac_updated : count_type Updated (log (s_db (t_server n)))
               ≤ updates_of (js "updated") (t_metrics n) + updates_of (js "toggled") (t_metrics n) }.

(** One publication *)
Lemma publishFlag_parts a r e n : r ≠ NoClient → let n' := publishFlag a r e n in
  t_server n' = t_server n
  ∧ (∀ b, updates_of b (t_metrics n') = updates_of b (t_metrics n) + (if decide (b = a) then 1 else 0))
  ∧ RedisPublishErrors (t_metrics n') + Z.of_nat (length (t_channel n'))
    = RedisPublishErrors (t_metrics n) + Z.of_nat (length (t_channel n)) + 1
  ∧ (t_channel n' = t_channel n ∨ t_channel n' = t_channel n ++ [e]).
Proof.
  intros Hr. unfold publishFlag. destruct r; [done|..]; cbn [Publish_to t_server t_channel t_metrics]; (split; [done|]).
  - split; [intros b; exact (updates_observe b a _)|]. rewrite length_app. cbn. split; [lia|by right].
  - split; [intros b; exact (updates_observe b a _)|]. cbn. split; [lia|by left].
Qed.

Lemma publish_accounted w r e s ch m : r ≠ NoClient →
  let n' := publishFlag (action_of w) r e (mkMetered s ch m) in
  total_updates (t_metrics n') = total_updates m + 1
  ∧ RedisPublishErrors (t_metrics n') + Z.of_nat (length (t_channel n')) = RedisPublishErrors m + Z.of_nat (length ch) + 1
  ∧ (∀ l, ch `sublist_of` l → t_channel n' `sublist_of` l ++ [e])
  ∧ updates_of (js "created") (t_metrics n')
    = updates_of (js "created") m + (if decide (logged_type w = Created) then 1 else 0)
  ∧ updates_of (js "deleted") (t_metrics n')
    = updates_of (js "deleted") m + (if decide (logged_type w = Deleted) then 1 else 0)
  ∧ updates_of (js "updated") (t_metrics n') + updates_of (js "toggled") (t_metrics n')
    = updates_of (js "updated") m + updates_of (js "toggled") m + (if decide (logged_type w = Updated) then 1 else 0).
Proof.
  intros Hr. pose proof (publishFlag_parts (action_of w) r e (mkMetered s ch m) Hr) as (_ & Hu & He & Hc). cbn [t_metrics t_channel] in *.
  unfold total_updates. rewrite !Hu, He. split; [destruct w; cbn [action_of]; repeat case_decide; try discriminate; try congruence; lia|]. split; [done|].
  split; [intros l Hl; destruct Hc as [-> | ->]; [by apply sublist_inserts_r|by apply sublist_app]|].
  destruct w; cbn [action_of logged_type]; split_and!; repeat case_decide; try discriminate; try congruence; lia.
Qed.

Lemma mutate_accounted now w r n : r ≠ NoClient → accounted n → accounted (mutate now w r n).
Proof.
  intros Hr [Ht He Hs Hc Hd Hu]. destruct (mutate_published now w r n) as (evs & envs & Hl & ->).
  destruct Hl as [e _ Hty Hlog Hpub|Hlog Hpub|r' Hw _ Hlog Hpub]; cbn [foldl].
  - set (s' := serve_write _ _ _ _) in *.
    pose proof (publish_accounted w r (announces e) s' (t_channel n) (t_metrics n) Hr) as (P1 & P2 & P3 & P4 & P5 & P6).
    pose proof (publishFlag_parts (action_of w) r (announces e) (mkMetered s' (t_channel n) (t_metrics n)) Hr) as (Hsv & _).
    split; rewrite ?P1, ?P2, ?P4, ?P5, ?P6, ?Hsv; cbn [t_server]; rewrite ?Hlog, ?Hpub, ?count_type_snoc, ?length_app, ?Hty; cbn [length];
      [lia|lia|by apply P3|lia|lia|lia].
  - split; cbn [t_server t_channel t_metrics]; by rewrite ?Hlog, ?Hpub.
  - destruct Hw as (id & req & ->). set (s' := serve_write _ _ _ _) in *.
    set (e := FlagUpdated _ _) in *.
    pose proof (publish_accounted (WUpdate id req) r e s' (t_channel n) (t_metrics n) Hr) as (P1 & P2 & P3 & P4 & P5 & P6).
    pose proof (publishFlag_parts (action_of (WUpdate id req)) r e (mkMetered s' (t_channel n) (t_metrics n)) Hr) as (Hsv & _).
    split; rewrite ?P1, ?P2, ?P4, ?P5, ?P6, ?Hsv; cbn [t_server]; rewrite ?Hlog, ?Hpub, ?length_app; cbn [length logged_type];
      [lia|lia|by apply P3|..]; repeat case_decide; try congruence; lia.
Qed.

(** The counters account for every publication.  On a node that is connected to
    Redis, however often it cannot be reached, what was counted as a mutation is
    what was published, and each of those either is on the channel, in order, or
    is counted as an error.  The counters of creations and deletions are those of
    the log; those of updates and toggles are at least the updates of the log,
    because an update without fields, which changes nothing, counts too. *)
Lemma counters_account n : runs n → accounted n.
Proof. induction 1 as [|now w r n _ IH Hr]; [by split; try (vm_compute; reflexivity); vm_compute|by apply mutate_accounted]. Qed.

(** The histogram of the propagation never holds a negative time, and one value
    per envelope with a time. *)
Lemma propagation_sane env now m :
  Forall (λ d, 0 ≤ d) (ConfigPropagation m) → Forall (λ d, 0 ≤ d) (ConfigPropagation (consume env now m)).
Proof.
  intros Hm. unfold consume. case_match; [|done]. cbn. apply Forall_app. split; [done|]. apply Forall_singleton.
  destruct (Z.ltb_spec (now - env_Ts env) 0); lia.
Qed.
End metrics.

(** An update without fields, and a toggle that Redis does not take. *)
Definition demo_node : metered :=
  mutate show 3 (WToggle (js "id-1")) Unreachable
    (mutate show 2 (WUpdate (js "id-1") (mkUpdateFlagRequest (mkUpdateFlagInput None None None None) None)) Reachable
      (mutate show 1 (WCreate (js "id-1") demo_input) Reachable (mkMetered (mkServer empty_db []) [] no_metrics))).
Example fieldless_update_counts :
  (λ a, updates_of a (t_metrics demo_node)) <$> [js "created"; js "updated"; js "toggled"] = [1; 1; 1]
  ∧ length (log (s_db (t_server demo_node))) = 2%nat
  ∧ length (t_channel demo_node) = 2%nat ∧ RedisPublishErrors (t_metrics demo_node) = 1.
Proof. vm_compute. by split_and!. Qed.
