(* ===== verification/System.v ===== *)
(** * The system: control plane, broker, stream and SDK in one state

    A node serves admin requests; its subscriber takes what they publish from
    Redis and feeds the broker; one browser reads one response of the broker as
    an [EventSource] and runs the SDK on what it reads.  Every part keeps the
    transitions of its own file, and this one only says which output is whose
    input, so that the guarantees of [Outbox], [Broker] and [Convergence] meet:
    a registered, caught-up client mirrors the flag table without ever asking
    again, and a client that caught up before it was registered may not. *)
From S2P Require Import Prelude JsMap Types Client Server Convergence Broker Outbox.

(** The log of non-overlapping writes, as the client's service. *)
Program Definition serial_service fmt (d : db) (Hd : serial fmt d) : EventService := {|
  es_log := log d;
  es_limit := 500;
  es_page since := ListEventsSince since 0 d |}.
Next Obligation. intros fmt d Hd. by apply (inv_sorted d), (serial_inv fmt). Qed.
Next Obligation.
  intros fmt d Hd. eapply Forall_impl; [apply (inv_bound d), (serial_inv fmt), Hd|]. simpl. lia.
Qed.
Next Obligation. simpl. lia. Qed.
Next Obligation.
  intros fmt d Hd since. cbn beta. rewrite ListEventsSince_page by (by apply sorted_NoDup, (inv_sorted d), (serial_inv fmt)).
  by rewrite (serial_sorted_log fmt).
Qed.

Section system.
Context (config : SDKConfig) (fmt_time : Z → jstr).
(** [encoding/json] and [JSON.parse] *)
Context (marshal : FlagObj → jstr) (parse : jstr → option FlagObj).
(** The browser's [EventSource] [es] reads the response of connection [i]. *)
Context (i es : nat).

Record system := mkSystem {
  y_server : server;
  y_consumed : nat;   (* envelopes the subscriber has taken or lost *)
  y_node : node;
  y_client : world;
  y_read : nat }.     (* chunks of the response the browser has read *)

Definition initial : system := mkSystem (mkServer empty_db []) 0 NewBroker new_client 0.

(** The listener an [EventSource] calls for an event. *)
Definition label_of (e : SSEEvent) : option Client.label :=
  if decide (Event e = js "flag_updated") then Some (LStreamUpdated es (show (Version e)) (parse (Data e)))
  else if decide (Event e = js "flag_deleted")
  then Some (LStreamDeleted es (show (Version e)) (obj_key <$> parse (Data e)))
  else None.

(** The browser reads one chunk: the headers open the source, an error response
    fails it, a comment is nothing.  A frame without an id, which would repeat
    the last one, is never published and has no transition. *)
Definition read_chunk (x : chunk) (w : world) : option world :=
  match x with
  | StreamHeaders => Client.exec config (LStreamOpen es) w
  | Unsupported => Client.exec config (LStreamError es true) w
  | Comment _ => Some w
  | Frame e => if Version e >? 0
               then match label_of e with Some l => Client.exec config l w | None => Some w end
               else None
  end.

(** What the server answers to a suspended call, now. *)
Definition answer_of (d : db) (t : task) : answer :=
  match t with
  | BootFetch | ReconFetch _ _ _ _ => Response 200
  | BootJson => BootBody (Some (map FullFlag (map r_flag (Server.List d)))) (Some (GetLatestVersion d))
  | InitRest => Settled
  | ReconJson _ _ _ since => EventsBody (ListEventsSince since 0 d)
  end.

(** What the application, the timers and a failing network do to the client. *)
Definition is_call (l : Client.label) : bool :=
  match l with
  | LInit | LDisconnect | LReconnect | LDestroy | LReconcile | LOnUpdate _ | LOffUpdate _
  | LOnStatus _ | LOffStatus _ | LInterval _ | LResume _ Rejected => true
  | _ => false
  end.

Inductive sys_label :=
| Write (now : Z) (w : write)          (* an admin request, served to its end *)
| Consume (order : list nat)           (* [Subscribe] broadcasts the next envelope *)
| Lose                                 (* Redis loses it *)
| Node (l : Broker.label)              (* the broker and its handlers *)
| Recv                                 (* the browser reads on *)
| Answer (k : nat)                     (* the server answers the client's call [k] *)
| Call (l : Client.label).

Definition sys_exec (l : sys_label) (y : system) : option system :=
  let 'mkSystem s c n w r := y in
  match l with
  | Write now wr => Some (mkSystem (serve_write fmt_time now wr s) c n w r)
  | Consume order =>
      p ← s_published s !! c;
      match Broker.exec (Broadcast (event_of marshal p) order) n with
      | Some (Next n) => Some (mkSystem s (S c) n w r)
      | _ => None
      end
  | Lose => _ ← s_published s !! c; Some (mkSystem s (S c) n w r)
  | Node l =>
      match l, Broker.exec l n with
      | Broadcast _ _, _ => None
      | _, Some (Next n) => Some (mkSystem s c n w r)
      | _, _ => None
      end
  | Recv =>
      cn ← n_conns n !! i; x ← c_out cn !! r;
      w ← read_chunk x w; Some (mkSystem s c n w (S r))
  | Answer k =>
      t ← tasks w !! k;
      w ← Client.exec config (LResume k (answer_of (s_db s) t)) w; Some (mkSystem s c n w r)
  | Call l => if is_call l then w ← Client.exec config l w; Some (mkSystem s c n w r) else None
  end.

Fixpoint sys_run (ls : list sys_label) (y : system) : option system :=
  match ls with
  | [] => Some y
  | l :: ls => sys_exec l y ≫= sys_run ls
  end.

Definition sys_step (y y' : system) : Prop := ∃ l, sys_exec l y = Some y'.
Definition sys_reachable (y : system) : Prop := rtc sys_step initial y.

(** ** What is always true *)
Record sys_ok (y : system) : Prop := {
  sy_served : served_ok fmt_time (y_server y);
  sy_node : Broker.reachable (y_node y);
  sy_consumed : (y_consumed y ≤ length (s_published (y_server y)))%nat;
  sy_read : (y_read y ≤ length (default [] (c_out <$> n_conns (y_node y) !! i)))%nat;
  sy_history : Forall (λ e, ∃ p, p ∈ s_published (y_server y) ∧ e = event_of marshal p) (n_history (y_node y)) }.

(** Only a broadcast extends the history, and only until the node is done. *)
Lemma exec_history l n n' :
  Broker.node_ok n → Broker.exec l n = Some (Next n') →
  n_history n' = match l with Broadcast e _ => if n_done n then n_history n else n_history n ++ [e] | _ => n_history n end
  ∧ (n_done n = true → n_done n' = true).
Proof.
  intros Hn He. destruct l as [|j ok|j|j|j flushed|j flushed|j|j|e order| |order]; cbn [Broker.exec] in He;
    try (apply bind_Some in He as (cj & _ & He)); try (apply bind_Some in He as (c1 & _ & He));
    simplify_eq; try done.
  - by destruct (n_done n) eqn:E; simplify_eq.
  - destruct (n_done n) eqn:E; simplify_eq; [done|]. unfold run_unregister, drop_client in He.
    case_decide; [destruct (chan_close _)|]; simplify_eq; done.
  - destruct (n_done n) eqn:Hd; simplify_eq; [done|]. case_decide as Ho; [|done].
    destruct (broadcast_result e order n Hn Ho) as (n1 & Hr & _ & Hd1 & Hh & _).
    rewrite Hr in He. by simplify_eq.
  - destruct (n_shutdown n && negb (n_done n)) eqn:E; [|done]. case_decide as Ho; [|done].
    destruct (drain_result order n Hn Ho) as (n1 & Hr & _ & Hd1 & Hh & _).
    rewrite Hr in He. simplify_eq. done.
Qed.

Lemma reachable_step l n n' : Broker.reachable n → Broker.exec l n = Some (Next n') → Broker.reachable n'.
Proof. intros Hr Hl. eapply rtc_r; [exact Hr|]. by exists l. Qed.

(** A response only grows. *)
Lemma exec_out l n n' :
  Broker.node_ok n → Broker.exec l n = Some (Next n') →
  default [] (c_out <$> n_conns n !! i) `prefix_of` default [] (c_out <$> n_conns n' !! i).
Proof.
  intros Hn He. destruct (n_conns n !! i) as [c|] eqn:Hi; [|by apply prefix_nil].
  destruct (exec_conn l n n' i c Hn He Hi) as (c' & -> & Hs). by apply conn_step_out.
Qed.

Lemma sys_ok_node s c n n' w r :
  sys_ok (mkSystem s c n w r) → (∃ l, Broker.exec l n = Some (Next n')) → n_history n' = n_history n →
  sys_ok (mkSystem s c n' w r).
Proof.
  intros [Hs Hn Hc Hr Hh] [l Hl] Hh'. cbn [y_server y_consumed y_node y_read] in *.
  split; cbn [y_server y_consumed y_node y_read]; [done|by eapply reachable_step|done| |by rewrite Hh'].
  etrans; [exact Hr|]. by eapply prefix_length, exec_out, Hl; apply reachable_ok.
Qed.

Lemma sys_ok_exec l y y' : sys_exec l y = Some y' → sys_ok y → sys_ok y'.
Proof.
  destruct y as [s c n w r]. intros He Hok. pose proof Hok as [Hs Hn Hc Hr Hh].
  cbn [y_server y_consumed y_node y_read] in *.
  destruct l as [now wr|order| |l| |k|l]; cbn [sys_exec] in He.
  - simplify_eq. destruct (serve_write_covers fmt_time now wr s Hs) as (Hs' & rest & ps & _ & Hp & _).
    split; cbn; [done..|rewrite Hp, length_app; lia|done|]. eapply Forall_impl; [exact Hh|].
    intros e (p & ? & ->). exists p. rewrite Hp. set_solver.
  - apply bind_Some in He as (p & Hp & He).
    destruct (Broker.exec _ n) as [[n'|]|] eqn:Hb; simplify_eq. apply lookup_lt_Some in Hp as Hlt.
    destruct (exec_history _ _ _ (reachable_ok n Hn) Hb) as [Hh' _].
    split; cbn; [done|by eapply reachable_step|lia| |].
    + etrans; [exact Hr|]. by eapply prefix_length, exec_out, Hb; apply reachable_ok.
    + rewrite Hh'. destruct (n_done n); [done|]. apply Forall_app. split; [done|]. apply Forall_singleton.
      exists p. split; [|done]. by eapply list_elem_of_lookup_2.
  - apply bind_Some in He as (p & Hp & He). simplify_eq. apply lookup_lt_Some in Hp. split; cbn; [done..|lia|done|done].
  - destruct (Broker.exec l n) as [[n'|]|] eqn:Hb; [|destruct l; by rewrite ?Hb in He..].
    destruct (exec_history _ _ _ (reachable_ok n Hn) Hb) as [Hh' _].
    assert (y' = mkSystem s c n' w r ∧ n_history n' = n_history n) as [-> Hh''] by (destruct l; rewrite ?Hb in He; by simplify_eq).
    by eapply sys_ok_node; [done|exists l|].
  - apply bind_Some in He as (cn & Hcn & He). apply bind_Some in He as (x & Hx & He).
    apply bind_Some in He as (w' & _ & He). simplify_eq. split; cbn; try done.
    rewrite Hcn. cbn. by apply lookup_lt_Some in Hx.
  - apply bind_Some in He as (t & _ & He). apply bind_Some in He as (w' & _ & He). by simplify_eq.
  - destruct (is_call l); [|done]. apply bind_Some in He as (w' & _ & He). by simplify_eq.
Qed.

Lemma sys_reachable_ok y : sys_reachable y → sys_ok y.
Proof.
  unfold sys_reachable. intros Hr. assert (sys_ok initial) as H0.
  { split; cbn; [split; constructor|apply rtc_refl|lia|lia|constructor]. }
  revert H0. induction Hr as [y|y1 y2 y3 [l Hl] _ IH]; [done|]. intros H1. eauto using sys_ok_exec.
Qed.

(** ** A client on a stream that covers the log *)
Fixpoint reads (xs : list chunk) (w : world) : option world :=
  match xs with
  | [] => Some w
  | x :: xs => read_chunk x w ≫= reads xs
  end.

Lemma reads_app xs ys w : reads (xs ++ ys) w = reads xs w ≫= reads ys.
Proof. revert w. induction xs as [|x xs IH]; intros w; [done|]. cbn [reads app]. destruct (read_chunk x w); [apply IH|done]. Qed.

(** Comments are nothing. *)
Lemma reads_frames xs w : Forall plain xs → reads xs w = reads (Frame <$> omap frame_of xs) w.
Proof.
  intros Hx. revert w. induction Hx as [|x xs Hx _ IH]; intros w; [done|].
  destruct x as [| |t|e]; try done; cbn; [apply IH|]. destruct (Version e >? 0); [|done].
  destruct (label_of e) as [l|]; cbn; [|apply IH]. destruct (Client.exec config l w); [apply IH|done].
Qed.

Definition parses (e : FlagEvent) : Prop := parse (marshal (ev_payload e)) = Some (ev_payload e).

(** Reading the frame of a logged event is [applyEvent] of that event. *)
Lemma announce_read e :
  event_ok e → parses e → 0 < ev_version e →
  ∃ mu, (∀ m, to_gmap (mu m) = log_step (to_gmap m) e)
  ∧ ∀ w, sources w !! es = Some OPEN →
      read_chunk (Frame (event_of marshal (announces e))) w = Some (applyEvent config (ev_version e) mu w).
Proof.
  intros Hok Hp Hv. unfold event_ok, parses, announces in *.
  assert (js "flag_deleted" ≠ js "flag_updated") as Hne by (by vm_compute).
  assert (∀ f, ev_payload e = FullFlag f → fc_key f = ev_flag_key e → ev_type e ≠ Deleted →
    ∃ mu, (∀ m, to_gmap (mu m) = log_step (to_gmap m) e) ∧ ∀ w, sources w !! es = Some OPEN →
      read_chunk (Frame (event_of marshal (FlagUpdated (ev_version e) f))) w
      = Some (applyEvent config (ev_version e) mu w)) as Hup.
  { intros f Hf Hk Ht. exists (λ m, map_set m (ev_flag_key e) (ev_payload e)). split.
    - intros m. autorewrite with fp. unfold log_step. by destruct (ev_type e).
    - intros w Hw. rewrite Hf in Hp |- *. unfold read_chunk, label_of, event_of.
      cbn [Event Data Version envelope_type envelope_version envelope_payload].
      rewrite Z.gtb_ltb, (proj2 (Z.ltb_lt _ _)), decide_True, Hp by done. cbn [Client.exec].
      rewrite decide_True by done. unfold on_flag_updated. cbn [obj_key]. by rewrite eventVersion_show, Hk. }
  destruct (ev_type e) eqn:Ht, (ev_payload e) as [f|k] eqn:Hf;
    [|destruct Hok| |destruct Hok|destruct Hok|].
  1, 2: apply Hup; [reflexivity|apply Hok|discriminate].
  subst k.
  exists (λ m, map_delete m (ev_flag_key e)). split.
  - intros m. rewrite to_gmap_delete. unfold log_step. by rewrite Ht.
  - intros w Hw. unfold read_chunk, label_of, event_of.
    cbn [Event Data Version envelope_type envelope_version envelope_payload].
    rewrite Z.gtb_ltb, (proj2 (Z.ltb_lt _ _)), decide_False, decide_True, Hp by done. cbn [Client.exec].
    rewrite decide_True by done. unfold on_flag_deleted. cbn [fmap option_fmap option_map obj_key].
    by rewrite eventVersion_show.
Qed.

Section following.
Context `{EventService}.

(** The client holds the configuration of its version and has all of [seen]. *)
Record follow (seen : list FlagEvent) (w : world) : Prop := {
  fo_sync : in_sync w;
  fo_seen : Forall (λ e, ev_version e ≤ configVersion w) seen;
  fo_idle : reconciling w = false;
  fo_nonneg : 0 ≤ configVersion w;
  fo_open : sources w !! es = Some OPEN }.

(** The client has met a number nothing was logged under and is asking. *)
Record stalled (w : world) : Prop := {
  st_from : ∃ w1, w = reconcile config w1 ∧ in_sync w1 ∧ reconciling w1 = false ∧ 0 ≤ configVersion w1;
  st_gap : ∀ e, e ∈ es_log → ev_version e ≠ configVersion w + 1;
  st_busy : reconciling w = true;
  st_open : sources w !! es = Some OPEN }.

Lemma applyEvent_old v mu w : v ≤ configVersion w → applyEvent config v mu w = w.
Proof. intros Hv. unfold applyEvent. by rewrite (proj2 (Z.leb_le _ _)). Qed.

Lemma stalled_applyEvent e mu w : e ∈ es_log → stalled w → applyEvent config (ev_version e) mu w = w.
Proof.
  intros He [_ Hgap Hb _]. specialize (Hgap e He). unfold applyEvent.
  destruct (_ <=? _) eqn:E; [done|]. boolify. rewrite Z.gtb_ltb, (proj2 (Z.ltb_lt _ _)) by lia.
  unfold reconcile. by rewrite Hb.
Qed.

Lemma reconciling_applied v mu w :
  configVersion w + 1 = v → reconciling (applyEvent config v mu w) = reconciling w
  ∧ configVersion (applyEvent config v mu w) = v.
Proof.
  intros <-. unfold applyEvent. rewrite (proj2 (Z.leb_gt _ _)) by lia.
  rewrite Z.gtb_ltb, (proj2 (Z.ltb_ge _ _)) by lia.
  split; [|cbn; by autorewrite with fp]. cbn. unfold setStatus. by case_decide.
Qed.

(** The next event of the log: old, next in number, or past a hole. *)
Lemma follow_next seen e rest mu w :
  es_log = seen ++ e :: rest → (∀ m, to_gmap (mu m) = log_step (to_gmap m) e) → follow seen w →
  follow (seen ++ [e]) (applyEvent config (ev_version e) mu w)
  ∨ stalled (applyEvent config (ev_version e) mu w).
Proof.
  intros Hlog Hmu [Hs Hseen Hidle Hpos Hopen]. assert (e ∈ es_log) as He by (rewrite Hlog; set_solver).
  assert (sources (applyEvent config (ev_version e) mu w) !! es = Some OPEN) as Hopen'
    by (by rewrite (frame_sources _ _ (frame_applyEvent config (ev_version e) mu w))).
  pose proof (in_sync_applyEvent config e mu w He Hmu Hs) as Hs'.
  destruct (Z.le_gt_cases (ev_version e) (configVersion w)) as [Hle|Hgt].
  { left. rewrite applyEvent_old by done. split; try done. apply Forall_app. by split; [|apply Forall_singleton]. }
  destruct (Z.eq_dec (configVersion w + 1) (ev_version e)) as [Heq|Hne].
  - left. destruct (reconciling_applied (ev_version e) mu w Heq) as [Hr Hv]. split; try done; [|by rewrite Hr|lia].
    rewrite Hv. apply Forall_app. split; [|by apply Forall_singleton].
    eapply Forall_impl; [exact Hseen|]. simpl. lia.
  - right. unfold applyEvent in *. rewrite (proj2 (Z.leb_gt _ _)) in * by lia.
    rewrite Z.gtb_ltb in *. rewrite (proj2 (Z.ltb_lt _ _)) in * by lia. split; [by exists w| | |done].
    + rewrite version_reconcile. intros e' He'. rewrite Hlog in He'.
      apply elem_of_app in He' as [He'|[->|He']%elem_of_cons]; [|lia|].
      * rewrite Forall_forall in Hseen. specialize (Hseen e' He'). lia.
      * pose proof es_ascending as Hasc. rewrite Hlog in Hasc.
        replace (seen ++ e :: rest) with ((seen ++ [e]) ++ rest) in Hasc by (by rewrite <-app_assoc).
        assert (ev_version e < ev_version e'); [|lia]. by eapply sorted_app; [exact Hasc|set_solver|].
    + unfold reconcile. rewrite Hidle. unfold recon_loop.
      change (0 <? guard_limit) with true. cbn. unfold setStatus. by case_decide.
Qed.

Context (logged_ok : Forall (λ e, event_ok e ∧ parses e) es_log).

Lemma read_logged e w :
  e ∈ es_log → sources w !! es = Some OPEN →
  ∃ mu, (∀ m, to_gmap (mu m) = log_step (to_gmap m) e)
  ∧ read_chunk (Frame (event_of marshal (announces e))) w = Some (applyEvent config (ev_version e) mu w).
Proof.
  intros He Hw. destruct (proj1 (Forall_forall _ _) logged_ok e He) as [Hok Hp].
  pose proof (proj1 (Forall_forall _ _) es_positive e He) as Hv.
  destruct (announce_read e Hok Hp Hv) as (mu & Hmu & Hr). exists mu. auto.
Qed.

Abbreviation frames_of ps := (map (λ p, Frame (event_of marshal p)) ps) (only parsing).

Lemma stalled_reads ps w :
  Forall (λ p, ∃ e, e ∈ es_log ∧ p = announces e) ps → stalled w → reads (frames_of ps) w = Some w.
Proof.
  intros Hps Hw. induction Hps as [|p ps (e & He & ->) _ IH]; [done|]. cbn [map reads].
  destruct (read_logged e w He (st_open w Hw)) as (mu & _ & ->). cbn. by rewrite stalled_applyEvent.
Qed.

Lemma covers_announce seen rest ps :
  covers seen rest ps → Forall (λ p, ∃ e, e ∈ seen ++ rest ∧ p = announces e) ps.
Proof.
  induction 1 as [seen|seen rest e ps He _ IH|seen e rest ps _ IH]; [done|..]; apply Forall_cons; split.
  - exists e. set_solver.
  - done.
  - exists e. set_solver.
  - by rewrite <-app_assoc in IH.
Qed.

(** A client that has [seen] reads a stream that covers the rest. *)
Lemma follow_reads seen rest ps w :
  covers seen rest ps → es_log = seen ++ rest → follow seen w →
  ∃ w', reads (frames_of ps) w = Some w' ∧ (follow es_log w' ∨ stalled w').
Proof.
  intros Hc. revert w. induction Hc as [seen|seen rest e ps He Hc IH|seen e rest ps Hc IH]; intros w Hlog Hw.
  - rewrite app_nil_r in Hlog. exists w. rewrite Hlog. split; [done|by left].
  - cbn [map reads]. destruct (read_logged e w) as (mu & _ & ->); [rewrite Hlog; set_solver|apply Hw|]. cbn.
    rewrite applyEvent_old; [by apply IH|]. destruct Hw as [_ Hseen _ _ _]. by apply (proj1 (Forall_forall _ _) Hseen).
  - cbn [map reads]. destruct (read_logged e w) as (mu & Hmu & ->); [rewrite Hlog; set_solver|apply Hw|]. cbn.
    destruct (follow_next seen e rest mu w Hlog Hmu Hw) as [Hf|Hst].
    + apply IH; [by rewrite <-app_assoc|done].
    + eexists. split; [apply stalled_reads; [|exact Hst]|by right]. rewrite Hlog.
      pose proof (covers_announce _ _ _ Hc) as Ha. by rewrite <-app_assoc in Ha.
Qed.

(** Either way an undisturbed client ends equal to the log. *)
Lemma follow_or_stalled_heals w :
  Z.of_nat (length es_log) < guard_limit → follow es_log w ∨ stalled w →
  ∃ k w', serve config k w = Some w' ∧ reconciling w' = false
    ∧ to_gmap (flags w') = log_state es_log ∧ backlog (configVersion w') = [] ∧ 0 ≤ configVersion w'.
Proof.
  intros Hlen [[Hs Hseen Hi Hpos _]|[(w1 & -> & Hs & Hi & Hpos) _ _ _]].
  - assert (backlog (configVersion w) = []) as Hb.
    { unfold backlog. apply filter_none. eapply Forall_impl; [exact Hseen|]. simpl. lia. }
    exists 0%nat, w. split_and!; [done..| |done|done]. rewrite Hs. by apply state_upto_all.
  - destruct (reconcile_heals config w1 Hs Hi Hlen) as (k & w' & ? & _ & ? & ? & ? & ?).
    exists k, w'. split_and!; [done..|lia].
Qed.
End following.

(** ** Runs in which nothing is lost and the client is left alone *)
Definition is_live (l : sys_label) : bool :=
  match l with Write _ _ | Consume _ | Node _ | Recv => true | _ => false end.

(** What such a run has done since [y0]. *)
Record since (y0 y : system) : Prop := {
  sn_ok : sys_ok y;
  sn_log : ∃ rest ps,
    log (s_db (y_server y)) = log (s_db (y_server y0)) ++ rest
    ∧ s_published (y_server y) = s_published (y_server y0) ++ ps
    ∧ covers (log (s_db (y_server y0))) rest ps;
  sn_consumed : (y_consumed y0 ≤ y_consumed y)%nat;
  sn_history : n_done (y_node y) = false →
    n_history (y_node y) = n_history (y_node y0)
      ++ map (event_of marshal)
           (take (y_consumed y - y_consumed y0) (drop (y_consumed y0) (s_published (y_server y))));
  sn_conn : ∀ c0, n_conns (y_node y0) !! i = Some c0 → settled (c_pc c0) →
    ∃ c, n_conns (y_node y) !! i = Some c ∧ follows c0 c
    ∧ (y_read y0 ≤ y_read y)%nat
    ∧ reads (take (y_read y - y_read y0) (drop (y_read y0) (c_out c))) (y_client y0) = Some (y_client y) }.

Lemma follows_refl c : settled (c_pc c) → follows c c.
Proof. split; [exists []; by rewrite app_nil_r|done..]. Qed.

Lemma since_refl y : sys_ok y → since y y.
Proof.
  intros Hok. split; [done|..].
  - exists [], []. rewrite !app_nil_r. split_and!; [done..|constructor].
  - lia.
  - intros _. by rewrite Nat.sub_diag, app_nil_r.
  - intros c0 Hc0 Hs. exists c0. rewrite Nat.sub_diag. split_and!; [done|by apply follows_refl|lia|done].
Qed.

(** The broker moves. *)
Lemma since_node y0 s c n w r l n' c' :
  since y0 (mkSystem s c n w r) → Broker.exec l n = Some (Next n') → sys_ok (mkSystem s c' n' w r) →
  (c ≤ c')%nat →
  (n_done n' = false → n_done n = false ∧
     n_history n' = n_history n ++ map (event_of marshal) (take (c' - c) (drop c (s_published s)))) →
  since y0 (mkSystem s c' n' w r).
Proof.
  intros [Hok Hl Hc Hh Hcn] Hb Hok' Hcc Hh'. cbn [y_server y_consumed y_node y_client y_read] in *.
  split; cbn [y_server y_consumed y_node y_client y_read]; [done..|lia| |].
  - intros Hd. destruct (Hh' Hd) as [Hd0 ->]. rewrite (Hh Hd0), <-app_assoc. f_equal.
    rewrite <-map_app. f_equal. set (k := y_consumed y0) in *.
    replace (drop c (s_published s)) with (drop (c - k) (drop k (s_published s)))
      by (rewrite drop_drop; f_equal; lia).
    rewrite take_take_drop. f_equal. lia.
  - intros c0 Hc0 Hs. destruct (Hcn c0 Hc0 Hs) as (c1 & Hi & Hf & Hle & Hr).
    destruct (exec_conn l n n' i c1 (reachable_ok n (sy_node _ Hok)) Hb Hi) as (c2 & Hi2 & Hst).
    exists c2. split_and!; [done|eapply follows_trans; [exact Hf|by eapply conn_step_follows, Hst; apply Hf]|done|].
    destruct (conn_step_out c1 c2 Hst) as [l' ->].
    pose proof (sy_read _ Hok) as Hrd. cbn in Hrd. rewrite Hi in Hrd. cbn in Hrd.
    rewrite drop_app_le, take_app_le by (rewrite ?length_drop; lia). done.
Qed.

Lemma since_exec y0 l y y' : is_live l = true → sys_exec l y = Some y' → since y0 y → since y0 y'.
Proof.
  destruct y as [s c n w r]. intros Hlive He Hs. pose proof (sys_ok_exec _ _ _ He (sn_ok _ _ Hs)) as Hok'.
  pose proof Hs as [Hok Hl Hc Hh Hcn]. cbn [y_server y_consumed y_node y_client y_read] in *.
  destruct l as [now wr|order| |l| |k|l]; try done; cbn [sys_exec] in He.
  - simplify_eq. destruct Hl as (rest & ps & Hlog & Hpub & Hcov).
    destruct (serve_write_covers fmt_time now wr s (sy_served _ Hok)) as (_ & rest' & ps' & Hlog' & Hpub' & Hcov').
    pose proof (sy_consumed _ Hok) as Hcs. cbn in Hcs.
    split; cbn [y_server y_consumed y_node y_client y_read]; [done| |done| |done].
    + exists (rest ++ rest'), (ps ++ ps'). rewrite Hlog', Hlog, Hpub', Hpub, <-!app_assoc.
      split_and!; [done..|]. by apply Hcov'.
    + intros Hd. rewrite (Hh Hd), Hpub'. do 2 f_equal.
      rewrite drop_app_le, take_app_le by (rewrite ?length_drop; lia). done.
  - apply bind_Some in He as (p & Hp & He).
    destruct (Broker.exec _ n) as [[n'|]|] eqn:Hb; simplify_eq.
    destruct (exec_history _ _ _ (reachable_ok n (sy_node _ Hok)) Hb) as [Hh' Hd'].
    eapply since_node; [exact Hs|exact Hb|done|lia|]. intros Hd. destruct (n_done n); [by rewrite Hd' in Hd|].
    split; [done|]. rewrite Hh'. f_equal. replace (S c - c)%nat with 1%nat by lia.
    by rewrite (drop_S _ p).
  - destruct (Broker.exec l n) as [[n'|]|] eqn:Hb; [|destruct l; by rewrite ?Hb in He..].
    destruct (exec_history _ _ _ (reachable_ok n (sy_node _ Hok)) Hb) as [Hh' Hd'].
    assert (y' = mkSystem s c n' w r ∧ n_history n' = n_history n) as [-> Hh''] by (destruct l; rewrite ?Hb in He; by simplify_eq).
    eapply since_node; [exact Hs|exact Hb|done|lia|]. intros Hd. rewrite Nat.sub_diag, app_nil_r.
    split; [|done]. by destruct (n_done n); [rewrite Hd' in Hd|].
  - apply bind_Some in He as (cn & Hi & He). apply bind_Some in He as (x & Hx & He).
    apply bind_Some in He as (w' & Hw & He). simplify_eq.
    split; cbn [y_server y_consumed y_node y_client y_read]; [done..|].
    intros c0 Hc0 Hst. destruct (Hcn c0 Hc0 Hst) as (c1 & Hi1 & Hf & Hle & Hr). simplify_eq.
    exists cn. split_and!; [done..|lia|].
    replace (S r - y_read y0)%nat with (S (r - y_read y0)) by lia.
    rewrite (take_S_r _ _ x), reads_app, Hr by (rewrite lookup_drop; rewrite <-Hx; f_equal; lia).
    cbn. by rewrite Hw.
Qed.

Lemma since_run y0 ls y y' :
  Forall (λ l, is_live l = true) ls → sys_run ls y = Some y' → since y0 y → since y0 y'.
Proof.
  intros Hls. revert y. induction Hls as [|l ls Hl _ IH]; intros y Hr Hs; cbn in Hr; [by simplify_eq|].
  apply bind_Some in Hr as (y1 & Hy1 & Hr). eapply IH; [done|]. by eapply since_exec.
Qed.

(** ** Mirroring *)
Lemma GetLatestVersion_lt d b :
  0 < b → (∀ e, e ∈ log d → ev_version e < b) → GetLatestVersion d < b.
Proof.
  unfold GetLatestVersion. induction (log d) as [|e l IH]; intros Hb Hl; cbn; [done|].
  pose proof (Hl e ltac:(set_solver)). assert (foldr (λ e m, ev_version e `max` m) 0 l < b); [|lia].
  apply IH; [done|]. intros e' He'. apply Hl. set_solver.
Qed.

(** The stream of a log that grew from [d0] by [rest]. *)
Lemma follow_start d0 d (Hd : serial fmt_time d) rest w :
  serial fmt_time d0 → log d = log d0 ++ rest →
  to_gmap (flags w) = table_map (rows d0) → configVersion w = GetLatestVersion d0 →
  reconciling w = false → sources w !! es = Some OPEN →
  @follow (serial_service fmt_time d Hd) (log d0) w.
Proof.
  intros Hd0 Hlog Hf Hv Hi Ho.
  assert (0 ≤ GetLatestVersion d0) as Hpos.
  { clear. unfold GetLatestVersion. induction (log d0); cbn; lia. }
  split; try done; [| |by rewrite Hv].
  - unfold in_sync. rewrite Hf, Hv. unfold state_upto. cbn [es_log serial_service]. rewrite Hlog, filter_app.
    rewrite filter_all, filter_none, app_nil_r; [symmetry; apply (inv_state d0), (serial_inv fmt_time), Hd0|..].
    + apply Forall_forall. intros e He. apply Z.nle_gt, GetLatestVersion_lt.
      * pose proof (inv_bound d (serial_inv fmt_time d Hd)) as Hb. rewrite Hlog in Hb.
        apply Forall_app in Hb as [_ Hb]. by apply (proj1 (Forall_forall _ _) Hb e He).
      * intros e0 He0. pose proof (inv_sorted d (serial_inv fmt_time d Hd)) as Hs. rewrite Hlog in Hs.
        by apply (sorted_app _ _ Hs).
    + apply Forall_forall. intros e. apply GetLatestVersion_ub.
  - apply Forall_forall. intros e He. rewrite Hv. by apply GetLatestVersion_ub.
Qed.

Lemma Forall_exists_map {A B} (f : A → B) (Q : A → Prop) l :
  Forall (λ b, ∃ a, Q a ∧ b = f a) l → ∃ l0, l = map f l0 ∧ Forall Q l0.
Proof.
  induction 1 as [|b l (a & Ha & ->) _ (l0 & -> & IH)]; [by exists []|]. exists (a :: l0). by split; [|constructor].
Qed.

Definition announced (s : server) (p : envelope) : Prop := ∃ e, e ∈ log (s_db s) ∧ p = announces e.

(** Everything an empty, fully read connection has read since [y0] announces
    the log from where the server was at [y0]. *)
Lemma since_frames y0 y c0 c :
  sys_ok y0 → since y0 y →
  n_conns (y_node y0) !! i = Some c0 → i ∈ n_clients (y_node y0) → (1 ≤ y_read y0)%nat →
  n_conns (y_node y) !! i = Some c → i ∈ n_clients (y_node y) → c_buf c = [] →
  y_consumed y = length (s_published (y_server y)) → follows c0 c →
  Forall plain (drop (y_read y0) (c_out c))
  ∧ ∃ rest ps, log (s_db (y_server y)) = log (s_db (y_server y0)) ++ rest
    ∧ covers (log (s_db (y_server y0))) rest ps
    ∧ omap frame_of (drop (y_read y0) (c_out c)) = map (event_of marshal) ps.
Proof.
  intros Hok0 Hs Hc0 Hin0 Hr0 Hc Hin Hbuf Hcons Hf.
  pose proof (ok_conns _ (reachable_ok _ (sy_node _ Hok0)) i c0 Hc0) as Hk0.
  pose proof (ok_conns _ (reachable_ok _ (sy_node _ (sn_ok _ _ Hs))) i c Hc) as Hk.
  destruct (fol_out _ _ Hf) as (l & Hout & Hl). pose proof (sy_read _ Hok0) as Hrd. rewrite Hc0 in Hrd. cbn in Hrd.
  assert (drop (y_read y0) (c_out c) = drop (y_read y0) (c_out c0) ++ l) as Hdrop by (by rewrite Hout, drop_app_le).
  split.
  { rewrite Hdrop. apply Forall_app. split; [|done].
    pose proof (reachable_response _ i c0 (sy_node _ Hok0) Hc0) as Hresp. unfold response_ok in Hresp.
    destruct (ok_client _ _ _ Hk0 Hin0) as [Hsv _].
    assert (∃ l, c_out c0 = StreamHeaders :: l ∧ Forall plain l) as (l0 & -> & Hl0).
    { destruct (c_pc c0); try done; destruct Hresp as [[_ [=]]|?]; done. }
    destruct (y_read y0) as [|r]; [lia|]. cbn. by apply Forall_drop. }
  destruct (sn_log _ _ Hs) as (rest & ps & Hlog & Hpub & Hcov).
  assert (n_done (y_node y) = false) as Hnd.
  { destruct (n_done (y_node y)) eqn:E; [|done]. rewrite (ok_done _ (reachable_ok _ (sy_node _ (sn_ok _ _ Hs))) E) in Hin.
    set_solver. }
  pose proof (sn_history _ _ Hs Hnd) as Hh. rewrite Hcons, Hpub in Hh.
  rewrite drop_app_le in Hh by apply (sy_consumed _ Hok0).
  pose proof (sy_consumed _ Hok0) as Hc0s.
  rewrite take_ge in Hh by (rewrite !length_app, length_drop; lia).
  (* what was offered before, and since *)
  pose proof (ok_whole _ _ _ Hk0 Hin0) as Hw0. pose proof (ok_whole _ _ _ Hk Hin) as Hw.
  unfold offered in Hw0, Hw. rewrite (fol_joined _ _ Hf), Hh, drop_app_le in Hw by apply (ok_joined _ _ _ Hk0).
  rewrite <-Hw0 in Hw. unfold taken, delivered in Hw. rewrite Hbuf, app_nil_r, Hout in Hw.
  rewrite <-(take_drop (y_read y0) (c_out c0)), <-app_assoc, <-Hdrop, omap_app in Hw.
  rewrite omap_app, <-!app_assoc in Hw. apply app_inv_head in Hw. rewrite Hw.
  (* the old part announces events already logged *)
  set (old := omap frame_of (drop (y_read y0) (c_out c0)) ++ c_buf c0).
  assert (Forall (λ e, ∃ p, announced (y_server y0) p ∧ e = event_of marshal p) old) as Hold.
  { assert (Forall (λ e, ∃ p, p ∈ s_published (y_server y0) ∧ e = event_of marshal p) (taken c0)) as Ht.
    { rewrite Hw0. apply Forall_drop, (sy_history _ Hok0). }
    assert (Forall (λ e, ∃ p, p ∈ s_published (y_server y0) ∧ e = event_of marshal p) old) as Ho.
    { unfold taken, delivered in Ht. rewrite <-(take_drop (y_read y0) (c_out c0)), omap_app, <-app_assoc in Ht.
      by apply Forall_app in Ht as [_ Ht]. }
    eapply Forall_impl; [exact Ho|]. intros e (p & Hp & ->). exists p. split; [|done].
    by apply (proj1 (Forall_forall _ _) (so_published _ _ (sy_served _ Hok0))). }
  apply Forall_exists_map in Hold as (old' & Heq & Hold').
  exists rest, (old' ++ drop (y_consumed y0) (s_published (y_server y0)) ++ ps). split_and!; [done|..].
  - apply covers_front; [exact Hold'|]. apply covers_front; [|done].
    apply Forall_drop, (so_published _ _ (sy_served _ Hok0)).
  - unfold old in Heq. rewrite !map_app, <-Heq, app_assoc. by rewrite <-!app_assoc.
Qed.

(** Serving the client's calls one after the other. *)
Definition is_answer (l : sys_label) : bool := match l with Answer _ => true | _ => false end.

Lemma serve_answers s c n w r (Hd : serial fmt_time (s_db s)) k w' :
  @serve (serial_service fmt_time (s_db s) Hd) config k w = Some w' →
  ∃ ls, Forall (λ l, is_answer l = true) ls
  ∧ sys_run ls (mkSystem s c n w r) = Some (mkSystem s c n w' r).
Proof.
  revert w. induction k as [|k IH]; intros w Hs; cbn [serve] in Hs; [simplify_eq; by exists []|].
  apply bind_Some in Hs as (w1 & Hw1 & Hs). destruct (IH w1 Hs) as (ls & Hls & Hr).
  exists (Answer (length (tasks w) - 1) :: ls). split; [by constructor|].
  unfold serve_step in Hw1. rewrite last_lookup in Hw1. cbn [sys_run sys_exec].
  rewrite Nat.sub_1_r. destruct (tasks w !! pred (length (tasks w))) as [t|] eqn:Ht; [|done].
  rewrite Nat.sub_1_r in Hw1. cbn [mbind option_bind].
  assert (Client.exec config (LResume (pred (length (tasks w))) (answer_of (s_db s) t)) w = Some w1) as ->
    by (by destruct t; simplify_eq). exact Hr.
Qed.

(** A live client mirrors the table.  Take any reachable system in which the
    browser's connection is registered and its client, not reconciling, holds
    the table at the server's version.  Then let requests be served, envelopes be
    broadcast, handlers write and heartbeat, other streams come and go, and the
    browser read, in any order.  Once all that was published has reached the
    browser, with its stream still registered, the client holds the table again
    without a request, or it is asking for the part behind a burnt version and
    holds the table when that is answered. *)
Theorem live_client_mirrors_table (y0 : system) (ls : list sys_label) (y : system) (c0 c : conn) :
  sys_reachable y0 →
  n_conns (y_node y0) !! i = Some c0 → i ∈ n_clients (y_node y0) → (1 ≤ y_read y0)%nat →
  sources (y_client y0) !! es = Some OPEN → reconciling (y_client y0) = false →
  to_gmap (flags (y_client y0)) = table_map (rows (s_db (y_server y0))) →
  configVersion (y_client y0) = GetLatestVersion (s_db (y_server y0)) →
  Forall (λ l, is_live l = true) ls → sys_run ls y0 = Some y →
  y_consumed y = length (s_published (y_server y)) →
  n_conns (y_node y) !! i = Some c → i ∈ n_clients (y_node y) → c_buf c = [] → y_read y = length (c_out c) →
  Forall parses (log (s_db (y_server y))) → Z.of_nat (length (log (s_db (y_server y)))) < guard_limit →
  ∃ answers y', Forall (λ l, is_answer l = true) answers ∧ sys_run answers y = Some y'
    ∧ y_server y' = y_server y ∧ reconciling (y_client y') = false
    ∧ to_gmap (flags (y_client y')) = table_map (rows (s_db (y_server y)))
    ∧ isStale (GetLatestVersion (s_db (y_server y))) (y_client y') = false.
Proof.
  intros Hr0 Hc0 Hin0 Hrd0 Hopen Hidle Hf Hv Hls Hrun Hcons Hc Hin Hbuf Hrd Hparse Hlen.
  pose proof (sys_reachable_ok y0 Hr0) as Hok0.
  pose proof (since_run y0 ls y0 y Hls Hrun (since_refl y0 Hok0)) as Hs.
  destruct (ok_client _ _ _ (ok_conns _ (reachable_ok _ (sy_node _ Hok0)) i c0 Hc0) Hin0) as [Hsv _].
  assert (settled (c_pc c0)) as Hset by (by split; intros E; rewrite E in Hsv).
  destruct (sn_conn _ _ Hs c0 Hc0 Hset) as (c1 & Hc1 & Hfol & Hle & Hreads).
  rewrite Hc in Hc1. injection Hc1 as <-.
  destruct (since_frames y0 y c0 c Hok0 Hs Hc0 Hin0 Hrd0 Hc Hin Hbuf Hcons Hfol) as (Hplain & rest & ps & Hlog & Hcov & Hframes).
  rewrite take_ge in Hreads by (rewrite length_drop; lia).
  rewrite (reads_frames _ _ Hplain), Hframes in Hreads.
  pose proof (so_serial _ _ (sy_served _ (sn_ok _ _ Hs))) as Hd.
  pose proof (follow_start _ _ Hd rest (y_client y0) (so_serial _ _ (sy_served _ Hok0)) Hlog Hf Hv Hidle Hopen) as Hfo.
  assert (Forall (λ e, event_ok e ∧ parses e) (log (s_db (y_server y)))) as Hall.
  { apply Forall_and. split; [apply (so_events _ _ (sy_served _ (sn_ok _ _ Hs)))|done]. }
  destruct (@follow_reads (serial_service fmt_time _ Hd) Hall (log (s_db (y_server y0))) rest ps _ Hcov Hlog Hfo) as (w' & Hw' & Hend).
  change (Frame <$> map (event_of marshal) ps) with (map Frame (map (event_of marshal) ps)) in Hreads.
  rewrite map_map, Hw' in Hreads. injection Hreads as ->.
  destruct (@follow_or_stalled_heals (serial_service fmt_time _ Hd) (y_client y) Hlen Hend) as (k & w2 & Hserve & Hrec & Hfl & Hbl & Hpos).
  destruct y as [s cn n w r]. cbn [y_server y_client y_consumed y_node y_read] in *.
  destruct (serve_answers s cn n w r Hd k w2 Hserve) as (answers & Hans & Hgo).
  exists answers, (mkSystem s cn n w2 r). split_and!; [done..| |].
  - etrans; [exact Hfl|]. apply (inv_state (s_db s)), (serial_inv fmt_time), Hd.
  - cbn [y_client]. unfold isStale. rewrite Z.gtb_ltb. apply Z.ltb_ge, Z.lt_succ_r, GetLatestVersion_lt.
    + lia.
    + intros e He. cut (¬ configVersion w2 < ev_version e); [lia|]. intros Hlt.
      assert (e ∈ @backlog (serial_service fmt_time _ Hd) (configVersion w2)) as Hb by (by apply list_elem_of_filter).
      rewrite Hbl in Hb. set_solver.
Qed.

(** ** The window before registration *)

(** A reconcile with nothing to fetch asks once and says it is live. *)
Lemma empty_reconcile s c n w r :
  serial fmt_time (s_db s) → reconciling w = false → configVersion w = GetLatestVersion (s_db s) →
  ∃ answers w', Forall (λ l, is_answer l = true) answers
  ∧ sys_run answers (mkSystem s c n (reconcile config w) r) = Some (mkSystem s c n w' r)
  ∧ status w' = Live ∧ reconciling w' = false ∧ tasks w' = tasks w ∧ flags w' = flags w
  ∧ configVersion w' = configVersion w ∧ sources w' = sources w.
Proof.
  intros Hd Hr Hv. set (w2 := setStatus Reconciling (set_reconciling true w)).
  assert (reconcile config w = recon_loop config (status (set_reconciling true w)) false 0 w2) as ->
    by (unfold reconcile; by rewrite Hr).
  assert (configVersion w2 = configVersion w) as Hv2 by (unfold w2; by rewrite configVersion_setStatus).
  pose proof (@serve_round (serial_service fmt_time (s_db s) Hd) config (status (set_reconciling true w)) false 0 w2) as Hs.
  destruct (serve_answers s c n _ r Hd 2 _ (Hs eq_refl)) as (answers & Hans & Hrun).
  exists answers. eexists. split; [done|]. split; [exact Hrun|].
  assert (@es_page (serial_service fmt_time (s_db s) Hd) (configVersion w2) = []) as ->.
  { rewrite es_page_spec, filter_none; [by rewrite take_nil|]. apply Forall_forall. intros e He. rewrite Hv2, Hv.
    pose proof (GetLatestVersion_ub (s_db s) e He). lia. }
  cbn [recon_page recon_done]. cbn. unfold w2. autorewrite with fp. cbn.
  rewrite ?tasks_setStatus, ?flags_setStatus, ?status_setStatus.
  rewrite !(frame_sources _ _ (frame_setStatus _ _)). cbn.
  rewrite ?tasks_setStatus, ?flags_setStatus, ?configVersion_setStatus.
  by rewrite !(frame_sources _ _ (frame_setStatus _ _)).
Qed.

Lemma sys_run_app ls1 ls2 y : sys_run (ls1 ++ ls2) y = sys_run ls1 y ≫= sys_run ls2.
Proof.
  revert y. induction ls1 as [|l ls1 IH]; intros y; [done|]. cbn [sys_run app].
  destruct (sys_exec l y); [apply IH|done].
Qed.

Lemma sys_run_reachable ls y y' : sys_run ls y = Some y' → rtc sys_step y y'.
Proof.
  revert y. induction ls as [|l ls IH]; intros y Hr; cbn [sys_run] in Hr; [by simplify_eq|].
  apply bind_Some in Hr as (y1 & Hl & Hr). eapply rtc_l; [by exists l|by apply IH].
Qed.

(** Running one transition. *)
Lemma sys_run_cons l ls y y' : sys_exec l y = Some y' → sys_run (l :: ls) y = sys_run ls y'.
Proof. intros He. cbn [sys_run]. by rewrite He. Qed.

Lemma sys_exec_node l s c n n' w r :
  Broker.exec l n = Some (Next n') → (∀ e o, l ≠ Broadcast e o) →
  sys_exec (Node l) (mkSystem s c n w r) = Some (mkSystem s c n' w r).
Proof. intros He Hl. destruct l; cbn [sys_exec]; rewrite ?He; try done. by destruct (Hl e order). Qed.

Lemma sys_exec_consume order s c n n' w r p :
  s_published s !! c = Some p → Broker.exec (Broadcast (event_of marshal p) order) n = Some (Next n') →
  sys_exec (Consume order) (mkSystem s c n w r) = Some (mkSystem s (S c) n' w r).
Proof. intros Hp He. cbn [sys_exec]. rewrite Hp. cbn [mbind option_bind]. by rewrite He. Qed.

Lemma sys_exec_recv s c n w w' r cn x :
  n_conns n !! i = Some cn → c_out cn !! r = Some x → read_chunk x w = Some w' →
  sys_exec Recv (mkSystem s c n w r) = Some (mkSystem s c n w' (S r)).
Proof. intros Hc Hx Hw. cbn [sys_exec]. rewrite Hc. cbn [mbind option_bind]. rewrite Hx. cbn [mbind option_bind]. by rewrite Hw. Qed.

(** A request that logs an event logs and publishes exactly one. *)
Lemma serve_write_one now wr s :
  (length (log (s_db s)) < length (log (s_db (serve_write fmt_time now wr s))))%nat →
  ∃ e, log (s_db (serve_write fmt_time now wr s)) = log (s_db s) ++ [e]
     ∧ s_published (serve_write fmt_time now wr s) = s_published s ++ [announces e].
Proof.
  intros Hlt. destruct (serve_write_logs fmt_time now wr s) as (evs & envs & [e _ _ Hl Hp|Hl Hp|r _ _ Hl Hp]).
  - by exists e.
  - rewrite Hl in Hlt. lia.
  - rewrite Hl in Hlt. lia.
Qed.

(** A broadcast before the channel is registered passes it by. *)
Lemma broadcast_passes_by e n c :
  Broker.reachable n → n_done n = false → n_conns n !! i = Some c → c_pc c = Registering →
  ∃ n', Broker.exec (Broadcast e (elements (n_clients n))) n = Some (Next n')
  ∧ n_conns n' !! i = Some c ∧ n_done n' = false ∧ Broker.reachable n'.
Proof.
  intros Hr Hd Hi Hp. pose proof (reachable_ok n Hr) as Hn.
  destruct (broadcast_result e (elements (n_clients n)) n Hn ltac:(done)) as (n' & Hb & _ & Hd' & _ & Hc & _).
  assert (Broker.exec (Broadcast e (elements (n_clients n))) n = Some (Next n')) as He
    by (cbn; by rewrite Hd, decide_True, Hb).
  exists n'. split_and!; [done| |by rewrite Hd'|by eapply reachable_step].
  rewrite Hc, decide_False; [done|]. intros Hin.
  destruct (ok_client _ _ _ (ok_conns n Hn i c Hi) Hin) as [Hs _]. by rewrite Hp in Hs.
Qed.

(** A connection's first three steps: the headers, the registration, the
    greeting. *)
Lemma flush_step c n : n_conns n !! i = Some c → c_pc c = Flushing →
  let c' := first_flush true c in let n' := set_conn i c' n in
  Broker.exec (FirstFlush i true) n = Some (Next n') ∧ n_conns n' !! i = Some c'.
Proof.
  intros Hi Hpc c' n'. split.
  - cbn. unfold at_pc. rewrite Hi. cbn. by rewrite decide_True.
  - unfold n'. rewrite conns_set_conn by (by eexists). by rewrite decide_True.
Qed.

Lemma register_step c n : n_conns n !! i = Some c → c_pc c = Registering → n_done n = false →
  let c' := join_at (length (n_history n)) (goto Greeting c) in let n' := run_register i c n in
  Broker.exec (Register i) n = Some (Next n') ∧ n_conns n' !! i = Some c'.
Proof.
  intros Hi Hpc Hd c' n'. split.
  - cbn. unfold at_pc. rewrite Hi. cbn. by rewrite decide_True, Hd.
  - unfold n', run_register. rewrite conns_set_conn by (by eexists). by rewrite decide_True.
Qed.

Lemma greet_step c n : n_conns n !! i = Some c → c_pc c = Greeting →
  let n' := set_conn i (greet c) n in
  Broker.exec (Greet i) n = Some (Next n') ∧ n_conns n' !! i = Some (greet c).
Proof.
  intros Hi Hpc n'. split.
  - cbn. unfold at_pc. rewrite Hi. cbn. by rewrite decide_True.
  - unfold n'. rewrite conns_set_conn by (by eexists). by rewrite decide_True.
Qed.

(** A write that reaches the log makes the latest version later. *)
Lemma served_is_later now wr s e : serial fmt_time (s_db s) →
  log (s_db (serve_write fmt_time now wr s)) = log (s_db s) ++ [e] →
  GetLatestVersion (s_db s) < GetLatestVersion (s_db (serve_write fmt_time now wr s)).
Proof.
  intros Hd Hle. apply Z.lt_le_trans with (ev_version e); [|apply GetLatestVersion_ub; rewrite Hle; set_solver].
  pose proof (serve_write_serial fmt_time now wr s Hd) as Hd'.
  pose proof (inv_bound _ (serial_inv fmt_time _ Hd')) as Hb. pose proof (inv_sorted _ (serial_inv fmt_time _ Hd')) as Hso.
  rewrite Hle in Hb, Hso. apply Forall_app in Hb as [_ [Hb _]%Forall_cons].
  apply GetLatestVersion_lt; [apply Hb|]. intros e0 He0. apply (sorted_app _ _ Hso); set_solver.
Qed.

(** C15: the handler flushes its headers before it registers, and the client
    reconciles on the headers.  From any reachable system whose client is up to
    date and connecting, with nothing on its way: the headers arrive, the client
    reconciles and finds nothing, a request is served and broadcast, and only then
    the handler registers.  The stream is open and empty, all that was published
    has been delivered, no call is pending, and the client says it is live while
    it is behind; nothing but the next event or a timer will tell it. *)
Theorem registration_window (y : system) (c : conn) (now : Z) (wr : write) :
  sys_reachable y →
  n_conns (y_node y) !! i = Some c → c_pc c = Flushing → n_done (y_node y) = false → y_read y = 0%nat →
  y_consumed y = length (s_published (y_server y)) →
  sources (y_client y) !! es = Some CONNECTING → reconciling (y_client y) = false →
  configVersion (y_client y) = GetLatestVersion (s_db (y_server y)) →
  (length (log (s_db (y_server y))) < length (log (s_db (serve_write fmt_time now wr (y_server y)))))%nat →
  ∃ answers order y' c', Forall (λ l, is_answer l = true) answers
  ∧ sys_run ([Node (FirstFlush i true); Recv] ++ answers
             ++ [Write now wr; Consume order; Node (Register i); Node (Greet i); Recv]) y = Some y'
  ∧ i ∈ n_clients (y_node y') ∧ n_conns (y_node y') !! i = Some c' ∧ c_buf c' = [] ∧ c_closed c' = false
  ∧ y_read y' = length (c_out c') ∧ y_consumed y' = length (s_published (y_server y'))
  ∧ status (y_client y') = Live ∧ tasks (y_client y') = tasks (y_client y)
  ∧ flags (y_client y') = flags (y_client y)
  ∧ isStale (GetLatestVersion (s_db (y_server y'))) (y_client y') = true.
Proof.
  intros Hreach Hi Hpc Hdone Hrd Hcons Hes Hrec Hv Hlog.
  pose proof (sys_reachable_ok y Hreach) as Hok. destruct y as [s cn n w r].
  cbn [y_server y_consumed y_node y_client y_read] in *. subst r.
  pose proof (sy_node _ Hok) as Hnr. cbn in Hnr.
  destruct (ok_fresh _ _ _ (ok_conns n (reachable_ok n Hnr) i c Hi) (or_introl Hpc)) as (Hopen & Htaken & Hjoined).
  pose proof (reachable_response n i c Hnr Hi) as Hout. unfold response_ok in Hout. rewrite Hpc in Hout.
  assert (c_buf c = []) as Hbuf by (unfold taken in Htaken; by apply app_nil in Htaken as [_ ?]).
  set (c1 := first_flush true c). set (n1 := set_conn i c1 n). destruct (flush_step c n Hi Hpc) as [H1 Hi1].
  fold c1 in H1, Hi1. fold n1 in H1, Hi1.
  set (w1 := set_sources (<[es:=OPEN]> (sources w)) w).
  assert (Client.exec config (LStreamOpen es) w = Some (reconcile config w1)) as H2 by (cbn; by rewrite decide_True).
  destruct (serve_write_one now wr s Hlog) as (e & Hle & Hpe). set (s' := serve_write fmt_time now wr s) in *.
  pose proof (so_serial _ _ (sy_served _ Hok)) as Hd. cbn in Hd.
  destruct (empty_reconcile s cn n1 w1 1 Hd Hrec Hv) as (answers & w2 & Hans & Hrun & Hst & _ & Htasks & Hflags & Hver & _).
  destruct (broadcast_passes_by (event_of marshal (announces e)) n1 c1) as (n2 & H3 & Hi2 & Hd2 & _);
    [by eapply reachable_step|done|done|done|].
  set (c3 := join_at (length (n_history n2)) (goto Greeting c1)). set (n3 := run_register i c1 n2).
  destruct (register_step c1 n2 Hi2 eq_refl Hd2) as [H4 Hi3].
  set (n4 := set_conn i (greet c3) n3). destruct (greet_step c3 n3 Hi3 eq_refl) as [H5 Hi4].
  exists answers, (elements (n_clients n1)), (mkSystem s' (S cn) n4 w2 2), (greet c3).
  assert (c_out c1 = [StreamHeaders]) as Ho1 by (unfold c1; cbn; by rewrite Hout).
  split_and!; try done.
  - cbn [app]. erewrite sys_run_cons by (eapply sys_exec_node; [exact H1|done]).
    erewrite sys_run_cons by (eapply sys_exec_recv; [exact Hi1|by rewrite Ho1|exact H2]).
    rewrite sys_run_app, Hrun. cbn [mbind option_bind]. erewrite sys_run_cons by done. fold s'.
    erewrite sys_run_cons; [|eapply sys_exec_consume; [by rewrite Hpe, Hcons, lookup_app_r, Nat.sub_diag by lia|exact H3]].
    erewrite sys_run_cons by (eapply sys_exec_node; [exact H4|done]).
    erewrite sys_run_cons by (eapply sys_exec_node; [exact H5|done]).
    erewrite sys_run_cons; [reflexivity|].
    eapply (sys_exec_recv _ _ _ _ _ _ _ (Comment (js " connected"))); [exact Hi4| |reflexivity].
    cbn [c_out greet goto write_out c3 join_at]. rewrite Ho1. reflexivity.
  - cbn. set_solver.
  - cbn [y_read]. cbn [c_out greet goto write_out c3 join_at]. by rewrite Ho1.
  - cbn [y_consumed y_server]. rewrite Hpe, length_app, Hcons. cbn. lia.
  - cbn [y_client y_server]. unfold isStale. rewrite Hver. cbn [configVersion w1 set_sources]. rewrite Hv, Z.gtb_ltb.
    apply Z.ltb_lt. by apply (served_is_later now wr s e).
Qed.
End system.

(** ** Witnesses

    One flag, one browser.  The client boots, connects, reconciles and is
    registered; then a toggle, a conflicting update that burns a version, and a
    second toggle reach it over the stream. *)
Definition key1 : jstr := js "dark-mode".
Definition demo_flag (on : bool) (v : Z) : FlagConfig := mkFlagConfig (js "id-1") key1 [] on 50 [] v.
Definition demo_marshal (o : FlagObj) : jstr :=
  match o with FullFlag f => js "flag " ++ show (fc_version f) | KeyOnly k => js "key " ++ k end.
Definition demo_parse (s : jstr) : option FlagObj :=
  head (filter (λ o, demo_marshal o = s) [FullFlag (demo_flag false 1); FullFlag (demo_flag true 2); FullFlag (demo_flag false 4)]).

#[export] Instance parses_dec marshal parse e : Decision (parses marshal parse e).
Proof. unfold parses. apply _. Defined.

Abbreviation demo_run := (sys_run demo_config show demo_marshal demo_parse 0 0) (only parsing).
Definition demo_create : write := WCreate (js "id-1") (mkCreateFlagInput key1 [] false 50 []).
Definition demo_conflict : write :=
  WUpdate (js "id-1") (mkUpdateFlagRequest (mkUpdateFlagInput None (Some true) None None) (Some 1)).

Definition to_connecting : list sys_label :=
  [Write 1 demo_create; Consume []; Call LInit; Answer 0; Answer 0; Answer 0; Node Connect].
Definition to_registered : list sys_label :=
  to_connecting ++ [Node (FirstFlush 0 true); Recv; Answer 0; Answer 0; Node (Register 0); Node (Greet 0)].
Definition live_run : list sys_label :=
  [Write 2 (WToggle (js "id-1")); Consume [0%nat]; Write 3 demo_conflict; Recv; Node (Receive 0 true);
   Write 4 (WToggle (js "id-1")); Node (Heartbeat 0 true); Recv; Consume [0%nat]; Recv; Node (Receive 0 true); Recv].

Definition initial_or (r : option system) : system := default initial r.
Definition demo_connecting : system := initial_or (demo_run to_connecting initial).
Definition demo_registered : system := initial_or (demo_run to_registered initial).
Definition demo_arrived : system := initial_or (demo_run live_run demo_registered).

Lemma demo_connecting_reachable : sys_reachable demo_config show demo_marshal demo_parse 0 0 demo_connecting.
Proof. apply (sys_run_reachable _ _ _ _ _ _ to_connecting). vm_compute. reflexivity. Qed.
Lemma demo_registered_reachable : sys_reachable demo_config show demo_marshal demo_parse 0 0 demo_registered.
Proof. apply (sys_run_reachable _ _ _ _ _ _ to_registered). vm_compute. reflexivity. Qed.

(** The envelope of the second toggle finds a hole in the numbers: the client
    has arrived with a reconcile to be answered. *)
Lemma live_client_mirrors_table_witness :
  configVersion (y_client demo_arrived) = 2 ∧ status (y_client demo_arrived) = Reconciling
  ∧ ∃ answers y', Forall (λ l, is_answer l = true) answers ∧ demo_run answers demo_arrived = Some y'
    ∧ y_server y' = y_server demo_arrived ∧ reconciling (y_client y') = false
    ∧ to_gmap (flags (y_client y')) = table_map (rows (s_db (y_server demo_arrived)))
    ∧ isStale (GetLatestVersion (s_db (y_server demo_arrived))) (y_client y') = false.
Proof.
  split; [vm_compute; reflexivity|]. split; [vm_compute; reflexivity|].
  destruct (n_conns (y_node demo_registered) !! 0%nat) as [c0|] eqn:Hc0; [|vm_compute in Hc0; discriminate Hc0].
  destruct (n_conns (y_node demo_arrived) !! 0%nat) as [c|] eqn:Hc; [|vm_compute in Hc; discriminate Hc].
  apply (live_client_mirrors_table demo_config show demo_marshal demo_parse 0 0 demo_registered live_run demo_arrived c0 c);
    [exact demo_registered_reachable|exact Hc0|vm_compute; reflexivity|apply Nat.leb_le; vm_compute; reflexivity
    |vm_compute; reflexivity..|repeat constructor|vm_compute; reflexivity|vm_compute; reflexivity|exact Hc|vm_compute; reflexivity
    | | | |vm_compute; reflexivity].
  - vm_compute in Hc. injection Hc as <-. reflexivity.
  - vm_compute in Hc. injection Hc as <-. vm_compute. reflexivity.
  - apply (bool_decide_unpack _). vm_compute. exact I.
Defined.

(** A toggle falls into the window. *)
Lemma registration_window_witness :
  ∃ answers order y' c', Forall (λ l, is_answer l = true) answers
  ∧ demo_run ([Node (FirstFlush 0 true); Recv] ++ answers
              ++ [Write 2 (WToggle (js "id-1")); Consume order; Node (Register 0); Node (Greet 0); Recv]) demo_connecting = Some y'
  ∧ 0%nat ∈ n_clients (y_node y') ∧ n_conns (y_node y') !! 0%nat = Some c' ∧ c_buf c' = [] ∧ c_closed c' = false
  ∧ y_read y' = length (c_out c') ∧ y_consumed y' = length (s_published (y_server y'))
  ∧ status (y_client y') = Live ∧ tasks (y_client y') = tasks (y_client demo_connecting)
  ∧ flags (y_client y') = flags (y_client demo_connecting)
  ∧ isStale (GetLatestVersion (s_db (y_server y'))) (y_client y') = true.
Proof.
  destruct (n_conns (y_node demo_connecting) !! 0%nat) as [c|] eqn:Hc; [|vm_compute in Hc; discriminate Hc].
  apply (registration_window demo_config show demo_marshal demo_parse 0 0 demo_connecting c 2 (WToggle (js "id-1")));
    [exact demo_connecting_reachable|exact Hc| |vm_compute; reflexivity..|].
  - vm_compute in Hc. injection Hc as <-. reflexivity.
  - apply Nat.ltb_lt. vm_compute. reflexivity.
Defined.
