(* ===== verification/GoClient.v ===== *)
(** * The server-side SDK ([pkg/ffclient])

    The second implementation of the client protocol: bootstrap, local
    evaluation, a line parser for the event stream, contiguity checks and paging
    reconciliation.  The struct's fields are the state; a method that holds the
    mutex is one function on it.  Text is a list of code points, which for
    ASCII are also the code units of [Client]. *)
From S2P Require Import Prelude JsMap Types Hash Evaluate Client Server Convergence Broker.

Record goclient := mkGoclient { gc_flags : gmap jstr FlagConfig; gc_version : Z }.

(** [New] *)
Definition New : goclient := mkGoclient ∅ 0.

(** [json.Unmarshal] into a [Flag]: fields that are missing are zero. *)
Definition unmarshal_flag (payload : FlagObj) : FlagConfig :=
  match payload with FullFlag f => f | KeyOnly k => mkFlagConfig [] k [] false 0 [] 0 end.

(** [Bootstrap] on a response body. *)
Definition Bootstrap_body (fl : list FlagConfig) (config_version : Z) : goclient :=
  mkGoclient (foldl (λ m f, <[fc_key f := f]> m) ∅ fl) config_version.

(** [inRollout] hashes the bytes of the text. *)
Definition inRollout (flagKey userID : list Z) (percentage : Z) : bool :=
  if percentage <=? 0 then false
  else if percentage >=? 100 then true
  else go_fnv1a (utf8_encode (flagKey ++ js ":" ++ userID)) mod 100 <? percentage.

Definition IsEnabled (c : goclient) (flagKey userID : jstr) : bool :=
  match gc_flags c !! flagKey with
  | None => false
  | Some f => if negb (fc_enabled f) then false
              else if existsb (λ u, bool_decide (u = userID)) (fc_targeted_users f) then true
              else inRollout flagKey userID (fc_rollout_percentage f)
  end.

(** ** Reconciling *)

(** [c.flags[f.Key] = f], unless the payload does not parse or has no key. *)
Definition store_flag (payload : option FlagObj) (m : gmap jstr FlagConfig) : gmap jstr FlagConfig :=
  match payload with
  | Some o => let f := unmarshal_flag o in if bool_decide (fc_key f = []) then m else <[fc_key f := f]> m
  | None => m
  end.

Definition applyLocked (ty : EventType) (flagKey : jstr) (payload : option FlagObj) (version : Z) (c : goclient) : goclient :=
  mkGoclient (match ty with
              | Deleted => delete flagKey (gc_flags c)
              | _ => store_flag payload (gc_flags c)
              end) version.

(** The loop over one page, with [advanced]. *)
Definition reconcile_event (st : goclient * bool) (ev : FlagEvent) : goclient * bool :=
  if ev_version ev <=? gc_version st.1 then st
  else (applyLocked (ev_type ev) (ev_flag_key ev) (Some (ev_payload ev)) (ev_version ev) st.1, true).
Definition reconcile_page (evs : list FlagEvent) (c : goclient) : goclient * bool :=
  foldl reconcile_event (c, false) evs.

(** What an HTTP request for a page comes to. *)
Inductive reply := Failed | Status (code : Z) | BadBody | Page (evs : list FlagEvent).
Inductive go_error := HttpError | StatusError (code : Z) | DecodeError | ScanError.

(** [Bootstrap]: what its request comes to, and what it leaves. *)
Inductive snapshot := NoSnapshot (e : go_error) | Snapshot (fl : list FlagConfig) (config_version : Z).
Definition Bootstrap (r : snapshot) (c : goclient) : goclient * option go_error :=
  match r with
  | NoSnapshot e => (c, Some e)
  | Snapshot fl v => (Bootstrap_body fl v, None)
  end.

(** One iteration of [Reconcile]: the client, and [None] to go on or what the
    method returns. *)
Definition reconcile_step (r : reply) (c : goclient) : goclient * option (option go_error) :=
  match r with
  | Failed => (c, Some (Some HttpError))
  | Status code => (c, Some (Some (StatusError code)))
  | BadBody => (c, Some (Some DecodeError))
  | Page [] => (c, Some None)
  | Page evs => let '(c, advanced) := reconcile_page evs c in (c, if advanced then None else Some None)
  end.

Definition go_guard : nat := 100000.

(** The loop, [fuel] iterations from its guard, against a server that answers
    [srv since]. *)
Fixpoint reconcile_loop (fuel : nat) (srv : Z → reply) (c : goclient) : goclient * option go_error :=
  match fuel with
  | O => (c, None)
  | S fuel => match reconcile_step (srv (gc_version c)) c with
              | (c, Some r) => (c, r)
              | (c, None) => reconcile_loop fuel srv c
              end
  end.
Definition Reconcile (srv : Z → reply) (c : goclient) : goclient * option go_error :=
  reconcile_loop go_guard srv c.

(** ** The live stream *)

(** [applyLiveEvent]: [payload] is the frame's data, if it is JSON of an object. *)
Definition applyLiveEvent (eventType : jstr) (payload : option FlagObj) (version : Z) (c : goclient) : bool * goclient :=
  if version <=? gc_version c then (false, c)
  else if version >? gc_version c + 1 then (true, c)
  else (false, mkGoclient (if bool_decide (eventType = js "flag_deleted")
                           then match payload with Some o => delete (obj_key o) (gc_flags c) | None => gc_flags c end
                           else store_flag payload (gc_flags c)) version).

(** [strings.TrimSpace] *)
Definition go_space (c : Z) : bool :=
  ((9 <=? c) && (c <=? 13)) || (c =? 32) || (c =? 133) || (c =? 160) || (c =? 5760)
  || ((8192 <=? c) && (c <=? 8202)) || (c =? 8232) || (c =? 8233) || (c =? 8239) || (c =? 8287) || (c =? 12288).
Fixpoint trim_left (s : list Z) : list Z :=
  match s with c :: r => if go_space c then trim_left r else s | [] => [] end.
Definition TrimSpace (s : list Z) : list Z := reverse (trim_left (reverse (trim_left s))).
Arguments TrimSpace s : simpl never.

Definition parseSSEVersion (id : list Z) : option Z :=
  let id := TrimSpace id in if bool_decide (id = []) then None else go_ParseInt id.

(** [bufio.ScanLines]: lines end at a newline, a carriage return before it goes;
    an unterminated last line counts if it is not empty. *)
Definition drop_cr (l : list Z) : list Z :=
  match last l with Some c => if c =? 13 then removelast l else l | None => l end.
Fixpoint split_lines (cur s : list Z) : list (list Z) :=
  match s with
  | [] => match cur with [] => [] | _ => [cur] end
  | c :: s => if c =? newline then cur :: split_lines [] s else split_lines (cur ++ [c]) s
  end.

(** The scanner stops with an error at a line that does not fit its buffer. *)
Definition max_line : Z := 1048576.
Fixpoint scan (raw : list (list Z)) : list (list Z) * bool :=
  match raw with
  | [] => ([], true)
  | l :: raw => if go_len l <? max_line
                then let '(ls, ok) := scan raw in (drop_cr l :: ls, ok) else ([], false)
  end.
Definition Scanner (s : list Z) : list (list Z) * bool := scan (split_lines [] s).

(** [strings.HasPrefix], with the rest of the line. *)
Fixpoint after_prefix (p s : list Z) : option (list Z) :=
  match p, s with
  | [], _ => Some s
  | a :: p, b :: s => if a =? b then after_prefix p s else None
  | _ :: _, [] => None
  end.

Record frame := mkFrame { fr_event : list Z; fr_data : list Z; fr_id : list Z }.
Definition no_frame : frame := mkFrame [] [] [].

(** The body of [for sc.Scan()]: the fields gathered, and the frame dispatched. *)
Definition scan_line (st : frame) (line : list Z) : frame * option frame :=
  match line with
  | [] => (no_frame, if bool_decide (fr_data st = []) then None else Some st)
  | _ =>
      match after_prefix (js ":") line with
      | Some _ => (st, None)
      | None =>
          match after_prefix (js "event:") line with
          | Some v => (mkFrame (TrimSpace v) (fr_data st) (fr_id st), None)
          | None =>
              match after_prefix (js "data:") line with
              | Some v => (mkFrame (fr_event st) (fr_data st ++ TrimSpace v) (fr_id st), None)
              | None =>
                  match after_prefix (js "id:") line with
                  | Some v => (mkFrame (fr_event st) (fr_data st) (TrimSpace v), None)
                  | None => (st, None)
                  end
              end
          end
      end
  end.

Fixpoint scan_frames (st : frame) (lines : list (list Z)) : list frame :=
  match lines with
  | [] => []
  | l :: lines => let '(st, fr) := scan_line st l in
                  match fr with Some f => f :: scan_frames st lines | None => scan_frames st lines end
  end.

(** The frames [stream] dispatches on a response body. *)
Definition stream_frames (body : list Z) : list frame := scan_frames no_frame (Scanner body).1.

(** One dispatch: the version a frame without a readable id stands for is the
    next one; a gap reconciles inline, and a failed reconcile ends the stream. *)
Definition dispatch (parse : list Z → option FlagObj) (srv : Z → reply) (f : frame) (c : goclient) : goclient * option go_error :=
  let version := default (gc_version c + 1) (parseSSEVersion (fr_id f)) in
  match applyLiveEvent (fr_event f) (parse (fr_data f)) version c with
  | (true, c) => Reconcile srv c
  | (false, c) => (c, None)
  end.

(** The versions handed to the hook [OnVersion]. *)
Definition observed_version (f : frame) : option Z := parseSSEVersion (fr_id f).

(** [streamLoop]'s waiting time after a stream has ended, in milliseconds. *)
Definition maxBackoff : Z := 5000.
Definition next_backoff (b : Z) : Z :=
  if b <? maxBackoff then (if b * 2 >? maxBackoff then maxBackoff else b * 2) else b.
Definition backoff_after (n : nat) : Z := Nat.iter n next_backoff 500.

(** What one connection comes to: none, another status, or a body that ends or
    is cut off.  [srv n] answers what the reconcile at its [n]th frame asks. *)
Inductive connection :=
| NotConnected | StreamStatus (code : Z)
| StreamBody (text : list Z) (cut : bool) (srv : nat → Z → reply).

(** The frames in turn; an error of a reconcile leaves the loop. *)
Fixpoint dispatch_all (parse : list Z → option FlagObj) (srv : nat → Z → reply) (n : nat) (fs : list frame) (c : goclient)
    : goclient * option go_error :=
  match fs with
  | [] => (c, None)
  | f :: fs => match dispatch parse (srv n) f c with
               | (c, Some e) => (c, Some e)
               | (c, None) => dispatch_all parse srv (S n) fs c
               end
  end.

Definition stream (parse : list Z → option FlagObj) (conn : connection) (c : goclient) : goclient * option go_error :=
  match conn with
  | NotConnected => (c, Some HttpError)
  | StreamStatus code => (c, Some (StatusError code))
  | StreamBody text cut srv =>
      match dispatch_all parse srv 0 (stream_frames text) c with
      | (c, Some e) => (c, Some e)
      | (c, None) => (c, if cut || negb (Scanner text).2 then Some ScanError else None)
      end
  end.

(** [streamLoop], for as many turns as the context lives: the service each
    reconcile finds and the connection after it; the client, and the waits. *)
Fixpoint streamLoop (parse : list Z → option FlagObj) (backoff : Z) (turns : list ((Z → reply) * connection)) (c : goclient)
    : goclient * list Z :=
  match turns with
  | [] => (c, [])
  | (srv, conn) :: turns =>
      let c := (Reconcile srv c).1 in
      let c := (stream parse conn c).1 in
      let '(c, waits) := streamLoop parse (next_backoff backoff) turns c in (c, backoff :: waits)
  end.

Definition Start (parse : list Z → option FlagObj) (boot : snapshot) (turns : list ((Z → reply) * connection))
    (c : goclient) : goclient * option go_error :=
  match Bootstrap boot c with
  | (c, Some e) => (c, Some e)
  | (c, None) => ((streamLoop parse 500 turns c).1, None)
  end.

(** ** Both SDKs *)

(** The two clients hold the same flags at the same version. *)
Record agrees (w : world) (c : goclient) : Prop := {
  ag_flags : to_gmap (flags w) = FullFlag <$> gc_flags c;
  ag_version : configVersion w = gc_version c }.

(** An event whose payload is the flag it is about. *)
Definition event_good (e : FlagEvent) : Prop :=
  ev_type e = Deleted ∨ ∃ f, ev_payload e = FullFlag f ∧ fc_key f = ev_flag_key e ∧ fc_key f ≠ [].

Lemma store_flag_full f m : fc_key f ≠ [] → store_flag (Some (FullFlag f)) m = <[fc_key f := f]> m.
Proof. intros Hk. cbn. by rewrite bool_decide_false. Qed.

Lemma agree_log_event m g e :
  event_good e → to_gmap m = FullFlag <$> g →
  to_gmap (apply_log_event m e)
  = FullFlag <$> gc_flags (applyLocked (ev_type e) (ev_flag_key e) (Some (ev_payload e)) (ev_version e) (mkGoclient g 0)).
Proof.
  intros Hg Hm. unfold apply_log_event, applyLocked. cbn [gc_flags].
  destruct (ev_type e) eqn:Ht.
  1, 2: destruct Hg as [Hd|(f & Hf & Hk & Hne)]; [congruence|].
  1, 2: rewrite Hf, store_flag_full, fmap_insert, Hk by done; autorewrite with fp; by rewrite Hm.
  autorewrite with fp. by rewrite Hm, fmap_delete.
Qed.

Lemma agree_page evs m c adv :
  Forall event_good evs → to_gmap m = FullFlag <$> gc_flags c →
  let '(m', v', adv') := foldl page_step (m, gc_version c, adv) evs in
  let '(c', adv2) := foldl reconcile_event (c, adv) evs in
  to_gmap m' = FullFlag <$> gc_flags c' ∧ v' = gc_version c' ∧ adv' = adv2.
Proof.
  intros He. revert m c adv. induction He as [|e evs He _ IH]; intros m c adv Hm; [done|].
  cbn [foldl]. unfold page_step at 2, reconcile_event at 2. cbn [fst].
  destruct (ev_version e <=? gc_version c); [by apply IH|].
  change (ev_version e) with (gc_version (applyLocked (ev_type e) (ev_flag_key e) (Some (ev_payload e)) (ev_version e) c)) at 1.
  apply IH. by apply (agree_log_event m (gc_flags c) e).
Qed.

(** One live event, whatever it does to the flags. *)
Lemma agree_live config w c v ty payload mu :
  agrees w c → reconciling w = false →
  (∀ m g, to_gmap m = FullFlag <$> g →
     to_gmap (mu m) = FullFlag <$> (if bool_decide (ty = js "flag_deleted")
       then match payload with Some o => delete (obj_key o) g | None => g end else store_flag payload g)) →
  let w' := applyEvent config v mu w in
  let '(needs, c') := applyLiveEvent ty payload v c in
  agrees w' c' ∧ reconciling w' = needs.
Proof.
  intros [Hf Hv] Hr Hmu. cbn zeta. unfold applyEvent, applyLiveEvent. rewrite <-Hv.
  destruct (v <=? configVersion w); [by split|]. destruct (v >? configVersion w + 1).
  - split; [split|].
    + by rewrite flags_reconcile.
    + by rewrite version_reconcile.
    + unfold reconcile. rewrite Hr. unfold recon_loop. change (0 <? guard_limit) with true.
      cbn. by rewrite reconciling_setStatus.
  - split; [split|]; cbn [notifyListeners flags configVersion reconciling set_trace gc_flags gc_version].
    + rewrite flags_setStatus. cbn. by apply Hmu.
    + by rewrite configVersion_setStatus.
    + by rewrite reconciling_setStatus.
Qed.

Lemma existsb_includes (l : list jstr) u : existsb (λ u', bool_decide (u' = u)) l = includes l u.
Proof.
  unfold includes. induction l as [|u' l IH]; [done|]. cbn [existsb]. rewrite IH. apply eq_bool_prop_intro.
  rewrite orb_True, !bool_decide_spec, elem_of_cons. naive_solver.
Qed.

Lemma agree_isEnabled w c k u :
  agrees w c → Forall (λ c, 0 ≤ c < 128) k → Forall (λ c, 0 ≤ c < 128) u →
  isEnabled (flags w) k u = IsEnabled c k u.
Proof.
  intros [Hf _] Hk Hu. unfold isEnabled, IsEnabled. rewrite <-lookup_to_gmap, Hf, lookup_fmap.
  destruct (gc_flags c !! k) as [f|]; cbn; [|done]. by rewrite isInRollout_ascii, existsb_includes.
Qed.

Lemma agree_bootstrap fl v w :
  agrees (boot_body (Some (map FullFlag fl)) (Some v) w) (Bootstrap_body fl v).
Proof.
  split; [|done]. cbn. clear.
  assert (∀ m g, to_gmap m = FullFlag <$> g →
    to_gmap (foldl (λ m f, map_set m (obj_key f) f) m (map FullFlag fl))
    = FullFlag <$> foldl (λ m f, <[fc_key f := f]> m) g fl) as H; [|by apply H; rewrite fmap_empty].
  induction fl as [|f fl IH]; intros m g Hm; [done|]. cbn [map foldl]. apply IH.
  autorewrite with fp. by rewrite fmap_insert, Hm.
Qed.

(** ** Reading back what the broker writes *)

(** A field that survives trimming and stays on its line. *)
Record clean (s : list Z) : Prop := {
  cl_line : newline ∉ s;
  cl_head : ∀ c, head s = Some c → go_space c = false;
  cl_last : ∀ c, last s = Some c → go_space c = false }.

Lemma trim_left_id s : (∀ c, head s = Some c → go_space c = false) → trim_left s = s.
Proof. intros H. destruct s as [|c s]; [done|]. cbn. by rewrite (H c eq_refl). Qed.

Lemma TrimSpace_clean s : clean s → TrimSpace s = s.
Proof.
  intros [_ Hh Hl]. unfold TrimSpace. rewrite (trim_left_id s) by done.
  rewrite trim_left_id, reverse_involutive; [done|]. intros c. rewrite head_reverse. apply Hl.
Qed.

Lemma TrimSpace_space s : clean s → TrimSpace (32 :: s) = s.
Proof. intros Hs. etrans; [|by apply TrimSpace_clean]. done. Qed.

Lemma drop_cr_id l : (∀ c, last l = Some c → c ≠ 13) → drop_cr l = l.
Proof.
  intros H. unfold drop_cr. destruct (last l) as [c|]; [|done].
  specialize (H c eq_refl). by rewrite (proj2 (Z.eqb_neq _ _)).
Qed.

Lemma drop_cr_field p s : clean s → (∀ c, last p = Some c → c ≠ 13) → drop_cr (p ++ s) = p ++ s.
Proof.
  intros [_ _ Hl] Hp. apply drop_cr_id. intros c. rewrite last_app. destruct (last s) as [c'|] eqn:E.
  - intros [= ->]. specialize (Hl c eq_refl). intros ->. done.
  - apply Hp.
Qed.

Lemma drop_cr_cons c l : c ≠ 13 → ∃ l', drop_cr (c :: l) = c :: l'.
Proof.
  intros Hc. unfold drop_cr. destruct (last (c :: l)) as [d|] eqn:E; [|by eexists].
  destruct (d =? 13) eqn:Hd; [|by eexists]. destruct l as [|c2 l]; [|by eexists].
  cbn in E. simplify_eq. boolify. congruence.
Qed.

Lemma split_line cur l s : newline ∉ l → split_lines cur (l ++ newline :: s) = (cur ++ l) :: split_lines [] s.
Proof.
  revert cur. induction l as [|c l IH]; intros cur Hl; cbn [app split_lines].
  - rewrite Z.eqb_refl, app_nil_r. done.
  - apply not_elem_of_cons in Hl as [Hc Hl]. rewrite (proj2 (Z.eqb_neq c newline)) by done.
    rewrite IH by done. by rewrite <-app_assoc.
Qed.

(** The first line of a body, scanned. *)
Lemma Scanner_line l s :
  newline ∉ l → go_len l < max_line → (Scanner (l ++ newline :: s)).1 = drop_cr l :: (Scanner s).1.
Proof.
  intros Hl Hm. unfold Scanner. rewrite split_line by done. cbn [app scan].
  rewrite (proj2 (Z.ltb_lt _ _)) by done. by destruct (scan _).
Qed.

Ltac read_prefixes :=
  unfold scan_line; change (js "id: ") with [105; 100; 58; 32];
  change (js "event: ") with [101; 118; 101; 110; 116; 58; 32]; change (js "data: ") with [100; 97; 116; 97; 58; 32];
  change (js ":") with [58]; change (js "event:") with [101; 118; 101; 110; 116; 58];
  change (js "data:") with [100; 97; 116; 97; 58]; change (js "id:") with [105; 100; 58]; cbn.

Lemma scan_id st v : clean v →
  scan_line st (js "id: " ++ v) = (mkFrame (fr_event st) (fr_data st) v, None).
Proof. intros Hv. read_prefixes. by rewrite (TrimSpace_space v Hv). Qed.
Lemma scan_event st v : clean v →
  scan_line st (js "event: " ++ v) = (mkFrame v (fr_data st) (fr_id st), None).
Proof. intros Hv. read_prefixes. by rewrite (TrimSpace_space v Hv). Qed.
Lemma scan_data st v : clean v →
  scan_line st (js "data: " ++ v) = (mkFrame (fr_event st) (fr_data st ++ v) (fr_id st), None).
Proof. intros Hv. read_prefixes. by rewrite (TrimSpace_space v Hv). Qed.

Lemma digits_clean s : Forall (λ c, is_digit c = true) s → clean s.
Proof.
  intros Hs. assert (∀ c, is_digit c = true → c ≠ newline ∧ go_space c = false) as Hd.
  { intros c Hc%is_digit_spec. unfold newline, go_space. split; [lia|].
    repeat (apply orb_false_iff; split); try apply Z.eqb_neq; try apply andb_false_iff;
      try (left; apply Z.leb_gt; lia); try (right; apply Z.leb_gt; lia); lia. }
  rewrite Forall_forall in Hs. split.
  - intros Hin. by apply (Hd newline); [apply Hs|].
  - intros c Hc. apply Hd, Hs. by apply head_elem.
  - intros c Hc. apply Hd, Hs. by apply last_Some_elem_of.
Qed.

Lemma show_clean v : 0 ≤ v → clean (show v).
Proof.
  intros Hv. unfold show. rewrite (proj2 (Z.ltb_ge _ _)) by done. by apply digits_clean, show_nonneg_digits.
Qed.

Lemma scan_comment st t : ∃ l, drop_cr (js ":" ++ t) = js ":" ++ l ∧ scan_line st (js ":" ++ l) = (st, None).
Proof.
  change (js ":" ++ t) with (58 :: t). destruct (drop_cr_cons 58 t) as [l ->]; [done|].
  exists l. split; [done|]. read_prefixes. done.
Qed.

(** The lines a chunk may have: fields that survive the parser, in its buffer. *)
Definition id_line (e : SSEEvent) : list Z := js "id: " ++ show (Version e).
Definition event_line (e : SSEEvent) : list Z := js "event: " ++ Event e.
Definition data_line (e : SSEEvent) : list Z := js "data: " ++ Data e.

Record frame_ok (e : SSEEvent) : Prop := {
  fk_event : clean (Event e);
  fk_data : clean (Data e) ∧ Data e ≠ [];
  fk_fits : go_len (id_line e) < max_line ∧ go_len (event_line e) < max_line ∧ go_len (data_line e) < max_line }.

Definition chunk_ok (x : chunk) : Prop :=
  match x with
  | StreamHeaders => True
  | Unsupported => False
  | Comment t => newline ∉ t ∧ go_len (js ":" ++ t) < max_line
  | Frame e => frame_ok e
  end.

Definition go_frame (e : SSEEvent) : frame :=
  mkFrame (Event e) (Data e) (if Version e >? 0 then show (Version e) else []).

Lemma js_field_line p s : newline ∉ p → clean s → newline ∉ p ++ s.
Proof. intros Hp [Hs _ _] [?|?]%elem_of_app; done. Qed.

(** Scanning a field line of a frame. *)
Lemma Scanner_field p s rest :
  newline ∉ p → (∀ c, last p = Some c → c ≠ 13) → clean s → go_len (p ++ s) < max_line →
  (Scanner (p ++ s ++ newline :: rest)).1 = (p ++ s) :: (Scanner rest).1.
Proof.
  intros Hp Hl Hs Hm. rewrite app_assoc, Scanner_line by auto using js_field_line. by rewrite drop_cr_field.
Qed.

Lemma Scanner_blank rest : (Scanner (newline :: rest)).1 = [] :: (Scanner rest).1.
Proof. apply (Scanner_line [] rest); [set_solver|done]. Qed.

Lemma scan_frames_cons st l ls :
  scan_frames st (l :: ls)
  = match (scan_line st l).2 with Some f => f :: scan_frames (scan_line st l).1 ls | None => scan_frames (scan_line st l).1 ls end.
Proof. cbn [scan_frames]. by destruct (scan_line st l). Qed.

Lemma scan_frame_text e rest :
  frame_ok e →
  scan_frames no_frame (Scanner (frame_text e ++ rest)).1 = go_frame e :: scan_frames no_frame (Scanner rest).1.
Proof.
  intros [He [Hd Hne] (Hf1 & Hf2 & Hf3)].
  assert (∀ id, scan_frames (mkFrame [] [] id)
            (Scanner (js "event: " ++ Event e ++ newline :: js "data: " ++ Data e ++ newline :: newline :: rest)).1
          = mkFrame (Event e) (Data e) id :: scan_frames no_frame (Scanner rest).1) as Hrest.
  { intros id. rewrite Scanner_field; [|by vm_compute; set_solver|by intros c [= <-]|done|done].
    rewrite Scanner_field; [|by vm_compute; set_solver|by intros c [= <-]|done|done].
    rewrite Scanner_blank, scan_frames_cons, scan_event by done. cbn [fst snd fr_data fr_event fr_id].
    rewrite scan_frames_cons, scan_data by done. cbn [fst snd fr_data fr_event fr_id app].
    rewrite scan_frames_cons. cbn [scan_line fst snd fr_data]. by rewrite bool_decide_false. }
  unfold frame_text, go_frame. destruct (Version e >? 0) eqn:Hv.
  - rewrite Z.gtb_ltb in Hv. boolify. assert (clean (show (Version e))) as Hs by (apply show_clean; lia).
    rewrite <-!app_assoc. cbn [app].
    rewrite Scanner_field; [|by vm_compute; set_solver|by intros c [= <-]|done|done].
    rewrite scan_frames_cons, scan_id by done. cbn [fst snd fr_data fr_event no_frame]. apply Hrest.
  - rewrite <-!app_assoc. cbn [app]. apply Hrest.
Qed.

Lemma scan_comment_text t rest :
  newline ∉ t → go_len (js ":" ++ t) < max_line →
  scan_frames no_frame (Scanner (chunk_text (Comment t) ++ rest)).1 = scan_frames no_frame (Scanner rest).1.
Proof.
  intros Ht Hm. cbn [chunk_text]. rewrite <-!app_assoc. cbn [app]. rewrite app_assoc.
  rewrite Scanner_line, Scanner_blank; [|intros [Hin|?]%elem_of_app; [vm_compute in Hin; set_solver|done]|done].
  destruct (scan_comment no_frame t) as (l & -> & Hl). by rewrite scan_frames_cons, Hl, scan_frames_cons.
Qed.

Lemma stream_frames_chunks xs : Forall chunk_ok xs → stream_frames (xs ≫= chunk_text) = map go_frame (omap frame_of xs).
Proof.
  unfold stream_frames. induction 1 as [|x xs Hx _ IH]; [done|]. cbn [mbind list_bind].
  destruct x as [| |t|e]; cbn [chunk_ok] in Hx; [exact IH|done| |].
  - destruct Hx as [Ht Hm]. rewrite scan_comment_text by done. exact IH.
  - cbn [chunk_text]. rewrite scan_frame_text by done. cbn. f_equal. exact IH.
Qed.

Lemma parseSSEVersion_show v : 0 ≤ v < 2 ^ 63 → parseSSEVersion (show v) = Some v.
Proof.
  intros Hv. unfold parseSSEVersion. rewrite TrimSpace_clean by (apply show_clean; lia). rewrite bool_decide_false.
  - apply go_ParseInt_show. lia.
  - intros Hs. pose proof (go_ParseInt_show v ltac:(lia)) as H. by rewrite Hs in H.
Qed.

(** C24: the Go client reads what the broker writes.  Whatever handshake,
    heartbeats and events a handler has written, in any number, the line parser
    dispatches exactly the events, each with its name, its data and its version,
    in the order written; provided data and names are single trimmed lines, as
    JSON text is, and fit the scanner's megabyte. *)
Theorem go_stream_round_trip (xs : list chunk) :
  Forall chunk_ok xs →
  stream_frames (xs ≫= chunk_text) = map go_frame (omap frame_of xs)
  ∧ Forall (λ e, 0 < Version e < 2 ^ 63 → observed_version (go_frame e) = Some (Version e)) (omap frame_of xs).
Proof.
  intros Hx. split; [by apply stream_frames_chunks|].
  apply Forall_forall. intros e _ [Hv1 Hv2]. unfold observed_version, go_frame. cbn [fr_id].
  rewrite Z.gtb_ltb, (proj2 (Z.ltb_lt _ _)) by done. apply parseSSEVersion_show. lia.
Qed.


(** ** The Go client against the service *)
Section service.
Context `{EventService}.
Context (log_good : Forall event_good es_log).

Definition go_in_sync (c : goclient) : Prop := FullFlag <$> gc_flags c = state_upto (gc_version c).

Lemma to_gmap_surj (g : gmap jstr FlagObj) : ∃ m, to_gmap m = g.
Proof. exists (map_to_list g). apply list_to_map_to_list. Qed.

Lemma backlog_good v n : Forall event_good (take n (backlog v)).
Proof. by apply Forall_take, Forall_filter_keep. Qed.

(** A page of the backlog is applied whole. *)
Lemma go_page c n :
  go_in_sync c → let page := take n (backlog (gc_version c)) in
  ∃ c', reconcile_page page c = (c', negb (bool_decide (page = []))) ∧ go_in_sync c'
  ∧ backlog (gc_version c') = drop n (backlog (gc_version c)) ∧ gc_version c ≤ gc_version c'.
Proof.
  intros Hc page. destruct (to_gmap_surj (FullFlag <$> gc_flags c)) as [m Hm].
  pose proof (agree_page page m c false (backlog_good _ n) Hm) as Hp.
  rewrite (page_fold page m (gc_version c) false) in Hp
    by (apply take_sorted, backlog_sorted || apply Forall_take, backlog_gt).
  unfold reconcile_page. destruct (foldl reconcile_event _ _) as [c' adv']. destruct Hp as (Hm' & Hv' & <-).
  exists c'. split; [done|]. destruct (state_upto_page (gc_version c) n) as (Hst & Hb & Hle). fold page in Hst, Hb, Hle.
  rewrite <-Hv'. split_and!; [|done..]. unfold go_in_sync. rewrite <-Hm', <-Hv', to_gmap_foldl, Hm, Hc. done.
Qed.

Lemma go_loop_converges k fuel c :
  go_in_sync c → (length (backlog (gc_version c)) ≤ k * es_limit)%nat → (k < fuel)%nat →
  ∃ c', reconcile_loop fuel (λ since, Page (es_page since)) c = (c', None) ∧ go_in_sync c'
  ∧ backlog (gc_version c') = [] ∧ gc_version c ≤ gc_version c'.
Proof.
  revert fuel c. induction k as [|k IH]; intros [|fuel] c Hc Hk Hf; [lia| |lia|]; cbn [reconcile_loop];
    rewrite es_page_spec; fold (backlog (gc_version c)).
  - assert (backlog (gc_version c) = []) as Hb by (apply nil_length_inv; lia).
    rewrite Hb, take_nil. cbn. exists c. split_and!; [done..|lia].
  - destruct (go_page c es_limit Hc) as (c' & Hp & Hc' & Hb' & Hle). unfold reconcile_step.
    destruct (take es_limit (backlog (gc_version c))) as [|e evs] eqn:Hpage.
    + assert (backlog (gc_version c) = []) as Hb.
      { pose proof es_limit_pos. apply (f_equal length) in Hpage. rewrite length_take in Hpage. cbn in Hpage.
        apply nil_length_inv. lia. }
      exists c. split_and!; [done..|lia].
    + rewrite Hp, bool_decide_false by done. cbn [negb].
      destruct (IH fuel c' Hc') as (c2 & ? & ? & ? & ?); [rewrite Hb', length_drop; lia|lia|].
      exists c2. split_and!; [done..|lia].
Qed.

(** The Go client's [Reconcile] converges.  From a client that holds the
    configuration of its version, against a service with fewer than 100,000 pages
    of backlog, the loop ends before its guard, without an error, with nothing
    left to fetch and exactly the configuration of the whole log. *)
Theorem go_reconcile_converges (c : goclient) (k : nat) :
  go_in_sync c → (length (backlog (gc_version c)) ≤ k * es_limit)%nat → (k < go_guard)%nat →
  ∃ c', Reconcile (λ since, Page (es_page since)) c = (c', None)
  ∧ FullFlag <$> gc_flags c' = log_state es_log ∧ backlog (gc_version c') = [] ∧ gc_version c ≤ gc_version c'.
Proof.
  intros Hc Hk Hg. destruct (go_loop_converges k go_guard c Hc Hk Hg) as (c' & Hr & Hc' & Hb & Hle).
  exists c'. split_and!; [done| |done..]. by rewrite Hc', state_upto_all.
Qed.
End service.

(** The waiting time doubles to five seconds and stays there. *)
Lemma next_backoff_bounds b : 500 ≤ b ≤ maxBackoff → b ≤ next_backoff b ≤ maxBackoff.
Proof.
  unfold next_backoff, maxBackoff. intros Hb. rewrite Z.gtb_ltb.
  destruct (Z.ltb_spec b 5000), (Z.ltb_spec 5000 (b * 2)); lia.
Qed.

Lemma backoff_bounds n : 500 ≤ backoff_after n ≤ maxBackoff ∧ backoff_after n ≤ backoff_after (S n).
Proof.
  assert (500 ≤ backoff_after n ≤ maxBackoff) as Hb.
  { induction n as [|n IH]; [unfold backoff_after, maxBackoff; cbn; lia|].
    pose proof (next_backoff_bounds _ IH). change (backoff_after (S n)) with (next_backoff (backoff_after n)). lia. }
  split; [done|]. apply (next_backoff_bounds _ Hb).
Qed.

(** It is five seconds from the fourth time on. *)
Lemma backoff_settles n : backoff_after (4 + n) = maxBackoff.
Proof.
  induction n as [|n IH]; [done|]. rewrite Nat.add_succ_r.
  change (backoff_after (S (4 + n))) with (next_backoff (backoff_after (4 + n))). by rewrite IH.
Qed.

(** ** The version never goes back *)
Lemma reconcile_page_mono evs c : gc_version c ≤ gc_version (reconcile_page evs c).1.
Proof.
  unfold reconcile_page. generalize false as adv. revert c.
  induction evs as [|e evs IH]; intros c adv; [cbn; lia|]. cbn [foldl]. unfold reconcile_event at 2. cbn [fst].
  destruct (Z.leb_spec (ev_version e) (gc_version c)); [apply IH|]. etrans; [|apply IH]. cbn. lia.
Qed.

Lemma reconcile_step_mono r c : gc_version c ≤ gc_version (reconcile_step r c).1.
Proof.
  destruct r as [| | |[|e evs]]; [cbn; lia..|]. unfold reconcile_step.
  pose proof (reconcile_page_mono (e :: evs) c) as H. destruct (reconcile_page _ c) as [c' []]; exact H.
Qed.

Lemma reconcile_loop_mono fuel srv c : gc_version c ≤ gc_version (reconcile_loop fuel srv c).1.
Proof.
  revert c. induction fuel as [|fuel IH]; intros c; [cbn; lia|]. cbn [reconcile_loop].
  pose proof (reconcile_step_mono (srv (gc_version c)) c) as H. destruct (reconcile_step _ c) as [c' [r|]]; [done|].
  cbn in H. specialize (IH c'). lia.
Qed.

Lemma Reconcile_mono srv c : gc_version c ≤ gc_version (Reconcile srv c).1.
Proof. unfold Reconcile. generalize go_guard. intros fuel. apply reconcile_loop_mono. Qed.

Lemma applyLiveEvent_mono ty payload v c : gc_version c ≤ gc_version (applyLiveEvent ty payload v c).2.
Proof.
  unfold applyLiveEvent. destruct (Z.leb_spec v (gc_version c)); [cbn; lia|]. rewrite Z.gtb_ltb.
  destruct (Z.ltb_spec (gc_version c + 1) v); cbn; lia.
Qed.

Lemma dispatch_mono parse srv f c : gc_version c ≤ gc_version (dispatch parse srv f c).1.
Proof.
  unfold dispatch. set (v := default _ _). pose proof (applyLiveEvent_mono (fr_event f) (parse (fr_data f)) v c) as H.
  destruct (applyLiveEvent _ _ _ c) as [[] c']; [|done]. etrans; [exact H|]. apply Reconcile_mono.
Qed.

Lemma dispatch_all_mono parse srv n fs c : gc_version c ≤ gc_version (dispatch_all parse srv n fs c).1.
Proof.
  revert n c. induction fs as [|f fs IH]; intros n c; [cbn; lia|]. cbn [dispatch_all].
  pose proof (dispatch_mono parse (srv n) f c) as H. destruct (dispatch _ _ _ c) as [c' [e|]]; [done|].
  etrans; [exact H|]. apply IH.
Qed.

Lemma stream_mono parse conn c : gc_version c ≤ gc_version (stream parse conn c).1.
Proof.
  destruct conn as [|code|text cut srv]; cbn; [lia..|].
  pose proof (dispatch_all_mono parse srv 0 (stream_frames text) c) as H.
  by destruct (dispatch_all _ _ _ _ _) as [c' [e|]].
Qed.

(** However the connections of a client's life go, its version only rises, and
    it waits as [backoff_after] says: the wait is never reset. *)
Lemma streamLoop_runs parse n turns c :
  gc_version c ≤ gc_version (streamLoop parse (backoff_after n) turns c).1
  ∧ (streamLoop parse (backoff_after n) turns c).2 = map backoff_after (List.seq n (length turns)).
Proof.
  revert n c. induction turns as [|[srv conn] turns IH]; intros n c; [cbn; split; [lia|done]|]. cbn [streamLoop].
  set (c1 := (Reconcile srv c).1). set (c2 := (stream parse conn c1).1).
  pose proof (Reconcile_mono srv c) as H1. fold c1 in H1. pose proof (stream_mono parse conn c1) as H2. fold c2 in H2.
  clearbody c2. clearbody c1.
  specialize (IH (S n) c2). change (backoff_after (S n)) with (next_backoff (backoff_after n)) in IH.
  destruct (streamLoop _ _ _ c2) as [c' waits]. cbn in *. destruct IH as [IH ->]. split; [lia|done].
Qed.

(** ** Witnesses *)
Definition demo_go_flag : FlagConfig := mkFlagConfig (js "id-1") (js "beta") [] true 50 [js "alice"] 1.
Definition demo_go : goclient := Bootstrap_body [demo_go_flag] 1.
Definition demo_ts : world := boot_body (Some [FullFlag demo_go_flag]) (Some 1) new_client.


Definition demo_body : list chunk :=
  [StreamHeaders; Comment (js " connected"); Frame (ev 41); Comment (js " heartbeat"); Frame (ev 42)].

Lemma clean_dec_ok s : bool_decide (newline ∉ s) && forallb (λ c, negb (go_space c)) s = true → clean s.
Proof.
  intros [H1%bool_decide_eq_true H2]%andb_true_iff. rewrite forallb_forall in H2.
  split; [done|..]; intros c Hc; apply negb_true_iff, H2, list_elem_of_In;
    [by apply head_elem|by apply last_Some_elem_of].
Qed.

Lemma go_stream_round_trip_witness :
  map fr_id (stream_frames (demo_body ≫= chunk_text)) = [js "41"; js "42"]
  ∧ stream_frames (demo_body ≫= chunk_text) = map go_frame (omap frame_of demo_body)
  ∧ Forall (λ e, 0 < Version e < 2 ^ 63 → observed_version (go_frame e) = Some (Version e)) (omap frame_of demo_body).
Proof.
  assert (∀ v, 0 ≤ v < 100 → frame_ok (ev v)) as Hev.
  { intros v Hv. split; [apply clean_dec_ok; reflexivity|split; [apply clean_dec_ok; reflexivity|discriminate]|].
    split; [|split; reflexivity]. unfold id_line, ev. cbn [Version].
    assert (v ∈ seqZ 0 100) as Hin by (apply elem_of_seqZ; lia). revert v Hin Hv.
    assert (forallb (λ v, go_len (js "id: " ++ show v) <? max_line) (seqZ 0 100) = true) as Hall by (vm_compute; reflexivity).
    rewrite forallb_forall in Hall. intros v Hin _. apply Z.ltb_lt, Hall. by apply list_elem_of_In. }
  split; [vm_compute; reflexivity|]. apply go_stream_round_trip.
  assert (chunk_ok (Comment (js " connected")) ∧ chunk_ok (Comment (js " heartbeat"))) as [H1 H2].
  { split; (split; [apply (bool_decide_unpack _); vm_compute; exact I|reflexivity]). }
  apply Forall_cons_2; [exact I|]. apply Forall_cons_2; [exact H1|]. apply Forall_cons_2; [apply Hev; lia|].
  apply Forall_cons_2; [exact H2|]. apply Forall_cons_2; [apply Hev; lia|]. apply Forall_nil_2.
Defined.

(** A new client against the demo log. *)
#[local] Instance demo_service : EventService := cluster_service show demo_cluster demo_interleaved.

Lemma go_reconcile_converges_witness :
  backlog 0 ≠ []
  ∧ ∃ c', Reconcile (λ since, Page (es_page since)) New = (c', None)
    ∧ FullFlag <$> gc_flags c' = log_state es_log ∧ backlog (gc_version c') = [] ∧ gc_version New ≤ gc_version c'.
Proof.
  split; [vm_compute; discriminate|]. apply (go_reconcile_converges) with (k := 1%nat).
  - vm_compute. apply Forall_cons_2; [right; eexists; split; [reflexivity|split; [reflexivity|discriminate]]|apply Forall_nil_2].
  - vm_compute. reflexivity.
  - apply Nat.leb_le. vm_compute. reflexivity.
  - apply Nat.ltb_lt. vm_compute. reflexivity.
Defined.
