(* ===== verification/Percentiles.v ===== *)
(** * The percentiles of a load test ([pkg/ffclient/loadgen.go])

    [Percentiles] sorts the samples and reads the nearest rank.  The rank is
    computed in [float64]; the model rounds where the processor does, and the
    theorem is that for the percentiles the code asks for nothing is lost. *)
From S2P Require Import Prelude.

(** ** Rounding to 53 bits

    A positive [float64] is [a / 2^e]; [e] stays fixed through a product, so
    rounding is on the numerator: to the nearest, ties to even. *)
Definition nearest_even (a b : Z) : Z :=
  let q := a / b in let r := a mod b in
  if 2 * r <? b then q else if b <? 2 * r then q + 1 else if Z.even q then q else q + 1.
Definition round53 (a : Z) : Z :=
  let s := Z.max 0 (Z.log2 a - 52) in nearest_even a (2 ^ s) * 2 ^ s.

(** [p / 100] in [float64]: its 53-bit numerator and its exponent. *)
Definition hundredths (p : Z) : Z * Z :=
  let e := 112 - Z.log2 (p * 2 ^ 60 / 100) in (nearest_even (p * 2 ^ e) 100, e).

(** [int(math.Ceil(p / 100 * float64(n)))] *)
Definition ceil_rank (p n : Z) : Z :=
  let '(m, e) := hundredths p in - ((- round53 (m * n)) / 2 ^ e).

Section samples.
(** The samples are numbers, without NaN, in their order. *)
Context {F : Type} (fle : relation F) `{!RelDecision fle, !Total fle, !Transitive fle, !AntiSymm eq fle}.
(** [0], addition and the division by a count, in [float64] *)
Context (zero : F) (add : F → F → F) (div_count : F → nat → F).

Record Stats := mkStats { Count : nat; Min : F; P50 : F; P95 : F; P99 : F; Max : F; Mean : F }.

Definition nearestRank (sorted : list F) (p : Z) : F :=
  let n := Z.of_nat (length sorted) in
  if n =? 0 then zero
  else
    let rank := ceil_rank p n in
    let rank := if rank <? 1 then 1 else rank in
    let rank := if rank >? n then n else rank in
    default zero (sorted !! Z.to_nat (rank - 1)).

Definition Percentiles (samples : list F) : Stats :=
  match samples with
  | [] => mkStats 0 zero zero zero zero zero zero
  | _ =>
      let n := length samples in
      let sorted := merge_sort fle samples in
      let sum := foldl add zero sorted in
      mkStats n (default zero (sorted !! 0%nat)) (nearestRank sorted 50) (nearestRank sorted 95)
        (nearestRank sorted 99) (default zero (sorted !! (n - 1)%nat)) (div_count sum n)
  end.
End samples.

(** ** The rank is exact *)
Lemma nearest_even_bounds a b : 0 < b → a / b ≤ nearest_even a b ≤ a / b + 1 ∧ (a mod b = 0 → nearest_even a b = a / b).
Proof.
  intros Hb. unfold nearest_even. split.
  - repeat case_match; lia.
  - intros ->. rewrite (proj2 (Z.ltb_lt (2 * 0) b)) by lia. done.
Qed.

(** Rounding stays within one unit of the last place, and does not pass a number
    that needs no rounding. *)
Lemma round53_above a s k : 0 < a → Z.log2 a ≤ 52 + s → 0 ≤ s → a - 2 ^ s < round53 a ∧ (a ≤ k * 2 ^ s → round53 a ≤ k * 2 ^ s).
Proof.
  intros Ha Hl Hs. unfold round53. set (t := Z.max 0 (Z.log2 a - 52)).
  assert (0 ≤ t ≤ s) as Ht by lia. pose proof (Z.pow_pos_nonneg 2 t ltac:(lia) ltac:(lia)) as Hp.
  destruct (nearest_even_bounds a (2 ^ t) Hp) as [Hb He].
  pose proof (Z.div_mod a (2 ^ t) ltac:(lia)) as Hdm. pose proof (Z.mod_pos_bound a (2 ^ t) Hp) as Hm.
  assert (2 ^ s = 2 ^ t * 2 ^ (s - t)) as Hpow by (rewrite <- Z.pow_add_r by lia; f_equal; lia).
  pose proof (Z.pow_pos_nonneg 2 (s - t) ltac:(lia) ltac:(lia)) as Hq.
  set (q := a / 2 ^ t) in *. set (u := 2 ^ t) in *. set (v := 2 ^ (s - t)) in *. set (r := nearest_even a u) in *.
  split; [nia|]. rewrite Hpow. intros Hk.
  destruct (Z.eq_dec (a mod u) 0) as [Hz|Hz].
  - rewrite (He Hz). nia.
  - assert (q + 1 ≤ k * v) by nia. nia.
Qed.

(** The three percentiles of the summary *)
Definition asked : list Z := [50; 95; 99].

Lemma hundredths_below p : p ∈ asked → ∃ m, hundredths p = (m, 53) ∧ - 50 ≤ 100 * m - p * 2 ^ 53 ≤ 0 ∧ 0 < m < 2 ^ 53.
Proof.
  unfold asked. rewrite !elem_of_cons, elem_of_nil.
  intros [->|[->|[->|[]]]]; eexists; (split; [vm_compute; reflexivity|lia]).
Qed.

Definition max_samples : Z := 2 ^ 31.
Lemma ceil_rank_exact p n : p ∈ asked → 0 < n ≤ max_samples → ceil_rank p n = - ((- (p * n)) / 100).
Proof.
  intros Hp Hn. destruct (hundredths_below p Hp) as (m & Hm & Hd & Hm0). unfold ceil_rank. rewrite Hm.
  unfold max_samples in Hn. change (2 ^ 31) with 2147483648 in Hn. change (2 ^ 53) with 9007199254740992 in *.
  set (k := - ((- (p * n)) / 100)).
  assert (100 * (k - 1) < p * n ≤ 100 * k) as Hk.
  { unfold k. pose proof (Z.div_mod (- (p * n)) 100 ltac:(lia)). pose proof (Z.mod_pos_bound (- (p * n)) 100 ltac:(lia)). lia. }
  assert (Z.log2 (m * n) ≤ 52 + 32) as Hl.
  { apply Z.lt_succ_r, Z.log2_lt_pow2; [nia|]. change (2 ^ Z.succ (52 + 32)) with (9007199254740992 * 4294967296). nia. }
  destruct (round53_above (m * n) 32 (k * 2097152) ltac:(nia) Hl ltac:(lia)) as [Hlo Hhi].
  change (2 ^ 32) with 4294967296 in *.
  assert (m * n ≤ k * 2097152 * 4294967296) as Hle by nia. specialize (Hhi Hle).
  assert ((k - 1) * 9007199254740992 < round53 (m * n) ≤ k * 9007199254740992) as [H1 H2] by (split; nia).
  assert ((- round53 (m * n)) / 9007199254740992 = - k) as ->; [|lia].
  symmetry. apply (Z.div_unique_pos _ _ _ (k * 9007199254740992 - round53 (m * n))); lia.
Qed.

(** ** What the summary says of the samples *)
Section summary.
Context {F : Type} (fle : relation F) `{!RelDecision fle, !Total fle, !Reflexive fle, !Transitive fle, !AntiSymm eq fle}.
Context (zero : F) (add : F → F → F) (div_count : F → nat → F).
Abbreviation Percentiles := (Percentiles fle zero add div_count).

Lemma filter_true {A} (P : A → Prop) `{∀ x, Decision (P x)} l : Forall P l → filter P l = l.
Proof. induction 1 as [|x l Hx _ IH]; [done|]. by rewrite filter_cons_True, IH. Qed.
Lemma filter_false {A} (P : A → Prop) `{∀ x, Decision (P x)} l : Forall (λ x, ¬ P x) l → filter P l = [].
Proof. induction 1 as [|x l Hx _ IH]; [done|]. by rewrite filter_cons_False, IH. Qed.

(** How many samples are at most, or below, a value *)
Definition at_most (x : F) (l : list F) : nat := length (filter (λ y, fle y x) l).
Definition below (x : F) (l : list F) : nat := length (filter (λ y, ¬ fle x y) l).

(** At least [p] percent of the samples are at most [x], and fewer are below. *)
Record is_percentile (p : Z) (x : F) (l : list F) : Prop := {
  ip_elem : x ∈ l;
  ip_covers : p * Z.of_nat (length l) ≤ 100 * Z.of_nat (at_most x l);
  ip_least : 100 * Z.of_nat (below x l) < p * Z.of_nat (length l) }.

Lemma at_most_perm x l l' : l ≡ₚ l' → at_most x l = at_most x l'.
Proof. intros H. unfold at_most. by rewrite H. Qed.
Lemma below_perm x l l' : l ≡ₚ l' → below x l = below x l'.
Proof. intros H. unfold below. by rewrite H. Qed.
Lemma is_percentile_perm p x l l' : l ≡ₚ l' → is_percentile p x l → is_percentile p x l'.
Proof.
  intros Hp [He Hc Hl]. split.
  - by rewrite <- Hp.
  - by rewrite <- (at_most_perm _ _ _ Hp), <- Hp.
  - by rewrite <- (below_perm _ _ _ Hp), <- Hp.
Qed.

Lemma sorted_lookup l i j x y : StronglySorted fle l → l !! i = Some x → l !! j = Some y → (i ≤ j)%nat → fle x y.
Proof.
  intros Hs. revert i j. induction Hs as [|z l Hs IH Hz]; intros i j Hi Hj Hij; [done|].
  destruct i as [|i], j as [|j]; simplify_eq/=; [done| |lia|].
  - eapply (proj1 (Forall_forall _ _) Hz). by eapply list_elem_of_lookup_2.
  - apply (IH i j); [done..|lia].
Qed.

(** In a sorted list the value at rank [r] has [r] samples up to it, and fewer
    than [r] below. *)
Lemma rank_counts l r x : StronglySorted fle l → l !! r = Some x →
  (S r ≤ at_most x l)%nat ∧ (below x l ≤ r)%nat.
Proof.
  intros Hs Hx. assert (S r ≤ length l)%nat as Hlen by (apply lookup_lt_Some in Hx; lia). split.
  - unfold at_most. rewrite <- (take_drop (S r) l), filter_app, length_app, (filter_true _ (take _ _)).
    + rewrite length_take_le by done. lia.
    + apply Forall_forall. intros y (i & Hy)%list_elem_of_lookup.
      apply lookup_take_Some in Hy as [Hy Hi]. apply (sorted_lookup l i r); [done..|lia].
  - unfold below. rewrite <- (take_drop r l), filter_app, length_app, (filter_false _ (drop _ _)).
    + pose proof (length_filter (λ y, ¬ fle x y) (take r l)) as Hf. rewrite length_take in Hf. cbn [length]. lia.
    + apply Forall_forall. intros y (i & Hy)%list_elem_of_lookup Hn. rewrite lookup_drop in Hy.
      apply Hn, (sorted_lookup l r (r + i)); [done..|lia].
Qed.

Lemma nearestRank_sorted p l : p ∈ asked → StronglySorted fle l → 0 < Z.of_nat (length l) ≤ max_samples →
  ∃ i, nearestRank zero l p = default zero (l !! i) ∧ (i < length l)%nat ∧ i = Z.to_nat (- ((- (p * Z.of_nat (length l))) / 100) - 1)
    ∧ is_percentile p (nearestRank zero l p) l.
Proof.
  intros Hp Hs Hn. set (n := Z.of_nat (length l)) in *.
  assert (1 ≤ p ≤ 100) as Hp1 by (unfold asked in Hp; set_solver by lia).
  set (k := - ((- (p * n)) / 100)). assert (100 * (k - 1) < p * n ≤ 100 * k) as Hk.
  { unfold k. pose proof (Z.div_mod (- (p * n)) 100 ltac:(lia)). pose proof (Z.mod_pos_bound (- (p * n)) 100 ltac:(lia)). lia. }
  assert (1 ≤ k ≤ n) as Hkn by nia.
  assert (nearestRank zero l p = default zero (l !! Z.to_nat (k - 1))) as Hr.
  { unfold nearestRank. fold n. rewrite (proj2 (Z.eqb_neq n 0)), (ceil_rank_exact p n Hp Hn) by lia. fold k.
    rewrite (proj2 (Z.ltb_ge k 1)) by lia. rewrite Z.gtb_ltb, (proj2 (Z.ltb_ge n k)) by lia. done. }
  exists (Z.to_nat (k - 1)). split_and!; [done|lia|done|].
  destruct (lookup_lt_is_Some_2 l (Z.to_nat (k - 1))) as [x Hx]; [lia|].
  rewrite Hr, Hx. change (default zero (Some x)) with x. destruct (rank_counts l _ x Hs Hx) as [Hge Hlt].
  split; [by eapply list_elem_of_lookup_2| |]; fold n; lia.
Qed.

(** C39: The summary is what its comment says, exactly, although the ranks are
    computed in floating point: for up to two billion samples each of the three
    percentiles is one of the samples, at least that share of the samples is at
    most it and a smaller share is below it; they ascend between the minimum and
    the maximum; and the order of the samples does not matter. *)
Theorem percentiles_nearest_rank (samples samples' : list F) :
  samples ≠ [] → Z.of_nat (length samples) ≤ max_samples →
  let s := Percentiles samples in
  Count s = length samples ∧ is_percentile 50 (P50 s) samples ∧ is_percentile 95 (P95 s) samples
  ∧ is_percentile 99 (P99 s) samples
  ∧ fle (Min s) (P50 s) ∧ fle (P50 s) (P95 s) ∧ fle (P95 s) (P99 s) ∧ fle (P99 s) (Max s)
  ∧ Forall (λ x, fle (Min s) x ∧ fle x (Max s)) samples
  ∧ (samples' ≡ₚ samples → Percentiles samples' = s).
Proof.
  intros Hne Hmax s. set (l := merge_sort fle samples).
  assert (l ≡ₚ samples) as Hperm by apply merge_sort_Permutation.
  assert (StronglySorted fle l) as Hs by (apply StronglySorted_merge_sort; apply _).
  assert (length l = length samples) as Hlen by by rewrite Hperm.
  assert (0 < length samples)%nat as Hpos by (destruct samples; [done|cbn; lia]).
  assert (∀ p, p ∈ asked → _) as Hrank by exact (λ p Hp, nearestRank_sorted p l Hp Hs ltac:(lia)).
  destruct (Hrank 50) as (i50 & E50 & L50 & V50 & Q50); [unfold asked; set_solver|].
  destruct (Hrank 95) as (i95 & E95 & L95 & V95 & Q95); [unfold asked; set_solver|].
  destruct (Hrank 99) as (i99 & E99 & L99 & V99 & Q99); [unfold asked; set_solver|]. clear Hrank.
  assert (s = mkStats (length samples) (default zero (l !! 0%nat)) (nearestRank zero l 50) (nearestRank zero l 95)
    (nearestRank zero l 99) (default zero (l !! (length samples - 1)%nat)) (div_count (foldl add zero l) (length samples))) as Hd.
  { unfold s, Percentiles.Percentiles. fold l. by destruct samples. }
  assert (∀ i j, (i ≤ j < length l)%nat → fle (default zero (l !! i)) (default zero (l !! j))) as Hmono.
  { intros i j Hij. destruct (lookup_lt_is_Some_2 l i) as [x Hx]; [lia|]. destruct (lookup_lt_is_Some_2 l j) as [y Hy]; [lia|].
    rewrite Hx, Hy. cbn. apply (sorted_lookup l i j); [done..|lia]. }
  assert (∀ p q n, p ≤ q → 0 ≤ n → (Z.to_nat (- (- (p * n) / 100) - 1) ≤ Z.to_nat (- (- (q * n) / 100) - 1))%nat) as Hrk.
  { intros p q n Hpq Hn. assert (- (q * n) / 100 ≤ - (p * n) / 100); [apply Z.div_le_mono; nia|lia]. }
  rewrite Hd. cbn [Count P50 P95 P99 Min Max]. split_and!; [done|by eapply is_percentile_perm..| | | | | |].
  - rewrite E50. apply Hmono. lia.
  - rewrite E50, E95. apply Hmono. split; [|done]. subst i50 i95. apply Hrk; lia.
  - rewrite E95, E99. apply Hmono. split; [|done]. subst i95 i99. apply Hrk; lia.
  - rewrite E99. apply Hmono. lia.
  - rewrite <- Hperm. apply Forall_forall. intros x (i & Hx)%list_elem_of_lookup.
    pose proof (lookup_lt_Some _ _ _ Hx). assert (x = default zero (l !! i)) as -> by by rewrite Hx.
    split; apply Hmono; lia.
  - intros Hp. rewrite <- Hd. unfold s, Percentiles.Percentiles.
    assert (merge_sort fle samples' = merge_sort fle samples) as ->.
    { apply (StronglySorted_unique fle); [by (apply StronglySorted_merge_sort; apply _)..|].
      by rewrite !merge_sort_Permutation. }
    apply Permutation_length in Hp. destruct samples, samples'; [done..|]. by rewrite Hp.
Qed.
End summary.

(** Three samples, out of order *)
Lemma percentiles_nearest_rank_witness :
  let s := Percentiles Z.le 0 Z.add (λ x n, x / Z.of_nat n) [3; 1; 2] in
  (P50 s, P95 s, P99 s) = (2, 3, 3) ∧ is_percentile Z.le 50 2 [3; 1; 2].
Proof.
  destruct (percentiles_nearest_rank Z.le 0 Z.add (λ x n, x / Z.of_nat n) [3; 1; 2] [3; 1; 2]) as (_ & H & _).
  - discriminate.
  - unfold max_samples. cbn. lia.
  - split; [vm_compute; reflexivity|exact H].
Defined.
