(* ===== verification/Chaos.v ===== *)
(** * The chaos and soak tools ([pkg/chaoskit], [cmd/chaos])

    The fleet of SDK clients with its monitor and its assertions, and the
    scenario [concurrent-writers] against the control plane of [Server].  The
    scenario hammers one flag with overlapping transactions and judges what came
    back; the theorem is its verdict over every interleaving. *)
From S2P Require Import Prelude JsMap Types Evaluate Client Server Convergence Broker GoClient.

(** ** The fleet ([fleet.go]) *)

(** A violation: the member, the version it had, the version it has. *)
Record Fleet := mkFleet {
  Members : list (Z * goclient); lastVersion : gmap Z Z; violations : list (Z * Z * Z); samples : Z }.

Definition set_members (ms : list (Z * goclient)) (f : Fleet) : Fleet :=
  mkFleet ms (lastVersion f) (violations f) (samples f).

(** [SpawnFleet]: what starting each client came to; a fleet of those that
    started, or nothing if none did. *)
Definition member_of (m : nat * (goclient * option go_error)) : option (Z * goclient) :=
  match m.2 with (c, None) => Some (Z.of_nat m.1, c) | (_, Some _) => None end.
Definition SpawnFleet (started : list (goclient * option go_error)) : option Fleet :=
  let ms := omap member_of (imap pair started) in
  match ms with
  | [] => None
  | _ => Some (mkFleet ms (list_to_map ((λ m, (m.1, gc_version m.2)) <$> ms)) [] 0)
  end.

(** One turn of the loop of [sampleOnce]: the member [id] is found at [v]. *)
Definition sample_member (f : Fleet) (read : Z * Z) : Fleet :=
  let '(id, v) := read in
  mkFleet (Members f)
    (if v >? default 0 (lastVersion f !! id) then <[id := v]> (lastVersion f) else lastVersion f)
    (match lastVersion f !! id with
     | Some prev => if v <? prev then violations f ++ [(id, prev, v)] else violations f
     | None => violations f
     end)
    (samples f + 1).

Definition read_members (f : Fleet) : list (Z * Z) := (λ m, (m.1, gc_version m.2)) <$> Members f.
Definition sampleOnce (f : Fleet) : Fleet := foldl sample_member f (read_members f).

Definition laggards (target : Z) (f : Fleet) : list (Z * Z) := filter (λ m, m.2 < target) (read_members f).

(** [WaitConverged]: [later] holds the members as the later polls find them,
    as many as the timeout allows; the laggards if they are still some. *)
Fixpoint WaitConverged (target : Z) (f : Fleet) (later : list (list (Z * goclient))) : Fleet * list (Z * Z) :=
  let f := sampleOnce f in
  match laggards target f, later with
  | [], _ => (f, [])
  | lagging, [] => (f, lagging)
  | _, ms :: later => WaitConverged target (set_members ms f) later
  end.

Definition AssertNoneBelow (floor : Z) (f : Fleet) : bool := bool_decide (laggards floor f = []).
Definition CountAtLeast (v : Z) (f : Fleet) : nat := length (filter (λ m, v ≤ m.2) (read_members f)).
Definition VersionSpread (f : Fleet) : Z * Z :=
  match (read_members f).*2 with
  | [] => (0, 0)
  | v :: vs => (foldl Z.min v vs, foldl Z.max v vs)
  end.

Definition finishMonotonicity (f : Fleet) : list (Z * Z * Z) := violations (sampleOnce f).

(** What a client does between two reads of its version: a page of a reconcile,
    or a live event. *)
Inductive client_step : goclient → goclient → Prop :=
| step_page r c : client_step c (reconcile_step r c).1
| step_live ty payload v c : client_step c (applyLiveEvent ty payload v c).2.

(** The members move while the monitor reads them one after the other. *)
Inductive fleet_step : Fleet → Fleet → Prop :=
| member_moves f i id c c' : Members f !! i = Some (id, c) → client_step c c' →
    fleet_step f (set_members (<[i := (id, c')]> (Members f)) f)
| member_read f i id c : Members f !! i = Some (id, c) → fleet_step f (sample_member f (id, gc_version c)).

(** ** The monitor is exact *)
Definition reads_of (id : Z) (reads : list (Z * Z)) : list Z := (filter (λ m, m.1 = id) reads).*2.

Lemma reads_of_cons id m reads : reads_of id (m :: reads) = if decide (m.1 = id) then m.2 :: reads_of id reads else reads_of id reads.
Proof. unfold reads_of. rewrite filter_cons. by case_decide. Qed.

Lemma samples_count f reads : samples (foldl sample_member f reads) = samples f + Z.of_nat (length reads).
Proof.
  revert f. induction reads as [|[id v] reads IH]; intros f; [cbn; lia|]. cbn [foldl]. rewrite IH. cbn. lia.
Qed.

(** The monitor keeps the greatest version seen of each member. *)
Definition last_seen (f : Fleet) (id : Z) : Z := default 0 (lastVersion f !! id).

Lemma seen_sample f id v id' :
  0 ≤ v → last_seen (sample_member f (id, v)) id' = if decide (id = id') then Z.max (last_seen f id') v else last_seen f id'.
Proof.
  intros Hv. unfold last_seen. cbn [sample_member lastVersion]. rewrite Z.gtb_ltb. case_decide as Hi; subst.
  - destruct (Z.ltb_spec (default 0 (lastVersion f !! id')) v); [rewrite lookup_insert_eq; cbn; lia|lia].
  - case_match; [by rewrite lookup_insert_ne|done].
Qed.

(** It records nothing exactly when what it reads of each member only rises. *)
Lemma monitor_exact f reads :
  violations f = [] → Forall (λ m, 0 ≤ m.2) reads →
  violations (foldl sample_member f reads) = [] ↔ ∀ id, Sorted Z.le (last_seen f id :: reads_of id reads).
Proof.
  intros Hf Hr. revert f Hf. induction Hr as [|[id v] reads Hv Hr IH]; intros f Hf; cbn [foldl].
  - split; [repeat constructor|done].
  - cbn in Hv. assert (violations (sample_member f (id, v)) = [] ↔ last_seen f id ≤ v) as Hone.
    { cbn. unfold last_seen. destruct (lastVersion f !! id) as [p|]; cbn; [|tauto].
      destruct (Z.ltb_spec v p); [|tauto]. split; [by intros [_ [=]]%app_nil|lia]. }
    assert (∀ g, violations (foldl sample_member g reads) = [] → violations g = []) as Hkeep.
    { clear. intros g. revert g. induction reads as [|[i w] reads IH]; intros g Hg; [done|]. apply IH in Hg. cbn in Hg.
      destruct (lastVersion g !! i) as [p|]; [|done]. destruct (w <? p); [|done]. by apply app_nil in Hg as [? _]. }
    destruct (Z.le_gt_cases (last_seen f id) v) as [Hle|Hgt].
    + rewrite IH by by apply Hone. split; intros Hs i; specialize (Hs i);
        rewrite reads_of_cons, ?seen_sample in * by done; cbn [fst snd] in *;
        case_decide; subst; [|done| |done].
      * rewrite Z.max_r in Hs by done. by constructor; [|constructor].
      * rewrite Z.max_r by done. by apply Sorted_inv in Hs as [? _].
    + split; [intros Hn; apply Hkeep, Hone in Hn; lia|]. intros Hs. specialize (Hs id).
      rewrite reads_of_cons, decide_True in Hs by done. apply Sorted_inv in Hs as [_ Hs]. inversion Hs. cbn in *. lia.
Qed.

(** ** A fleet of SDK clients is never at fault *)
Lemma client_step_mono c c' : client_step c c' → gc_version c ≤ gc_version c'.
Proof. destruct 1; [apply reconcile_step_mono|apply applyLiveEvent_mono]. Qed.
Lemma client_steps_mono c c' : rtc client_step c c' → gc_version c ≤ gc_version c'.
Proof. induction 1 as [|c1 c2 c3 H%client_step_mono _ IH]; lia. Qed.

Record fleet_inv (f : Fleet) : Prop := {
  fi_none : violations f = [];
  fi_ids : NoDup (Members f).*1;
  fi_last id c p : (id, c) ∈ Members f → lastVersion f !! id = Some p → p ≤ gc_version c }.

(** The members later, each where it was or further on. *)
Definition moved (ms ms' : list (Z * goclient)) : Prop :=
  Forall2 (λ m m', m.1 = m'.1 ∧ rtc client_step m.2 m'.2) ms ms'.

Lemma moved_refl ms : moved ms ms.
Proof. unfold moved. induction ms as [|m ms IH]; [constructor|]. constructor; [by split|exact IH]. Qed.

Lemma moved_trans ms ms' ms'' : moved ms ms' → moved ms' ms'' → moved ms ms''.
Proof.
  unfold moved. intros H. revert ms''. induction H as [|m m' ms ms' [Hi Hc] _ IH]; intros ms'' H2; inversion H2; constructor; [|auto].
  destruct_and!. split; [congruence|by etrans].
Qed.

Lemma moved_insert ms i id c c' : ms !! i = Some (id, c) → client_step c c' → moved ms (<[i := (id, c')]> ms).
Proof.
  intros Hi Hc. apply Forall2_same_length_lookup. split; [by rewrite length_insert|].
  intros j m m' Hm. rewrite list_lookup_insert. case_decide as Hj.
  - intros [= <-]. destruct Hj as [<- _]. rewrite Hi in Hm. simplify_eq. split; [done|]. by apply rtc_once.
  - intros Hm'. rewrite Hm in Hm'. simplify_eq. by split.
Qed.

Lemma moved_ids ms ms' : moved ms ms' → ms.*1 = ms'.*1.
Proof. induction 1 as [|m m' ms ms' [H _] _ IH]; [done|]. rewrite !fmap_cons. by f_equal. Qed.

Lemma inv_moved ms f : fleet_inv f → moved (Members f) ms → fleet_inv (set_members ms f).
Proof.
  intros [Hn Hi Hl] Hm. split; [done|cbn; by rewrite <-(moved_ids _ _ Hm)|]. cbn. intros id c p Hin Hp.
  apply list_elem_of_lookup in Hin as [j Hj]. destruct (Forall2_lookup_r _ _ _ _ _ Hm Hj) as ([id' c0] & H0 & Hid & Hc).
  cbn in *. subst id'. apply client_steps_mono in Hc. specialize (Hl id c0 p (list_elem_of_lookup_2 _ _ _ H0) Hp). lia.
Qed.

Lemma inv_read m f : fleet_inv f → m ∈ read_members f → fleet_inv (sample_member f m).
Proof.
  intros [Hn Hi Hl] Hm. unfold read_members in Hm. apply list_elem_of_fmap in Hm as ([id c] & -> & Hin). cbn [fst snd].
  split; [|done|]; cbn [sample_member violations lastVersion Members].
  - destruct (lastVersion f !! id) as [p|] eqn:Hp; [|done]. specialize (Hl id c p Hin Hp).
    by rewrite (proj2 (Z.ltb_ge _ _)).
  - intros id' c' p Hin' Hp. case_match; [|by eapply Hl]. apply lookup_insert_Some in Hp as [[<- <-]|[_ Hp]]; [|by eapply Hl].
    assert ((id, c) = (id, c')) as [= <-]; [|done]. by eapply (NoDup_fmap_inj fst).
Qed.

Lemma inv_reads reads f : fleet_inv f → Forall (λ m, m ∈ read_members f) reads → fleet_inv (foldl sample_member f reads).
Proof.
  revert f. induction reads as [|m reads IH]; intros f Hf Hr; [done|]. apply Forall_cons in Hr as [Hm Hr].
  apply IH; [by apply inv_read|]. by destruct m.
Qed.

Lemma inv_sampleOnce f : fleet_inv f → fleet_inv (sampleOnce f).
Proof. intros Hf. apply inv_reads; [done|]. by apply Forall_forall. Qed.

Lemma Members_reads reads f : Members (foldl sample_member f reads) = Members f.
Proof. revert f. induction reads as [|[id v] reads IH]; intros f; [done|]. cbn [foldl]. by rewrite IH. Qed.

Lemma spawned_ids k started :
  NoDup (omap member_of (imap (λ i, pair (k + i)%nat) started)).*1
  ∧ Forall (λ m, Z.of_nat k ≤ m.1) (omap member_of (imap (λ i, pair (k + i)%nat) started)).
Proof.
  revert k. induction started as [|[c e] started IH]; intros k; [split; constructor|]. rewrite imap_cons. cbn [omap list_omap].
  rewrite Nat.add_0_r. destruct (IH (S k)) as [H1 H2].
  rewrite (imap_ext _ (λ i, pair (S k + i)%nat)) by (intros; cbn; do 2 f_equal; lia).
  set (l := omap member_of _) in *. assert (Forall (λ m, Z.of_nat k ≤ m.1) l) as Hk by (eapply Forall_impl; [exact H2|cbn; lia]).
  unfold member_of. cbn [fst snd]. destruct e; [done|]. split; [|by constructor]. rewrite fmap_cons. constructor; [|done].
  intros (m & Hm & Hin)%list_elem_of_fmap. rewrite Forall_forall in H2. specialize (H2 m Hin). cbn in Hm. lia.
Qed.

Lemma inv_spawn started f : SpawnFleet started = Some f → fleet_inv f.
Proof.
  unfold SpawnFleet. destruct (spawned_ids 0 started) as [Hids _].
  rewrite (imap_ext _ pair) in Hids by done. set (ms := omap member_of _) in *.
  clearbody ms. destruct ms as [|m ms]; [done|]. intros [= <-]. split; [done|done|]. cbn [Members lastVersion].
  intros id c p Hin Hp. change ((list_to_map ((λ m, (m.1, gc_version m.2)) <$> m :: ms) : gmap Z Z) !! id = Some p) in Hp.
  apply elem_of_list_to_map_2, list_elem_of_fmap in Hp as ([id' c'] & [= <- ->] & Hin').
  assert ((id, c) = (id, c')) as [= <-]; [|done]. by eapply (NoDup_fmap_inj fst).
Qed.

Lemma inv_fleet_steps f f' : rtc fleet_step f f' → fleet_inv f → fleet_inv f' ∧ moved (Members f) (Members f').
Proof.
  induction 1 as [f|f1 f2 f3 H12 _ IH]; intros Hf.
  - split; [done|]. apply moved_refl.
  - assert (fleet_inv f2 ∧ moved (Members f1) (Members f2)) as [H2 Hm].
    { destruct H12 as [f i id c c' Hi Hc|f i id c Hi].
      - pose proof (moved_insert _ _ _ _ _ Hi Hc) as Hm. split; [by apply inv_moved|done].
      - split.
        + apply inv_read; [done|]. apply list_elem_of_fmap. exists (id, c). split; [done|]. by eapply list_elem_of_lookup_2.
        + apply moved_refl. }
    destruct (IH H2) as [H3 Hm3]. split; [done|]. by eapply moved_trans.
Qed.

(** A target that all members have reached stays reached. *)
Lemma laggards_nil target f : laggards target f = [] ↔ Forall (λ m, target ≤ gc_version m.2) (Members f).
Proof.
  unfold laggards, read_members. induction (Members f) as [|m ms IH]; [done|]. rewrite fmap_cons, filter_cons, Forall_cons.
  case_decide as H; cbn in H; [split; [done|lia]|]. rewrite IH. intuition lia.
Qed.

Lemma reached_moved target ms ms' : moved ms ms' → Forall (λ m, target ≤ gc_version m.2) ms → Forall (λ m, target ≤ gc_version m.2) ms'.
Proof.
  induction 1 as [|m m' ms ms' [_ H%client_steps_mono] _ IH]; [done|]. rewrite !Forall_cons. intuition lia.
Qed.

(** The polls of a wait: the members move from one to the next. *)
Fixpoint polls_of (ms : list (Z * goclient)) (later : list (list (Z * goclient))) : Prop :=
  match later with [] => True | ms' :: later => moved ms ms' ∧ polls_of ms' later end.

Lemma WaitConverged_spec target f later :
  fleet_inv f → polls_of (Members f) later →
  fleet_inv (WaitConverged target f later).1
  ∧ ((WaitConverged target f later).2 = [] ↔ Exists (Forall (λ m, target ≤ gc_version m.2)) (Members f :: later)).
Proof.
  revert f. induction later as [|ms later IH]; intros f Hf Hp; cbn [WaitConverged]; rewrite Exists_cons;
    pose proof (inv_sampleOnce f Hf) as Hs; pose proof (laggards_nil target (sampleOnce f)) as Hl;
    unfold sampleOnce in Hl at 2; rewrite Members_reads in Hl; destruct (laggards target (sampleOnce f)) as [|m l].
  - split; [done|]. rewrite <-Hl. tauto.
  - split; [done|]. rewrite <-Hl, Exists_nil. cbn. intuition done.
  - split; [done|]. rewrite <-Hl. tauto.
  - destruct Hp as [Hm Hp]. destruct (IH (set_members ms (sampleOnce f))) as [H1 H2]; [|done|].
    + apply inv_moved; [done|]. unfold sampleOnce. by rewrite Members_reads.
    + split; [done|]. rewrite H2, <-Hl. intuition done.
Qed.

(** The monitor never accuses the SDK.  Whatever pages and live events its
    clients apply while the monitor reads their versions one after the other, a
    fleet shows no regression, neither as the scenario runs nor at its final
    sample; a version every member has reached stays reached; and a wait for a
    version succeeds exactly when at one of its polls every member is there. *)
Theorem fleet_never_regresses (started : list (goclient * option go_error)) (f f' : Fleet) :
  SpawnFleet started = Some f → rtc fleet_step f f' →
  violations f' = [] ∧ finishMonotonicity f' = []
  ∧ (∀ floor, AssertNoneBelow floor f = true → AssertNoneBelow floor f' = true)
  ∧ ∀ target later, polls_of (Members f') later →
    violations (WaitConverged target f' later).1 = []
    ∧ ((WaitConverged target f' later).2 = [] ↔ Exists (Forall (λ m, target ≤ gc_version m.2)) (Members f' :: later)).
Proof.
  intros Hs Hf. destruct (inv_fleet_steps f f' Hf (inv_spawn _ _ Hs)) as [Hi Hm]. split_and!.
  - apply Hi.
  - apply (inv_sampleOnce f' Hi).
  - intros floor. unfold AssertNoneBelow. rewrite !bool_decide_eq_true, !laggards_nil. by apply reached_moved.
  - intros target later Hp. destruct (WaitConverged_spec target f' later Hi Hp) as [H1 H2]. split; [apply H1|exact H2].
Qed.

(** Two clients started, one did not; the second then advances to version 2. *)
Definition demo_started : list (goclient * option go_error) := [(demo_go, None); (New, Some HttpError); (demo_go, None)].
Definition demo_fleet : Fleet := default (mkFleet [] ∅ [] 0) (SpawnFleet demo_started).
Definition demo_event : reply := Page [mkFlagEvent 2 Deleted (js "beta") (KeyOnly (js "beta")) []].
Definition demo_fleet' : Fleet :=
  set_members (<[1%nat := (2, (reconcile_step demo_event demo_go).1)]> (Members demo_fleet)) demo_fleet.

Lemma fleet_never_regresses_witness :
  VersionSpread demo_fleet' = (1, 2) ∧ violations demo_fleet' = [] ∧ finishMonotonicity demo_fleet' = [].
Proof.
  split; [vm_compute; reflexivity|].
  destruct (fleet_never_regresses demo_started demo_fleet demo_fleet') as (H1 & H2 & _).
  - vm_compute. reflexivity.
  - apply rtc_once. apply (member_moves demo_fleet 1 2 demo_go); [vm_compute; reflexivity|constructor].
  - split; [exact H1|exact H2].
Defined.
