(* ===== verification/Writers.v ===== *)
(** * The scenario concurrent-writers ([cmd/chaos/main.go])

    Writers hammer one flag, first with toggles, then with updates guarded by
    [If-Match], and the tool judges what came back and what the control plane
    holds.  The transactions are those of [Server]; a run is any sequence of
    their steps in which every call is answered, and the answers come in any
    order. *)
From S2P Require Import Prelude JsMap Types Evaluate Client Server Convergence Broker GoClient Chaos.

Section writers.
Context (fmt_time : Z → jstr).
Abbreviation cluster := Server.cluster.

(** What a call comes to: the status, and the version on success. *)
Record WriteResult := mkWriteResult { Status : Z; WriteVersion : Z }.

(** What the handlers answer when the statement and the commit are through. *)
Definition commit_status (r : result (option row)) : Z :=
  match r with
  | Ok (Some _) => 200
  | Ok None => 404
  | Err VersionConflict => 409
  | Err _ => 500
  end.
Definition committed (r : result (option row)) : Z :=
  match r with Ok (Some r) => fc_version (r_flag r) | _ => 0 end.

(** [Toggle] calls every answer but 200 an error, which [hammer]'s writer counts as -1. *)
Definition toggle_write (r : result (option row)) : WriteResult :=
  if commit_status r =? 200 then mkWriteResult 200 (committed r) else mkWriteResult (-1) 0.
(** [Update] hands the status on. *)
Definition update_write (r : result (option row)) : WriteResult := mkWriteResult (commit_status r) (committed r).

Definition write_answer (v now : Z) (w : write) (d : db) : WriteResult :=
  match w with
  | WToggle id => toggle_write (Toggle_commit fmt_time v now id d).1
  | WUpdate id req => update_write (Update_commit fmt_time v now id req d).1
  | _ => mkWriteResult (-1) 0
  end.

(** [flagByKey] on the list the admin API answers. *)
Definition GetFlagByKey (key : jstr) (d : db) : option FlagConfig :=
  r_flag <$> head (filter (λ r, r_key r = key) (List d)).

(** [EnsureFlag]: create the flag, or find it. *)
Definition ensure_input (flagKey : jstr) : CreateFlagInput :=
  mkCreateFlagInput flagKey (js "chaos experiment flag (safe to toggle)") true 50 [].
Definition EnsureFlag (now : Z) (id flagKey : jstr) (s : server) : option jstr * server :=
  let '(res, s) := handle_CreateFlag fmt_time now id (Some (ensure_input flagKey)) s in
  match rs_body res with
  | FlagBody f => if rs_status res =? 201 then (Some (fl_id f), s) else (None, s)
  | _ => if rs_status res =? 409 then (fc_id <$> GetFlagByKey flagKey (s_db s), s) else (None, s)
  end.

(** The update of phase 2, from the flag it read. *)
Definition contend (id : jstr) (cur : FlagConfig) : write :=
  WUpdate id (mkUpdateFlagRequest (mkUpdateFlagInput None (Some (negb (fc_enabled cur))) None None)
    (if fc_version cur >? 0 then Some (fc_version cur) else None)).

(** [hammer], as far as it got: the control plane, the flags the writers have
    read and not yet sent back, and the results in the order of the commits. *)
Record hammering := mkHammering { h_cluster : cluster; h_read : list FlagConfig; h_results : list WriteResult }.
Definition hammer_start (c : cluster) : hammering := mkHammering c [] [].

Inductive hammer_label := Flip | Look | Send (i : nat) | Done (i : nat) (now : Z).
Definition toggling (l : hammer_label) : Prop := match l with Flip | Done _ _ => True | _ => False end.
Definition contending (l : hammer_label) : Prop := match l with Flip => False | _ => True end.

Definition hammer_exec (key id : jstr) (l : hammer_label) (h : hammering) : option hammering :=
  match l with
  | Flip =>
      c ← tx_exec fmt_time (Begin (WToggle id)) (h_cluster h);
      Some (mkHammering c (h_read h) (h_results h))
  | Look =>
      Some match GetFlagByKey key (c_db (h_cluster h)) with
           | Some cur => mkHammering (h_cluster h) (h_read h ++ [cur]) (h_results h)
           | None => mkHammering (h_cluster h) (h_read h) (h_results h ++ [mkWriteResult (-1) 0])
           end
  | Send i =>
      cur ← h_read h !! i;
      c ← tx_exec fmt_time (Begin (contend id cur)) (h_cluster h);
      Some (mkHammering c (delete i (h_read h)) (h_results h))
  | Done i now =>
      t ← c_open (h_cluster h) !! i;
      c ← tx_exec fmt_time (Finish i now) (h_cluster h);
      Some (mkHammering c (h_read h) (h_results h ++ [write_answer t.1.1 now t.1.2 (c_db (h_cluster h))]))
  end.

Fixpoint hammer_run (key id : jstr) (ls : list hammer_label) (h : hammering) : option hammering :=
  match ls with [] => Some h | l :: ls => hammer_exec key id l h ≫= hammer_run key id ls end.

(** [wg.Wait] has returned: every writer has made all its calls. *)
Definition hammered (total : nat) (h : hammering) : Prop :=
  c_open (h_cluster h) = [] ∧ h_read h = [] ∧ length (h_results h) = total.

(** ** The checks *)
Definition successVersions (rs : list WriteResult) (okStatus : Z) : list Z :=
  merge_sort Z.le (WriteVersion <$> filter (λ r, Status r = okStatus) rs).
Definition countStatus (rs : list WriteResult) (want : Z) : nat := length (filter (λ r, Status r = want) rs).

Fixpoint assertStrictlyIncreasing (sorted : list Z) (floor : Z) : bool :=
  match sorted with
  | [] => true
  | v :: sorted => if v <=? floor then false else assertStrictlyIncreasing sorted v
  end.

(** One request, with the limit the server chooses. *)
Definition EventsSinceCount (since : Z) (flagKey : jstr) (d : db) : nat :=
  length (filter (λ e, flagKey = [] ∨ ev_flag_key e = flagKey) (ListEventsSince since 0 d)).

Inductive verdict :=
| Passed | TogglesLost (ok : nat) | NotIncreasing | EventsLost (expected found : nat)
| Unclean (other : nat) | FlagMissing | FinalVersion (flag latest : Z).

(** The judgements, on the results as they were gathered and the database after. *)
Definition judge1 (total : nat) (base : Z) (key : jstr) (rs : list WriteResult) (d : db) : verdict :=
  let ok := successVersions rs 200 in
  if negb (length ok =? total)%nat then TogglesLost (length ok)
  else if negb (assertStrictlyIncreasing ok base) then NotIncreasing
  else
    let events := EventsSinceCount base key d in
    if negb (events =? total)%nat then EventsLost total events else Passed.

Definition judge2 (base : Z) (key : jstr) (rs : list WriteResult) (d : db) : verdict :=
  let ok := successVersions rs 200 in
  let other := (length rs - length ok - countStatus rs 409)%nat in
  if negb (other =? 0)%nat then Unclean other
  else if negb (assertStrictlyIncreasing ok base) then NotIncreasing
  else
    let events := EventsSinceCount base key d in
    if negb (events =? length ok)%nat then EventsLost (length ok) events else Passed.

Definition judge_final (key : jstr) (d : db) : verdict :=
  match GetFlagByKey key d with
  | None => FlagMissing
  | Some f => if fc_version f =? GetLatestVersion d then Passed else FinalVersion (fc_version f) (GetLatestVersion d)
  end.

(** [concurrentWriters], up to the client's convergence: the database before,
    between and after the two phases, and what they gathered. *)
Definition concurrentWriters (total : nat) (key : jstr) (d d1 d2 : db) (rs1 rs2 : list WriteResult) : verdict :=
  match judge1 total (GetLatestVersion d) key rs1 d1 with
  | Passed =>
      match judge2 (GetLatestVersion d1) key rs2 d2 with
      | Passed => judge_final key d2
      | bad => bad
      end
  | bad => bad
  end.

(** The statuses are those of the handlers. *)
Lemma toggle_status now id s :
  rs_status (handle_ToggleFlag fmt_time now id s).1 = commit_status (Toggle fmt_time now id (s_db s)).1.
Proof.
  unfold handle_ToggleFlag, ToggleFlag, publish_result, Toggle, Toggle_commit, write_row. cbn [nextVersion].
  by destruct (GetByID _ _) as [r|]; [destruct (row_ok _)|].
Qed.
Lemma update_status now id u h s :
  bad_percentage u = false →
  rs_status (handle_UpdateFlag fmt_time now id (Some u) h s).1
  = commit_status (Update fmt_time now id (mkUpdateFlagRequest u (if_match_version h)) (s_db s)).1.
Proof.
  intros Hu. unfold handle_UpdateFlag, UpdateFlag, publish_result. cbn [ur_fields]. rewrite Hu. cbn [fst snd].
  by destruct (Update _ _ _ _ _) as [[[r|]|[]] d].
Qed.

(** The order in which the results are gathered does not matter. *)
Lemma successVersions_perm rs rs' st : rs ≡ₚ rs' → successVersions rs st = successVersions rs' st.
Proof.
  intros H. unfold successVersions. apply (StronglySorted_unique Z.le); [by (apply StronglySorted_merge_sort; apply _)..|].
  by rewrite !merge_sort_Permutation, H.
Qed.
Lemma countStatus_perm rs rs' st : rs ≡ₚ rs' → countStatus rs st = countStatus rs' st.
Proof. intros H. unfold countStatus. by rewrite H. Qed.
Lemma judge1_perm total base key rs rs' d : rs ≡ₚ rs' → judge1 total base key rs d = judge1 total base key rs' d.
Proof. intros H. unfold judge1. by rewrite (successVersions_perm _ _ _ H). Qed.
Lemma judge2_perm base key rs rs' d : rs ≡ₚ rs' → judge2 base key rs d = judge2 base key rs' d.
Proof. intros H. unfold judge2. by rewrite (successVersions_perm _ _ _ H), (countStatus_perm _ _ _ H), (Permutation_length H). Qed.

(** ** The table under overlapping writes *)
Record table_inv (d : db) : Prop := {
  ti_ids : NoDup ((λ r, r_id r) <$> rows d);
  ti_keys : NoDup ((λ r, r_key r) <$> rows d);
  ti_rows : Forall (λ r, row_ok (r_flag r) = true ∧ 0 < fc_version (r_flag r) ≤ seq d) (rows d) }.

Lemma table_write_row v now id f r d :
  table_inv d → 0 < v ≤ seq d → r ∈ rows d → r_id r = id →
  (∀ x, fc_id (f x) = fc_id x ∧ fc_key (f x) = fc_key x) → (∀ x, fc_version (f x) = v) →
  table_inv (write_row fmt_time v now id f r d).2.
Proof.
  intros [Hi Hk Hr] Hv Hin Hid Hf Hver. unfold write_row. destruct (row_ok _) eqn:Hok; [|by split]. simpl.
  destruct (set_row_fields id f now (rows d) Hf) as [Hids Hkeys].
  split; unfold appendEvent; cbn [rows seq]; rewrite ?Hids, ?Hkeys; [done..|].
  apply Forall_forall. unfold set_row. intros r' (r0 & -> & H0)%list_elem_of_fmap.
  rewrite Forall_forall in Hr. case_decide as Hid0; [|by apply Hr]. cbn. rewrite Hver.
  assert (r0 = r) as ->; [|done]. eapply NoDup_fmap_inj; [exact Hi|done..|]. simpl; congruence.
Qed.

Lemma table_finish v now w key d :
  table_inv d → 0 < v ≤ seq d → table_inv (finish fmt_time v now w key d).
Proof.
  intros Hd Hv. destruct w as [id i|id req|id|id]; cbn [finish].
  - unfold Create_commit. destruct (_ && _ && _) eqn:E; [|done]. boolify.
    repeat match goal with
    | H : GetByKey _ _ = None |- _ => apply GetByKey_None in H
    | H : GetByID _ _ = None |- _ => apply GetByID_None in H
    end. destruct Hd as [Hi Hk Hr]. split; cbn; rewrite ?fmap_app.
    + apply NoDup_app. split_and!; [done|set_solver|apply NoDup_singleton].
    + apply NoDup_app. split_and!; [done|set_solver|apply NoDup_singleton].
    + apply Forall_app. split; [done|]. by apply Forall_singleton.
  - unfold Update_commit. destruct (GetByID id d) as [r|] eqn:Hr; [|done]. destruct (version_differs _ _); [done|].
    apply GetByID_Some in Hr as [? ?]. by apply table_write_row.
  - unfold Toggle_commit. destruct (GetByID id d) as [r|] eqn:Hr; [|done].
    apply GetByID_Some in Hr as [? ?]. by apply table_write_row.
  - destruct Hd as [Hi Hk Hr]. split; cbn.
    + by apply NoDup_fmap_filter.
    + by apply NoDup_fmap_filter.
    + by apply Forall_filter_keep.
Qed.

Lemma table_seq d sq : table_inv d → seq d ≤ sq → table_inv (mkDb sq (rows d) (log d)).
Proof. intros [Hi Hk Hr] Hs. split; cbn; [done..|]. eapply Forall_impl; [exact Hr|]. cbn. intros r [? ?]. split; [done|lia]. Qed.

(** However transactions overlap, ids and keys stay unique and rows valid. *)
Lemma interleaved_table c : interleaved fmt_time c → table_inv (c_db c).
Proof.
  induction 1 as [|l c c' Hc IH Hl]; [split; constructor|].
  destruct (interleaved_inv fmt_time c Hc) as [_ Hb Hs]. destruct l as [w|i now]; cbn in Hl.
  - destruct (begin_key w (c_db c)); simplify_eq; [|done]. apply (table_seq _ (seq (c_db c) + 1)); [done|lia].
  - destruct (c_open c !! i) as [[[v w] key]|] eqn:Hi; simplify_eq/=. apply table_finish; [done|].
    rewrite Forall_app, Forall_fmap in Hb. destruct Hb as [_ Hb].
    rewrite Forall_fmap in Hb. exact (Forall_lookup_1 _ _ _ _ Hb Hi).
Qed.

Lemma GetFlagByKey_row key id d r : table_inv d → GetByID id d = Some r → r_key r = key → GetFlagByKey key d = Some (r_flag r).
Proof.
  intros [_ Hk _] [Hin _]%GetByID_Some Hr. unfold GetFlagByKey.
  assert (∀ x, x ∈ filter (λ r, r_key r = key) (List d) ↔ x = r) as Hx.
  { intros x. rewrite list_elem_of_filter. unfold List. rewrite merge_sort_Permutation. split; [|by intros ->].
    intros [Hxk Hxin]. eapply (NoDup_fmap_inj (λ r, r_key r)); [exact Hk|done..|]. cbn. congruence. }
  destruct (filter _ _) as [|x l].
  - exfalso. by apply (not_elem_of_nil r), Hx.
  - cbn. f_equal. f_equal. apply Hx. by left.
Qed.

Lemma GetByKey_Some key d r : GetByKey key d = Some r → r ∈ rows d ∧ r_key r = key.
Proof.
  unfold GetByKey. intros H%head_Some_elem_of. apply list_elem_of_filter in H as [? ?]. done.
Qed.

Lemma GetByID_row id d r : table_inv d → r ∈ rows d → r_id r = id → GetByID id d = Some r.
Proof.
  intros Hd Hr Hid. destruct (GetByID id d) as [r'|] eqn:H.
  - apply GetByID_Some in H as [Hr' Hid']. f_equal. eapply (NoDup_fmap_inj (λ r, r_id r)); [apply Hd|done..|]. cbn. congruence.
  - apply GetByID_None in H. exfalso. apply H, list_elem_of_fmap. eauto.
Qed.

(** It answers the id of the flag, whether it was there or not; asked again, the
    same, and nothing is written. *)
Lemma EnsureFlag_finds now id key s :
  table_inv (s_db s) → key_matches key = true → go_len key ≤ 64 → GetByID id (s_db s) = None →
  ∃ i s' r, EnsureFlag now id key s = (Some i, s') ∧ GetByID i (s_db s') = Some r ∧ r_key r = key
  ∧ ∀ r0, GetByKey key (s_db s) = Some r0 → i = r_id r0 ∧ s' = s.
Proof.
  intros Hd Hk Hl Hid. unfold EnsureFlag, handle_CreateFlag, CreateFlag, validate_create. cbn [ensure_input ci_key ci_rollout_percentage].
  assert (bool_decide (key = []) = false) as -> by (apply bool_decide_eq_false; intros ->; done).
  rewrite Z.gtb_ltb, (proj2 (Z.ltb_ge _ _)), Hk by done. cbn.
  destruct (GetByKey key (s_db s)) as [r0|] eqn:Hr0; cbn.
  - destruct (GetByKey_Some _ _ _ Hr0) as [Hin Hkey]. pose proof (GetByID_row _ _ r0 Hd Hin eq_refl) as Hr.
    rewrite (GetFlagByKey_row key _ _ r0 Hd Hr Hkey). cbn. do 3 eexists. split_and!; [done|exact Hr|done|]. by intros r [= <-].
  - unfold Create. cbn [nextVersion]. rewrite Create_commit_ok; [|cbn|done|done].
    + cbn. eexists _, _, (mkRow (created id (ensure_input key) (seq (s_db s) + 1)) now now). split_and!; [done| |done|done].
      unfold GetByID in *. cbn. rewrite filter_app. destruct (filter _ (rows (s_db s))); [|done]. cbn.
      by rewrite decide_True.
    + unfold row_ok. cbn [created fc_key fc_description fc_rollout_percentage ensure_input ci_key ci_description ci_rollout_percentage].
      rewrite (key_chars _ Hk), (proj2 (Z.leb_le _ _)) by done. vm_compute. reflexivity.
Qed.

(** ** One call *)

(** Between transactions of its own, the flag stays where it is. *)
Definition flag_at (id key : jstr) (d : db) (r : row) : Prop := GetByID id d = Some r ∧ r_key r = key ∧ row_ok (r_flag r) = true.

(** The two statements of the scenario *)
Definition hammers (id : jstr) (w : write) : Prop :=
  w = WToggle id ∨ ∃ b e, w = WUpdate id (mkUpdateFlagRequest (mkUpdateFlagInput None (Some b) None None) e).
(** A toggle, and an update that expects the row's version, goes through. *)
Definition matches (w : write) (r : row) : bool :=
  match w with WUpdate _ req => negb (version_differs (ur_expected req) (r_flag r)) | _ => true end.

Lemma call_outcome v now w id key k d r :
  flag_at id key d r → hammers id w →
  if matches w r then
    ∃ r' e, write_answer v now w d = mkWriteResult 200 v ∧ flag_at id key (finish fmt_time v now w k d) r'
    ∧ fc_version (r_flag r') = v ∧ ev_version e = v ∧ ev_flag_key e = key
    ∧ log (finish fmt_time v now w k d) = log d ++ [e] ∧ seq (finish fmt_time v now w k d) = seq d
  else write_answer v now w d = mkWriteResult 409 0 ∧ finish fmt_time v now w k d = d.
Proof.
  intros (Hr & Hk & Hok) Hw.
  assert (∀ f, (∀ x, fc_id (f x) = fc_id x ∧ fc_key (f x) = fc_key x) → fc_version (f (r_flag r)) = v → row_ok (f (r_flag r)) = true →
    let wr := write_row fmt_time v now id f r d in
    ∃ r' e, wr.1 = Ok (Some r') ∧ flag_at id key wr.2 r' ∧ fc_version (r_flag r') = v ∧ ev_version e = v ∧ ev_flag_key e = key
    ∧ log wr.2 = log d ++ [e] ∧ seq wr.2 = seq d) as Hgo.
  { intros f Hf Hv Hokf. unfold write_row. rewrite Hokf. cbn.
    eexists _, (mkFlagEvent v Updated (r_key r) (FullFlag (f (r_flag r))) (fmt_time now)). split; [reflexivity|]. split; [|by split_and!].
    split_and!; [by apply GetByID_set_row| |done]. cbn. by destruct (Hf (r_flag r)) as [_ ->]. }
  destruct Hw as [->|(b & e & ->)]; cbn [matches write_answer finish].
  - unfold Toggle_commit. rewrite Hr. destruct (Hgo (flip_enabled v)) as (r' & ev & H1 & ?); [done..|].
    exists r', ev. rewrite H1. destruct_and!. split; [|by split_and!]. unfold toggle_write. cbn. congruence.
  - unfold Update_commit. rewrite Hr. cbn [ur_expected ur_fields]. destruct (version_differs e (r_flag r)); cbn [negb]; [done|].
    destruct (Hgo (set_fields v (mkUpdateFlagInput None (Some b) None None))) as (r' & ev & H1 & ?); [done..|].
    exists r', ev. rewrite H1. destruct_and!. split; [|by split_and!]. unfold update_write. cbn. congruence.
Qed.

(** ** A phase *)
Definition successes (rs : list WriteResult) : list Z := WriteVersion <$> filter (λ r, Status r = 200) rs.
Lemma successes_snoc rs r : successes (rs ++ [r]) = successes rs ++ (if decide (Status r = 200) then [WriteVersion r] else []).
Proof. unfold successes. rewrite filter_app, fmap_app, filter_cons, filter_nil. by case_decide. Qed.

Section phase.
Context (c0 : cluster) (id key : jstr).

(** The events of the phase are the successful writes, in the order of both. *)
Record calls_inv (h : hammering) : Prop := {
  hv_run : interleaved fmt_time (h_cluster h);
  hv_row : ∃ r, flag_at id key (c_db (h_cluster h)) r;
  hv_log : ∃ evs, log (c_db (h_cluster h)) = log (c_db c0) ++ evs ∧ ev_version <$> evs = successes (h_results h)
             ∧ Forall (λ e, ev_flag_key e = key ∧ seq (c_db c0) < ev_version e) evs;
  hv_open : Forall (λ t, seq (c_db c0) < t.1.1 ∧ hammers id t.1.2) (c_open (h_cluster h));
  hv_seq : seq (c_db c0) ≤ seq (c_db (h_cluster h));
  hv_res : Forall (λ r, Status r = 200 ∨ Status r = 409) (h_results h) }.

Lemma calls_begin w c rd rs c' :
  hammers id w → begin_key w (c_db c) = Some [] → tx_exec fmt_time (Begin w) c = Some c' →
  calls_inv (mkHammering c rd rs) →
  c' = mkCluster (mkDb (seq (c_db c) + 1) (rows (c_db c)) (log (c_db c))) (c_open c ++ [(seq (c_db c) + 1, w, [])])
  ∧ ∀ rd', calls_inv (mkHammering c' rd' rs).
Proof.
  intros Hw Hk Hc [Hrun Hrow Hlog Hopen Hseq Hres]. cbn in Hrun, Hrow, Hlog, Hopen, Hseq, Hres.
  pose proof (interleaved_step fmt_time _ _ _ Hrun Hc) as Hrun'. cbn [tx_exec] in Hc. rewrite Hk in Hc.
  cbn in Hc. injection Hc as <-. split; [done|]. intros rd'. split; cbn.
  - exact Hrun'.
  - destruct Hrow as [r Hr]. by exists r.
  - done.
  - apply Forall_app. split; [done|]. apply Forall_singleton. cbn. split; [lia|done].
  - lia.
  - done.
Qed.

(** A call that returns, on both branches *)
Lemma calls_done i now h h' v w k r :
  hammer_exec key id (Done i now) h = Some h' → calls_inv h → c_open (h_cluster h) !! i = Some (v, w, k) →
  flag_at id key (c_db (h_cluster h)) r →
  let d := c_db (h_cluster h) in let d' := c_db (h_cluster h') in
  calls_inv h' ∧ h_read h' = h_read h ∧ c_open (h_cluster h') = delete i (c_open (h_cluster h)) ∧ seq d' = seq d
  ∧ if matches w r then
      h_results h' = h_results h ++ [mkWriteResult 200 v] ∧ ∃ r', flag_at id key d' r' ∧ fc_version (r_flag r') = v
    else h_results h' = h_results h ++ [mkWriteResult 409 0] ∧ flag_at id key d' r.
Proof.
  intros Hx [Hrun _ (evs & Hlog & Hev & Hkey) Hopen Hseq Hres] Hi Hr d d'. unfold d, d'. clear d d'.
  pose proof (Forall_lookup_1 _ _ _ _ Hopen Hi) as [Hv Hw]. cbn [fst snd] in Hv, Hw.
  cbn [hammer_exec] in Hx. rewrite Hi in Hx. cbn [mbind option_bind fst snd] in Hx.
  destruct (tx_exec fmt_time (Finish i now) (h_cluster h)) as [c'|] eqn:Hc; [|done]. cbn in Hx. injection Hx as <-.
  pose proof (interleaved_step fmt_time _ _ _ Hrun Hc) as Hrun'. cbn [tx_exec] in Hc. rewrite Hi in Hc. cbn in Hc. injection Hc as <-.
  pose proof (call_outcome v now w id key k _ r Hr Hw) as Hout. cbn [h_cluster h_read h_results c_db c_open] in *.
  assert (Forall (λ t, seq (c_db c0) < t.1.1 ∧ hammers id t.1.2) (delete i (c_open (h_cluster h)))) as Hopen'.
  { by apply Forall_delete. }
  destruct (matches w r).
  - destruct Hout as (r' & e & Ha & Hr' & Hver & He & Hek & Hl & Hs). rewrite Ha.
    split; [|split_and!; [done..|by exists r']]. split; cbn [h_cluster h_results c_db c_open].
    + done.
    + by exists r'.
    + exists (evs ++ [e]). rewrite Hl, Hlog, (assoc_L (++)), fmap_app, Hev, successes_snoc. cbn. rewrite He.
      split_and!; [done..|]. apply Forall_app. split; [done|]. apply Forall_singleton. split; [done|lia].
    + done.
    + lia.
    + apply Forall_app. split; [done|]. apply Forall_singleton. by left.
  - destruct Hout as [Ha Hd]. rewrite Ha, Hd in *. split; [|by split_and!]. split; cbn [h_cluster h_results c_db c_open]; rewrite ?Hd.
    + done.
    + by exists r.
    + exists evs. rewrite successes_snoc, app_nil_r. by split_and!.
    + done.
    + done.
    + apply Forall_app. split; [done|]. apply Forall_singleton. by right.
Qed.

Context (Hc0 : interleaved fmt_time c0) (Hquiet : c_open c0 = []) (r0 : row) (Hr0 : flag_at id key (c_db c0) r0).

Lemma calls_start : calls_inv (hammer_start c0).
Proof.
  split; cbn.
  - done.
  - by exists r0.
  - exists []. by rewrite app_nil_r.
  - by rewrite Hquiet.
  - done.
  - done.
Qed.

(** Phase 1: only toggles are open, and every result is a success. *)
Record toggles_inv (h : hammering) : Prop := {
  tg_calls : calls_inv h;
  tg_open : Forall (λ t, t.1.2 = WToggle id) (c_open (h_cluster h));
  tg_res : Forall (λ r, Status r = 200) (h_results h) }.

Lemma toggles_step l h h' : toggling l → hammer_exec key id l h = Some h' → toggles_inv h → toggles_inv h'.
Proof.
  intros Hl Hx [Hc Ho Hr]. destruct l as [| |i|i now]; [|done..|].
  - cbn [hammer_exec] in Hx. destruct (tx_exec _ _ _) as [c'|] eqn:Ht; [|done]. cbn in Hx. injection Hx as <-.
    destruct h as [c rd rs]. destruct (calls_begin (WToggle id) c rd rs c') as [-> Hi]; [by left|done..|].
    split; cbn; [apply Hi| |done]. apply Forall_app. split; [done|]. by apply Forall_singleton.
  - destruct (c_open (h_cluster h) !! i) as [[[v w] k]|] eqn:Hi; [|cbn in Hx; by rewrite Hi in Hx].
    destruct (hv_row h Hc) as [r Hrow]. pose proof (Forall_lookup_1 _ _ _ _ Ho Hi) as Hw. cbn in Hw. subst w.
    destruct (calls_done i now h h' v _ k r Hx Hc Hi Hrow) as (Hc' & _ & Ho' & _ & Hres & _).
    split; [done| |].
    + rewrite Ho'. by apply Forall_delete.
    + rewrite Hres. apply Forall_app. split; [done|]. by apply Forall_singleton.
Qed.

(** Phase 2: what a writer expects was the row's version before it took its own,
    and the row is at the highest version that went through. *)
Definition expects (v : Z) (w : write) : Prop := ∃ cur, w = contend id cur ∧ 0 < fc_version cur < v.
Record guarded_inv (h : hammering) : Prop := {
  gi_calls : calls_inv h;
  gi_read : Forall (λ cur, 0 < fc_version cur ≤ seq (c_db (h_cluster h))) (h_read h);
  gi_open : Forall (λ t, expects t.1.1 t.1.2) (c_open (h_cluster h));
  gi_top : ∃ r, flag_at id key (c_db (h_cluster h)) r ∧
    (h_results h = [] ∧ Forall (λ cur, fc_version cur = fc_version (r_flag r)) (h_read h)
       ∧ Forall (λ t, matches t.1.2 r = true) (c_open (h_cluster h))
     ∨ fc_version (r_flag r) ∈ successes (h_results h)
       ∧ Forall (λ v, v ≤ fc_version (r_flag r)) (successes (h_results h))) }.

Lemma matches_contend cur r : 0 < fc_version cur → matches (contend id cur) r = (fc_version cur =? fc_version (r_flag r)).
Proof.
  intros Hv. cbn. rewrite Z.gtb_ltb, (proj2 (Z.ltb_lt _ _)) by done. cbn. apply negb_involutive.
Qed.

Lemma guarded_look h h' : hammer_exec key id Look h = Some h' → guarded_inv h → guarded_inv h'.
Proof.
  intros Hx [Hc Hr Ho (r & Hrow & Htop)]. pose proof (interleaved_table _ (hv_run h Hc)) as Ht.
  destruct Hrow as (Hid & Hk & Hok). cbn [hammer_exec] in Hx. rewrite (GetFlagByKey_row key id _ r Ht Hid Hk) in Hx.
  injection Hx as <-. pose proof (GetByID_Some _ _ _ Hid) as [Hin _].
  pose proof (proj1 (Forall_forall _ _) (ti_rows _ Ht) r Hin) as [_ Hver].
  split; cbn [h_cluster h_read h_results].
  - destruct Hc as [? ? ? ? ? ?]. by split.
  - apply Forall_app. split; [done|]. by apply Forall_singleton.
  - done.
  - exists r. split; [done|]. destruct Htop as [(? & ? & ?)|?]; [left|by right]. split_and!; [done| |done].
    apply Forall_app. split; [done|]. by apply Forall_singleton.
Qed.

Lemma guarded_send i h h' : hammer_exec key id (Send i) h = Some h' → guarded_inv h → guarded_inv h'.
Proof.
  intros Hx [Hc Hr Ho (r & Hrow & Htop)]. cbn [hammer_exec] in Hx. destruct (h_read h !! i) as [cur|] eqn:Hi; [|done].
  cbn [mbind option_bind] in Hx. destruct (tx_exec _ _ _) as [c'|] eqn:Ht; [|done]. cbn in Hx. injection Hx as <-.
  pose proof (Forall_lookup_1 _ _ _ _ Hr Hi) as Hv. cbn in Hv. destruct h as [c rd rs]. cbn [h_cluster h_read h_results] in *.
  destruct (calls_begin (contend id cur) c rd rs c') as [-> Hc']; [right; by do 2 eexists|done..|].
  split; cbn [h_cluster h_read h_results c_db c_open seq].
  - apply Hc'.
  - apply Forall_delete. eapply Forall_impl; [exact Hr|]. cbn. lia.
  - apply Forall_app. split; [done|]. apply Forall_singleton. cbn. exists cur. split; [done|lia].
  - exists r. split; [done|]. destruct Htop as [(? & Hsame & Hm)|?]; [left|by right]. split_and!; [done|by apply Forall_delete|].
    apply Forall_app. split; [done|]. apply Forall_singleton. cbn [fst snd]. rewrite matches_contend by lia.
    apply Z.eqb_eq. exact (Forall_lookup_1 _ _ _ _ Hsame Hi).
Qed.

Lemma guarded_done i now h h' : hammer_exec key id (Done i now) h = Some h' → guarded_inv h → guarded_inv h'.
Proof.
  intros Hx [Hc Hr Ho (r & Hrow & Htop)].
  destruct (c_open (h_cluster h) !! i) as [[[v w] k]|] eqn:Hi; [|cbn in Hx; by rewrite Hi in Hx].
  pose proof (Forall_lookup_1 _ _ _ _ Ho Hi) as (cur & Hw & Hcur). cbn [fst snd] in Hw, Hcur.
  destruct (calls_done i now h h' v w k r Hx Hc Hi Hrow) as (Hc' & Hr' & Ho' & Hs & Hout).
  split; [done|by rewrite Hr', Hs|rewrite Ho'; by apply Forall_delete|].
  rewrite Hw, matches_contend in Hout by lia. destruct (Z.eqb_spec (fc_version cur) (fc_version (r_flag r))) as [He|He].
  - destruct Hout as (Hres & r' & Hrow' & Hver). exists r'. split; [done|]. right.
    rewrite Hres, successes_snoc, Hver. cbn. split; [apply elem_of_app; right; by left|].
    apply Forall_app. split; [|by apply Forall_singleton].
    destruct Htop as [(-> & _)|[_ Hle]]; [constructor|]. eapply Forall_impl; [exact Hle|]. cbn. lia.
  - destruct Hout as [Hres Hrow']. exists r. split; [done|]. right.
    destruct Htop as [(_ & _ & Hm)|Htop]; [|by rewrite Hres, successes_snoc, app_nil_r].
    pose proof (Forall_lookup_1 _ _ _ _ Hm Hi) as Hm'. cbn [fst snd] in Hm'. rewrite Hw, matches_contend in Hm' by lia.
    apply Z.eqb_eq in Hm'. done.
Qed.

Lemma guarded_step l h h' : contending l → hammer_exec key id l h = Some h' → guarded_inv h → guarded_inv h'.
Proof. destruct l; [done| | |]; intros _; [apply guarded_look|apply guarded_send|apply guarded_done]. Qed.

Lemma hammer_ind (P : hammering → Prop) (ok : hammer_label → Prop) ls h h' :
  (∀ l h h', ok l → hammer_exec key id l h = Some h' → P h → P h') →
  Forall ok ls → hammer_run key id ls h = Some h' → P h → P h'.
Proof.
  intros Hstep Hls. revert h. induction Hls as [|l ls Hl _ IH]; intros h Hx Hh; [by injection Hx as <-|].
  cbn [hammer_run] in Hx. destruct (hammer_exec key id l h) as [h1|] eqn:H1; [|done]. by eapply IH, Hstep.
Qed.

Lemma toggles_run ls h : Forall toggling ls → hammer_run key id ls (hammer_start c0) = Some h → toggles_inv h.
Proof.
  intros Hls Hx. eapply (hammer_ind toggles_inv); [apply toggles_step|done|done|].
  split; [apply calls_start|cbn; by rewrite Hquiet|constructor].
Qed.

Lemma guarded_run ls h : Forall contending ls → hammer_run key id ls (hammer_start c0) = Some h → guarded_inv h.
Proof.
  intros Hls Hx. eapply (hammer_ind guarded_inv); [apply guarded_step|done|done|].
  split; [apply calls_start|constructor|cbn; by rewrite Hquiet|].
  exists r0. split; [done|]. left. cbn. rewrite Hquiet. split_and!; constructor.
Qed.

(** *** What the checks see of a phase *)
Lemma base_bound : GetLatestVersion (c_db c0) ≤ seq (c_db c0).
Proof.
  destruct (interleaved_inv fmt_time c0 Hc0) as [_ Hb Hs]. rewrite Forall_app, Forall_fmap in Hb. destruct Hb as [Hb _].
  unfold GetLatestVersion. induction Hb as [|e l He _ IH]; cbn in *; lia.
Qed.

Lemma successes_fresh h : calls_inv h →
  NoDup (successes (h_results h)) ∧ Forall (λ v, seq (c_db c0) < v) (successes (h_results h)).
Proof.
  intros [Hrun _ (evs & Hlog & Hev & Hkey) _ _ _]. rewrite <-Hev. split.
  - pose proof (interleaved_log fmt_time _ Hrun) as Hn. rewrite Hlog, fmap_app in Hn. by apply NoDup_app in Hn as (_ & _ & ?).
  - apply Forall_fmap. eapply Forall_impl; [exact Hkey|]. cbn. tauto.
Qed.

Lemma increasing_sorted l floor :
  NoDup l → StronglySorted Z.le l → Forall (λ v, floor < v) l → assertStrictlyIncreasing l floor = true.
Proof.
  revert floor. induction l as [|v l IH]; intros floor Hn Hs Hf; [done|]. cbn.
  apply NoDup_cons in Hn as [Hv Hn]. apply StronglySorted_inv in Hs as [Hs Hle]. apply Forall_cons in Hf as [Hfv _].
  rewrite (proj2 (Z.leb_gt _ _)) by done. apply IH; [done..|]. rewrite Forall_forall in *. intros x Hx. specialize (Hle x Hx).
  assert (x ≠ v) by (by intros ->). lia.
Qed.

Lemma phase_increasing h : calls_inv h → assertStrictlyIncreasing (successVersions (h_results h) 200) (GetLatestVersion (c_db c0)) = true.
Proof.
  intros Hc. destruct (successes_fresh h Hc) as [Hn Hf]. unfold successVersions. fold (successes (h_results h)).
  apply increasing_sorted.
  - by rewrite merge_sort_Permutation.
  - apply StronglySorted_merge_sort; apply _.
  - rewrite merge_sort_Permutation. eapply Forall_impl; [exact Hf|]. cbn. pose proof base_bound. lia.
Qed.

(** One request finds one page. *)
Lemma phase_events h : calls_inv h →
  EventsSinceCount (GetLatestVersion (c_db c0)) key (c_db (h_cluster h)) = min 500 (length (successes (h_results h))).
Proof.
  intros [_ _ (evs & Hlog & Hev & Hkey) _ _ _]. unfold EventsSinceCount, ListEventsSince. rewrite Hlog, filter_app.
  rewrite (filter_none _ (log (c_db c0))); [|apply Forall_forall; intros e He; pose proof (GetLatestVersion_ub _ _ He); lia].
  pose proof base_bound. rewrite (filter_all _ evs) by (eapply Forall_impl; [exact Hkey|cbn; lia]). cbn [app].
  change (Z.to_nat (clamp_limit 500 1000 0)) with 500%nat. rewrite filter_all.
  - rewrite length_take, merge_sort_Permutation, <-Hev, length_fmap. done.
  - apply Forall_take. rewrite merge_sort_Permutation. eapply Forall_impl; [exact Hkey|]. cbn. tauto.
Qed.

Lemma length_successVersions h : length (successVersions (h_results h) 200) = length (successes (h_results h)).
Proof. unfold successVersions. by rewrite merge_sort_Permutation. Qed.

Lemma judge1_verdict total h : toggles_inv h → hammered total h →
  judge1 total (GetLatestVersion (c_db c0)) key (h_results h) (c_db (h_cluster h)) = (if decide (total ≤ 500)%nat then Passed else EventsLost total 500)
  ∧ ∃ evs, log (c_db (h_cluster h)) = log (c_db c0) ++ evs ∧ length evs = total.
Proof.
  intros [Hc _ Hres] (_ & _ & Hlen). assert (length (successes (h_results h)) = total) as Hs.
  { unfold successes. by rewrite length_fmap, filter_all. }
  split.
  - unfold judge1. rewrite length_successVersions, Hs, Nat.eqb_refl, (phase_increasing h Hc), (phase_events h Hc), Hs. cbn [negb].
    case_decide; [rewrite Nat.min_r by lia; by rewrite Nat.eqb_refl|].
    rewrite Nat.min_l by lia. by rewrite (proj2 (Nat.eqb_neq _ _)) by lia.
  - destruct Hc as [_ _ (evs & Hlog & Hev & _) _ _ _]. exists evs. split; [done|]. by rewrite <-Hs, <-Hev, length_fmap.
Qed.

Lemma judge2_verdict total h : guarded_inv h → hammered total h → (total ≤ 500)%nat →
  judge2 (GetLatestVersion (c_db c0)) key (h_results h) (c_db (h_cluster h)) = Passed.
Proof.
  intros [Hc _ _ _] (_ & _ & Hlen) Ht. unfold judge2. rewrite length_successVersions, (phase_increasing h Hc), (phase_events h Hc).
  assert (length (successes (h_results h)) + countStatus (h_results h) 409 = length (h_results h))%nat as Hsum.
  { unfold successes, countStatus. rewrite length_fmap. pose proof (hv_res h Hc) as Hres.
    clear -Hres. induction Hres as [|r rs Hr _ IH]; [done|]. rewrite !filter_cons. repeat case_decide; cbn [length]; lia. }
  rewrite (proj2 (Nat.eqb_eq _ 0)) by lia. cbn [negb]. rewrite Nat.min_r by lia. by rewrite Nat.eqb_refl.
Qed.

Lemma latest_is d m : m ∈ ev_version <$> log d → Forall (λ e, ev_version e ≤ m) (log d) → 0 ≤ m → GetLatestVersion d = m.
Proof.
  intros (e & -> & He)%list_elem_of_fmap Hle H0. pose proof (GetLatestVersion_ub d e He). cut (GetLatestVersion d ≤ ev_version e); [lia|].
  clear -Hle H0. unfold GetLatestVersion. induction Hle; cbn; lia.
Qed.

(** After phase 2 the row carries the latest version of all. *)
Lemma judge_final_passes total h : guarded_inv h → hammered total h → (0 < total)%nat → judge_final key (c_db (h_cluster h)) = Passed.
Proof.
  intros [Hc _ _ (r & Hrow & Htop)] (_ & _ & Hlen) Ht. destruct Htop as [[H _]|[Hin Hle]]; [rewrite H in Hlen; cbn in Hlen; lia|].
  destruct (successes_fresh h Hc) as [_ Hf]. destruct Hc as [Hrun _ (evs & Hlog & Hev & _) _ _ _].
  unfold judge_final. destruct Hrow as (Hid & Hk & _). rewrite (GetFlagByKey_row key id _ r (interleaved_table _ Hrun) Hid Hk).
  destruct (interleaved_inv fmt_time c0 Hc0) as [_ Hb Hs]. rewrite Forall_app, Forall_fmap in Hb. destruct Hb as [Hb _].
  pose proof (proj1 (Forall_forall _ _) Hf _ Hin) as Hr. cbn in Hr.
  rewrite (latest_is _ (fc_version (r_flag r))); [by rewrite Z.eqb_refl| | |lia].
  - rewrite Hlog, fmap_app, Hev. apply elem_of_app. by right.
  - rewrite Hlog. apply Forall_app. split; [eapply Forall_impl; [exact Hb|cbn; lia]|]. rewrite <-Hev, Forall_fmap in Hle. done.
Qed.
End phase.

(** C33: The verdict of concurrent-writers, over every interleaving.  On a quiet
    cluster that has the flag, with writers that make up to 500 calls a phase and
    at least one, the scenario passes whatever order the transactions take their
    versions, commit and answer in: no toggle conflicts, every guarded update is
    committed or refused, one event each, strictly ascending versions, and the row
    ends at the latest version.  Beyond 500 calls it accuses the server of lost
    updates although every toggle is in the log: the count is of one page. *)
Theorem concurrent_writers_verdict (c : cluster) (id key : jstr) (r : row) (total : nat)
    (ls1 ls2 : list hammer_label) (h1 h2 : hammering) (rs1 rs2 : list WriteResult) :
  interleaved fmt_time c → c_open c = [] → GetByID id (c_db c) = Some r → r_key r = key → (0 < total)%nat →
  Forall toggling ls1 → hammer_run key id ls1 (hammer_start c) = Some h1 → hammered total h1 →
  Forall contending ls2 → hammer_run key id ls2 (hammer_start (h_cluster h1)) = Some h2 → hammered total h2 →
  rs1 ≡ₚ h_results h1 → rs2 ≡ₚ h_results h2 →
  concurrentWriters total key (c_db c) (c_db (h_cluster h1)) (c_db (h_cluster h2)) rs1 rs2 = (if decide (total ≤ 500)%nat then Passed else EventsLost total 500)
  ∧ ∃ evs, log (c_db (h_cluster h1)) = log (c_db c) ++ evs ∧ length evs = total.
Proof.
  intros Hc Hq Hr Hk Ht Hl1 Hx1 Hh1 Hl2 Hx2 Hh2 Hp1 Hp2.
  assert (flag_at id key (c_db c) r) as Hrow.
  { split_and!; [done..|]. pose proof (GetByID_Some _ _ _ Hr) as [Hin _].
    apply (proj1 (Forall_forall _ _) (ti_rows _ (interleaved_table c Hc)) r Hin). }
  pose proof (toggles_run c id key Hc Hq r Hrow ls1 h1 Hl1 Hx1) as Ht1. pose proof (tg_calls _ _ _ _ Ht1) as Hc1.
  destruct (judge1_verdict c id key Hc total h1 Ht1 Hh1) as [Hj1 Hlog]. split; [|exact Hlog].
  unfold concurrentWriters. rewrite (judge1_perm _ _ _ _ _ _ Hp1), Hj1. case_decide as Hle; [|done].
  pose proof (hv_run _ _ _ _ Hc1) as Hrun1. destruct (hv_row _ _ _ _ Hc1) as [r1 Hrow1].
  pose proof (guarded_run (h_cluster h1) id key Hrun1 (proj1 Hh1) r1 Hrow1 ls2 h2 Hl2 Hx2) as Hg.
  rewrite (judge2_perm _ _ _ _ _ Hp2), (judge2_verdict (h_cluster h1) id key Hrun1 total h2 Hg Hh2 Hle).
  by rewrite (judge_final_passes (h_cluster h1) id key Hrun1 total h2 Hg Hh2 Ht).
Qed.
End writers.

(** Two writers: crossed toggles, then two updates from the same read. *)
Definition demo_flips : list hammer_label := [Flip; Flip; Done 1 2000; Done 0 2001].
Definition demo_contention : list hammer_label := [Look; Look; Send 0; Send 0; Done 1 3000; Done 0 3001].
Definition demo_flipped : hammering :=
  default (hammer_start demo_cluster) (hammer_run show (js "dark-mode") (js "id-1") demo_flips (hammer_start demo_cluster)).
Definition demo_contended : hammering :=
  default demo_flipped (hammer_run show (js "dark-mode") (js "id-1") demo_contention (hammer_start (h_cluster demo_flipped))).

Lemma concurrent_writers_verdict_witness :
  map Status (h_results demo_contended) = [200; 409]
  ∧ concurrentWriters 2 (js "dark-mode") (c_db demo_cluster) (c_db (h_cluster demo_flipped)) (c_db (h_cluster demo_contended))
      (reverse (h_results demo_flipped)) (h_results demo_contended) = Passed
  ∧ ∃ evs, log (c_db (h_cluster demo_flipped)) = log (c_db demo_cluster) ++ evs ∧ length evs = 2%nat.
Proof.
  split; [vm_compute; reflexivity|].
  apply (concurrent_writers_verdict show demo_cluster (js "id-1") (js "dark-mode") demo_row 2 demo_flips demo_contention
    demo_flipped demo_contended).
  - exact demo_interleaved.
  - vm_compute. reflexivity.
  - vm_compute. reflexivity.
  - vm_compute. reflexivity.
  - lia.
  - repeat constructor.
  - vm_compute. reflexivity.
  - split_and!; vm_compute; reflexivity.
  - repeat constructor.
  - vm_compute. reflexivity.
  - split_and!; vm_compute; reflexivity.
  - apply reverse_Permutation.
  - reflexivity.
Defined.
