(* ===== verification/Recovery.v ===== *)
(** * Missed events ([cmd/chaos/main.go])

    The scenarios sse-disconnect and missed-events leave clients behind, write
    once more and wait.  The write's event reaches each client as text on its
    stream; a gap makes it reconcile. *)
From S2P Require Import Prelude JsMap Types Client Server Convergence Broker Outbox GoClient Chaos Writers.

(** The newest event has the latest version. *)
Lemma sorted_last (l : list FlagEvent) e :
  StronglySorted Z.lt (ev_version <$> l) → last l = Some e → Forall (λ e', ev_version e' ≤ ev_version e) l.
Proof.
  intros Hs Hl. apply last_Some in Hl as [l' ->]. rewrite fmap_app in Hs.
  apply Forall_app. split; [|by apply Forall_singleton]. apply Forall_forall. intros e' He'.
  assert (ev_version e' < ev_version e); [|lia]. apply (sorted_app l' [e]); [by rewrite fmap_app|done|by left].
Qed.

Lemma newest_is_latest d e : NoDup (ev_version <$> log d) → Forall (λ e, 0 < ev_version e) (log d) →
  last (sorted_log d) = Some e → GetLatestVersion d = ev_version e.
Proof.
  intros Hn Hp Hl. pose proof (sorted_last _ _ (sorted_log_ascending d Hn) Hl) as Hle. rewrite sorted_log_perm in Hle.
  assert (e ∈ log d) as He.
  { rewrite <-sorted_log_perm. apply last_Some in Hl as [l ->]. set_solver. }
  pose proof (GetLatestVersion_ub d e He). cut (GetLatestVersion d ≤ ev_version e); [lia|].
  assert (0 ≤ ev_version e) as H0 by (rewrite Forall_forall in Hp; specialize (Hp e He); lia).
  clear -Hle H0. unfold GetLatestVersion. induction Hle; cbn; lia.
Qed.

Section recovery.
Context `{EventService} (log_good : Forall event_good es_log).
(** JSON of a payload, as the server prints and the client reads it *)
Context (marshal : FlagObj → jstr) (parse : jstr → option FlagObj).

Definition serves (since : Z) : reply := Page (es_page since).
Definition frame_of_event (e : FlagEvent) : SSEEvent := event_of marshal (announces e).
Definition readable (e : FlagEvent) : Prop :=
  parse (marshal (envelope_payload (announces e))) = Some (envelope_payload (announces e)) ∧ ev_version e < 2 ^ 63.

(** What an event says, live and in the log. *)
Lemma live_log_step g e :
  event_good e →
  FullFlag <$> (if bool_decide (envelope_type (announces e) = js "flag_deleted")
                then delete (obj_key (envelope_payload (announces e))) g
                else store_flag (Some (envelope_payload (announces e))) g)
  = log_step (FullFlag <$> g) e.
Proof.
  unfold event_good, announces, log_step. intros Hg.
  assert (ev_type e = Deleted ∨ ∃ f, (ev_type e = Created ∨ ev_type e = Updated) ∧ ev_payload e = FullFlag f
    ∧ fc_key f = ev_flag_key e ∧ fc_key f ≠ []) as [->|(f & Ht & Hp & Hk & Hne)].
  { destruct (ev_type e); [right|right|by left]; destruct Hg as [|(f & ?)]; [done| |done|]; exists f; tauto. }
  - cbn [envelope_type envelope_payload obj_key]. rewrite bool_decide_true by done. by rewrite fmap_delete.
  - rewrite Hp. destruct Ht as [-> | ->]; cbn [envelope_type envelope_payload];
      rewrite bool_decide_false, store_flag_full, fmap_insert, Hk by (done || by vm_compute); done.
Qed.

(** The newest event heals a client, whatever it has missed. *)
Lemma newest_heals c e k :
  go_in_sync c → last es_log = Some e → readable e → (length (backlog (gc_version c)) ≤ k * es_limit)%nat → (k < go_guard)%nat →
  ∃ c', dispatch parse serves (go_frame (frame_of_event e)) c = (c', None)
  ∧ FullFlag <$> gc_flags c' = log_state es_log ∧ ev_version e ≤ gc_version c'.
Proof.
  intros Hc He [Hp Hmax] Hk Hg. pose proof (sorted_last _ _ es_ascending He) as Hle.
  assert (e ∈ es_log) as Hin by (apply last_Some in He as [l ->]; set_solver).
  assert (0 < ev_version e) as Hpos by (by eapply (proj1 (Forall_forall _ _) es_positive)).
  assert (∀ v, ev_version e ≤ v → backlog v = []) as Hb.
  { intros v Hv. apply filter_none. eapply Forall_impl; [exact Hle|]. cbn. lia. }
  assert (Version (frame_of_event e) = ev_version e) as Hver by (unfold frame_of_event, announces; by repeat case_match).
  unfold dispatch, go_frame. cbn [fr_id fr_event fr_data]. rewrite Hver, Z.gtb_ltb, (proj2 (Z.ltb_lt _ _)) by done.
  rewrite parseSSEVersion_show by lia. cbn [from_option Datatypes.id default]. unfold frame_of_event, event_of. cbn [Data Event].
  rewrite Hp. unfold applyLiveEvent. destruct (Z.leb_spec (ev_version e) (gc_version c)) as [Hold|Hnew].
  - exists c. split; [done|]. split; [|done]. rewrite Hc. by apply state_upto_all, Hb.
  - rewrite Z.gtb_ltb. destruct (Z.ltb_spec (gc_version c + 1) (ev_version e)) as [Hgap|Hnext].
    + destruct (go_reconcile_converges log_good c k Hc Hk Hg) as (c' & Hr & Hf & Hb' & Hm). exists c'.
      split; [exact Hr|]. split; [exact Hf|]. destruct (Z.le_gt_cases (ev_version e) (gc_version c')) as [?|Hlt]; [done|].
      exfalso. assert (e ∈ backlog (gc_version c')) as Hin' by (by apply list_elem_of_filter).
      rewrite Hb' in Hin'. by apply not_elem_of_nil in Hin'.
    + eexists. split; [reflexivity|]. cbn [gc_flags gc_version]. split; [|done].
      rewrite live_log_step by (by eapply (proj1 (Forall_forall _ _) log_good)). rewrite Hc.
      assert (gc_version c = ev_version e - 1) as -> by lia. rewrite <-next_event_state by done. by apply state_upto_all, Hb.
Qed.

(** One connection that brings the newest event, among comments. *)
Lemma stream_heals xs cut c e k :
  go_in_sync c → last es_log = Some e → readable e → Forall chunk_ok xs → omap frame_of xs = [frame_of_event e] →
  (length (backlog (gc_version c)) ≤ k * es_limit)%nat → (k < go_guard)%nat →
  let c' := (stream parse (StreamBody (xs ≫= chunk_text) cut (λ _, serves)) c).1 in
  FullFlag <$> gc_flags c' = log_state es_log ∧ ev_version e ≤ gc_version c'.
Proof.
  intros Hc He Hr Hx Hf Hk Hg. destruct (newest_heals c e k Hc He Hr Hk Hg) as (c' & Hd & Hlog & Hv).
  unfold stream. rewrite stream_frames_chunks, Hf by done. cbn [map dispatch_all]. rewrite Hd. by split.
Qed.

(** C25: Missed events are made good.  A fleet whose members each hold the
    configuration of some version, however far behind, is brought up to date by
    one more write: once its event has reached every member's stream, all hold
    the configuration of the whole log, whether the event was the next one or
    came after a gap, and the wait for its version succeeds. *)
Theorem missed_events_heal (f : Fleet) (e : FlagEvent) (xs : list chunk) (cut : bool) (k : nat) :
  last es_log = Some e → readable e → Forall chunk_ok xs → omap frame_of xs = [frame_of_event e] →
  Forall (λ m, go_in_sync m.2 ∧ (length (backlog (gc_version m.2)) ≤ k * es_limit)%nat) (Members f) → (k < go_guard)%nat →
  let ms := map (λ m, (m.1, (stream parse (StreamBody (xs ≫= chunk_text) cut (λ _, serves)) m.2).1)) (Members f) in
  Forall (λ m, FullFlag <$> gc_flags m.2 = log_state es_log) ms ∧ (WaitConverged (ev_version e) f [ms]).2 = [].
Proof.
  intros He Hr Hx Hf Hm Hg ms.
  assert (Forall (λ m, FullFlag <$> gc_flags m.2 = log_state es_log ∧ ev_version e ≤ gc_version m.2) ms) as Hms.
  { apply Forall_map. eapply Forall_impl; [exact Hm|]. intros m [Hc Hk]. by eapply stream_heals. }
  split; [by eapply Forall_impl; [exact Hms|]; intros m [? _]|].
  assert (laggards (ev_version e) (sampleOnce (set_members ms (sampleOnce f))) = []) as Hl.
  { apply laggards_nil. unfold sampleOnce. rewrite Members_reads. eapply Forall_impl; [exact Hms|]. by intros m [_ ?]. }
  cbn [WaitConverged]. destruct (laggards (ev_version e) (sampleOnce f)); [done|]. by rewrite Hl.
Qed.
End recovery.

(** Two members that have seen nothing of three writes hear of the last. *)
Lemma demo_flipped_interleaved : interleaved show (h_cluster demo_flipped).
Proof.
  apply (hv_run show demo_cluster (js "id-1") (js "dark-mode")), (tg_calls show demo_cluster (js "id-1") (js "dark-mode")).
  apply (toggles_run show demo_cluster (js "id-1") (js "dark-mode") demo_interleaved eq_refl demo_row) with (ls := demo_flips).
  - split_and!; vm_compute; reflexivity.
  - repeat constructor.
  - vm_compute. reflexivity.
Qed.
#[local] Instance flipped_service : EventService := cluster_service show (h_cluster demo_flipped) demo_flipped_interleaved.

Definition demo_newest : FlagEvent := default (mkFlagEvent 0 Deleted [] (KeyOnly []) []) (last es_log).
Definition demo_parse (s : jstr) : option FlagObj :=
  if bool_decide (s = js "{}") then Some (envelope_payload (announces demo_newest)) else None.
Definition demo_behind : Fleet := mkFleet [(0, New); (1, New)] ∅ [] 0.
Definition demo_chunks : list chunk := [StreamHeaders; Comment (js " connected"); Frame (frame_of_event (λ _, js "{}") demo_newest)].

Lemma missed_events_heal_witness :
  ev_version demo_newest = 3 ∧ map snd (laggards 3 demo_behind) = [0; 0]
  ∧ ∃ ms, Forall (λ m, FullFlag <$> gc_flags m.2 = log_state es_log) ms ∧ (WaitConverged 3 demo_behind [ms]).2 = [].
Proof.
  split; [vm_compute; reflexivity|]. split; [vm_compute; reflexivity|]. eexists.
  apply (missed_events_heal) with (marshal := λ _, js "{}") (parse := demo_parse) (f := demo_behind) (e := demo_newest) (xs := demo_chunks) (cut := false) (k := 1%nat).
  - vm_compute. repeat (refine (Forall_cons_2 _ _ _ _ _); [right; eexists; split; [reflexivity|split; [reflexivity|discriminate]]|]).
    apply Forall_nil_2.
  - vm_compute. reflexivity.
  - split; [vm_compute; reflexivity|vm_compute; reflexivity].
  - assert (frame_ok (frame_of_event (λ _, js "{}") demo_newest)) as Hf.
    { split; [apply clean_dec_ok; vm_compute; reflexivity|split; [apply clean_dec_ok; vm_compute; reflexivity|discriminate]|].
      split_and!; vm_compute; reflexivity. }
    apply Forall_cons_2; [exact I|]. apply Forall_cons_2; [split; [apply (bool_decide_unpack _); vm_compute; exact I|vm_compute; reflexivity]|].
    apply Forall_cons_2; [exact Hf|apply Forall_nil_2].
  - vm_compute. reflexivity.
  - apply Forall_cons_2; [|apply Forall_cons_2; [|apply Forall_nil_2]]; (split; [vm_compute; reflexivity|apply Nat.leb_le; vm_compute; reflexivity]).
  - apply Nat.ltb_lt. vm_compute. reflexivity.
Defined.
