(* ===== verification/Loadgen.v ===== *)
(** * The load generator ([cmd/loadgen/main.go])

    The benchmark of local evaluation, as the walk of its workers over flags and
    users, and the measurement of propagation, as what it makes of the versions
    its clients saw and of the toggles it drove. *)
From Stdlib Require Import Znumtheory.
From S2P Require Import Prelude JsMap Types Evaluate GoClient Percentiles.

(** ** Mode eval *)
Section eval.
Context (c : goclient) (flagKeys users : list jstr).

Definition flag_count : Z := Z.of_nat (length flagKeys).
Definition user_count : Z := Z.of_nat (length users).

(** The matrix: the flags of a snapshot, and [user-0], [user-1], ... *)
Definition eval_user (i : nat) : jstr := js "user-" ++ show (Z.of_nat i).

(** [c.IsEnabled(flagKeys[fi], users[ui])]; [None] is an index out of range. *)
Definition eval_at (fi ui : Z) : option bool :=
  k ← flagKeys !! Z.to_nat fi; u ← users !! Z.to_nat ui; Some (IsEnabled c k u).

(** [fi++; if fi >= len(flagKeys) { fi = 0 }], and the same for [ui]. *)
Definition bump (n i : Z) : Z := let i := i + 1 in if i >=? n then 0 else i.

(** The inner loop of a worker, [n] rounds from [(fi, ui)]: what it evaluated,
    and where it stopped. *)
Fixpoint worker_loop (n : nat) (fi ui : Z) : option (list (Z * Z) * (Z * Z)) :=
  match n with
  | O => Some ([], (fi, ui))
  | S n => _ ← eval_at fi ui;
           '(seen, stop) ← worker_loop n (bump flag_count fi) (bump user_count ui);
           Some ((fi, ui) :: seen, stop)
  end.

Definition eval_batch : nat := 2000.
(** Worker [w], which the clock lets run [batches] batches; the operations it
    reports. *)
Definition worker (w : Z) (batches : nat) : option (list (Z * Z)) := fst <$> worker_loop (eval_batch * batches) 0 w.
Definition totalOps (batches : list nat) : nat := sum_list ((λ b, eval_batch * b)%nat <$> batches).
Definition latSamples : nat := 200000.

(** [runEval] needs a flag. *)
Definition eval_ready : bool := negb (flag_count =? 0).

Lemma bump_mod n i k : 0 < n → i = k mod n → bump n i = (k + 1) mod n.
Proof.
  intros Hn ->. unfold bump. rewrite Z.geb_leb. rewrite Z.add_mod by lia. pose proof (Z.mod_pos_bound k n Hn).
  destruct (Z.leb_spec n (k mod n + 1)) as [H1|H1].
  - assert (k mod n + 1 = n) as Heq by lia. destruct (Z.eq_dec n 1) as [->|]; [by rewrite !Z.mod_1_r|].
    by rewrite (Z.mod_small 1 n), Heq, Z.mod_same by lia.
  - destruct (Z.eq_dec n 1) as [->|]; [rewrite Z.mod_1_r in H1; lia|].
    by rewrite (Z.mod_small 1 n), (Z.mod_small (k mod n + 1)) by lia.
Qed.

(** The walk in closed form: both indexes go round together. *)
Lemma worker_loop_spec w n j :
  0 < flag_count → 0 < user_count → 0 ≤ j →
  worker_loop n (j mod flag_count) ((w + j) mod user_count)
  = Some ((λ k, ((j + Z.of_nat k) mod flag_count, (w + j + Z.of_nat k) mod user_count)) <$> seq 0 n,
          ((j + Z.of_nat n) mod flag_count, (w + j + Z.of_nat n) mod user_count)).
Proof.
  intros HF HU. revert j. induction n as [|n IH]; intros j Hj; cbn [worker_loop].
  - cbn. by rewrite !Z.add_0_r.
  - unfold eval_at. pose proof (Z.mod_pos_bound j flag_count HF). pose proof (Z.mod_pos_bound (w + j) user_count HU).
    unfold flag_count, user_count in *.
    destruct (lookup_lt_is_Some_2 flagKeys (Z.to_nat (j mod Z.of_nat (length flagKeys)))) as [k ->]; [lia|].
    destruct (lookup_lt_is_Some_2 users (Z.to_nat ((w + j) mod Z.of_nat (length users)))) as [u ->]; [lia|].
    cbn [mbind option_bind]. rewrite (bump_mod _ _ j), (bump_mod _ _ (w + j)) by done.
    replace (w + j + 1) with (w + (j + 1)) by lia. rewrite IH by lia. cbn [mbind option_bind seq fmap list_fmap].
    rewrite !Z.add_0_r. f_equal. f_equal; [|f_equal; f_equal; lia]. f_equal.
    rewrite <-fmap_S_seq, <-list_fmap_compose. apply list_fmap_ext. intros i x _. cbn. f_equal; f_equal; lia.
Qed.
End eval.

(** Two cycles of lengths [a] and [b] meet where their greatest common divisor
    allows. *)
Lemma cycles_meet a b x y :
  0 < a → 0 < b → (∃ k, 0 ≤ k < Z.lcm a b ∧ k mod a = x mod a ∧ k mod b = y mod b) ↔ (Z.gcd a b | y - x).
Proof.
  intros Ha Hb. assert (0 < Z.lcm a b) as Hl.
  { pose proof (Z.lcm_nonneg a b). assert (Z.lcm a b ≠ 0); [|lia]. rewrite Z.lcm_eq_0. lia. }
  split.
  - intros (k & _ & Hx & Hy). destruct (Z.gcd_divide_l a b) as [p Hp], (Z.gcd_divide_r a b) as [q Hq].
    assert (k - x = a * (k / a - x / a)) as H1.
    { pose proof (Z.div_mod k a ltac:(lia)). pose proof (Z.div_mod x a ltac:(lia)). lia. }
    assert (y - k = b * (y / b - k / b)) as H2.
    { pose proof (Z.div_mod k b ltac:(lia)). pose proof (Z.div_mod y b ltac:(lia)). lia. }
    exists (q * (y / b - k / b) + p * (k / a - x / a)).
    replace (y - x) with ((y - k) + (k - x)) by lia. rewrite H1, H2, Hp at 1. rewrite Hq at 1. ring.
  - intros [d Hd]. destruct (Z.gcd_bezout a b _ eq_refl) as (u & v & Huv).
    set (k := x + u * d * a). exists (k mod Z.lcm a b). split; [by apply Z.mod_pos_bound|].
    assert (∀ n, 0 < n → (n | Z.lcm a b) → (k mod Z.lcm a b) mod n = k mod n) as Hm.
    { intros n Hn Hd'. symmetry. by apply Zmod_div_mod. }
    rewrite !Hm by (auto using Z.divide_lcm_l, Z.divide_lcm_r). split.
    + unfold k. by rewrite Z.mod_add by lia.
    + replace k with (y + (- v * d) * b) by (unfold k; nia). by rewrite Z.mod_add by lia.
Qed.

Section matrix.
Context (c : goclient) (flagKeys users : list jstr).
Notation F := (flag_count flagKeys).
Notation U := (user_count users).
Notation ops b := (Z.of_nat (eval_batch * b)).

Lemma worker_panics w b : 0 ≤ w → U ≤ w → (0 < b)%nat → worker c flagKeys users w b = None.
Proof.
  intros H0 Hw Hb. unfold worker. destruct (eval_batch * b)%nat as [|n] eqn:E; [unfold eval_batch in E; lia|].
  cbn [worker_loop]. unfold eval_at. destruct (flagKeys !! Z.to_nat 0); [|done]. cbn.
  unfold user_count in Hw. by rewrite (lookup_ge_None_2 users) by lia.
Qed.

Lemma worker_seen w b : 0 < F → 0 ≤ w < U →
  worker c flagKeys users w b = Some ((λ k, (Z.of_nat k mod F, (w + Z.of_nat k) mod U)) <$> seq 0 (eval_batch * b)).
Proof.
  intros HF Hw. pose proof (worker_loop_spec c flagKeys users w (eval_batch * b) 0 HF) as H.
  rewrite Z.mod_0_l, Z.add_0_r, (Z.mod_small w) in H by lia. unfold worker. rewrite H by lia. cbn. f_equal.
Qed.

(** C40: The benchmark does not cover its matrix.  A worker whose number is not
    below the number of users panics at its first evaluation.  Any other makes
    all the evaluations it reports, and once it has been round, the pairs it has
    evaluated are exactly those whose user's index differs from the flag's by its
    own number, up to the greatest common divisor of the two counts: the whole
    matrix if and only if the counts have no common divisor. *)
Theorem eval_matrix_coverage (w : Z) (b : nat) :
  0 < F → 0 ≤ w →
  (U ≤ w → (0 < b)%nat → worker c flagKeys users w b = None)
  ∧ (w < U → ∃ seen, worker c flagKeys users w b = Some seen ∧ Z.of_nat (length seen) = ops b
     ∧ (Z.lcm F U ≤ ops b →
        (∀ f u, 0 ≤ f < F → 0 ≤ u < U → (f, u) ∈ seen ↔ (Z.gcd F U | u - w - f))
        ∧ ((∀ f u, 0 ≤ f < F → 0 ≤ u < U → (f, u) ∈ seen) ↔ Z.gcd F U = 1))).
Proof.
  intros HF H0. split; [by apply worker_panics|]. intros Hw.
  exists ((λ k, (Z.of_nat k mod F, (w + Z.of_nat k) mod U)) <$> seq 0 (eval_batch * b)).
  split; [by apply worker_seen|]. split; [by rewrite length_fmap, length_seq|]. intros Hl.
  set (seen := _ <$> _).
  assert (∀ f u, 0 ≤ f < F → 0 ≤ u < U → (f, u) ∈ seen ↔ (Z.gcd F U | u - w - f)) as Hseen.
  { intros f u Hf Hu. rewrite <-(cycles_meet F U f (u - w)) by lia. unfold seen. rewrite list_elem_of_fmap. split.
    - intros (k & [= -> ->] & _). exists (Z.of_nat k mod Z.lcm F U).
      assert (0 < Z.lcm F U) as Hpos.
      { pose proof (Z.lcm_nonneg F U). assert (Z.lcm F U ≠ 0); [|lia]. rewrite Z.lcm_eq_0. lia. }
      split; [by apply Z.mod_pos_bound|]. 
      rewrite <-(Zmod_div_mod F (Z.lcm F U)), <-(Zmod_div_mod U (Z.lcm F U)) by (lia || auto using Z.divide_lcm_l, Z.divide_lcm_r).
      rewrite Z.mod_mod by lia. split; [done|]. rewrite Zminus_mod_idemp_l. f_equal. lia.
    - intros (k & Hk & Hkf & Hku). exists (Z.to_nat k). rewrite Z2Nat.id by lia. split.
      + rewrite Hkf, (Z.mod_small f) by lia. f_equal. rewrite <-Zplus_mod_idemp_r, Hku, Zplus_mod_idemp_r.
        replace (w + (u - w)) with u by lia. by rewrite Z.mod_small.
      + apply elem_of_seq. lia. }
  split; [exact Hseen|]. split.
  - intros Hall. destruct (Z.eq_dec (Z.gcd F U) 1) as [|Hg]; [done|exfalso].
    assert (0 < Z.gcd F U) as Hpos.
    { pose proof (Z.gcd_nonneg F U). assert (Z.gcd F U ≠ 0); [|lia]. rewrite Z.gcd_eq_0. lia. }
    pose proof (Z.divide_pos_le _ U ltac:(lia) (Z.gcd_divide_r F U)) as Hle.
    assert (∀ d, (Z.gcd F U | d) → d = 1 ∨ d = -1 → False) as Hdiv.
    { intros d Hdv [->| ->]; apply Hg, Z.divide_1_r_nonneg; try lia; [done|]. by apply (Z.divide_opp_r _ (-1)). }
    destruct (decide (w + 1 < U)) as [Hn|Hn].
    + apply (Hdiv (w + 1 - w - 0)); [|lia]. apply Hseen; [lia..|]. apply Hall; lia.
    + apply (Hdiv (w - 1 - w - 0)); [|lia]. apply Hseen; [lia..|]. apply Hall; lia.
  - intros Hg f u Hf Hu. rewrite Hseen, Hg by done. apply Z.divide_1_l.
Qed.
End matrix.

(** Two flags and four users: half of the pairs. *)
Definition demo_keys : list jstr := [js "beta"; js "dark"].
Definition demo_users : list jstr := eval_user <$> seq 0 4.
Lemma eval_matrix_coverage_witness :
  worker demo_go demo_keys demo_users 4 1 = None
  ∧ ∃ seen, worker demo_go demo_keys demo_users 0 1 = Some seen ∧ (0, 2) ∈ seen ∧ (0, 1) ∉ seen.
Proof.
  split.
  - destruct (eval_matrix_coverage demo_go demo_keys demo_users 4 1) as [H _]; [reflexivity|lia|].
    apply H; [vm_compute; discriminate|lia].
  - destruct (eval_matrix_coverage demo_go demo_keys demo_users 0 1) as [_ H]; [reflexivity|lia|].
    destruct H as (seen & Hs & _ & H); [reflexivity|]. exists seen. split; [exact Hs|].
    destruct H as [H _]; [vm_compute; discriminate|].
    split.
    + apply H; [split; [lia|reflexivity]|split; [lia|reflexivity]|]. exists 1. reflexivity.
    + intros Hin. apply H in Hin as [r Hr]; [|split; [lia|reflexivity]|split; [lia|reflexivity]].
      change (Z.gcd (flag_count demo_keys) (user_count demo_users)) with 2 in Hr. lia.
Defined.

(** ** Mode propagation *)
Lemma NoDup_prod {A B} (l : list A) (l' : list B) : NoDup l → NoDup l' → NoDup (list_prod l l').
Proof.
  intros Hl Hl'. induction Hl as [|x l Hx _ IH]; [constructor|]. cbn. apply NoDup_app. split_and!; [by apply (NoDup_fmap_2 (pair x))| |done].
  intros [a b] Hin1 Hin2. apply list_elem_of_In, in_map_iff in Hin1 as (y & [= <- <-] & _).
    apply list_elem_of_In, in_prod_iff in Hin2 as [H _]. by apply Hx, list_elem_of_In.
Qed.

(** A client saw a version at a time, in nanoseconds. *)
Record observation := mkObservation { clientID : Z; ob_version : Z; ob_at : Z }.

Section propagation.
(** The version before the run *)
Context (baseVersion : Z).

(** The hook of client [id]: versions of before the run are left out. *)
Definition record_version (id v at_ : Z) (obs : list observation) : list observation :=
  if v <=? baseVersion then obs else obs ++ [mkObservation id v at_].

(** What the toggles came to: an error, or the version and the time the answer
    was there. *)
Definition commits_of (toggles : list (option (Z * Z))) : gmap Z Z :=
  foldl (λ m r, match r with Some (v, t0) => <[v := t0]> m | None => m end) ∅ toggles.

(** [float64(d.Microseconds()) / 1000.0], before the division *)
Definition latency_us (o : observation) (t0 : Z) : Z :=
  let d := ob_at o - t0 in (if d <? 0 then 0 else d) / 1000.

(** The loop over the snapshot: the latencies, and how many of each version. *)
Definition correlate1 (commits : gmap Z Z) (acc : list Z * gmap Z nat) (o : observation) : list Z * gmap Z nat :=
  match commits !! ob_version o with
  | None => acc
  | Some t0 => (acc.1 ++ [latency_us o t0], <[ob_version o := S (default 0%nat (acc.2 !! ob_version o))]> acc.2)
  end.
Definition correlate (commits : gmap Z Z) (snapshot : list observation) : list Z * gmap Z nat :=
  foldl (correlate1 commits) ([], ∅) snapshot.

Definition totalDelivered (deliveredPerVersion : gmap Z nat) : nat := map_fold (λ _ n t, n + t)%nat 0%nat deliveredPerVersion.
Definition expected (nConnected : nat) (commits : gmap Z Z) : nat := nConnected * size commits.
(** [deliveryPct], as a fraction *)
Definition deliveryPct (nConnected : nat) (commits : gmap Z Z) (total : nat) : Z * Z :=
  let e := Z.of_nat (expected nConnected commits) in
  if e >? 0 then (100 * Z.of_nat total, e) else (0, 1).

Definition counted (commits : gmap Z Z) (o : observation) : Prop := is_Some (commits !! ob_version o).

Lemma total_insert m v n : m !! v = None → totalDelivered (<[v := n]> m) = (n + totalDelivered m)%nat.
Proof. intros Hm. unfold totalDelivered. by rewrite map_fold_insert_L by (intros; lia || done). Qed.
Lemma total_bump m v : totalDelivered (<[v := S (default 0%nat (m !! v))]> m) = S (totalDelivered m).
Proof.
  destruct (m !! v) as [n|] eqn:Hm; cbn [default]; [|by rewrite total_insert].
  assert (delete v m !! v = None) as Hd by apply lookup_delete_eq.
  rewrite <-(insert_delete_eq m v (S n)), total_insert by done. rewrite <-(insert_delete_id m v n Hm) at 2.
  by rewrite total_insert.
Qed.

Lemma correlate_counts commits snapshot :
  length (correlate commits snapshot).1 = length (filter (counted commits) snapshot)
  ∧ totalDelivered (correlate commits snapshot).2 = length (filter (counted commits) snapshot).
Proof.
  induction snapshot as [|o l [IH1 IH2]] using rev_ind; [done|]. unfold correlate in *. rewrite foldl_app, filter_app. cbn [foldl].
  set (acc := foldl _ _ l) in *. unfold correlate1. rewrite filter_cons, filter_nil.
  case_decide as Ho.
  - destruct Ho as [t0 E]. rewrite E. cbn [fst snd]. rewrite !length_app, IH1. split; [done|].
    rewrite total_bump, IH2. cbn [length]. lia.
  - apply eq_None_not_Some in Ho. rewrite Ho, app_nil_r. done.
Qed.

(** A latency is not more than the time since the commit, and none for a client
    that saw the version before the toggle's answer was there. *)
Lemma latency_understates o t0 committed :
  committed ≤ t0 → committed ≤ ob_at o →
  0 ≤ latency_us o t0 ≤ (ob_at o - committed) / 1000 ∧ (ob_at o ≤ t0 → latency_us o t0 = 0).
Proof.
  intros H1 H2. unfold latency_us. destruct (Z.ltb_spec (ob_at o - t0) 0); Z.to_euclidean_division_equations; lia.
Qed.

(** The delivery that is reported is a proportion, and it is whole exactly when
    every connected client has seen every version that was committed. *)
Lemma delivery_is_complete (commits : gmap Z Z) (snapshot : list observation) (connected : list Z) :
  NoDup connected → NoDup ((λ o, (clientID o, ob_version o)) <$> snapshot) →
  Forall (λ o, clientID o ∈ connected) snapshot →
  let total := totalDelivered (correlate commits snapshot).2 in
  length (correlate commits snapshot).1 = total
  ∧ (total ≤ expected (length connected) commits)%nat
  ∧ (total = expected (length connected) commits ↔
     ∀ id v, id ∈ connected → is_Some (commits !! v) → ∃ o, o ∈ snapshot ∧ clientID o = id ∧ ob_version o = v).
Proof.
  intros Hc Hn Hf. cbn zeta. destruct (correlate_counts commits snapshot) as [-> ->]. split; [done|].
  set (seen := (λ o, (clientID o, ob_version o)) <$> filter (counted commits) snapshot).
  set (all := list_prod connected (map_to_list commits).*1).
  assert (length (filter (counted commits) snapshot) = length seen) as -> by (by unfold seen; rewrite length_fmap).
  assert (expected (length connected) commits = length all) as ->.
  { unfold expected, all. by rewrite length_prod, length_fmap, length_map_to_list. }
  assert (∀ id v, (id, v) ∈ all ↔ id ∈ connected ∧ is_Some (commits !! v)) as Hall.
  { intros id v. unfold all. rewrite list_elem_of_In, in_prod_iff, <-!list_elem_of_In, list_elem_of_fmap.
    split; intros [H1 H2]; (split; [done|]).
    - destruct H2 as ([v' t] & -> & H2). apply elem_of_map_to_list in H2. by eexists.
    - destruct H2 as [t H2]. exists (v, t). split; [done|]. by apply elem_of_map_to_list. }
  assert (∀ id v, (id, v) ∈ seen ↔ is_Some (commits !! v) ∧ ∃ o, o ∈ snapshot ∧ clientID o = id ∧ ob_version o = v) as Hseen.
  { intros id v. unfold seen. rewrite list_elem_of_fmap. split.
    - intros (o & [= -> ->] & Ho). apply list_elem_of_filter in Ho as [H1 H2]. split; [exact H1|]. by exists o.
    - intros (H1 & o & H2 & <- & <-). exists o. split; [done|]. by apply list_elem_of_filter. }
  assert (NoDup seen) as Hns by (by apply NoDup_fmap_filter).
  assert (seen ⊆+ all) as Hsub.
  { apply NoDup_submseteq; [done|]. intros [id v] [Hv (o & Ho & <- & <-)]%Hseen. apply Hall. split; [|done].
    rewrite Forall_forall in Hf. by apply Hf. }
  split; [by apply submseteq_length|]. split.
  - intros He id v Hid Hv. assert (seen ≡ₚ all) as Hp by (apply submseteq_length_Permutation; [done|lia]).
    assert ((id, v) ∈ seen) as Hin by (rewrite Hp; by apply Hall). by apply Hseen in Hin as [_ ?].
  - intros Hev. apply Nat.le_antisymm; [by apply submseteq_length|].
    assert (NoDup all) as Hna.
    { apply NoDup_prod; [done|apply NoDup_fst_map_to_list]. }
    apply submseteq_length, NoDup_submseteq; [done|]. intros [id v] [Hid Hv]%Hall. apply Hseen. eauto.
Qed.
End propagation.
