(* ===== verification/Soak.v ===== *)
(** * The soak ([cmd/soak/main.go])

    A fleet under a writer, evaluations and churning streams for as long as the
    run lasts, with the monitor and a checker of convergence beside it, and the
    verdict at the end.  The fleet and its polls are those of [Chaos]. *)
From S2P Require Import Prelude JsMap Types Client Server Convergence GoClient Chaos.

(** The counters, the writer's round, the target of a check that is under way,
    and whether the run's time is over. *)
Record soak := mkSoak {
  k_fleet : Fleet; k_evals : Z; k_writes : Z; k_conflicts : Z; k_reconnects : Z;
  k_convChecks : Z; k_convFails : Z; k_convFailLog : list (list (Z * Z));
  k_round : nat; k_check : option Z; k_over : bool }.

Definition soak_start (f : Fleet) : soak := mkSoak f 0 0 0 0 0 0 [] 0 None false.

Definition on_fleet (f : Fleet) (k : soak) : soak :=
  mkSoak f (k_evals k) (k_writes k) (k_conflicts k) (k_reconnects k) (k_convChecks k) (k_convFails k) (k_convFailLog k)
    (k_round k) (k_check k) (k_over k).
Definition eval_tick (k : soak) : soak :=
  mkSoak (k_fleet k) (k_evals k + 1) (k_writes k) (k_conflicts k) (k_reconnects k) (k_convChecks k) (k_convFails k)
    (k_convFailLog k) (k_round k) (k_check k) (k_over k).
Definition reconnect_tick (k : soak) : soak :=
  mkSoak (k_fleet k) (k_evals k) (k_writes k) (k_conflicts k) (k_reconnects k + 1) (k_convChecks k) (k_convFails k)
    (k_convFailLog k) (k_round k) (k_check k) (k_over k).

(** The writer: an update guarded by [If-Match] each third round, else a toggle,
    which is an error unless it is answered 200.  [None] is a call that failed, or
    the read before the update. *)
Definition write_tick (status : option Z) (k : soak) : soak :=
  let '(w, c) :=
    if (k_round k mod 3 =? 2)%nat
    then match status with Some 200 => (1, 0) | Some 409 => (0, 1) | _ => (0, 0) end
    else match status with Some 200 => (1, 0) | _ => (0, 0) end in
  mkSoak (k_fleet k) (k_evals k) (k_writes k + w) (k_conflicts k + c) (k_reconnects k) (k_convChecks k) (k_convFails k)
    (k_convFailLog k) (S (k_round k)) (k_check k) (k_over k).

Definition set_check (c : option Z) (k : soak) : soak :=
  mkSoak (k_fleet k) (k_evals k) (k_writes k) (k_conflicts k) (k_reconnects k) (k_convChecks k) (k_convFails k)
    (k_convFailLog k) (k_round k) c (k_over k).
Definition end_check (failed : option (list (Z * Z))) (k : soak) : soak :=
  mkSoak (k_fleet k) (k_evals k) (k_writes k) (k_conflicts k) (k_reconnects k) (k_convChecks k + 1)
    (match failed with Some _ => k_convFails k + 1 | None => k_convFails k end)
    (match failed with Some l => k_convFailLog k ++ [l] | None => k_convFailLog k end)
    (k_round k) None (k_over k).
Definition end_run (k : soak) : soak :=
  mkSoak (k_fleet k) (k_evals k) (k_writes k) (k_conflicts k) (k_reconnects k) (k_convChecks k) (k_convFails k)
    (k_convFailLog k) (k_round k) (k_check k) true.

(** One poll of [WaitConverged]: done; once more; or given up, because the grace
    or the run is over. *)
Inductive poll := PollDone | PollAgain | PollOut.
Definition poll_step (p : poll) (target : Z) (k : soak) : option soak :=
  let k := on_fleet (sampleOnce (k_fleet k)) k in
  match laggards target (k_fleet k), p with
  | [], PollDone => Some (end_check None k)
  | [], _ | _, PollDone => None
  | _, PollAgain => if k_over k then None else Some k
  | lagging, PollOut => Some (end_check (Some lagging) k)
  end.

Inductive soak_step : soak → soak → Prop :=
| soak_fleet k f : fleet_step (k_fleet k) f → soak_step k (on_fleet f k)
| soak_eval k : k_over k = false → soak_step k (eval_tick k)
| soak_reconnect k : k_over k = false → soak_step k (reconnect_tick k)
| soak_write k status : k_over k = false → soak_step k (write_tick status k)
| soak_no_target k : k_over k = false → soak_step k k      (* [LatestVersion] failed: [continue] *)
| soak_check k target : k_over k = false → k_check k = None → soak_step k (set_check (Some target) k)
| soak_poll k k' target p : k_check k = Some target → poll_step p target k = Some k' → soak_step k k'
| soak_ends k : soak_step k (end_run k).

(** The final sample and the exit status. *)
Definition monoViol (k : soak) : list (Z * Z * Z) := violations (sampleOnce (k_fleet k)).
Definition violated (k : soak) : bool := negb (bool_decide (monoViol k = [])) || (k_convFails k >? 0).

Record soak_ok (k : soak) : Prop := {
  so_fleet : fleet_inv (k_fleet k);
  so_log : k_convFails k = Z.of_nat (length (k_convFailLog k));
  so_lagging : Forall (λ l, l ≠ []) (k_convFailLog k);
  so_counts : 0 ≤ k_convFails k ≤ k_convChecks k }.

Lemma soak_step_ok k k' : soak_step k k' → soak_ok k → soak_ok k'.
Proof.
  intros Hs [Hf Hl Hg Hc]. destruct Hs as [k f Hm|k _|k _|k st _|k _|k t _ _|k k' t p Hk Hp|k]; try (by split).
  - split; try done. cbn. by apply (inv_fleet_steps (k_fleet k) f (rtc_once _ _ Hm)).
  - unfold write_tick. destruct (if (_ =? _)%nat then _ else _) as [w c]. by split.
  - apply inv_sampleOnce in Hf. unfold poll_step in Hp. cbn [k_fleet on_fleet] in Hp.
    destruct (laggards t (sampleOnce (k_fleet k))) as [|m l] eqn:Hlag, p; try done;
      try (destruct (k_over _); [done|]); simplify_eq; split; cbn; try done; try lia.
    + rewrite length_app. cbn. lia.
    + apply Forall_app. split; [done|]. by apply Forall_singleton.
Qed.

Lemma soak_runs_ok k k' : rtc soak_step k k' → soak_ok k → soak_ok k'.
Proof. induction 1; eauto using soak_step_ok. Qed.

(** The verdict of a soak is that of its checks: no run shows a regression, so it
    fails exactly when a check was given up, each of those had a client that
    lagged at its last poll, and a run without checks passes. *)
Lemma soak_verdict started f k :
  SpawnFleet started = Some f → rtc soak_step (soak_start f) k →
  monoViol k = []
  ∧ (violated k = true ↔ k_convFailLog k ≠ [])
  ∧ Forall (λ l, l ≠ []) (k_convFailLog k)
  ∧ (k_convChecks k = 0 → violated k = false).
Proof.
  intros Hs%inv_spawn Hr. assert (soak_ok k) as [Hf Hl Hg Hc] by (eapply soak_runs_ok; [exact Hr|]; by split).
  apply inv_sampleOnce in Hf as [Hn _ _]. split; [exact Hn|].
  assert (violated k = (k_convFails k >? 0)) as Hv by (unfold violated, monoViol; by rewrite Hn, bool_decide_true).
  rewrite Hv, Hl, Z.gtb_lt. split_and!; [|done|].
  - destruct (k_convFailLog k); cbn; split; try done; lia.
  - intros H0. rewrite Z.gtb_ltb, <-Hl. apply Z.ltb_ge. lia.
Qed.

(** A check that the end of the run cuts off counts as a failure: the client that
    lagged at its first poll has caught up by the time of the verdict. *)
Definition demo_behind : soak := set_check (Some 2) (soak_start demo_fleet).
Definition demo_cut : soak := default demo_behind (poll_step PollOut 2 (end_run demo_behind)).
Definition demo_late : soak :=
  on_fleet (set_members ((λ m, (m.1, (reconcile_step demo_event m.2).1)) <$> Members (k_fleet demo_cut)) (k_fleet demo_cut)) demo_cut.
Lemma soak_fails_converged :
  rtc soak_step (soak_start demo_fleet) demo_cut ∧ violated demo_late = true
  ∧ laggards 2 (k_fleet demo_late) = [] ∧ monoViol demo_late = [].
Proof.
  split; [|split_and!; vm_compute; reflexivity].
  eapply rtc_l; [by apply (soak_check _ 2)|]. eapply rtc_l; [apply soak_ends|].
  apply rtc_once. apply (soak_poll _ _ 2 PollOut); [reflexivity|vm_compute; reflexivity].
Qed.
