(* ===== verification/Json.v ===== *)
(** * JSON, headers and HTTP as the browser and the proxy see them

    The part of the web platform the dashboard relies on: parsed JSON values,
    [JSON.stringify] on the inputs it sends, header maps, [encodeURIComponent],
    and the two ends of a [fetch].  Numbers in bodies are integers, as the Go
    server encodes them. *)
From S2P Require Import Prelude JsMap Types.

Inductive json :=
| JNull | JBool (b : bool) | JNum (n : Z) | JStr (s : jstr)
| JArr (l : list json) | JObj (fields : list (jstr * json)).

(** [data.k]: [None] is [undefined]; reading a field of [null] throws, see
    [jget_throws]. *)
Definition jget (j : json) (k : jstr) : option json :=
  match j with JObj fields => map_get fields k | _ => None end.
Definition jget_throws (j : json) : bool := match j with JNull => true | _ => false end.

(** [typeof v === "number" ? v : null] and its kin *)
Definition as_number (j : option json) : option Z := match j with Some (JNum n) => Some n | _ => None end.
Definition as_string (j : option json) : option jstr := match j with Some (JStr s) => Some s | _ => None end.
Definition as_array (j : option json) : option (list json) := match j with Some (JArr l) => Some l | _ => None end.
Definition is_true (j : option json) : bool := match j with Some (JBool b) => b | _ => false end.

(** ** [JSON.stringify] *)
Definition hex (n : Z) : Z := if n <? 10 then 48 + n else 87 + n.

Definition escape_unit (c : Z) : jstr :=
  if c =? 34 then [92; 34] else if c =? 92 then [92; 92]
  else if c =? 8 then [92; 98] else if c =? 12 then [92; 102]
  else if c =? 10 then [92; 110] else if c =? 13 then [92; 114] else if c =? 9 then [92; 116]
  else if c <? 32 then js "\u00" ++ [hex (c / 16); hex (c mod 16)]
  else [c].

(** Strings of well-formed text; a lone surrogate would be escaped as well. *)
Definition quote (s : jstr) : jstr := [34] ++ (s ≫= escape_unit) ++ [34].

Fixpoint join (sep : jstr) (l : list jstr) : jstr :=
  match l with [] => [] | [x] => x | x :: l => x ++ sep ++ join sep l end.

Definition str_bool (b : bool) : jstr := if b then js "true" else js "false".
Definition str_array (l : list jstr) : jstr := js "[" ++ join (js ",") (map quote l) ++ js "]".
Definition str_object (fields : list (jstr * jstr)) : jstr :=
  js "{" ++ join (js ",") (map (λ p, quote p.1 ++ js ":" ++ p.2) fields) ++ js "}".

Definition stringify_create (i : CreateFlagInput) : jstr :=
  str_object [(js "key", quote (ci_key i)); (js "description", quote (ci_description i));
              (js "enabled", str_bool (ci_enabled i));
              (js "rollout_percentage", show (ci_rollout_percentage i));
              (js "targeted_users", str_array (ci_targeted_users i))].

(** Absent fields are [undefined] and left out. *)
Definition stringify_update (u : UpdateFlagInput) : jstr :=
  let field k (o : option jstr) := match o with Some v => [(k, v)] | None => [] end in
  str_object (field (js "description") (quote <$> ui_description u)
              ++ field (js "enabled") (str_bool <$> ui_enabled u)
              ++ field (js "rollout_percentage") (show <$> ui_rollout_percentage u)
              ++ field (js "targeted_users") (str_array <$> ui_targeted_users u)).

(** ** Headers

    A header list is keyed by lower-case names. *)
Definition lower_unit (c : Z) : Z := if (65 <=? c) && (c <=? 90) then c + 32 else c.
Definition lower (s : jstr) : jstr := map lower_unit s.
Definition headers := list (jstr * jstr).
(** [new Headers(object)] *)
Definition to_headers (o : list (jstr * jstr)) : headers :=
  foldl (λ h p, match map_get h (lower p.1) with
                | Some v => map_set h (lower p.1) (v ++ js ", " ++ p.2)
                | None => map_set h (lower p.1) p.2
                end) [] o.
Definition header_get (h : headers) (name : jstr) : option jstr := map_get h (lower name).

Record http_request := mkRequest {
  rq_method : jstr; rq_url : jstr; rq_headers : headers; rq_body : option jstr }.

(** What [fetch] settles to: a rejection, or a response whose body, if it is
    text that parses, is a JSON value. *)
Record http_response := mkHttpResponse {
  hr_status : Z; hr_statusText : jstr; hr_headers : headers; hr_text : jstr; hr_json : option json }.
Inductive fetched := NetworkError | Fetched (r : http_response).

Definition hr_ok (r : http_response) : bool := (200 <=? hr_status r) && (hr_status r <=? 299).

(** ** [encodeURIComponent] *)
Definition is_unreserved (c : Z) : bool :=
  ((97 <=? c) && (c <=? 122)) || ((65 <=? c) && (c <=? 90)) || is_digit c
  || bool_decide (c ∈ [45; 95; 46; 33; 126; 42; 39; 40; 41]).

Definition hex_upper (n : Z) : Z := if n <? 10 then 48 + n else 55 + n.
Definition percent (b : Z) : jstr := [37; hex_upper (b / 16); hex_upper (b mod 16)].

Definition is_high (c : Z) : bool := (55296 <=? c) && (c <? 56320).
Definition is_low (c : Z) : bool := (56320 <=? c) && (c <? 57344).

(** [None] is a [URIError]: a lone surrogate. *)
Fixpoint encodeURIComponent (s : jstr) : option jstr :=
  match s with
  | [] => Some []
  | c :: r =>
      if is_unreserved c then (λ t, c :: t) <$> encodeURIComponent r
      else if is_low c then None
      else if is_high c then
        match r with
        | d :: r' =>
            if is_low d then
              let cp := 65536 + (c - 55296) * 1024 + (d - 56320) in
              (λ t, (utf8_encode1 cp ≫= percent) ++ t) <$> encodeURIComponent r'
            else None
        | [] => None
        end
      else (λ t, (utf8_encode1 c ≫= percent) ++ t) <$> encodeURIComponent r
  end.

(** Code units of strings. *)
Definition unit16 (c : Z) : Prop := 0 ≤ c < 65536.

(** Characters an encoded component can contain. *)
Definition component_char (c : Z) : Prop := is_unreserved c = true ∨ c = 37.

Lemma hex_upper_char n : 0 ≤ n < 16 → component_char (hex_upper n).
Proof.
  intros Hn. left. unfold hex_upper, is_unreserved, is_digit.
  destruct (Z.ltb_spec n 10).
  - rewrite (proj2 (Z.leb_le 48 _)), (proj2 (Z.leb_le _ 57)) by lia. by rewrite !orb_true_r.
  - rewrite (proj2 (Z.leb_le 65 _)), (proj2 (Z.leb_le _ 90)) by lia. by rewrite !orb_true_r.
Qed.

Lemma percent_chars b : 0 ≤ b < 256 → Forall component_char (percent b).
Proof.
  intros Hb. unfold percent. rewrite !Forall_cons. split_and!; [| | |constructor].
  - by right.
  - apply hex_upper_char. split; [apply Z.div_pos; lia | apply Z.div_lt_upper_bound; lia].
  - apply hex_upper_char. apply Z.mod_pos_bound. lia.
Qed.

Lemma utf8_bytes cp : 0 ≤ cp < 1114112 → Forall (λ b, 0 ≤ b < 256) (utf8_encode1 cp).
Proof.
  intros Hc. unfold utf8_encode1.
  destruct (Z.ltb_spec cp 128); [repeat constructor; lia|].
  destruct (Z.ltb_spec cp 2048); [|destruct (Z.ltb_spec cp 65536)].
  all: repeat constructor; Z.div_mod_to_equations; lia.
Qed.

Lemma encode_chars s t :
  Forall unit16 s → encodeURIComponent s = Some t → Forall component_char t.
Proof.
  remember (length s) as n eqn:Hn. revert s t Hn.
  induction n as [n IH] using lt_wf_ind. intros [|c s] t Hn Hs Ht; simpl in Ht; [by simplify_eq|].
  apply Forall_cons in Hs as [Hc Hs]. simpl in Hn. unfold unit16 in Hc.
  assert (∀ cp, 0 ≤ cp < 1114112 → Forall component_char (utf8_encode1 cp ≫= percent)) as Hp.
  { intros cp Hcp. apply Forall_forall. intros x (b & Hx & Hb)%list_elem_of_bind.
    pose proof (proj1 (Forall_forall _ _) (utf8_bytes cp Hcp) b Hb).
    by apply (proj1 (Forall_forall _ _) (percent_chars b ltac:(done)) x). }
  destruct (is_unreserved c) eqn:Hu; [|destruct (is_low c); [done|destruct (is_high c) eqn:Hh]].
  - apply fmap_Some in Ht as (t' & Ht & ->). constructor; [by left|].
    eapply (IH (length s)); [lia|done|done|done].
  - destruct s as [|d s']; [done|]. destruct (is_low d) eqn:Hd; [|done].
    apply fmap_Some in Ht as (t' & Ht & ->). apply Forall_cons in Hs as [_ Hs].
    unfold is_high, is_low in *. boolify. apply Forall_app. split; [apply Hp; lia|].
    eapply (IH (length s')); [simpl in Hn; lia|done|done|done].
  - apply fmap_Some in Ht as (t' & Ht & ->). apply Forall_app. split; [apply Hp; lia|].
    eapply (IH (length s)); [lia|done|done|done].
Qed.
