(* ===== verification/JsonText.v ===== *)
(** * JSON text

    What the two ends of a request make of a body: [JSON.stringify] and
    [encoding/json]'s [Marshal] print, [JSON.parse] and [encoding/json]'s
    [Decoder] read.  Both printers are one function over the way they escape a
    character, and both readers one parser: JavaScript's keeps the last of equal
    keys, Go's hands the fields to a struct in order.  Numbers are integers, as
    everywhere in this system; one with a fraction or an exponent is an error,
    which is also what decoding it into an [int] is. *)
From S2P Require Import Prelude JsMap Types Json.

(** Induction through arrays and objects *)
Lemma json_nested_ind (P : json → Prop) :
  P JNull → (∀ b, P (JBool b)) → (∀ n, P (JNum n)) → (∀ s, P (JStr s)) →
  (∀ l, Forall P l → P (JArr l)) → (∀ fs, Forall (λ p, P p.2) fs → P (JObj fs)) → ∀ j, P j.
Proof.
  intros Hn Hb Hz Hs Ha Ho. fix IH 1. intros [|b|n|s|l|fs]; [done..| |].
  - apply Ha. induction l; constructor; [apply IH|done].
  - apply Ho. induction fs; constructor; [apply IH|done].
Qed.

(** ** Printing *)
Section print.
(** How a character is written inside a string *)
Context (esc : Z → jstr).

Definition print_string (s : jstr) : jstr := [34] ++ (s ≫= esc) ++ [34].
Definition print_field (k v : jstr) : jstr := print_string k ++ js ":" ++ v.

Fixpoint print (j : json) : jstr :=
  match j with
  | JNull => js "null"
  | JBool b => str_bool b
  | JNum n => show n
  | JStr s => print_string s
  | JArr l => js "[" ++ join (js ",") (map print l) ++ js "]"
  | JObj fs => js "{" ++ join (js ",") (map (λ p, print_field p.1 (print p.2)) fs) ++ js "}"
  end.
End print.

(** [encodeState.string] with [escapeHTML], as [Marshal] and [Encoder] run it. *)
Definition go_escape (c : Z) : jstr :=
  if bool_decide (c ∈ [60; 62; 38]) then js "\u00" ++ [hex (c / 16); hex (c mod 16)]
  else if (c =? 8232) || (c =? 8233) then js "\u202" ++ [hex (c mod 16)]
  else escape_unit c.

Definition JSON_stringify : json → jstr := print escape_unit.
Definition Marshal : json → jstr := print go_escape.

(** ** Parsing *)
Definition json_space (c : Z) : bool := bool_decide (c ∈ [32; 9; 10; 13]).
Fixpoint skip_ws (s : jstr) : jstr :=
  match s with c :: r => if json_space c then skip_ws r else s | [] => [] end.

Fixpoint strip_prefix (p s : jstr) : option jstr :=
  match p, s with
  | [], _ => Some s
  | a :: p, b :: s => if a =? b then strip_prefix p s else None
  | _ :: _, [] => None
  end.

Definition unhex (c : Z) : option Z :=
  if is_digit c then Some (c - 48)
  else if (97 <=? c) && (c <=? 102) then Some (c - 87)
  else if (65 <=? c) && (c <=? 70) then Some (c - 55) else None.

Definition unescape (c : Z) : option Z :=
  if bool_decide (c ∈ [34; 92; 47]) then Some c
  else if c =? 98 then Some 8 else if c =? 102 then Some 12 else if c =? 110 then Some 10
  else if c =? 114 then Some 13 else if c =? 116 then Some 9 else None.

(** The characters up to the closing quote, and what follows it. *)
Fixpoint parse_chars (s : jstr) : option (jstr * jstr) :=
  match s with
  | [] => None
  | c :: r =>
      if c =? 34 then Some ([], r)
      else if c =? 92 then
        match r with
        | 117 :: h1 :: h2 :: h3 :: h4 :: r =>
            a ← unhex h1; b ← unhex h2; c ← unhex h3; d ← unhex h4;
            p ← parse_chars r; Some (((a * 16 + b) * 16 + c) * 16 + d :: p.1, p.2)
        | e :: r => u ← unescape e; p ← parse_chars r; Some (u :: p.1, p.2)
        | [] => None
        end
      else if c <? 32 then None
      else p ← parse_chars r; Some (c :: p.1, p.2)
  end.

Fixpoint span_digits (s : jstr) : jstr * jstr :=
  match s with
  | c :: r => if is_digit c then let '(ds, r) := span_digits r in (c :: ds, r) else ([], s)
  | [] => ([], [])
  end.

(** A digit, point or exponent would still belong to the number. *)
Definition number_ends (r : jstr) : bool :=
  match r with c :: _ => negb (is_digit c || bool_decide (c ∈ [46; 101; 69])) | [] => true end.

Definition parse_unsigned (sign : Z) (s : jstr) : option (json * jstr) :=
  let '(ds, r) := span_digits s in
  match ds with
  | [] => None
  | d :: ds' => if (d =? 48) && negb (bool_decide (ds' = [])) then None   (* a leading zero *)
                else if number_ends r then Some (JNum (sign * take_digits 0 ds), r) else None
  end.
Definition parse_number (s : jstr) : option (json * jstr) :=
  match s with
  | c :: r => if c =? 45 then parse_unsigned (-1) r else parse_unsigned 1 s
  | [] => None
  end.

Definition parse_keyword (s : jstr) : option (json * jstr) :=
  match strip_prefix (js "null") s with
  | Some r => Some (JNull, r)
  | None =>
      match strip_prefix (js "true") s with
      | Some r => Some (JBool true, r)
      | None => (λ r, (JBool false, r)) <$> strip_prefix (js "false") s
      end
  end.

(** One unit of fuel per value and per separator; the text's length is enough. *)
Fixpoint parse_value (fuel : nat) (s : jstr) : option (json * jstr) :=
  match fuel with
  | O => None
  | S fuel =>
      match skip_ws s with
      | [] => None
      | c :: r =>
          if c =? 34 then p ← parse_chars r; Some (JStr p.1, p.2)
          else if c =? 91 then
            match skip_ws r with
            | d :: r => if d =? 93 then Some (JArr [], r)
                        else p ← parse_elems fuel (d :: r); Some (JArr p.1, p.2)
            | [] => None
            end
          else if c =? 123 then
            match skip_ws r with
            | d :: r => if d =? 125 then Some (JObj [], r)
                        else p ← parse_fields fuel (d :: r); Some (JObj p.1, p.2)
            | [] => None
            end
          else match parse_keyword (c :: r) with Some p => Some p | None => parse_number (c :: r) end
      end
  end
with parse_elems (fuel : nat) (s : jstr) : option (list json * jstr) :=
  match fuel with
  | O => None
  | S fuel =>
      p ← parse_value fuel s;
      match skip_ws p.2 with
      | 44 :: r => q ← parse_elems fuel r; Some (p.1 :: q.1, q.2)
      | 93 :: r => Some ([p.1], r)
      | _ => None
      end
  end
with parse_fields (fuel : nat) (s : jstr) : option (list (jstr * json) * jstr) :=
  match fuel with
  | O => None
  | S fuel =>
      match skip_ws s with
      | 34 :: r =>
          k ← parse_chars r;
          match skip_ws k.2 with
          | 58 :: r =>
              p ← parse_value fuel r;
              match skip_ws p.2 with
              | 44 :: r => q ← parse_fields fuel r; Some ((k.1, p.1) :: q.1, q.2)
              | 125 :: r => Some ([(k.1, p.1)], r)
              | _ => None
              end
          | _ => None
          end
      | _ => None
      end
  end.

(** The value a text starts with, and the rest. *)
Definition parse_text (s : jstr) : option (json * jstr) := parse_value (S (length s)) s.

(** An object keeps the last value of a key, in the place of the first. *)
Fixpoint normalise (j : json) : json :=
  match j with
  | JArr l => JArr (map normalise l)
  | JObj fs => JObj (foldl (λ o p, map_set o p.1 p.2) [] (map (λ p, (p.1, normalise p.2)) fs))
  | _ => j
  end.

(** [JSON.parse]; [None] is a [SyntaxError]. *)
Definition JSON_parse (s : jstr) : option json :=
  match parse_text s with
  | Some (j, r) => if bool_decide (skip_ws r = []) then Some (normalise j) else None
  | None => None
  end.

(** ** Reading back what is printed *)

(** The contract between a printer's escapes and the parser's. *)
Class Escapes (esc : Z → jstr) : Prop :=
  escapes_char : ∀ c r, unit16 c →
    parse_chars (esc c ++ r) = (λ p, (c :: p.1, p.2)) <$> parse_chars r.

Lemma hex_digit n : 0 ≤ n < 16 → unhex (hex n) = Some n.
Proof.
  intros Hn. unfold hex. destruct (Z.ltb_spec n 10); unfold unhex, is_digit.
  - rewrite (proj2 (Z.leb_le 48 _)), (proj2 (Z.leb_le _ 57)) by lia. cbn. f_equal. lia.
  - rewrite (proj2 (Z.leb_gt _ 57)), andb_false_r by lia.
    rewrite (proj2 (Z.leb_le 97 _)), (proj2 (Z.leb_le _ 102)) by lia. cbn. f_equal. lia.
Qed.

Lemma parse_u_escape h1 h2 h3 h4 a b c d r :
  unhex h1 = Some a → unhex h2 = Some b → unhex h3 = Some c → unhex h4 = Some d →
  parse_chars (92 :: 117 :: h1 :: h2 :: h3 :: h4 :: r)
  = (λ p, (((a * 16 + b) * 16 + c) * 16 + d :: p.1, p.2)) <$> parse_chars r.
Proof.
  intros Ha Hb Hc Hd. cbn [parse_chars]. change (92 =? 34) with false. change (92 =? 92) with true.
  cbn iota. rewrite Ha, Hb, Hc, Hd. by destruct (parse_chars r).
Qed.

Lemma parse_raw c r : 32 ≤ c → c ≠ 34 → c ≠ 92 →
  parse_chars (c :: r) = (λ p, (c :: p.1, p.2)) <$> parse_chars r.
Proof.
  intros H1 H2 H3. cbn [parse_chars]. rewrite (proj2 (Z.eqb_neq c 34)), (proj2 (Z.eqb_neq c 92)) by done.
  rewrite (proj2 (Z.ltb_ge c 32)) by done. by destruct (parse_chars r).
Qed.

Lemma parse_hex2 c r : 0 ≤ c < 256 →
  parse_chars ((js "\u00" ++ [hex (c / 16); hex (c mod 16)]) ++ r) = (λ p, (c :: p.1, p.2)) <$> parse_chars r.
Proof.
  intros Hc. change (js "\u00") with [92; 117; 48; 48]. cbn [app].
  rewrite (parse_u_escape _ _ _ _ 0 0 (c / 16) (c mod 16)); [|done|done|apply hex_digit; Z.div_mod_to_equations; lia..].
  replace (((0 * 16 + 0) * 16 + c / 16) * 16 + c mod 16) with c; [done|]. Z.div_mod_to_equations. lia.
Qed.

#[export] Instance js_escapes : Escapes escape_unit.
Proof.
  intros c r Hc. unfold unit16 in Hc. unfold escape_unit.
  repeat (case_match; boolify; [subst; cbn; by destruct (parse_chars r)|]).
  case_match; boolify; [apply parse_hex2; lia|]. by apply parse_raw.
Qed.

#[export] Instance go_escapes : Escapes go_escape.
Proof.
  intros c r Hc. unfold go_escape. case_bool_decide as He.
  - apply parse_hex2. set_unfold. unfold unit16 in Hc. lia.
  - destruct (_ || _)%bool eqn:E; [|by apply js_escapes].
    change (js "\u202") with [92; 117; 50; 48; 50]. cbn [app].
    boolify. destruct E; boolify; subst; cbn; by destruct (parse_chars r).
Qed.

Lemma strip_prefix_app p r : strip_prefix p (p ++ r) = Some r.
Proof. induction p as [|a p IH]; [by destruct r|]. cbn. by rewrite Z.eqb_refl. Qed.

(** What may follow a value: nothing that continues a number. *)
Lemma parse_digits ds r :
  Forall (λ c, is_digit c = true) ds → number_ends r = true → span_digits (ds ++ r) = (ds, r).
Proof.
  intros Hd Hr. induction Hd as [|c ds Hc _ IH]; cbn [app span_digits].
  - destruct r as [|c r]; [done|]. cbn in Hr |- *. destruct (is_digit c); done.
  - by rewrite Hc, IH.
Qed.

Lemma show_fuel_head f n : 0 < n < 10 ^ Z.of_nat f → head (show_fuel f n) ≠ Some 48.
Proof.
  revert n. induction f as [|f IH]; intros n Hn; [simpl in Hn; lia|].
  rewrite Nat2Z.inj_succ, Z.pow_succ_r in Hn by lia. cbn [show_fuel]. case_match eqn:E; boolify.
  - cbn. intros [= H]. lia.
  - assert (0 < n / 10) by (apply Z.div_str_pos; lia).
    specialize (IH (n / 10) ltac:(split; [done|apply Z.div_lt_upper_bound; lia])).
    destruct (show_fuel f (n / 10)) as [|c l] eqn:Hs; [|done]. destruct f; [simpl in *; lia|].
    cbn [show_fuel] in Hs. case_match; [done|]. by destruct (show_fuel f _).
Qed.

Lemma parse_unsigned_show sign n r : 0 ≤ n → number_ends r = true →
  parse_unsigned sign (show_nonneg n ++ r) = Some (JNum (sign * n), r).
Proof.
  intros Hn Hr. pose proof (show_nonneg_digits n Hn) as Hd. pose proof (show_nonneg_value n Hn) as Hv.
  unfold parse_unsigned. rewrite parse_digits by done. rewrite Hv, Hr.
  destruct (Z.eq_dec n 0) as [->|]; [done|].
  pose proof (show_fuel_head (S (Z.to_nat (Z.log2 n))) n ltac:(split; [lia|by apply log2_fuel])) as Hh.
  fold (show_nonneg n) in Hh. destruct (show_nonneg_cons n Hn) as (c & l & Hs & Hc). rewrite Hs in *.
  rewrite (proj2 (Z.eqb_neq c 48)); [done|]. intros ->. by apply Hh.
Qed.

Lemma parse_number_show n r : number_ends r = true → parse_number (show n ++ r) = Some (JNum n, r).
Proof.
  intros Hr. unfold show. destruct (n <? 0) eqn:E; boolify.
  - cbn [app parse_number]. change (45 =? 45) with true. cbn iota.
    rewrite parse_unsigned_show by (done || lia). do 3 f_equal. lia.
  - pose proof (parse_unsigned_show 1 n r E Hr) as Hp. destruct (show_nonneg_cons n E) as (c & l & Hs & Hc).
    rewrite Hs in *. apply is_digit_spec in Hc. cbn [app parse_number] in *.
    rewrite (proj2 (Z.eqb_neq c 45)), Hp by lia. do 3 f_equal. lia.
Qed.

(** Strings of 16-bit units, everywhere in a value *)
Fixpoint json_units (j : json) : Prop :=
  match j with
  | JStr s => Forall unit16 s
  | JArr l => foldr (λ x P, json_units x ∧ P) True l
  | JObj fs => foldr (λ p P, (Forall unit16 p.1 ∧ json_units p.2) ∧ P) True fs
  | _ => True
  end.

(** Equal keys are printed once. *)
Fixpoint json_keys (j : json) : Prop :=
  match j with
  | JArr l => foldr (λ x P, json_keys x ∧ P) True l
  | JObj fs => NoDup fs.*1 ∧ foldr (λ p P, json_keys p.2 ∧ P) True fs
  | _ => True
  end.

(** Fuel for a value *)
Fixpoint json_size (j : json) : nat :=
  match j with
  | JArr l => S (foldr (λ x n, S (json_size x + n)) 0%nat l)
  | JObj fs => S (foldr (λ p n, S (json_size p.2 + n)) 0%nat fs)
  | _ => 1
  end.

Lemma skip_ws_cons c r : json_space c = false → skip_ws (c :: r) = c :: r.
Proof. intros Hc. cbn. by rewrite Hc. Qed.

(** A value starts with a character that is neither space nor a bracket's end. *)
Definition starts_value (s : jstr) : Prop :=
  ∃ c r, s = c :: r ∧ json_space c = false ∧ c ≠ 93 ∧ c ≠ 125.

Lemma show_starts n : starts_value (show n).
Proof.
  assert (∀ m, 0 ≤ m → starts_value (show_nonneg m)) as Hd.
  { intros m Hm. destruct (show_nonneg_cons m Hm) as (c & r & -> & Hc%is_digit_spec).
    exists c, r. split_and!; [done| |lia..]. unfold json_space. apply bool_decide_eq_false. set_unfold. lia. }
  unfold show. case_match; boolify; [by exists 45, (show_nonneg (- n))|by apply Hd].
Qed.

Lemma show_head n c t : show n = c :: t → c = 45 ∨ 48 ≤ c ≤ 57.
Proof.
  unfold show. case_match; boolify; [intros [= <- <-]; by left|].
  destruct (show_nonneg_cons n) as (d & r & -> & Hd%is_digit_spec); [done|]. intros [= <- <-]. by right.
Qed.

Lemma join_cons2 (sep x y : jstr) l : join sep (x :: y :: l) = x ++ sep ++ join sep (y :: l).
Proof. done. Qed.

Lemma join_starts x l : starts_value x → starts_value (join (js ",") (x :: l)).
Proof.
  intros (c & r & -> & H). destruct l as [|y l]; [by exists c, r|]. rewrite join_cons2.
  exists c, (r ++ js "," ++ join (js ",") (y :: l)). done.
Qed.

Section reading.
Context (esc : Z → jstr) `{!Escapes esc}.

Lemma parse_chars_string s r : Forall unit16 s → parse_chars ((s ≫= esc) ++ 34 :: r) = Some (s, r).
Proof.
  induction 1 as [|c s Hc _ IH]; [done|]. change ((c :: s) ≫= esc) with (esc c ++ (s ≫= esc)).
  by rewrite <-app_assoc, escapes_char, IH.
Qed.

Lemma print_starts j : starts_value (print esc j).
Proof.
  destruct j as [|[]|n|s|l|fs]; cbn [print];
    [..|by exists 91, (join (js ",") (map (print esc) l) ++ js "]")
       |by exists 123, (join (js ",") (map (λ p, print_field esc p.1 (print esc p.2)) fs) ++ js "}")].
  - by exists 110, [117; 108; 108].
  - by exists 116, [114; 117; 101].
  - by exists 102, [97; 108; 115; 101].
  - apply show_starts.
  - by exists 34, ((s ≫= esc) ++ [34]).
Qed.

Lemma parse_number_digit s r : starts_value s → parse_keyword (s ++ r) = None →
  (∀ c t, s = c :: t → c ≠ 34 ∧ c ≠ 91 ∧ c ≠ 123) →
  ∀ fuel, parse_value (S fuel) (s ++ r) = parse_number (s ++ r).
Proof.
  intros (c & t & -> & Hw & _ & _) Hk Hc fuel. destruct (Hc c t eq_refl) as (H1 & H2 & H3).
  cbn [app] in *. cbn [parse_value]. rewrite skip_ws_cons by done.
  by rewrite (proj2 (Z.eqb_neq c 34)), (proj2 (Z.eqb_neq c 91)), (proj2 (Z.eqb_neq c 123)), Hk by done.
Qed.

Definition reads (j : json) : Prop :=
  json_units j → ∀ fuel r, (json_size j ≤ fuel)%nat → number_ends r = true →
  parse_value fuel (print esc j ++ r) = Some (j, r).

Lemma reads_num n : reads (JNum n).
Proof.
  intros _ [|fuel] r Hf Hr; [simpl in Hf; lia|]. cbn [print].
  rewrite (parse_number_digit (show n)); [by apply parse_number_show|apply show_starts| |].
  - destruct (show n) as [|c t] eqn:Hs; [by destruct (show_starts n) as (? & ? & Hn & _); rewrite Hs in Hn|].
    pose proof (show_head n c t Hs) as Hc. unfold parse_keyword.
    change (js "null") with [110; 117; 108; 108]. change (js "true") with [116; 114; 117; 101].
    change (js "false") with [102; 97; 108; 115; 101]. cbn [app strip_prefix].
    by rewrite (proj2 (Z.eqb_neq 110 c)), (proj2 (Z.eqb_neq 116 c)), (proj2 (Z.eqb_neq 102 c)) by lia.
  - intros c t Hs. pose proof (show_head n c t Hs). lia.
Qed.

Lemma reads_elems l : Forall reads l → l ≠ [] → foldr (λ x P, json_units x ∧ P) True l → ∀ fuel r,
  (foldr (λ x n, S (json_size x + n)) 0 l ≤ fuel)%nat →
  parse_elems fuel (join (js ",") (map (print esc) l) ++ 93 :: r) = Some (l, r).
Proof.
  induction 1 as [|x l Hx Hl IH]; [done|]. intros _ [Hux Hul] [|fuel] r Hf; [simpl in Hf; lia|].
  destruct l as [|y l]; cbn [map].
  - cbn [join parse_elems]. rewrite Hx by (done || simpl in Hf; lia). done.
  - rewrite join_cons2. change (js ",") with [44] at 1. rewrite <-!app_assoc. cbn [app parse_elems].
    rewrite Hx by (done || simpl in Hf; lia). cbn [mbind option_bind snd fst].
    change (skip_ws (44 :: ?t)) with (44 :: t). cbn iota.
    specialize (IH ltac:(done) Hul fuel r). cbn [map] in IH. rewrite IH by (simpl in Hf |- *; lia). done.
Qed.

Lemma reads_fields fs : Forall (λ p, reads p.2) fs → fs ≠ [] →
  foldr (λ p P, (Forall unit16 p.1 ∧ json_units p.2) ∧ P) True fs → ∀ fuel r,
  (foldr (λ p n, S (json_size p.2 + n)) 0 fs ≤ fuel)%nat →
  parse_fields fuel (join (js ",") (map (λ p, print_field esc p.1 (print esc p.2)) fs) ++ 125 :: r) = Some (fs, r).
Proof.
  induction 1 as [|[k v] fs Hx Hl IH]; [done|]. intros _ [[Huk Huv] Hul] [|fuel] r Hf; [simpl in Hf; lia|].
  cbn [fst snd] in *.
  assert (∀ t, parse_fields (S fuel) (print_field esc k (print esc v) ++ t)
    = p ← parse_value fuel (print esc v ++ t);
      match skip_ws p.2 with
      | 44 :: r => q ← parse_fields fuel r; Some ((k, p.1) :: q.1, q.2)
      | 125 :: r => Some ([(k, p.1)], r)
      | _ => None
      end) as Hstep.
  { intros t. unfold print_field, print_string. change (js ":") with [58]. rewrite <-!app_assoc. cbn [app parse_fields].
    change (skip_ws (34 :: ?t)) with (34 :: t). cbn iota. rewrite parse_chars_string by done. done. }
  destruct fs as [|y fs]; cbn [map].
  - cbn [join]. rewrite Hstep. cbn [fst snd]. rewrite Hx by (done || simpl in Hf; lia). done.
  - rewrite join_cons2. change (js ",") with [44] at 1. rewrite <-!app_assoc. cbn [fst snd]. rewrite Hstep.
    rewrite Hx by (done || simpl in Hf; lia). cbn [mbind option_bind snd fst app].
    change (skip_ws (44 :: ?t)) with (44 :: t). cbn iota.
    specialize (IH ltac:(done) Hul fuel r). cbn [map] in IH. rewrite IH by (simpl in Hf |- *; lia). done.
Qed.

Lemma print_reads j : reads j.
Proof.
  induction j as [|[]|n|s|l IH|fs IH] using json_nested_ind; try (apply reads_num);
    intros Hu [|fuel] r Hf Hr; try (simpl in Hf; lia); cbn [print].
  - reflexivity.
  - reflexivity.
  - reflexivity.
  - unfold print_string. rewrite <-!app_assoc. cbn [app parse_value].
    change (skip_ws (34 :: ?t)) with (34 :: t). change (34 =? 34) with true. cbn iota.
    by rewrite parse_chars_string.
  - change (js "[") with [91]. change (js "]") with [93]. rewrite <-!app_assoc. cbn [app parse_value].
    change (skip_ws (91 :: ?t)) with (91 :: t). change (91 =? 34) with false. change (91 =? 91) with true. cbn iota.
    destruct l as [|x l]; [done|].
    destruct (join_starts (print esc x) (map (print esc) l) (print_starts x)) as (c & t & Hj & Hw & Hc & _).
    pose proof (reads_elems (x :: l) IH ltac:(done) Hu fuel r ltac:(simpl in Hf |- *; lia)) as Hp.
    cbn [map] in *. rewrite Hj in *. cbn [app] in *. rewrite skip_ws_cons by done.
    by rewrite (proj2 (Z.eqb_neq c 93)), Hp by done.
  - change (js "{") with [123]. change (js "}") with [125]. rewrite <-!app_assoc. cbn [app parse_value].
    change (skip_ws (123 :: ?t)) with (123 :: t). change (123 =? 34) with false.
    change (123 =? 91) with false. change (123 =? 123) with true. cbn iota.
    destruct fs as [|[k v] fs]; [done|].
    pose proof (reads_fields ((k, v) :: fs) IH ltac:(done) Hu fuel r ltac:(simpl in Hf |- *; lia)) as Hp.
    destruct (join_starts (print_field esc k (print esc v))
      (map (λ p, print_field esc p.1 (print esc p.2)) fs)) as (c & t & Hj & Hw & _ & Hc).
    { by exists 34, (((k ≫= esc) ++ [34]) ++ js ":" ++ print esc v). }
    cbn [map fst snd] in *. rewrite Hj in *. cbn [app] in *. rewrite skip_ws_cons by done.
    by rewrite (proj2 (Z.eqb_neq c 125)), Hp by done.
Qed.
End reading.

Lemma length_join (sep : jstr) (l : list jstr) : length sep = 1%nat →
  (foldr (λ s n, S (length s + n)) 0 l ≤ S (length (join sep l)))%nat.
Proof.
  intros Hsep. induction l as [|x [|y l] IH]; [simpl; lia..|]. rewrite join_cons2, !length_app.
  cbn [foldr] in *. lia.
Qed.

Lemma foldr_mono {A} (f g : A → nat) l : Forall (λ x, (f x ≤ g x)%nat) l →
  (foldr (λ x n, S (f x + n)) 0 l ≤ foldr (λ x n, S (g x + n)) 0 l)%nat.
Proof. induction 1; cbn [foldr]; lia. Qed.

Lemma foldr_lengths {A} (f : A → jstr) l :
  foldr (λ s n, S (length s + n)) 0%nat (map f l) = foldr (λ x n, S (length (f x) + n)) 0%nat l.
Proof. induction l; cbn [foldr map]; congruence. Qed.

(** The text is at least as long as the fuel its value needs. *)
Lemma json_size_print esc j : (json_size j ≤ length (print esc j))%nat.
Proof.
  induction j as [|b|n|s|l IH|fs IH] using json_nested_ind; cbn [json_size print].
  - by vm_compute; lia.
  - destruct b; vm_compute; lia.
  - destruct (show_starts n) as (c & r & -> & _). simpl. lia.
  - unfold print_string. rewrite !length_app. simpl. lia.
  - rewrite !length_app. change (length (js "[")) with 1%nat. change (length (js "]")) with 1%nat.
    pose proof (length_join (js ",") (map (print esc) l) eq_refl) as Hj. rewrite foldr_lengths in Hj.
    pose proof (foldr_mono json_size (λ x, length (print esc x)) l IH). lia.
  - rewrite !length_app. change (length (js "{")) with 1%nat. change (length (js "}")) with 1%nat.
    pose proof (length_join (js ",") (map (λ p, print_field esc p.1 (print esc p.2)) fs) eq_refl) as Hj.
    rewrite foldr_lengths in Hj.
    pose proof (foldr_mono (λ p, json_size p.2) (λ p, length (print_field esc p.1 (print esc p.2))) fs) as Hm.
    assert (foldr (λ p n, S (json_size p.2 + n)) 0 fs
            ≤ foldr (λ p n, S (length (print_field esc p.1 (print esc p.2)) + n)) 0 fs)%nat; [|lia].
    apply Hm. eapply Forall_impl; [exact IH|]. intros [k v] Hv. cbn [fst snd] in *.
    unfold print_field. rewrite !length_app. lia.
Qed.

(** A printed value, with anything that does not continue it behind. *)
Lemma parse_text_print esc `{!Escapes esc} j r : json_units j → number_ends r = true →
  parse_text (print esc j ++ r) = Some (j, r).
Proof.
  intros Hu Hr. apply print_reads; [done..| |done]. pose proof (json_size_print esc j).
  rewrite length_app. lia.
Qed.

Lemma map_set_fresh {V} (o : list (jstr * V)) k v : k ∉ o.*1 → map_set o k v = o ++ [(k, v)].
Proof.
  induction o as [|[k' v'] o IH]; [done|]. cbn [fmap list_fmap fst map_set]. intros Hk.
  apply not_elem_of_cons in Hk as [Hne Hk]. rewrite decide_False by congruence. cbn. by rewrite IH.
Qed.

Lemma fold_map_set {V} (fs o : list (jstr * V)) :
  NoDup (o ++ fs).*1 → foldl (λ o p, map_set o p.1 p.2) o fs = o ++ fs.
Proof.
  revert o. induction fs as [|[k v] fs IH]; intros o Hd; cbn [foldl fst snd]; [by rewrite app_nil_r|].
  rewrite map_set_fresh.
  - rewrite IH, <-app_assoc; [done|]. by rewrite <-app_assoc.
  - rewrite fmap_app, NoDup_app in Hd. destruct Hd as (_ & Hd & _). intros Hin. apply (Hd k Hin). cbn. set_solver.
Qed.

Lemma normalise_keys j : json_keys j → normalise j = j.
Proof.
  induction j as [|b|n|s|l IH|fs IH] using json_nested_ind; cbn [normalise json_keys]; try done.
  - intros Hk. f_equal. induction IH as [|x l Hx _ IH]; [done|]. destruct Hk as [Hkx Hk].
    cbn [map]. by rewrite Hx, IH.
  - intros [Hd Hk]. assert (map (λ p, (p.1, normalise p.2)) fs = fs) as ->.
    + clear Hd. induction IH as [|[k v] fs Hx _ IH]; [done|]. destruct Hk as [Hkx Hk]. cbn [map fst snd] in *.
      by rewrite Hx, IH.
    + by rewrite (fold_map_set fs []).
Qed.

Lemma JSON_parse_print esc `{!Escapes esc} j ws :
  json_units j → json_keys j → number_ends ws = true → skip_ws ws = [] → JSON_parse (print esc j ++ ws) = Some j.
Proof.
  intros Hu Hk Hn Hw. unfold JSON_parse. rewrite parse_text_print by done.
  by rewrite bool_decide_true, normalise_keys.
Qed.

(** JSON survives the wire.  Whatever value either end prints, with its own
    escapes, [JSON.parse] reads as the same value: strings of any 16-bit units,
    integers of any size, arrays and objects of any depth, no matter how long
    the text is. *)
Theorem json_round_trip (j : json) :
  json_units j → json_keys j → JSON_parse (JSON_stringify j) = Some j ∧ JSON_parse (Marshal j) = Some j.
Proof.
  intros Hu Hk. unfold JSON_stringify, Marshal.
  split; rewrite <-(app_nil_r (print _ j)); apply JSON_parse_print; (done || apply _).
Qed.

(** ** [encoding/json] into a struct *)

(** Text that is not a Unicode string becomes one: a surrogate without its
    other half is replaced. *)
Fixpoint go_string (s : jstr) : jstr :=
  match s with
  | [] => []
  | c :: r =>
      if is_high c then
        match r with
        | d :: r' => if is_low d then c :: d :: go_string r' else 65533 :: go_string r
        | [] => [65533]
        end
      else if is_low c then 65533 :: go_string r else c :: go_string r
  end.

(** Field names match but for case, the two letters beyond ASCII that fold
    into it included. *)
Definition fold_unit (c : Z) : Z := if c =? 8490 then 107 else if c =? 383 then 115 else lower_unit c.
Definition fold_name (s : jstr) : jstr := map fold_unit (go_string s).

Definition go_int (n : Z) : option Z := if (- 2 ^ 63 <=? n) && (n <? 2 ^ 63) then Some n else None.
Definition go_element (j : json) : option jstr :=
  match j with JStr s => Some (go_string s) | JNull => Some [] | _ => None end.

(** What a field's value does to it; [None] is an [UnmarshalTypeError]. *)
Section fields.
Context {A : Type}.
Definition into_string (set : jstr → A → A) (j : json) (a : A) : option A :=
  match j with JStr s => Some (set (go_string s) a) | JNull => Some a | _ => None end.
Definition into_bool (set : bool → A → A) (j : json) (a : A) : option A :=
  match j with JBool b => Some (set b a) | JNull => Some a | _ => None end.
Definition into_int (set : Z → A → A) (j : json) (a : A) : option A :=
  match j with JNum n => (λ n, set n a) <$> go_int n | JNull => Some a | _ => None end.
(** A slice; [null] makes it [nil]. *)
Definition into_strings (set : option (list jstr) → A → A) (j : json) (a : A) : option A :=
  match j with JArr l => (λ l, set (Some l) a) <$> mapM go_element l | JNull => Some (set None a) | _ => None end.
(** A pointer; [null] makes it [nil]. *)
Definition into_pointer {B} (into : (B → A → A) → json → A → option A) (set : option B → A → A) (j : json) (a : A) : option A :=
  match j with JNull => Some (set None a) | _ => into (λ b, set (Some b)) j a end.

(** The fields in order; a name the struct does not have is skipped. *)
Definition decode_struct (field : jstr → json → A → option A) (zero : A) (j : json) : option A :=
  match j with
  | JObj fs => foldl (λ o p, o ≫= field (fold_name p.1) p.2) (Some zero) fs
  | JNull => Some zero
  | _ => None
  end.
End fields.

(** [model.CreateFlagRequest]; [CreateFlag] reads a [nil] slice as an empty one. *)
Definition create_field (k : jstr) (j : json) (i : CreateFlagInput) : option CreateFlagInput :=
  let 'mkCreateFlagInput key d e p u := i in
  if decide (k = js "key") then into_string (λ x _, mkCreateFlagInput x d e p u) j i
  else if decide (k = js "description") then into_string (λ x _, mkCreateFlagInput key x e p u) j i
  else if decide (k = js "enabled") then into_bool (λ x _, mkCreateFlagInput key d x p u) j i
  else if decide (k = js "rollout_percentage") then into_int (λ x _, mkCreateFlagInput key d e x u) j i
  else if decide (k = js "targeted_users") then into_strings (λ x _, mkCreateFlagInput key d e p (default [] x)) j i
  else Some i.

(** [model.UpdateFlagRequest] without [ExpectedVersion], which JSON does not set. *)
Definition update_field (k : jstr) (j : json) (i : UpdateFlagInput) : option UpdateFlagInput :=
  let 'mkUpdateFlagInput d e p u := i in
  if decide (k = js "description") then into_pointer into_string (λ x _, mkUpdateFlagInput x e p u) j i
  else if decide (k = js "enabled") then into_pointer into_bool (λ x _, mkUpdateFlagInput d x p u) j i
  else if decide (k = js "rollout_percentage") then into_pointer into_int (λ x _, mkUpdateFlagInput d e x u) j i
  else if decide (k = js "targeted_users") then into_strings (λ x _, mkUpdateFlagInput d e p x) j i
  else Some i.

(** [json.NewDecoder(r.Body).Decode(&req)] reads one value and leaves the rest. *)
Definition Decode {A} (from : json → option A) (body : jstr) : option A := parse_text body ≫= λ p, from p.1.

Definition decode_create : jstr → option CreateFlagInput :=
  Decode (decode_struct create_field (mkCreateFlagInput [] [] false 0 [])).
Definition decode_update : jstr → option UpdateFlagInput :=
  Decode (decode_struct update_field (mkUpdateFlagInput None None None None)).

(** ** The dashboard's bodies *)

(** Text the browser can send: 16-bit units whose surrogates are paired. *)
Definition text_ok (s : jstr) : Prop := Forall unit16 s ∧ go_string s = s.
Definition int64 (n : Z) : Prop := - 2 ^ 63 ≤ n < 2 ^ 63.

Record create_ok (i : CreateFlagInput) : Prop := {
  co_key : text_ok (ci_key i); co_description : text_ok (ci_description i);
  co_percentage : int64 (ci_rollout_percentage i); co_users : Forall text_ok (ci_targeted_users i) }.

Definition opt_ok {A} (P : A → Prop) (o : option A) : Prop := match o with Some a => P a | None => True end.
Record update_ok (u : UpdateFlagInput) : Prop := {
  uo_description : opt_ok text_ok (ui_description u);
  uo_percentage : opt_ok int64 (ui_rollout_percentage u);
  uo_users : opt_ok (Forall text_ok) (ui_targeted_users u) }.

Definition create_json (i : CreateFlagInput) : json :=
  JObj [(js "key", JStr (ci_key i)); (js "description", JStr (ci_description i)); (js "enabled", JBool (ci_enabled i));
        (js "rollout_percentage", JNum (ci_rollout_percentage i));
        (js "targeted_users", JArr (map JStr (ci_targeted_users i)))].

Definition update_json (u : UpdateFlagInput) : json :=
  let field {A} (k : jstr) (f : A → json) (o : option A) := match o with Some v => [(k, f v)] | None => [] end in
  JObj (field (js "description") JStr (ui_description u) ++ field (js "enabled") JBool (ui_enabled u)
        ++ field (js "rollout_percentage") JNum (ui_rollout_percentage u)
        ++ field (js "targeted_users") (λ l, JArr (map JStr l)) (ui_targeted_users u)).

Lemma print_strings l : print escape_unit (JArr (map JStr l)) = str_array l.
Proof. cbn [print]. unfold str_array. by rewrite map_map. Qed.

Lemma stringify_create_json i : stringify_create i = JSON_stringify (create_json i).
Proof.
  unfold stringify_create, JSON_stringify, create_json, str_object.
  cbn [print map fst snd]. rewrite <-print_strings. reflexivity.
Qed.

Lemma stringify_update_json u : stringify_update u = JSON_stringify (update_json u).
Proof.
  unfold stringify_update, JSON_stringify, update_json, str_object.
  destruct u as [[d|] [e|] [p|] [l|]]; cbn [ui_description ui_enabled ui_rollout_percentage ui_targeted_users
    fmap option_fmap option_map app print map fst snd]; rewrite <-?print_strings; reflexivity.
Qed.

Lemma mapM_elements l : Forall text_ok l → mapM go_element (map JStr l) = Some l.
Proof.
  induction 1 as [|s l [_ Hs] _ IH]; [done|]. cbn [map mapM go_element]. rewrite Hs. cbn. by rewrite IH.
Qed.

Lemma units_strings l : Forall text_ok l → foldr (λ x P, json_units x ∧ P) True (map JStr l).
Proof. induction 1 as [|s l [Hs _] _ IH]; cbn; auto. Qed.

Lemma go_int_ok n : int64 n → go_int n = Some n.
Proof. intros [H1 H2]. unfold go_int. by rewrite (proj2 (Z.leb_le _ _)), (proj2 (Z.ltb_lt _ _)). Qed.

Definition is_unit16 (c : Z) : bool := (0 <=? c) && (c <? 65536).
Lemma js_units (s : jstr) : forallb is_unit16 s = true → Forall unit16 s.
Proof.
  intros H. apply Forall_forall. intros c Hc. rewrite forallb_forall in H.
  specialize (H c ltac:(by apply list_elem_of_In)). unfold is_unit16 in H. boolify. by split.
Qed.

Lemma decode_printed {A} (from : json → option A) j : json_units j → Decode from (JSON_stringify j) = from j.
Proof.
  intros Hu. unfold Decode, JSON_stringify.
  by rewrite <-(app_nil_r (print escape_unit j)), parse_text_print by (done || apply _).
Qed.

(** Decides which of the struct's names a literal is. *)
Ltac by_name :=
  match goal with |- context [fold_name (js ?n)] =>
    replace (fold_name (js n)) with (js n) by (vm_compute; reflexivity) end;
  repeat (rewrite decide_False by (vm_compute; discriminate)); by rewrite decide_True.

(** The handlers' fields by the names the dashboard sends *)
Section fields_by_name.
Context (j : json).

Lemma create_key k d e p l : create_field (fold_name (js "key")) j (mkCreateFlagInput k d e p l)
  = into_string (λ x _, mkCreateFlagInput x d e p l) j (mkCreateFlagInput k d e p l).
Proof. unfold create_field. by_name. Qed.
Lemma create_description k d e p l : create_field (fold_name (js "description")) j (mkCreateFlagInput k d e p l)
  = into_string (λ x _, mkCreateFlagInput k x e p l) j (mkCreateFlagInput k d e p l).
Proof. unfold create_field. by_name. Qed.
Lemma create_enabled k d e p l : create_field (fold_name (js "enabled")) j (mkCreateFlagInput k d e p l)
  = into_bool (λ x _, mkCreateFlagInput k d x p l) j (mkCreateFlagInput k d e p l).
Proof. unfold create_field. by_name. Qed.
Lemma create_percentage k d e p l : create_field (fold_name (js "rollout_percentage")) j (mkCreateFlagInput k d e p l)
  = into_int (λ x _, mkCreateFlagInput k d e x l) j (mkCreateFlagInput k d e p l).
Proof. unfold create_field. by_name. Qed.
Lemma create_users k d e p l : create_field (fold_name (js "targeted_users")) j (mkCreateFlagInput k d e p l)
  = into_strings (λ x _, mkCreateFlagInput k d e p (default [] x)) j (mkCreateFlagInput k d e p l).
Proof. unfold create_field. by_name. Qed.

Lemma update_description d e p l : update_field (fold_name (js "description")) j (mkUpdateFlagInput d e p l)
  = into_pointer into_string (λ x _, mkUpdateFlagInput x e p l) j (mkUpdateFlagInput d e p l).
Proof. unfold update_field. by_name. Qed.
Lemma update_enabled d e p l : update_field (fold_name (js "enabled")) j (mkUpdateFlagInput d e p l)
  = into_pointer into_bool (λ x _, mkUpdateFlagInput d x p l) j (mkUpdateFlagInput d e p l).
Proof. unfold update_field. by_name. Qed.
Lemma update_percentage d e p l : update_field (fold_name (js "rollout_percentage")) j (mkUpdateFlagInput d e p l)
  = into_pointer into_int (λ x _, mkUpdateFlagInput d e x l) j (mkUpdateFlagInput d e p l).
Proof. unfold update_field. by_name. Qed.
Lemma update_users d e p l : update_field (fold_name (js "targeted_users")) j (mkUpdateFlagInput d e p l)
  = into_strings (λ x _, mkUpdateFlagInput d e p x) j (mkUpdateFlagInput d e p l).
Proof. unfold update_field. by_name. Qed.
End fields_by_name.

(** Reads the fields of a printed struct, one after the other. *)
Ltac read_field :=
  match goal with
  | |- context [create_field (fold_name (js "key")) _ _] => rewrite create_key
  | |- context [create_field (fold_name (js "description")) _ _] => rewrite create_description
  | |- context [create_field (fold_name (js "enabled")) _ _] => rewrite create_enabled
  | |- context [create_field (fold_name (js "rollout_percentage")) _ _] => rewrite create_percentage
  | |- context [create_field (fold_name (js "targeted_users")) _ _] => rewrite create_users
  | |- context [update_field (fold_name (js "description")) _ _] => rewrite update_description
  | |- context [update_field (fold_name (js "enabled")) _ _] => rewrite update_enabled
  | |- context [update_field (fold_name (js "rollout_percentage")) _ _] => rewrite update_percentage
  | |- context [update_field (fold_name (js "targeted_users")) _ _] => rewrite update_users
  end.
Ltac read_fields :=
  repeat (try read_field; progress cbn [foldl fst snd mbind option_bind fmap option_fmap option_map
            into_string into_bool into_int into_strings into_pointer];
          rewrite ?go_int_ok, ?mapM_elements by assumption).

(** The Go handlers read the bodies the dashboard writes. *)
Lemma decode_create_stringify i : create_ok i → decode_create (stringify_create i) = Some i.
Proof.
  intros [Hk Hd Hp Hu].
  rewrite stringify_create_json. unfold decode_create. rewrite decode_printed.
  - destruct i as [k d e p l], Hk as [_ Hk], Hd as [_ Hd]. unfold create_json, decode_struct.
    cbn [ci_key ci_description ci_enabled ci_rollout_percentage ci_targeted_users] in *.
    read_fields. by rewrite Hk, Hd.
  - cbn [create_json json_units foldr fst snd]. split_and!; try done; try (by apply Hk); try (by apply Hd);
      try (by apply js_units; vm_compute). by apply units_strings.
Qed.

Lemma decode_update_stringify u : update_ok u → decode_update (stringify_update u) = Some u.
Proof.
  intros [Hud Hup Huu].
  rewrite stringify_update_json. unfold decode_update. destruct u as [d e p l].
  cbn [ui_description ui_rollout_percentage ui_targeted_users] in *. rewrite decode_printed.
  - unfold update_json, decode_struct. cbn [ui_description ui_enabled ui_rollout_percentage ui_targeted_users].
    destruct d as [d|], e as [e|], p as [p|], l as [l|]; cbn [opt_ok app] in *; read_fields;
      try (destruct Hud as [_ ->]); done.
  - destruct d as [d|], e as [e|], p as [p|], l as [l|]; cbn [opt_ok update_json json_units foldr fst snd app
      ui_description ui_enabled ui_rollout_percentage ui_targeted_users] in *; try split_and!;
      try done; try (by apply Hud); try (by apply js_units; vm_compute); by apply units_strings.
Qed.

(** C17: the server reads the form.  Whatever the dashboard sends, quotes,
    control characters and emoji in names included, the Go handler decodes from
    the body exactly the input the form built: for a creation every field, for an
    update exactly the fields that are present, and an empty user list stays a
    list. *)
Theorem request_body_round_trip (i : CreateFlagInput) (u : UpdateFlagInput) :
  create_ok i → update_ok u →
  decode_create (stringify_create i) = Some i ∧ decode_update (stringify_update u) = Some u.
Proof. intros Hi Hu. split; [by apply decode_create_stringify|by apply decode_update_stringify]. Qed.

(** ** Witnesses *)
Definition demo_value : json :=
  JObj [(js "a<b", JArr [JNum (-12); JNull; JBool false; JStr [34; 92; 10; 55357; 56832; 8232]]); (js "", JObj [])].

Lemma json_round_trip_witness : JSON_parse (JSON_stringify demo_value) = Some demo_value ∧ JSON_parse (Marshal demo_value) = Some demo_value.
Proof.
  apply json_round_trip.
  - repeat split; by apply js_units.
  - cbn [json_keys demo_value foldr fst snd]. split_and!; try done; apply (bool_decide_unpack _); vm_compute; exact I.
Defined.

Definition demo_create : CreateFlagInput := mkCreateFlagInput (js "dark-mode") (js "café ☕ 😀") true 50 [js "alice"; js "bob"].
Definition demo_change : UpdateFlagInput := mkUpdateFlagInput (Some (js "line")) None (Some 0) (Some []).

Lemma request_body_round_trip_witness :
  decode_create (stringify_create demo_create) = Some demo_create ∧ decode_update (stringify_update demo_change) = Some demo_change.
Proof.
  assert (∀ s, forallb is_unit16 (js s) = true → bool_decide (go_string (js s) = js s) = true → text_ok (js s)) as Ht.
  { intros s Hu%js_units Hg%bool_decide_eq_true. by split. }
  apply request_body_round_trip.
  - split; [by apply Ht|by apply Ht|by split|]. repeat (apply Forall_cons; split); [by apply Ht..|by apply Forall_nil].
  - split; [by apply Ht|by split|by apply Forall_nil].
Defined.
