(* ===== verification/Api.v ===== *)
(** * The admin path: browser client, same-origin proxy, routes

    [lib/api.ts] builds the dashboard's requests and reads the answers,
    [app/api/admin/**/route.ts] picks the backend path, [lib/admin-proxy.ts]
    forwards with the admin key, and [Server] answers.  [lib/sse.ts] and
    [hooks/useSSE.ts] are the dashboard's own stream. *)
From S2P Require Import Prelude JsMap Types Json Server.

(** [process.env.X || dflt] *)
Definition env_or (v : option jstr) (dflt : jstr) : jstr :=
  match v with Some (c :: s) => c :: s | _ => dflt end.

(** ** [lib/api.ts] *)

(** What a method's promise settles to: [Thrown m] is [new Error(m)],
    [ThrownNative] the rejection of [fetch] or of [json()]. *)
Inductive outcome :=
| Returned (j : json) | ReturnedUndefined | Thrown (message : jstr) | ThrownNative.

(** [String(v)] *)
Fixpoint to_string (j : json) : jstr :=
  match j with
  | JNull => js "null"
  | JBool b => str_bool b
  | JNum n => show n
  | JStr s => s
  | JArr l => join (js ",") (map (λ x, match x with JNull => [] | _ => to_string x end) l)
  | JObj _ => js "[object Object]"
  end.

Definition truthy (j : option json) : bool :=
  match j with
  | None | Some JNull => false
  | Some (JBool b) => b
  | Some (JNum n) => negb (n =? 0)
  | Some (JStr s) => negb (bool_decide (s = []))
  | Some _ => true
  end.

Section FlagAPI.
Context (baseUrl : jstr).

(** [{ "Content-Type": ..., ...options.headers }] *)
Definition api_headers (extra : list (jstr * jstr)) : headers :=
  to_headers (foldl (λ o p, map_set o p.1 p.2)
                [(js "Content-Type", js "application/json")] extra).

Definition request_of (path method : jstr) (body : option jstr) (extra : list (jstr * jstr)) : http_request :=
  mkRequest method (baseUrl ++ path) (api_headers extra) body.

Definition error_message (r : http_response) (error : json) : jstr :=
  let m := jget error (js "message") in
  if truthy m then default [] (to_string <$> m)
  else js "Request failed: " ++ show (hr_status r).

(** [request] after its [fetch] *)
Definition settle (f : fetched) : outcome :=
  match f with
  | NetworkError => ThrownNative
  | Fetched r =>
      if negb (hr_ok r) then
        let error := default (JObj [(js "message", JStr (hr_statusText r))]) (hr_json r) in
        if jget_throws error then ThrownNative else Thrown (error_message r error)
      else if hr_status r =? 204 then ReturnedUndefined
      else match hr_json r with Some j => Returned j | None => ThrownNative end
  end.

Definition flag_path (id : jstr) : jstr := js "/api/admin/flags/" ++ id.

Definition listFlags : http_request := request_of (js "/api/admin/flags") (js "GET") None [].
Definition getFlag (id : jstr) : http_request := request_of (flag_path id) (js "GET") None [].
Definition getFlagHistory_request (id : jstr) : http_request :=
  request_of (flag_path id ++ js "/events") (js "GET") None [].
(** [return res.events] *)
Definition getFlagHistory (f : fetched) : outcome :=
  match settle f with
  | Returned JNull => ThrownNative
  | Returned j => match jget j (js "events") with Some e => Returned e | None => ReturnedUndefined end
  | ReturnedUndefined => ThrownNative
  | o => o
  end.
Definition createFlag (input : CreateFlagInput) : http_request :=
  request_of (js "/api/admin/flags") (js "POST") (Some (stringify_create input)) [].
Definition updateFlag (id : jstr) (input : UpdateFlagInput) (expectedVersion : option Z) : http_request :=
  let extra := match expectedVersion with
               | Some v => [(js "If-Match", [34] ++ show v ++ [34])]
               | None => []
               end in
  request_of (flag_path id) (js "PUT") (Some (stringify_update input)) extra.
Definition deleteFlag (id : jstr) : http_request := request_of (flag_path id) (js "DELETE") None [].
Definition toggleFlag (id : jstr) : http_request :=
  request_of (flag_path id ++ js "/toggle") (js "PATCH") None [].
End FlagAPI.

(** ** [lib/admin-proxy.ts] *)
Section proxy.
Context (API_INTERNAL_URL ADMIN_API_KEY : jstr).

Definition has_body (method : jstr) : bool :=
  bool_decide (method = js "POST") || bool_decide (method = js "PUT") || bool_decide (method = js "PATCH").

(** The upstream request; [hr_text] of an absent body is the empty string. *)
Definition proxy_request (req : http_request) (backendPath : jstr) : http_request :=
  let hdrs := [(js "X-Admin-API-Key", ADMIN_API_KEY)] in
  let hdrs := match header_get (rq_headers req) (js "if-match") with
              | Some (c :: v) => map_set hdrs (js "If-Match") (c :: v)
              | _ => hdrs
              end in
  let body := if has_body (rq_method req) then Some (default [] (rq_body req)) else None in
  let hdrs := match body with
              | Some (_ :: _) => map_set hdrs (js "Content-Type") (js "application/json")
              | _ => hdrs
              end in
  mkRequest (rq_method req) (API_INTERNAL_URL ++ backendPath) (to_headers hdrs) body.

Definition content_type (v : jstr) : headers := to_headers [(js "Content-Type", v)].

Definition unreachable_body : json := JObj [(js "message", JStr (js "Upstream unreachable"))].

Definition proxy_response (res : fetched) : http_response :=
  match res with
  | NetworkError =>
      mkHttpResponse 502 [] (content_type (js "application/json"))
        (str_object [(js "message", quote (js "Upstream unreachable"))]) (Some unreachable_body)
  | Fetched r =>
      if hr_status r =? 204 then mkHttpResponse 204 [] [] [] None
      else mkHttpResponse (hr_status r) []
             (content_type (match header_get (hr_headers r) (js "Content-Type") with
                            | Some (c :: v) => c :: v
                            | _ => js "application/json"
                            end)) (hr_text r) (hr_json r)
  end.

Definition proxyAdmin (req : http_request) (backendPath : jstr) (upstream : http_request → fetched) : http_response :=
  proxy_response (upstream (proxy_request req backendPath)).
End proxy.

(** ** [app/api/admin/**/route.ts] *)
Inductive route := RFlags | RFlag (id : jstr) | RToggle (id : jstr) | REvents (id : jstr).

(** The methods a route file exports. *)
Definition exports (r : route) (method : jstr) : bool :=
  match r with
  | RFlags => bool_decide (method ∈ [js "GET"; js "POST"])
  | RFlag _ => bool_decide (method ∈ [js "GET"; js "PUT"; js "DELETE"])
  | RToggle _ => bool_decide (method = js "PATCH")
  | REvents _ => bool_decide (method = js "GET")
  end.

(** The path each file gives to [proxyAdmin]; [None] when [encodeURIComponent]
    throws. *)
Definition flag_path_of (id : jstr) : option jstr := (λ e, js "/api/admin/flags/" ++ e) <$> encodeURIComponent id.
Definition toggle_path_of (id : jstr) : option jstr :=
  (λ e, js "/api/admin/flags/" ++ e ++ js "/toggle") <$> encodeURIComponent id.
Definition events_path_of (id : jstr) : option jstr :=
  (λ e, js "/api/admin/flags/" ++ e ++ js "/events") <$> encodeURIComponent id.
Definition backend_path (r : route) : option jstr :=
  match r with
  | RFlags => Some (js "/api/admin/flags")
  | RFlag id => flag_path_of id
  | RToggle id => toggle_path_of id
  | REvents id => events_path_of id
  end.

(** ** [lib/sse.ts] and [hooks/useSSE.ts] *)
Definition sse_url (url sdkKey : jstr) : jstr := url ++ js "/api/client/stream?key=" ++ sdkKey.

(** A message on the dashboard's stream; [None] is data [JSON.parse] throws
    on. *)
Inductive sse_message :=
| MUpdated (data : option FlagObj) | MDeleted (data : option jstr) | MError.
Inductive sse_call := OnFlagUpdated (f : FlagObj) | OnFlagDeleted (k : jstr) | OnError.

Definition createSSEConnection (m : sse_message) : list sse_call :=
  match m with
  | MUpdated (Some f) => [OnFlagUpdated f]
  | MDeleted (Some k) => [OnFlagDeleted k]
  | MError => [OnError]
  | _ => []
  end.

(** Query keys invalidated by the dashboard's handlers. *)
Definition useSSE (c : sse_call) : list (list jstr) :=
  match c with
  | OnFlagUpdated _ | OnFlagDeleted _ => [[js "flags"]]
  | OnError => []
  end.

(** ** [hooks/useFlags.ts]: what each query is keyed by and each mutation
    invalidates.  How an invalidation filter matches a key belongs to the query
    library. *)
Inductive query := QFlags | QFlag (id : jstr) | QHistory (id : jstr).

Definition query_key (q : query) : list jstr :=
  match q with
  | QFlags => [js "flags"]
  | QFlag id => [js "flags"; id]
  | QHistory id => [js "flags"; id; js "events"]
  end.

(** [enabled: !!id && enabled] *)
Definition query_enabled (q : query) (enabled : bool) : bool :=
  match q with QFlags => true | QFlag id | QHistory id => negb (bool_decide (id = [])) && enabled end.

(** [refetchInterval], in milliseconds *)
Definition query_refetch (q : query) : option Z := match q with QFlags => Some 2500 | _ => None end.

Inductive mutation := MCreate | MUpdate (id : jstr) | MDelete (id : jstr) | MToggle (id : jstr).

(** The invalidation [onSuccess] issues: the filter's key and its [exact]. *)
Definition invalidates (m : mutation) : list jstr * bool :=
  match m with
  | MDelete _ => ([js "flags"], true)
  | _ => ([js "flags"], false)
  end.

Section query_cache.
(** The library's test of an inexact filter [key] against a query key. *)
Context (partialMatchKey : list jstr → list jstr → bool).

Definition refreshed (m : mutation) (q : query) : bool :=
  let '(key, exact) := invalidates m in
  if exact then bool_decide (query_key q = key) else partialMatchKey (query_key q) key.
End query_cache.

(** ** Lemmas *)
Lemma show_units n : Forall (λ c, c ≠ 34) (show n).
Proof.
  unfold show. assert (∀ m, 0 ≤ m → Forall (λ c, c ≠ 34) (show_nonneg m)) as Hd.
  { intros m Hm. eapply Forall_impl; [by apply show_nonneg_digits|].
    simpl. intros c Hc%is_digit_spec. lia. }
  destruct (n <? 0) eqn:E; boolify; [constructor; [lia|]|]; apply Hd; lia.
Qed.

Lemma show_not_nil n : show n ≠ [].
Proof. intros Hn. pose proof (parseInt10_show n) as Hp. by rewrite Hn in Hp. Qed.

Lemma trim_quotes_start_id s t :
  s ≠ [] → Forall (λ c, c ≠ 34) s → trim_quotes_start (s ++ t) = s ++ t.
Proof.
  destruct s as [|c s]; [done|]. intros _ [Hc _]%Forall_cons. simpl.
  by rewrite (proj2 (Z.eqb_neq _ _)).
Qed.

Lemma trim_quotes_quoted s : s ≠ [] → Forall (λ c, c ≠ 34) s → trim_quotes ([34] ++ s ++ [34]) = s.
Proof.
  intros Hn Hs. unfold trim_quotes. cbn [app trim_quotes_start Z.eqb Pos.eqb].
  rewrite trim_quotes_start_id by done. rewrite reverse_app. cbn [reverse rev_append app].
  change (reverse [34] ++ reverse s) with (34 :: reverse s). cbn [trim_quotes_start Z.eqb Pos.eqb].
  rewrite <-(app_nil_r (reverse s)), trim_quotes_start_id.
  - by rewrite app_nil_r, reverse_involutive.
  - intros Hr. apply Hn. by rewrite <-(reverse_involutive s), Hr.
  - by rewrite Forall_reverse.
Qed.

Lemma if_match_version_quoted v :
  - 2 ^ 63 ≤ v < 2 ^ 63 → if_match_version ([34] ++ show v ++ [34]) = Some v.
Proof.
  intros Hv. unfold if_match_version.
  rewrite trim_quotes_quoted by (apply show_not_nil || apply show_units).
  rewrite bool_decide_false by apply show_not_nil. by apply go_ParseInt_show.
Qed.

(** The header the handler reads; Go's [Header.Get] is empty when it is
    absent. *)
Definition go_header (h : headers) (name : jstr) : jstr := default [] (header_get h name).

Lemma update_if_match base internal key id u v path :
  go_header (rq_headers (proxy_request internal key (updateFlag base id u v) path)) (js "If-Match")
  = match v with Some v => [34] ++ show v ++ [34] | None => [] end.
Proof.
  unfold proxy_request, updateFlag, request_of. cbn [rq_headers rq_method rq_body].
  generalize (stringify_update u) as body. intros body.
  destruct v as [v|].
  - generalize (show v) as sv. intros sv. destruct body; vm_compute; reflexivity.
  - destruct body; vm_compute; reflexivity.
Qed.

(** The key is the proxy's. *)
Lemma proxy_admin_key internal key req path :
  header_get (rq_headers (proxy_request internal key req path)) (js "X-Admin-API-Key") = Some key.
Proof.
  unfold proxy_request. cbn zeta. cbn [rq_headers].
  destruct (header_get (rq_headers req) _) as [[|c v]|]; destruct (has_body _);
    try destruct (default [] (rq_body req)) as [|b bs]; vm_compute; reflexivity.
Qed.

(** ** Properties *)

(** The expected version survives the whole path.  Whatever flag and
    fields are edited, the version the dashboard loaded is the version the
    handler compares with after the browser, the proxy and the header parser; with
    no version there is no guard. *)
Theorem if_match_round_trip (base internal key id path : jstr) (u : UpdateFlagInput) (v : option Z) :
  (∀ n, v = Some n → - 2 ^ 63 ≤ n < 2 ^ 63) →
  let up := proxy_request internal key (updateFlag base id u v) path in
  if_match_version (go_header (rq_headers up) (js "If-Match")) = v
  ∧ rq_method up = js "PUT" ∧ rq_body up = Some (stringify_update u).
Proof.
  intros Hv. cbn zeta. rewrite update_if_match. split_and!; [|done|done].
  destruct v as [v|]; [|done]. apply if_match_version_quoted. by apply Hv.
Qed.

(** The admin key comes from the proxy alone.  Every forwarded request
    goes to the backend under its own method with the server's key in
    [X-Admin-API-Key], and carries no header but that, [If-Match] and
    [Content-Type]: nothing the browser sends can replace the key. *)
Theorem proxy_injects_key (internal key : jstr) (req : http_request) (path : jstr) :
  let up := proxy_request internal key req path in
  header_get (rq_headers up) (js "X-Admin-API-Key") = Some key
  ∧ rq_method up = rq_method req ∧ rq_url up = internal ++ path
  ∧ (rq_headers up).*1 ⊆ [js "x-admin-api-key"; js "if-match"; js "content-type"].
Proof.
  cbn zeta. unfold proxy_request. cbn zeta. cbn [rq_headers rq_method rq_url].
  destruct (header_get (rq_headers req) _) as [[|c v]|]; destruct (has_body _);
    try destruct (default [] (rq_body req)) as [|b bs]; (split_and!; [vm_compute; reflexivity|done|done|]).
  all: apply (bool_decide_unpack _); vm_compute; exact I.
Qed.

(** The proxy is transparent.  A page that calls through the proxy sees
    what a direct call would give: the same value, the same error message (409 and
    5xx included), nothing for 204; and an unreachable backend becomes an error
    with a message instead of a rejected request.  The one requirement is that
    error answers carry JSON, as all of the backend's do. *)
Theorem proxy_is_transparent (r : http_response) :
  (hr_ok r = false → hr_json r ≠ None) →
  settle (Fetched (proxy_response (Fetched r))) = settle (Fetched r)
  ∧ settle (Fetched (proxy_response NetworkError)) = Thrown (js "Upstream unreachable").
Proof.
  intros Hj. split; [|vm_compute; reflexivity]. unfold proxy_response.
  destruct (Z.eqb_spec (hr_status r) 204) as [He|He].
  - unfold settle, hr_ok. cbn [hr_status]. by rewrite He.
  - unfold settle, error_message, hr_ok. cbn [hr_status hr_json hr_statusText].
    destruct ((200 <=? hr_status r) && (hr_status r <=? 299)) eqn:Hok; cbn [negb]; [done|].
    destruct (hr_json r) as [j|] eqn:Hr; [done|]. by destruct (Hj Hok).
Qed.

(** An id cannot escape its segment.  For every id the router hands over,
    the backend path of a route is its fixed text around one encoded segment,
    which contains no slash, question mark or hash; an id that cannot be encoded
    yields no request at all. *)
Theorem route_paths_confined (r : route) (p : jstr) :
  match r with RFlags => True | RFlag id | RToggle id | REvents id => Forall unit16 id end →
  backend_path r = Some p →
  ∃ seg suffix, p = js "/api/admin/flags" ++ seg ++ suffix
    ∧ suffix ∈ [[]; js "/toggle"; js "/events"]
    ∧ (seg = [] ∨ ∃ e, seg = js "/" ++ e ∧ 47 ∉ e ∧ 63 ∉ e ∧ 35 ∉ e).
Proof.
  intros Hid Hp.
  assert (∀ id e, Forall unit16 id → encodeURIComponent id = Some e → 47 ∉ e ∧ 63 ∉ e ∧ 35 ∉ e) as He.
  { intros id e Hu Hen. pose proof (encode_chars id e Hu Hen) as Hc. rewrite Forall_forall in Hc.
    split_and!; intros Hin; destruct (Hc _ Hin) as [Hu'|]; try done; vm_compute in Hu'; done. }
  destruct r as [|id|id|id]; simpl in Hp; unfold flag_path_of, toggle_path_of, events_path_of in Hp.
  - exists [], []. split_and!; [by simplify_eq|set_solver|by left].
  - apply fmap_Some in Hp as (e & Hen & ->). exists (js "/" ++ e), []. split_and!; [|set_solver|].
    + rewrite app_nil_r, (app_assoc _ _ e). done.
    + right. exists e. split; [done|]. by eapply He.
  - apply fmap_Some in Hp as (e & Hen & ->). exists (js "/" ++ e), (js "/toggle"). split_and!; [|set_solver|].
    + rewrite <-(app_assoc _ e), (app_assoc _ _ (e ++ _)). done.
    + right. exists e. split; [done|]. by eapply He.
  - apply fmap_Some in Hp as (e & Hen & ->). exists (js "/" ++ e), (js "/events"). split_and!; [|set_solver|].
    + rewrite <-(app_assoc _ e), (app_assoc _ _ (e ++ _)). done.
    + right. exists e. split; [done|]. by eapply He.
Qed.

(** What a mutation refreshes.  Given that the query library matches an
    inexact filter by prefix, creating, updating and toggling refresh the list and
    every flag's detail and history, and a deletion refreshes the list only, so
    the deleted flag is never requested again. *)
Theorem mutations_refresh (partialMatchKey : list jstr → list jstr → bool) (m : mutation) (q : query) :
  (∀ q k, partialMatchKey q k = true ↔ k `prefix_of` q) →
  refreshed partialMatchKey m q
  = match m, q with MDelete _, QFlags => true | MDelete _, _ => false | _, _ => true end.
Proof.
  intros Hm. unfold refreshed. destruct m, q; simpl; try reflexivity.
  all: apply Hm; by eexists.
Qed.

(** ** Witnesses *)
Lemma if_match_round_trip_witness :
  let up := proxy_request (js "http://lb:8080") (js "k")
              (updateFlag [] (js "id-1") (demo_update 75) (Some 12)) (js "/api/admin/flags/id-1") in
  if_match_version (go_header (rq_headers up) (js "If-Match")) = Some 12
  ∧ rq_method up = js "PUT" ∧ rq_body up = Some (stringify_update (demo_update 75)).
Proof. apply if_match_round_trip. intros n [= <-]. lia. Defined.

Definition demo_conflict : http_response :=
  mkHttpResponse 409 (js "Conflict") [] []
    (Some (JObj [(js "error", JStr (js "version_conflict")); (js "message", JStr (js "Reload"))])).

Lemma proxy_is_transparent_witness :
  settle (Fetched (proxy_response (Fetched demo_conflict))) = settle (Fetched demo_conflict)
  ∧ settle (Fetched (proxy_response NetworkError)) = Thrown (js "Upstream unreachable").
Proof. apply proxy_is_transparent. intros _. discriminate. Defined.

Lemma route_paths_confined_witness :
  ∃ seg suffix, js "/api/admin/flags/a%2Fb/toggle" = js "/api/admin/flags" ++ seg ++ suffix
    ∧ suffix ∈ [[]; js "/toggle"; js "/events"]
    ∧ (seg = [] ∨ ∃ e, seg = js "/" ++ e ∧ 47 ∉ e ∧ 63 ∉ e ∧ 35 ∉ e).
Proof.
  apply (route_paths_confined (RToggle (js "a/b"))); [|vm_compute; reflexivity].
  unfold unit16. apply (bool_decide_unpack _). vm_compute. exact I.
Defined.

Lemma mutations_refresh_witness :
  refreshed (λ q k, bool_decide (k `prefix_of` q)) (MDelete (js "id-1")) (QFlag (js "id-1")) = false.
Proof.
  apply (mutations_refresh (λ q k, bool_decide (k `prefix_of` q)) (MDelete (js "id-1")) (QFlag (js "id-1"))).
  intros q k. apply bool_decide_eq_true.
Defined.
