(* ===== verification/Number.v ===== *)
(** * Decimal numbers

    The Prometheus tiles turn a JSON value into a number and print latencies.
    A number is the exact rational it denotes; the rounding of IEEE doubles is not
    modelled, the bound past which a double is infinite is. *)
From S2P Require Import Prelude JsMap Json Api.
From Stdlib Require Import QArith.
#[local] Open Scope Z_scope.

(** The longest prefix of digits. *)
Fixpoint span_digits (s : jstr) : jstr * jstr :=
  match s with
  | c :: r => if is_digit c then let '(d, t) := span_digits r in (c :: d, t) else ([], s)
  | [] => ([], [])
  end.

(** [m * 10^k] *)
Definition scale10 (m k : Z) : Q :=
  if 0 <=? k then inject_Z (m * 10 ^ k) else Qmake m (Z.to_pos (10 ^ (- k))).

(** The exponent part of a decimal literal, to the end of the string. *)
Definition exponent (s : jstr) : option Z :=
  match s with
  | [] => Some 0
  | e :: r =>
      if (e =? 101) || (e =? 69) then
        let '(sign, r) := match r with
                          | 45 :: r' => (-1, r')
                          | 43 :: r' => (1, r')
                          | _ => (1, r)
                          end in
        let '(d, t) := span_digits r in
        if bool_decide (d ≠ [] ∧ t = []) then Some (sign * take_digits 0 d) else None
      else None
  end.

Definition unsigned_decimal (s : jstr) : option Q :=
  let '(ip, t) := span_digits s in
  let '(fp, t) := match t with 46 :: r => span_digits r | _ => ([], t) end in
  if bool_decide (ip = [] ∧ fp = []) then None
  else match exponent t with
       | Some k => Some (scale10 (take_digits 0 (ip ++ fp)) (k - Z.of_nat (length fp)))
       | None => None
       end.

(** Hexadecimal, octal and binary literals. *)
Definition digit_value (c : Z) : Z :=
  if is_digit c then c - 48
  else if (97 <=? c) && (c <=? 102) then c - 87
  else if (65 <=? c) && (c <=? 70) then c - 55 else 99.
Definition radix_literal (b : Z) (s : jstr) : option Q :=
  if bool_decide (s ≠ []) && forallb (λ c, digit_value c <? b) s
  then Some (inject_Z (foldl (λ a c, a * b + digit_value c) 0 s)) else None.

(** [Number(s)] when the result is finite; [Infinity] and [NaN] are [None]. *)
Definition number_of_string (s : jstr) : option Q :=
  let q := match trim s with
           | [] => Some 0%Q
           | 48 :: c :: r =>
               if (c =? 120) || (c =? 88) then radix_literal 16 r
               else if (c =? 111) || (c =? 79) then radix_literal 8 r
               else if (c =? 98) || (c =? 66) then radix_literal 2 r
               else unsigned_decimal (48 :: c :: r)
           | 45 :: r => Qopp <$> unsigned_decimal r
           | 43 :: r => unsigned_decimal r
           | t => unsigned_decimal t
           end in
  match q with
  | Some q => if Z.abs (Qnum q) <? (2 ^ 1024 - 2 ^ 970) * Z.pos (Qden q) then Some q else None
  | None => None
  end.

(** [Number(v)] kept if [Number.isFinite]; [None] as input is [undefined]. *)
Definition finite_number (v : option json) : option Q :=
  match v with
  | None | Some (JObj _) => None
  | Some JNull => Some 0%Q
  | Some (JBool b) => Some (if b then 1%Q else 0%Q)
  | Some (JNum n) => Some (inject_Z n)
  | Some (JStr s) => number_of_string s
  | Some (JArr l) => number_of_string (to_string (JArr l))
  end.

(** The integer nearest to [q], ties upward: [Math.round]. *)
Definition round_half_up (q : Q) : Z := (2 * Qnum q + Z.pos (Qden q)) / (2 * Z.pos (Qden q)).

(** [q.toFixed(1)] *)
Definition toFixed1 (q : Q) : jstr :=
  let pos q := let n := round_half_up (q * 10)%Q in show (n / 10) ++ js "." ++ show (n mod 10) in
  if Qnum q <? 0 then js "-" ++ pos (Qopp q) else pos q.

(** [String(n)] where the source prints a whole number. *)
Definition show_count (q : Q) : jstr := show (round_half_up q).

Example number_1 : number_of_string (js " 0.0125 ") = Some (125 # 10000)%Q.
Proof. vm_compute. reflexivity. Qed.
Example number_2 : number_of_string (js "NaN") = None ∧ number_of_string (js "+Inf") = None.
Proof. vm_compute. split; reflexivity. Qed.
Example number_3 : number_of_string (js "1.5e3") = Some (1500 # 1)%Q.
Proof. vm_compute. reflexivity. Qed.
Example fixed_1 : toFixed1 (125 # 10)%Q = js "12.5" ∧ toFixed1 (3 # 4)%Q = js "0.8".
Proof. vm_compute. split; reflexivity. Qed.
