(* ===== verification/Fleet.v ===== *)
(** * The fleet as the dashboard polls it

    [hooks/useCluster.ts], [hooks/useHealth.ts], [hooks/useEvents.ts], and the
    cluster, resilience and health pages that read them.  A hook is a function of
    what its fetches settle to; a page is a function of what its hooks return,
    whose result records every text and tone the markup shows. *)
From S2P Require Import Prelude JsMap Types Json Api Number.
From Stdlib Require Import QArith.
#[local] Open Scope Z_scope.

(** The colour a value is shown in. *)
Inductive tone := Success | Warning | Destructive | Muted | Foreground | Primary.
#[export] Instance tone_eq_dec : EqDecision tone.
Proof. solve_decision. Defined.

Definition dash : jstr := js "—".
Definition ver (v : Z) : jstr := js "v" ++ show v.
(** [n > 1 ? "s" : ""] *)
Definition plural (n : Z) : jstr := if n >? 1 then js "s" else [].
Definition count {A} (l : list A) : Z := Z.of_nat (length l).

(** ** [hooks/useCluster.ts] *)
Definition node_urls (env : option jstr) (api_url : jstr) : list jstr :=
  non_empty (map trim (split_on 44 (env_or env api_url))).

Record NodeState := mkNodeState {
  ns_url : jstr; ns_nodeId : jstr; ns_configVersion : option Z;
  ns_sseClients : option Z; ns_ok : bool }.

Record ClusterState := mkClusterState {
  cs_nodes : list NodeState; cs_latestVersion : Z; cs_converged : bool; cs_reachableCount : Z }.

Definition node_down (url : jstr) : NodeState := mkNodeState url url None None false.

(** [data.node_id ?? url] *)
Definition node_id (data : json) (url : jstr) : jstr :=
  match jget data (js "node_id") with
  | None | Some JNull => url
  | Some j => to_string j
  end.

Definition fetchNode (url : jstr) (res : fetched) : NodeState :=
  match res with
  | NetworkError => node_down url
  | Fetched r =>
      if negb (hr_ok r) then node_down url
      else match hr_json r with
           | None | Some JNull => node_down url
           | Some data =>
               mkNodeState url (node_id data url) (as_number (jget data (js "config_version")))
                 (as_number (jget data (js "sse_clients"))) true
           end
  end.

(** The versions of the nodes that answered with one. *)
Definition node_versions (nodes : list NodeState) : list Z :=
  omap (λ n, if ns_ok n then ns_configVersion n else None) nodes.

Definition useCluster (nodes : list NodeState) : ClusterState :=
  let versions := node_versions nodes in
  mkClusterState nodes
    (match versions with v :: vs => max_list v vs | [] => 0 end)
    (match versions with v :: _ => forallb (λ x, x =? v) versions | [] => false end)
    (count (filter (λ n, ns_ok n = true) nodes)).

(** The hook over the answers of all nodes, in the order of their URLs. *)
Definition poll_cluster (urls : list jstr) (answers : jstr → fetched) : ClusterState :=
  useCluster (map (λ u, fetchNode u (answers u)) urls).

(** ** [hooks/useHealth.ts] *)
Record NodeReadiness := mkNodeReadiness {
  nr_url : jstr; nr_nodeId : jstr; nr_ready : bool; nr_reachable : bool;
  nr_postgres : option jstr; nr_redis : option jstr; nr_configVersion : option Z }.

Definition readiness_down (url : jstr) : NodeReadiness :=
  mkNodeReadiness url url false false None None None.

(** A body that does not parse reads as an empty object, whatever the status. *)
Definition fetchReadyz (url : jstr) (res : fetched) : NodeReadiness :=
  match res with
  | NetworkError => readiness_down url
  | Fetched r =>
      let data := default (JObj []) (hr_json r) in
      if jget_throws data then readiness_down url
      else mkNodeReadiness url (node_id data url) (is_true (jget data (js "ready"))) true
             (as_string (jget data (js "postgres"))) (as_string (jget data (js "redis")))
             (as_number (jget data (js "config_version")))
  end.

Definition useReadiness (urls : list jstr) (answers : jstr → fetched) : list NodeReadiness :=
  map (λ u, fetchReadyz u (answers u)) urls.

(** [json?.data?.result], [result[0]?.value?.[1]] *)
Definition oget (j : option json) (k : jstr) : option json := j ≫= λ j, jget j k.
Definition oindex (j : option json) (i : nat) : option json :=
  match j with
  | Some (JArr l) => l !! i
  | Some (JStr s) => (λ c, JStr [c]) <$> s !! i
  | _ => None
  end.

(** [promScalar]: [inl tt] is a throw. *)
Definition promScalar (res : fetched) : unit + option Q :=
  match res with
  | NetworkError => inl tt
  | Fetched r =>
      if negb (hr_ok r) then inl tt
      else match hr_json r with
           | None => inl tt
           | Some j =>
               match oget (jget j (js "data")) (js "result") with
               | Some (JArr (x :: _)) =>
                   inr (finite_number (oindex (jget x (js "value")) 1))
               | _ => inr None
               end
           end
  end.

Record RedisPublishErrors := mkRedisPublishErrors { rp_total : option Q; rp_unavailable : bool }.

Definition useRedisPublishErrors (res : fetched) : RedisPublishErrors :=
  match promScalar res with
  | inl _ => mkRedisPublishErrors None true
  | inr total => mkRedisPublishErrors (Some (default 0%Q total)) false
  end.

Record FleetMetrics := mkFleetMetrics {
  fm_sseClients : option Q; fm_p50 : option Q; fm_p95 : option Q; fm_p99 : option Q;
  fm_unavailable : bool }.

(** [Promise.all]: one rejection makes all four unavailable. *)
Definition useFleetMetrics (sse p50 p95 p99 : fetched) : FleetMetrics :=
  match promScalar sse, promScalar p50, promScalar p95, promScalar p99 with
  | inr a, inr b, inr c, inr d => mkFleetMetrics a b c d false
  | _, _, _, _ => mkFleetMetrics None None None None true
  end.

(** ** [hooks/useEvents.ts] *)
Definition events_enabled (latest : Z) : bool := latest >? 0.
Definition events_since (latest window : Z) : Z := Z.max 0 (latest - window).
Definition events_window_url (api : jstr) (latest window : Z) : jstr :=
  api ++ js "/api/client/events?since=" ++ show (events_since latest window).

Record EventsResult := mkEventsResult { er_events : list json; er_configVersion : Z }.

(** [None] is a throw. *)
Definition useEvents (latest : Z) (res : fetched) : option EventsResult :=
  match res with
  | NetworkError => None
  | Fetched r =>
      if negb (hr_ok r) then None
      else match hr_json r with
           | None | Some JNull => None
           | Some data =>
               Some (mkEventsResult (default [] (as_array (jget data (js "events"))))
                       (default latest (as_number (jget data (js "config_version")))))
           end
  end.

(** ** [app/cluster/page.tsx] *)
Module ClusterPage.

(** [data ?? ...] before the first answer *)
Definition state (data : option ClusterState) : ClusterState :=
  default (mkClusterState [] 0 false 0) data.

Definition headline (c : ClusterState) : jstr :=
  let reachable := cs_reachableCount c in
  if reachable =? 0 then js "No servers are reachable right now."
  else if cs_converged c then
    js "All " ++ show reachable ++ js " server" ++ plural reachable
    ++ js " agree — everyone is on v" ++ show (cs_latestVersion c) ++ js "."
  else js "A change is spreading — the servers are catching up to each other.".

(** The convergence banner: tone, text, version label. *)
Record banner := mkBanner { b_tone : tone; b_text : jstr; b_detail : jstr }.

Definition convergence_banner (c : ClusterState) : banner :=
  let reachable := cs_reachableCount c in
  mkBanner (if cs_converged c then Success else Warning)
    (if reachable =? 0 then js "No nodes reachable"
     else if cs_converged c then
       js "All " ++ show reachable ++ js " node" ++ plural reachable ++ js " converged"
     else js "Propagating…")
    (js "latest v" ++ show (cs_latestVersion c)).

Definition behind (n : NodeState) (latest : Z) : bool :=
  ns_ok n && match ns_configVersion n with Some v => v <? latest | None => false end.

Record card := mkCard {
  c_nodeId : jstr; c_title : jstr; c_up : jstr; c_up_tone : tone; c_version : jstr;
  c_version_tone : tone; c_clients : jstr }.

Definition NodeCard (n : NodeState) (latest : Z) : card :=
  mkCard (ns_nodeId n) (if ns_ok n then js "Reachable" else js "Unreachable")
    (if ns_ok n then js "up" else js "down")
    (if ns_ok n then Success else Destructive)
    (match ns_configVersion n with Some v => if ns_ok n then ver v else dash | None => dash end)
    (if behind n latest then Warning else Foreground)
    (match ns_sseClients n with Some k => show k | None => dash end).

(** The grid: placeholders while nothing is known. *)
Inductive grid (A : Type) := Skeletons (n : nat) | Cards (l : list A).
Arguments Skeletons {A} n.
Arguments Cards {A} l.

Record view := mkView { v_status : jstr; v_banner : banner; v_timeline : Z; v_grid : grid card }.

Definition ClusterPage (data : option ClusterState) (isLoading : bool) : view :=
  let c := state data in
  mkView (headline c) (convergence_banner c) (cs_latestVersion c)
    (if isLoading && bool_decide (cs_nodes c = []) then Skeletons 3
     else Cards (map (λ n, NodeCard n (cs_latestVersion c)) (cs_nodes c))).
End ClusterPage.

(** ** [app/resilience/page.tsx] *)
Module ResiliencePage.
Import ClusterPage (grid, Skeletons, Cards, banner, mkBanner, state).

Record MergedNode := mkMergedNode {
  mn_url : jstr; mn_nodeId : jstr; mn_configVersion : option Z; mn_sseClients : option Z;
  mn_reachable : bool; mn_ready : bool; mn_postgres : option jstr; mn_redis : option jstr }.

Definition merge_nodes (clusterNodes : list NodeState) (readiness : option (list NodeReadiness)) : list MergedNode :=
  let readyByUrl := map_of_entries (map (λ r, (nr_url r, r)) (default [] readiness)) in
  map (λ n, let r := map_get readyByUrl (ns_url n) in
            mkMergedNode (ns_url n) (ns_nodeId n) (ns_configVersion n) (ns_sseClients n) (ns_ok n)
              (match r with Some r => nr_ready r | None => false end)
              (r ≫= nr_postgres) (r ≫= nr_redis)) clusterNodes.

Definition versions (nodes : list MergedNode) : list Z :=
  omap (λ n, if mn_reachable n then mn_configVersion n else None) nodes.
Definition minVersion (nodes : list MergedNode) : Z :=
  match versions nodes with v :: vs => min_list v vs | [] => 0 end.
Definition readyCount (nodes : list MergedNode) : Z := count (filter (λ n, mn_ready n = true) nodes).

Definition convergence_banner (c : ClusterState) (nodes : list MergedNode) : banner :=
  let reachable := cs_reachableCount c in
  let latest := cs_latestVersion c in
  if reachable =? 0 then mkBanner Destructive (js "No nodes reachable") dash
  else if cs_converged c then
    mkBanner Success (js "Converged at v" ++ show latest)
      (show reachable ++ js " node" ++ plural reachable ++ js " in sync")
  else
    mkBanner Warning (js "Diverging")
      (js "spread v" ++ show (minVersion nodes) ++ js "…v" ++ show latest ++ js " across "
       ++ show reachable ++ js " node" ++ plural reachable).

Record tile := mkTile { t_label : jstr; t_value : jstr; t_tone : tone; t_sub : option jstr }.
(** [SignalTile] shows [sub] when it is a non-empty string. *)
Definition SignalTile (label value : jstr) (tn : tone) (sub : option jstr) : tile :=
  mkTile label value tn (match sub with Some [] => None | s => s end).

Definition ready_tile (nodes : list MergedNode) : tile :=
  SignalTile (js "Nodes ready")
    (if bool_decide (nodes = []) then dash else show (readyCount nodes) ++ js "/" ++ show (count nodes))
    (if bool_decide (nodes = []) then Muted
     else if readyCount nodes =? count nodes then Success else Warning) None.

Definition version_tile (c : ClusterState) : tile :=
  SignalTile (js "Latest version")
    (if cs_reachableCount c =? 0 then dash else ver (cs_latestVersion c)) Foreground None.

Definition errors_tile (p : option RedisPublishErrors) : tile :=
  let unavailable := match p with Some p => rp_unavailable p | None => false end in
  let total := default 0%Q (p ≫= rp_total) in
  SignalTile (js "Redis publish errors")
    (if unavailable then dash else show_count total)
    (if unavailable then Muted else if Qnum total >? 0 then Warning else Success)
    (Some (if unavailable then js "prometheus unavailable" else js "cumulative · fan-out health")).

Definition behind (n : MergedNode) (latest : Z) : bool :=
  mn_reachable n && match mn_configVersion n with Some v => v <? latest | None => false end.

Definition ReadinessPill (reachable ready : bool) : jstr * tone :=
  if negb reachable then (js "down", Destructive)
  else if ready then (js "ready", Success) else (js "unready", Warning).

(** Text and dot of a dependency: its label, tooltip and tones. *)
Record dep := mkDep { d_label : jstr; d_title : jstr; d_tone : tone; d_dot : tone }.
Definition DepStatus (label : jstr) (value : option jstr) (reachable : bool) : dep :=
  let ok := bool_decide (value = Some (js "ok")) in
  let unknown := negb reachable || bool_decide (value = None) in
  mkDep label (default (js "unknown") value)
    (if unknown then Muted else if ok then Foreground else Destructive)
    (if unknown then Muted else if ok then Success else Destructive).

Record card := mkCard {
  c_nodeId : jstr; c_pill : jstr * tone; c_version : jstr; c_version_tone : tone; c_clients : jstr;
  c_deps : list dep }.

Definition NodeCard (n : MergedNode) (latest : Z) : card :=
  let known := if mn_reachable n then mn_configVersion n else None in
  mkCard (mn_nodeId n) (ReadinessPill (mn_reachable n) (mn_ready n))
    (match known with Some v => ver v | None => dash end)
    (match known with
     | None => Muted
     | Some _ => if behind n latest then Warning else Success
     end)
    (match mn_sseClients n with Some k => show k | None => dash end)
    [DepStatus (js "postgres") (mn_postgres n) (mn_reachable n);
     DepStatus (js "redis") (mn_redis n) (mn_reachable n)].

Record view := mkView { v_banner : banner; v_tiles : list tile; v_grid : grid card }.

Definition ResiliencePage (cluster : option ClusterState) (isLoading : bool)
    (readiness : option (list NodeReadiness)) (publishErrors : option RedisPublishErrors) : view :=
  let c := state cluster in
  let nodes := merge_nodes (cs_nodes c) readiness in
  mkView (convergence_banner c nodes)
    [ready_tile nodes; version_tile c; errors_tile publishErrors]
    (if isLoading && bool_decide (nodes = []) then Skeletons 3
     else Cards (map (λ n, NodeCard n (cs_latestVersion c)) nodes)).
End ResiliencePage.

(** ** [app/health/page.tsx] *)
Module HealthPage.
Import ClusterPage (grid, Skeletons, Cards).
Import ResiliencePage (dep, mkDep).

(** The page's own copy of the dependency badge. *)
Definition DepStatus (label : jstr) (value : option jstr) (reachable : bool) : dep :=
  let ok := bool_decide (value = Some (js "ok")) in
  let unknown := negb reachable || bool_decide (value = None) in
  mkDep label (default (js "unknown") value)
    (if unknown then Muted else if ok then Foreground else Destructive)
    (if unknown then Muted else if ok then Success else Destructive).
Lemma DepStatus_copies label value reachable : DepStatus label value reachable = ResiliencePage.DepStatus label value reachable.
Proof. reflexivity. Qed.

(** Latency in milliseconds; [None] is [null]. *)
Definition ms (seconds : option Q) : jstr :=
  match seconds with
  | None => dash
  | Some s => let v := (s * 1000)%Q in
              if 100 * Z.pos (Qden v) <=? Qnum v then show (round_half_up v) else toFixed1 v
  end.

Definition readyCount (nodes : list NodeReadiness) : Z := count (filter (λ n, nr_ready n = true) nodes).
Definition allReady (nodes : list NodeReadiness) : bool :=
  (count nodes >? 0) && (readyCount nodes =? count nodes).

Definition metric (f : FleetMetrics → option Q) (m : option FleetMetrics) : option Q := m ≫= f.
Definition unavailable (m : option FleetMetrics) : bool :=
  match m with Some m => fm_unavailable m | None => false end.

(** [a ?? b] *)
Definition orelse {A} (a b : option A) : option A := match a with Some x => Some x | None => b end.

Definition typicalMs (m : option FleetMetrics) : option jstr :=
  if unavailable m then None else Some (ms (orelse (metric fm_p50 m) (metric fm_p99 m))).

Definition headline (nodes : list NodeReadiness) (m : option FleetMetrics) : jstr :=
  if count nodes =? 0 then js "Checking each server…"
  else if allReady nodes then
    match typicalMs m with
    | Some t => if bool_decide (t = [] ∨ t = dash) then js "All healthy — every server is ready to serve."
                else js "All healthy — changes reach every server in about " ++ t ++ js " ms."
    | None => js "All healthy — every server is ready to serve."
    end
  else js "Degraded — " ++ show (readyCount nodes) ++ js " of " ++ show (count nodes) ++ js " servers ready.".

Definition headline_tone (nodes : list NodeReadiness) : tone :=
  if count nodes =? 0 then Muted else if allReady nodes then Success else Warning.

(** Text and tone of a pill; a node that did not answer reads as unreachable. *)
Definition StatusPill (ready reachable : bool) (label : jstr) : jstr * tone :=
  (if negb reachable then js "unreachable" else label, if ready then Success else Destructive).

Inductive metric_tile :=
| Unavailable (label : jstr)
| Metric (label value : jstr) (unit : option jstr) (sub : option jstr).

Definition MetricTile (label : jstr) (value unit sub : option jstr) (unavailable : bool) : metric_tile :=
  let shown s := match s with Some [] => None | s => s end in
  if unavailable then Unavailable label
  else Metric label (default dash value) (shown unit) (shown sub).

Definition clients_tile (m : option FleetMetrics) : metric_tile :=
  MetricTile (js "Live SSE clients")
    (if unavailable m then None else show_count <$> metric fm_sseClients m)
    (Some (js "connected")) None (unavailable m).

Definition p99_tile (m : option FleetMetrics) : metric_tile :=
  MetricTile (js "Propagation p99")
    (if unavailable m then None else Some (ms (metric fm_p99 m)))
    (Some (js "ms"))
    (if unavailable m then None
     else Some (js "p50 " ++ ms (metric fm_p50 m) ++ js " · p95 " ++ ms (metric fm_p95 m) ++ js " ms"))
    (unavailable m).

Definition ready_tile (nodes : list NodeReadiness) : jstr * tone * (jstr * tone) :=
  (if count nodes =? 0 then dash else show (readyCount nodes) ++ js "/" ++ show (count nodes),
   if count nodes =? 0 then Muted else if allReady nodes then Success else Warning,
   StatusPill (allReady nodes) (count nodes >? 0) (if allReady nodes then js "healthy" else js "degraded")).

Record card := mkCard {
  c_nodeId : jstr; c_pill : jstr * tone; c_version : jstr; c_deps : list dep }.

Definition NodeCard (n : NodeReadiness) : card :=
  mkCard (nr_nodeId n)
    (StatusPill (nr_ready n) (nr_reachable n) (if nr_ready n then js "ready" else js "unready"))
    (match nr_configVersion n with Some v => ver v | None => dash end)
    [DepStatus (js "postgres") (nr_postgres n) (nr_reachable n);
     DepStatus (js "redis") (nr_redis n) (nr_reachable n)].

Record view := mkView {
  v_status : jstr; v_status_tone : tone; v_clients : metric_tile; v_p99 : metric_tile;
  v_ready : jstr * tone * (jstr * tone); v_grid : grid card }.

Definition HealthPage (data : option (list NodeReadiness)) (isLoading : bool)
    (metrics : option FleetMetrics) : view :=
  let nodes := default [] data in
  mkView (headline nodes metrics) (headline_tone nodes) (clients_tile metrics) (p99_tile metrics)
    (ready_tile nodes)
    (if isLoading && bool_decide (nodes = []) then Skeletons 3 else Cards (map NodeCard nodes)).
End HealthPage.

(** ** Lemmas *)
Lemma node_versions_elem nodes v :
  v ∈ node_versions nodes ↔ ∃ n, n ∈ nodes ∧ ns_ok n = true ∧ ns_configVersion n = Some v.
Proof.
  unfold node_versions. rewrite list_elem_of_omap. split.
  - intros (n & Hin & Hn). destruct (ns_ok n) eqn:?; [eauto|done].
  - intros (n & Hin & Hok & Hn). exists n. by rewrite Hok.
Qed.

Lemma useCluster_latest nodes v :
  v ∈ node_versions nodes → v ≤ cs_latestVersion (useCluster nodes) ∧
  cs_latestVersion (useCluster nodes) ∈ node_versions nodes.
Proof.
  unfold useCluster. simpl. destruct (node_versions nodes) as [|x vs]; [set_solver|].
  destruct (max_list_spec x vs) as (Hx & Hvs & Hin). intros Hv. split; [|done].
  apply elem_of_cons in Hv as [->|Hv]; [done|]. by apply (proj1 (Forall_forall _ _) Hvs).
Qed.

Lemma useCluster_converged nodes :
  cs_converged (useCluster nodes) = true ↔
  node_versions nodes ≠ [] ∧ ∀ v, v ∈ node_versions nodes → v = cs_latestVersion (useCluster nodes).
Proof.
  split.
  - unfold useCluster at 1. cbn [cs_converged]. intros Hc. destruct (node_versions nodes) as [|x vs] eqn:Hn; [done|].
    split; [done|]. assert (∀ y, y ∈ x :: vs → y = x) as Hall.
    { intros y Hy. rewrite forallb_forall in Hc. apply Z.eqb_eq, Hc. by apply list_elem_of_In. }
    intros v Hv. rewrite <-Hn in Hv. destruct (useCluster_latest _ _ Hv) as [_ Hl]. rewrite Hn in Hl, Hv.
    by rewrite (Hall _ Hl), (Hall _ Hv).
  - intros [Hne Hall]. unfold useCluster in *. simpl in *. destruct (node_versions nodes) as [|x vs]; [done|].
    apply forallb_forall. intros y Hy. apply Z.eqb_eq. apply list_elem_of_In in Hy.
    rewrite (Hall y Hy). symmetry. apply Hall. set_solver.
Qed.

Lemma merged_versions nodes readiness :
  ResiliencePage.versions (ResiliencePage.merge_nodes nodes readiness) = node_versions nodes.
Proof.
  unfold ResiliencePage.versions, ResiliencePage.merge_nodes, node_versions.
  induction nodes as [|n l IH]; [done|]. simpl.
  destruct (ns_ok n); [destruct (ns_configVersion n); [f_equal|]|]; exact IH.
Qed.

(** ** Properties *)

(** The banner and the cards tell one story.  The latest version is the
    highest any answering node reports; the cluster reads converged exactly when
    some node reports a version and no card is marked behind, on the cluster page
    and, given the same poll, on the resilience page; otherwise, with a version
    known, the spread the resilience page prints is a real one. *)
Theorem convergence_story (nodes : list NodeState) (readiness : option (list NodeReadiness)) :
  let c := useCluster nodes in
  let merged := ResiliencePage.merge_nodes nodes readiness in
  (∀ n v, n ∈ nodes → ns_ok n = true → ns_configVersion n = Some v → v ≤ cs_latestVersion c)
  ∧ (cs_converged c = true ↔
       node_versions nodes ≠ [] ∧ Forall (λ n, ClusterPage.behind n (cs_latestVersion c) = false) nodes)
  ∧ (cs_converged c = true ↔
       node_versions nodes ≠ [] ∧ Forall (λ n, ResiliencePage.behind n (cs_latestVersion c) = false) merged)
  ∧ (cs_converged c = false → node_versions nodes ≠ [] →
       ResiliencePage.minVersion merged < cs_latestVersion c).
Proof.
  cbn zeta. set (latest := cs_latestVersion (useCluster nodes)).
  assert (∀ v, v ∈ node_versions nodes → v ≤ latest) as Hle by (intros v Hv; by apply useCluster_latest).
  assert (cs_converged (useCluster nodes) = true ↔ node_versions nodes ≠ [] ∧
          Forall (λ n, ClusterPage.behind n latest = false) nodes) as Hconv.
  { rewrite useCluster_converged. apply and_iff_compat_l. rewrite Forall_forall. split.
    - intros Hall n Hin. unfold ClusterPage.behind. destruct (ns_ok n) eqn:Hok; [|done].
      destruct (ns_configVersion n) as [v|] eqn:Hv; [|done]. apply Z.ltb_ge.
      rewrite (Hall v); [unfold latest; lia|]. apply node_versions_elem. eauto.
    - intros Hall v (n & Hin & Hok & Hv)%node_versions_elem. specialize (Hall n Hin).
      unfold ClusterPage.behind in Hall. rewrite Hok, Hv in Hall. simpl in Hall. boolify.
      pose proof (Hle v ltac:(apply node_versions_elem; eauto)). lia. }
  split_and!; [|exact Hconv| |].
  - intros n v Hin Hok Hv. apply Hle, node_versions_elem. eauto.
  - rewrite Hconv. apply and_iff_compat_l. unfold ResiliencePage.merge_nodes.
    change (map ?f ?l) with (f <$> l). by rewrite Forall_fmap.
  - intros Hf Hne. unfold ResiliencePage.minVersion. rewrite merged_versions.
    destruct (decide (Forall (λ v, v = latest) (node_versions nodes))) as [Hall|Hnot].
    { rewrite (proj2 (useCluster_converged nodes)) in Hf; [done|]. by rewrite Forall_forall in Hall. }
    apply not_Forall_Exists, Exists_exists in Hnot as (v & Hv & Hne'); [|apply _].
    pose proof (Hle v Hv). simpl in Hne'. destruct (node_versions nodes) as [|x vs]; [done|].
    destruct (min_list_spec x vs) as (Hx & Hm & _).
    apply elem_of_cons in Hv as [->|Hv]; [lia|].
    pose proof (proj1 (Forall_forall _ _) Hm v Hv). simpl in *. lia.
Qed.

Lemma readyCount_lt nodes n :
  n ∈ nodes → nr_ready n = false → HealthPage.readyCount nodes < count nodes.
Proof.
  unfold HealthPage.readyCount, count. induction nodes as [|n0 l IH]; [set_solver|].
  intros Hin Hn. rewrite filter_cons. apply elem_of_cons in Hin as [<-|Hin].
  - rewrite decide_False by (by rewrite Hn).
    pose proof (length_filter (λ n, nr_ready n = true) l). simpl. lia.
  - specialize (IH Hin Hn). case_decide; simpl in *; lia.
Qed.

(** No false comfort.  If one node's probe fails, whatever the others
    say and whatever Prometheus says, the health page reads degraded with fewer
    ready nodes than nodes, its badge is not green, and the node's own card says
    unreachable. *)
Theorem down_node_degrades (urls : list jstr) (answers : jstr → fetched) (u : jstr)
    (m : option FleetMetrics) :
  u ∈ urls → answers u = NetworkError →
  let nodes := useReadiness urls answers in
  HealthPage.readyCount nodes < count nodes
  ∧ HealthPage.headline nodes m
    = js "Degraded — " ++ show (HealthPage.readyCount nodes) ++ js " of " ++ show (count nodes)
      ++ js " servers ready."
  ∧ HealthPage.headline_tone nodes = Warning
  ∧ HealthPage.c_pill (HealthPage.NodeCard (fetchReadyz u (answers u))) = (js "unreachable", Destructive).
Proof.
  intros Hu Hd. cbn zeta. set (nodes := useReadiness urls answers).
  assert (fetchReadyz u (answers u) ∈ nodes) as Hin.
  { unfold nodes, useReadiness. change (map ?f ?l) with (f <$> l).
    by apply (list_elem_of_fmap_2 (λ u, fetchReadyz u (answers u))). }
  pose proof (readyCount_lt nodes _ Hin ltac:(by rewrite Hd)) as Hlt.
  assert (0 ≤ HealthPage.readyCount nodes) as H0 by (unfold HealthPage.readyCount, count; lia).
  assert (HealthPage.allReady nodes = false) as Ha.
  { unfold HealthPage.allReady. apply andb_false_iff. right. apply Z.eqb_neq. lia. }
  unfold HealthPage.headline, HealthPage.headline_tone. rewrite Ha, Hd.
  rewrite (proj2 (Z.eqb_neq _ _)) by lia. by split_and!.
Qed.

Lemma down_node_degrades_witness :
  let nodes := useReadiness [js "http://n1"; js "http://n2"] (λ _, NetworkError) in
  HealthPage.readyCount nodes < count nodes
  ∧ HealthPage.headline nodes None
    = js "Degraded — " ++ show (HealthPage.readyCount nodes) ++ js " of " ++ show (count nodes)
      ++ js " servers ready."
  ∧ HealthPage.headline_tone nodes = Warning
  ∧ HealthPage.c_pill (HealthPage.NodeCard (fetchReadyz (js "http://n2") NetworkError))
    = (js "unreachable", Destructive).
Proof.
  apply (down_node_degrades [js "http://n1"; js "http://n2"] (λ _, NetworkError) (js "http://n2"));
    [set_solver | reflexivity].
Defined.

(** A node that answers without a version does not count against convergence. *)
Example silent_node_converges :
  let nodes := [mkNodeState (js "a") (js "n1") (Some 7) (Some 1) true;
                mkNodeState (js "b") (js "n2") None None true] in
  ClusterPage.b_text (ClusterPage.convergence_banner (useCluster nodes)) = js "All 2 nodes converged".
Proof. vm_compute. reflexivity. Qed.
