(* ===== verification/Router.v ===== *)
(** * The HTTP server ([cmd/server/main.go], [internal/middleware/auth.go],
    [internal/handler/health_handler.go])

    Routes, authentication and the readiness probe in front of the handlers of
    [Server], with bodies as JSON text.  Composed with [Api] this is the whole
    way of a click: the dashboard's method, the same-origin proxy, the router,
    the key check, the decoder, the service, and the answer back. *)
From S2P Require Import Prelude JsMap Types Json JsonText Server Api Number Fleet.

(** ** Request targets *)

(** The path and the query of [r.URL]. *)
Fixpoint split_target (t : jstr) : jstr * jstr :=
  match t with
  | [] => ([], [])
  | c :: r => if c =? 63 then ([], r) else let '(p, q) := split_target r in (c :: p, q)
  end.

(** [url.QueryUnescape], to bytes *)
Fixpoint query_unescape (s : jstr) : option (list Z) :=
  match s with
  | [] => Some []
  | c :: r =>
      if c =? 37 then
        match r with
        | h1 :: h2 :: r => a ← unhex h1; b ← unhex h2; t ← query_unescape r; Some (a * 16 + b :: t)
        | _ => None
        end
      else t ← query_unescape r; Some ((if c =? 43 then 32 else c) :: t)
  end.
Definition query_text (s : jstr) : option jstr := (λ bs, utf16_encode (utf8_decode bs)) <$> query_unescape s.

(** [strings.Cut(part, "=")] *)
Fixpoint cut_equals (s : jstr) : jstr * jstr :=
  match s with
  | [] => ([], [])
  | c :: r => if c =? 61 then ([], r) else let '(k, v) := cut_equals r in (c :: k, v)
  end.

(** [url.ParseQuery]: a part that does not decode is left out. *)
Definition query_pair (part : jstr) : option (jstr * jstr) :=
  if bool_decide (part = []) || bool_decide (59 ∈ part) then None
  else let '(k, v) := cut_equals part in k ← query_text k; v ← query_text v; Some (k, v).
Definition Query (q : jstr) : list (jstr * jstr) := omap query_pair (split_on 38 q).
(** [Values.Get] *)
Definition query_get (q : jstr) (name : jstr) : jstr := default [] (map_get (Query q) name).

(** ** Routes *)
Inductive admin_op := OpCreate | OpList | OpGet | OpHistory | OpUpdate | OpDelete | OpToggle.
Inductive client_op := OpFlags | OpStream | OpEvents | OpVersion.
Inductive endpoint := Healthz | Readyz_ | Metrics | Admin (o : admin_op) | Client (o : client_op).

(** What [main] registers: a method ([None] for [Handle], which takes any), a
    pattern and a handler. *)
Definition routes : list (option jstr * jstr * endpoint) :=
  [(Some (js "GET"), js "/healthz", Healthz); (Some (js "GET"), js "/health", Healthz);
   (Some (js "GET"), js "/readyz", Readyz_); (None, js "/metrics", Metrics);
   (Some (js "POST"), js "/api/admin/flags", Admin OpCreate);
   (Some (js "GET"), js "/api/admin/flags", Admin OpList);
   (Some (js "GET"), js "/api/admin/flags/{id}", Admin OpGet);
   (Some (js "GET"), js "/api/admin/flags/{id}/events", Admin OpHistory);
   (Some (js "PUT"), js "/api/admin/flags/{id}", Admin OpUpdate);
   (Some (js "DELETE"), js "/api/admin/flags/{id}", Admin OpDelete);
   (Some (js "PATCH"), js "/api/admin/flags/{id}/toggle", Admin OpToggle);
   (Some (js "GET"), js "/api/client/flags", Client OpFlags);
   (Some (js "GET"), js "/api/client/stream", Client OpStream);
   (Some (js "GET"), js "/api/client/events", Client OpEvents);
   (Some (js "GET"), js "/api/client/version", Client OpVersion)].

(** A segment, up to the next slash *)
Fixpoint split_segment (s : jstr) : jstr * jstr :=
  match s with
  | [] => ([], [])
  | c :: r => if c =? 47 then ([], s) else let '(x, t) := split_segment r in (c :: x, t)
  end.

(** One pattern against a path: text matches itself, [{id}] one segment that is
    not empty, which becomes the parameter. *)
Fixpoint match_pattern (pat p : jstr) : option jstr :=
  match pat with
  | [] => match p with [] => Some [] | _ => None end
  | a :: pat' =>
      if a =? 123 then
        match split_segment p with
        | ([], _) => None
        | (x, t) => match strip_prefix (js "{id}") pat with
                    | Some post => if bool_decide (t = post) then Some x else None
                    | None => None
                    end
        end
      else match p with b :: p' => if a =? b then match_pattern pat' p' else None | [] => None end
  end.

Definition allows (m' : option jstr) (m : jstr) : bool :=
  match m' with Some m' => bool_decide (m' = m) | None => true end.
Definition candidates (t : list (option jstr * jstr * endpoint)) (m p : jstr) : list (endpoint * jstr) :=
  omap (λ '(m', pat, e), if allows m' m then (λ x, (e, x)) <$> match_pattern pat p else None) t.

(** The router library: it calls a handler only for a pattern that matches, and
    the one pattern that does.  What it answers itself otherwise is its own. *)
Class Mux := {
  mux : list (option jstr * jstr * endpoint) → jstr → jstr → option (endpoint * jstr);
  mux_sound t m p c : mux t m p = Some c → c ∈ candidates t m p;
  mux_unique t m p c : candidates t m p = [c] → mux t m p = Some c }.

(** ** The readiness probe *)

(** [Readyz]: the errors of the two pings, and the version or its error. *)
Definition Readyz (nodeID : jstr) (pingDB pingRedis : option jstr) (latest : jstr + Z) : Z * json :=
  let up := match pingDB, pingRedis with None, None => true | _, _ => false end in
  let postgres := match pingDB with Some e => e | None => js "ok" end in
  let redis := match pingRedis with Some e => e | None => js "ok" end in
  let body (cv : list (jstr * json)) postgres ready :=
    JObj (cv ++ [(js "node_id", JStr nodeID); (js "postgres", JStr postgres); (js "ready", JBool ready);
                 (js "redis", JStr redis)]) in
  if up then
    match latest with
    | inr v => (200, body [(js "config_version", JNum v)] postgres true)
    | inl e => (503, body [] e false)
    end
  else (503, body [] postgres false).

(** ** Bodies *)
Section bodies.
(** An event's payload as the [JSONB] column gives it back, its times included. *)
Context (payload_json : FlagEvent → json).

Definition strings_json (l : list jstr) : json := JArr (map JStr l).
Definition flag_json (f : Flag) : json :=
  JObj [(js "id", JStr (fl_id f)); (js "key", JStr (fl_key f)); (js "description", JStr (fl_description f));
        (js "enabled", JBool (fl_enabled f)); (js "rollout_percentage", JNum (fl_rollout_percentage f));
        (js "targeted_users", strings_json (fl_targeted_users f)); (js "version", JNum (fl_version f));
        (js "created_at", JStr (fl_created_at f)); (js "updated_at", JStr (fl_updated_at f))].
(** [clientFlag] *)
Definition config_json (f : FlagConfig) : json :=
  JObj [(js "id", JStr (fc_id f)); (js "key", JStr (fc_key f)); (js "description", JStr (fc_description f));
        (js "enabled", JBool (fc_enabled f)); (js "rollout_percentage", JNum (fc_rollout_percentage f));
        (js "targeted_users", strings_json (fc_targeted_users f)); (js "version", JNum (fc_version f))].
Definition event_type_text (t : EventType) : jstr :=
  match t with Created => js "created" | Updated => js "updated" | Deleted => js "deleted" end.
Definition event_json (e : FlagEvent) : json :=
  JObj [(js "version", JNum (ev_version e)); (js "event_type", JStr (event_type_text (ev_type e)));
        (js "flag_key", JStr (ev_flag_key e)); (js "payload", payload_json e);
        (js "created_at", JStr (ev_created_at e))].

(** What [writeJSON] and [writeError] encode; a Go map prints its keys sorted. *)
Definition body_json (b : body) : option json :=
  match b with
  | NoBody => None
  | ErrorBody e m => Some (JObj [(js "error", JStr (js e)); (js "message", JStr (js m))])
  | FlagBody f => Some (flag_json f)
  | FlagsBody r => Some (JObj [(js "config_version", JNum (fr_config_version r));
                               (js "flags", JArr (map flag_json (fr_flags r)))])
  | ClientFlagsBody fl v => Some (JObj [(js "config_version", JNum v); (js "flags", JArr (map config_json fl))])
  | EventsOnly evs => Some (JObj [(js "events", JArr (map event_json evs))])
  | ReconcileBody evs v => Some (JObj [(js "config_version", JNum v); (js "events", JArr (map event_json evs))])
  | VersionBody n v c => Some (JObj [(js "config_version", JNum v); (js "node_id", JStr n); (js "sse_clients", JNum c)])
  end.

(** [json.NewEncoder(w).Encode] ends the text with a newline. *)
Definition encode (status : Z) (b : option json) : http_response :=
  match b with
  | None => mkHttpResponse status [] [] [] None
  | Some j => let text := Marshal j ++ [10] in
              mkHttpResponse status [] (content_type (js "application/json")) text (JSON_parse text)
  end.
End bodies.

(** ** Which route a request takes *)
Definition registered (t : list (option jstr * jstr * endpoint)) (m : jstr) : list (jstr * endpoint) :=
  omap (λ '(m', pat, e), if allows m' m then Some (pat, e) else None) t.

Lemma candidates_registered t m p :
  candidates t m p = omap (λ '(pat, e), (λ x, (e, x)) <$> match_pattern pat p) (registered t m).
Proof.
  unfold candidates, registered. induction t as [|[[m' pat] e] t IH]; [done|]. cbn.
  destruct (allows m' m); cbn; [|exact IH]. by destruct (match_pattern pat p); cbn; rewrite IH.
Qed.

Lemma split_segment_app x r : 47 ∉ x → split_segment (x ++ 47 :: r) = (x, 47 :: r).
Proof.
  induction x as [|c x IH]; intros Hx; [done|]. apply not_elem_of_cons in Hx as [Hc Hx].
  cbn [app split_segment]. by rewrite (proj2 (Z.eqb_neq c 47)), IH by done.
Qed.
Lemma split_segment_id x : 47 ∉ x → split_segment x = (x, []).
Proof.
  induction x as [|c x IH]; intros Hx; [done|]. apply not_elem_of_cons in Hx as [Hc Hx].
  cbn [split_segment]. by rewrite (proj2 (Z.eqb_neq c 47)), IH by done.
Qed.

(** Text literals as their units *)
Ltac spell := repeat match goal with |- context [js ?s] =>
  let v := eval vm_compute in (js s) in replace (js s) with v by (vm_compute; reflexivity) end.

(** The routes of a method, tried one after the other on a path whose start is
    known. *)
Ltac find_route m :=
  rewrite candidates_registered;
  let v := eval vm_compute in (registered routes m) in
  replace (registered routes m) with v by (vm_compute; reflexivity);
  spell; cbn [app omap list_omap match_pattern Z.eqb Pos.eqb fmap option_fmap option_map].

Section paths.
Context (id : jstr) (Hid : id ≠ []) (Hseg : 47 ∉ id).
Notation base := (js "/api/admin/flags/").

Lemma routes_flags_get : candidates routes (js "GET") (js "/api/admin/flags") = [(Admin OpList, [])].
Proof. vm_compute. reflexivity. Qed.
Lemma routes_flags_post : candidates routes (js "POST") (js "/api/admin/flags") = [(Admin OpCreate, [])].
Proof. vm_compute. reflexivity. Qed.

Lemma routes_get : candidates routes (js "GET") (base ++ id) = [(Admin OpGet, id)].
Proof.
  find_route (js "GET"). rewrite split_segment_id by done. destruct id; [done|]. vm_compute. reflexivity.
Qed.
Lemma routes_put : candidates routes (js "PUT") (base ++ id) = [(Admin OpUpdate, id)].
Proof. find_route (js "PUT"). rewrite split_segment_id by done. destruct id; [done|]. vm_compute. reflexivity. Qed.
Lemma routes_delete : candidates routes (js "DELETE") (base ++ id) = [(Admin OpDelete, id)].
Proof. find_route (js "DELETE"). rewrite split_segment_id by done. destruct id; [done|]. vm_compute. reflexivity. Qed.
Lemma routes_history : candidates routes (js "GET") (base ++ id ++ js "/events") = [(Admin OpHistory, id)].
Proof. find_route (js "GET"). rewrite split_segment_app by done. destruct id; [done|]. vm_compute. reflexivity. Qed.
Lemma routes_toggle : candidates routes (js "PATCH") (base ++ id ++ js "/toggle") = [(Admin OpToggle, id)].
Proof. find_route (js "PATCH"). rewrite split_segment_app by done. destruct id; [done|]. vm_compute. reflexivity. Qed.
End paths.

(** ** Serving a request *)

(** What is around the request: the clock, the identifier the database would
    give a new row, the dependencies' errors and the stream clients. *)
Record env := mkEnv {
  e_now : Z; e_id : jstr; e_pg : option jstr; e_redis : option jstr; e_clients : nat }.

(** Who answers: a handler, a probe, the metrics library, the stream broker, or
    the router itself. *)
Inductive answer := Reply (r : response) | Probe (status : Z) (j : json) | MetricsPage | StreamOpened | NotRouted.

Section serve.
Context `{!Mux} (fmt_time : Z → jstr) (payload_json : FlagEvent → json).
(** [cfg.NodeID], [cfg.AdminAPIKey], [cfg.SDKAPIKey] *)
Context (node_id admin_key sdk_key : jstr).
(** Postgres's reading of text as a UUID: its canonical text, or an error. *)
Context (uuid : jstr → option jstr).

Definition AdminAuth (h : headers) (next : answer * server) (s : server) : answer * server :=
  if bool_decide (go_header h (js "X-Admin-API-Key") = admin_key) then next
  else (Reply (writeError 401 "unauthorized" "Invalid or missing admin API key"), s).

Definition sdk_key_of (h : headers) (q : jstr) : jstr :=
  match go_header h (js "X-SDK-Key") with [] => query_get q (js "key") | k => k end.
Definition SDKAuth (h : headers) (q : jstr) (next : answer * server) (s : server) : answer * server :=
  if bool_decide (sdk_key_of h q = sdk_key) then next
  else (Reply (writeError 401 "unauthorized" "Invalid or missing SDK key"), s).

(** A statement that fails on its identifier has taken its version already. *)
Definition burnt (s : server) : server := mkServer (nextVersion (s_db s)).2 (s_published s).

(** The handlers behind their parameter and their body. *)
Definition admin (e : env) (o : admin_op) (param : jstr) (h : headers) (body : jstr) (s : server) : response * server :=
  match o with
  | OpCreate => handle_CreateFlag fmt_time (e_now e) (e_id e) (decode_create body) s
  | OpList => (handle_ListFlags fmt_time (s_db s) (s_db s), s)
  | OpGet => (match uuid param with
              | Some id => handle_GetFlag fmt_time id s
              | None => writeError 500 "internal_error" "Failed to get flag"
              end, s)
  | OpHistory => (match uuid param with
                  | Some id => handle_GetFlagHistory id s
                  | None => writeError 500 "internal_error" "Failed to get flag history"
                  end, s)
  | OpUpdate =>
      match uuid param, decode_update body with
      | Some id, fields => handle_UpdateFlag fmt_time (e_now e) id fields (go_header h (js "If-Match")) s
      | None, None => (writeError 400 "invalid_request" "Invalid request body", s)
      | None, Some u =>
          if bad_percentage u then (writeError 400 "validation_error" (error_text PercentageRange), s)
          else (writeError 500 "internal_error" "Failed to update flag", if no_fields u then s else burnt s)
      end
  | OpDelete => match uuid param with
                | Some id => handle_DeleteFlag fmt_time (e_now e) id s
                | None => (writeError 500 "internal_error" "Failed to delete flag", s)
                end
  | OpToggle => match uuid param with
                | Some id => handle_ToggleFlag fmt_time (e_now e) id s
                | None => (writeError 500 "internal_error" "Failed to toggle flag", burnt s)
                end
  end.

Definition client (e : env) (o : client_op) (q : jstr) (s : server) : answer :=
  match o with
  | OpFlags => Reply (GetAllFlags (s_db s) (s_db s))
  | OpStream => StreamOpened
  | OpEvents => Reply (Reconcile (query_get q (js "since")) (s_db s) (s_db s))
  | OpVersion => Reply (handle_Version node_id (e_clients e) (s_db s))
  end.

(** The router with its middleware, for a request that meets no other. *)
Definition serve (e : env) (rq : http_request) (s : server) : answer * server :=
  let '(p, q) := split_target (rq_url rq) in
  match mux routes (rq_method rq) p with
  | None => (NotRouted, s)
  | Some (Healthz, _) => (Probe 200 (JObj [(js "status", JStr (js "ok"))]), s)
  | Some (Readyz_, _) =>
      let '(st, j) := Readyz node_id (e_pg e) (e_redis e) (inr (GetLatestVersion (s_db s))) in (Probe st j, s)
  | Some (Metrics, _) => (MetricsPage, s)
  | Some (Admin o, id) =>
      AdminAuth (rq_headers rq)
        (let '(r, s') := admin e o id (rq_headers rq) (default [] (rq_body rq)) s in (Reply r, s')) s
  | Some (Client o, _) => SDKAuth (rq_headers rq) q (client e o q s, s) s
  end.

(** The response on the wire, of the answers that are one message. *)
Definition send (a : answer) : option http_response :=
  match a with
  | Reply r => Some (encode (rs_status r) (body_json payload_json (rs_body r)))
  | Probe st j => Some (encode st (Some j))
  | _ => None
  end.

(** The server as the proxy sees it, at [origin]. *)
Definition upstream (origin : jstr) (e : env) (rq : http_request) (s : server) : option (http_response * server) :=
  t ← strip_prefix origin (rq_url rq);
  let '(a, s') := serve e (mkRequest (rq_method rq) t (rq_headers rq) (rq_body rq)) s in
  r ← send a; Some (r, s').

Lemma serve_unkeyed e rq s :
  go_header (rq_headers rq) (js "X-Admin-API-Key") ≠ admin_key → (serve e rq s).2 = s.
Proof.
  intros Ha. unfold serve. destruct (split_target (rq_url rq)) as [p q].
  destruct (mux routes (rq_method rq) p) as [[[| | |o|o] id]|]; try done.
  - by destruct (Readyz _ _ _ _).
  - unfold AdminAuth. by rewrite bool_decide_false.
  - unfold SDKAuth. by case_bool_decide.
Qed.

(** C18: nothing without the key.  Whatever method, path, headers and body a
    request has, without the admin key it changes no flag, no event and no
    envelope; if it has neither key, any handler that answers it answers 401,
    and the stream opens for nobody without the SDK key. *)
Theorem keys_guard_handlers (e : env) (rq : http_request) (s : server) :
  let q := (split_target (rq_url rq)).2 in
  go_header (rq_headers rq) (js "X-Admin-API-Key") ≠ admin_key →
  (serve e rq s).2 = s
  ∧ (∀ r, (serve e rq s).1 = Reply r → sdk_key_of (rq_headers rq) q ≠ sdk_key → rs_status r = 401)
  ∧ ((serve e rq s).1 = StreamOpened → sdk_key_of (rq_headers rq) q = sdk_key).
Proof.
  cbn zeta. intros Ha. split; [by apply serve_unkeyed|]. unfold serve. destruct (split_target (rq_url rq)) as [p q]. cbn [snd].
  destruct (mux routes (rq_method rq) p) as [[[| | |o|o] id]|]; try (by split).
  - by destruct (Readyz _ _ _ _).
  - unfold AdminAuth. rewrite bool_decide_false by done. cbn. split; [|done]. by intros r [= <-].
  - unfold SDKAuth. case_bool_decide as Hk; cbn; [by split|]. split; [|done]. by intros r [= <-].
Qed.
End serve.

(** ** From the dashboard to the service and back *)

(** The methods of [FlagAPI], and the route file each goes through. *)
Inductive call :=
| CList | CGet (id : jstr) | CHistory (id : jstr) | CCreate (i : CreateFlagInput)
| CUpdate (id : jstr) (u : UpdateFlagInput) (v : option Z) | CDelete (id : jstr) | CToggle (id : jstr).

Definition call_request (base : jstr) (c : call) : http_request :=
  match c with
  | CList => listFlags base
  | CGet id => getFlag base id
  | CHistory id => getFlagHistory_request base id
  | CCreate i => createFlag base i
  | CUpdate id u v => updateFlag base id u v
  | CDelete id => deleteFlag base id
  | CToggle id => toggleFlag base id
  end.

Definition call_route (c : call) : route :=
  match c with
  | CList | CCreate _ => RFlags
  | CGet id | CUpdate id _ _ | CDelete id => RFlag id
  | CHistory id => REvents id
  | CToggle id => RToggle id
  end.

(** The value, the error message or nothing, by the response. *)
Definition outcome_of (payload_json : FlagEvent → json) (r : response) : outcome :=
  match rs_body r with
  | ErrorBody _ m => Thrown (js m)
  | b => match body_json payload_json b with Some j => Returned j | None => ReturnedUndefined end
  end.

(** Text everywhere *)
Definition row_text (f : FlagConfig) : Prop :=
  Forall unit16 (fc_id f) ∧ Forall unit16 (fc_key f) ∧ Forall unit16 (fc_description f)
  ∧ Forall (Forall unit16) (fc_targeted_users f).
Definition payload_text (o : FlagObj) : Prop :=
  match o with FullFlag f => row_text f | KeyOnly k => Forall unit16 k end.
Definition event_text (e : FlagEvent) : Prop :=
  Forall unit16 (ev_flag_key e) ∧ payload_text (ev_payload e) ∧ Forall unit16 (ev_created_at e).
Record db_text (d : db) : Prop := {
  dt_rows : Forall (λ r, row_text (r_flag r)) (rows d);
  dt_log : Forall event_text (log d) }.

Definition json_ok (j : json) : Prop := json_units j ∧ json_keys j.

Lemma units_map {A} (f : A → json) l :
  Forall (λ x, json_units (f x)) l → foldr (λ x P, json_units x ∧ P) True (map f l).
Proof. induction 1; cbn; auto. Qed.
Lemma keys_map {A} (f : A → json) l :
  Forall (λ x, json_keys (f x)) l → foldr (λ x P, json_keys x ∧ P) True (map f l).
Proof. induction 1; cbn; auto. Qed.

Lemma array_ok {A} (f : A → json) l : Forall (λ x, json_ok (f x)) l → json_ok (JArr (map f l)).
Proof.
  intros Hl. split; [apply units_map|apply keys_map]; (eapply Forall_impl; [exact Hl|]); intros x []; done.
Qed.

(** Fields under literal names, none of them twice *)
Lemma fields_ok (fs : list (jstr * json)) :
  forallb (λ p, forallb is_unit16 p.1) fs = true →
  bool_decide (NoDup fs.*1) = true → Forall (λ p, json_ok p.2) fs → json_ok (JObj fs).
Proof.
  intros Hn Hd%bool_decide_eq_true Hf. split; cbn [json_units json_keys].
  - clear Hd. induction Hf as [|[k v] fs [Hv _] _ IH]; [done|]. cbn [forallb foldr fst snd] in *. boolify.
    split_and!; [by apply js_units|done|by apply IH].
  - split; [done|]. clear Hn Hd. induction Hf as [|[k v] fs [_ Hv] _ IH]; [done|]. cbn. by split.
Qed.

Lemma string_ok s : Forall unit16 s → json_ok (JStr s).
Proof. by split. Qed.
Lemma num_ok n : json_ok (JNum n).
Proof. by split. Qed.
Lemma bool_ok b : json_ok (JBool b).
Proof. by split. Qed.
Lemma strings_ok l : Forall (Forall unit16) l → json_ok (strings_json l).
Proof. intros Hl. apply array_ok. eapply Forall_impl; [exact Hl|]. intros s Hs. by apply string_ok. Qed.
Create HintDb json_ok.
#[export] Hint Resolve string_ok num_ok bool_ok strings_ok : json_ok.

(** The values of a literal object, one by one *)
Ltac each_field := repeat (apply Forall_cons; split); [cbn; auto with json_ok..|by apply Forall_nil].

Section end_to_end.
Context `{!Mux} (fmt_time : Z → jstr) (payload_json : FlagEvent → json).
Context (node_id admin_key sdk_key : jstr) (uuid : jstr → option jstr).
Context (base internal proxy_key : jstr).
Hypothesis times_are_text : ∀ t, Forall unit16 (fmt_time t).
Hypothesis payloads_are_json : ∀ e, event_text e → json_ok (payload_json e).

Notation proxied := (upstream fmt_time payload_json node_id admin_key sdk_key uuid).

(** What the handlers do when they are called directly. *)
Definition service (e : env) (c : call) (s : server) : response * server :=
  match c with
  | CList => (handle_ListFlags fmt_time (s_db s) (s_db s), s)
  | CGet id => (handle_GetFlag fmt_time id s, s)
  | CHistory id => (handle_GetFlagHistory id s, s)
  | CCreate i => handle_CreateFlag fmt_time (e_now e) (e_id e) (Some i) s
  | CUpdate id u v =>
      handle_UpdateFlag fmt_time (e_now e) id (Some u)
        (match v with Some v => [34] ++ show v ++ [34] | None => [] end) s
  | CDelete id => handle_DeleteFlag fmt_time (e_now e) id s
  | CToggle id => handle_ToggleFlag fmt_time (e_now e) id s
  end.

(** A method of the dashboard, through route file, proxy and server. *)
Definition dashboard (e : env) (c : call) (s : server) : option (outcome * server) :=
  p ← backend_path (call_route c);
  '(r, s') ← proxied internal e (proxy_request internal proxy_key (call_request base c) p) s;
  Some (settle (Fetched (proxy_response (Fetched r))), s').

(** Identifiers the table gives out: canonical, and one path segment. *)
Record canonical (id : jstr) : Prop := {
  ca_units : Forall unit16 id; ca_nonempty : id ≠ [];
  ca_encoded : encodeURIComponent id = Some id; ca_uuid : uuid id = Some id }.

Definition call_ok (c : call) : Prop :=
  match c with
  | CList => True
  | CGet id | CHistory id | CDelete id | CToggle id => canonical id
  | CCreate i => create_ok i
  | CUpdate id u v => canonical id ∧ update_ok u ∧ opt_ok int64 v
  end.

Lemma canonical_segment id : canonical id → 47 ∉ id ∧ 63 ∉ id.
Proof.
  intros [Hu _ He _]. pose proof (encode_chars id id Hu He) as Hc. rewrite Forall_forall in Hc.
  split; intros Hin; destruct (Hc _ Hin) as [Hx|]; try done; vm_compute in Hx; done.
Qed.

Lemma split_target_id p : 63 ∉ p → split_target p = (p, []).
Proof.
  induction p as [|c p IH]; intros Hp; [done|]. apply not_elem_of_cons in Hp as [Hc Hp].
  cbn [split_target]. by rewrite (proj2 (Z.eqb_neq c 63)), IH by done.
Qed.

Definition call_op (c : call) : admin_op :=
  match c with
  | CList => OpList | CGet _ => OpGet | CHistory _ => OpHistory | CCreate _ => OpCreate
  | CUpdate _ _ _ => OpUpdate | CDelete _ => OpDelete | CToggle _ => OpToggle
  end.
Definition call_param (c : call) : jstr :=
  match c with
  | CList | CCreate _ => []
  | CGet id | CHistory id | CUpdate id _ _ | CDelete id | CToggle id => id
  end.

Lemma js_no_query s : bool_decide (63 ∈ js s) = false → 63 ∉ js s.
Proof. intros Hb. by apply bool_decide_eq_false in Hb. Qed.

(** Every method of the dashboard arrives at its handler. *)
Lemma call_routed c : call_ok c → ∃ p, backend_path (call_route c) = Some p ∧ 63 ∉ p
  ∧ mux routes (rq_method (call_request base c)) p = Some (Admin (call_op c), call_param c).
Proof.
  assert (∀ s, bool_decide (63 ∈ js s) = false → 63 ∉ js s) as Hq by apply js_no_query.
  intros Hc. destruct c as [|id|id|i|id u v|id|id]; cbn [call_ok] in Hc.
  1, 4: (exists (js "/api/admin/flags"); split_and!; [done|by apply Hq; vm_compute|]; apply mux_unique;
         first [exact routes_flags_get|exact routes_flags_post]).
  all: assert (canonical id) as Hid by (by apply Hc || exact Hc); destruct (canonical_segment id Hid) as [H47 H63];
    pose proof (ca_nonempty id Hid) as Hne; cbn [call_route backend_path]; unfold flag_path_of, toggle_path_of, events_path_of; rewrite (ca_encoded id Hid);
    eexists; (split; [reflexivity|]).
  1, 3, 4: split; [rewrite elem_of_app; intros [H'|H']; [by eapply Hq in H'; vm_compute|done]|].
  4, 5: split; [rewrite !elem_of_app; intros [H'|[H'|H']]; [by eapply Hq in H'; vm_compute|done|by eapply Hq in H'; vm_compute]|].
  all: apply mux_unique.
  - by apply routes_get.
  - by apply routes_put.
  - by apply routes_delete.
  - by apply routes_history.
  - by apply routes_toggle.
Qed.

(** What the handlers read of a forwarded request is what was called. *)
Lemma admin_service e c p s : call_ok c →
  let up := proxy_request internal proxy_key (call_request base c) p in
  admin fmt_time uuid e (call_op c) (call_param c) (rq_headers up) (default [] (rq_body up)) s = service e c s.
Proof.
  intros Hc. cbn zeta. destruct c as [|id|id|i|id u v|id|id]; cbn [call_ok call_op call_param admin service] in *; try done.
  - by rewrite (ca_uuid id Hc).
  - by rewrite (ca_uuid id Hc).
  - cbn [call_request createFlag request_of proxy_request rq_method rq_body].
    change (has_body (js "POST")) with true. cbn [from_option Datatypes.id]. by rewrite decode_create_stringify.
  - destruct Hc as (Hid & Hu & Hv). rewrite (ca_uuid id Hid). cbn [call_request]. rewrite update_if_match.
    change (rq_body (proxy_request internal proxy_key (updateFlag base id u v) p)) with (Some (stringify_update u)).
    cbn [from_option Datatypes.id]. by rewrite decode_update_stringify.
  - by rewrite (ca_uuid id Hc).
  - by rewrite (ca_uuid id Hc).
Qed.

Lemma strip_origin p : strip_prefix internal (internal ++ p) = Some p.
Proof. apply strip_prefix_app. Qed.

Definition unauthorized : response := writeError 401 "unauthorized" "Invalid or missing admin API key".
Definition message (r : response) : http_response := encode (rs_status r) (body_json payload_json (rs_body r)).

Lemma dashboard_reply e c s : call_ok c →
  dashboard e c s =
  let '(r, s') := if bool_decide (proxy_key = admin_key) then service e c s else (unauthorized, s) in
  Some (settle (Fetched (proxy_response (Fetched (message r)))), s').
Proof.
  intros Hc. destruct (call_routed c Hc) as (p & Hp & Hq & Hm). unfold dashboard. rewrite Hp. cbn [mbind option_bind].
  pose proof (admin_service e c p s Hc) as Hs. cbn zeta in Hs.
  set (up := proxy_request internal proxy_key (call_request base c) p) in *.
  unfold upstream. change (rq_url up) with (internal ++ p). rewrite strip_origin. cbn [mbind option_bind].
  unfold serve. cbn [rq_url rq_method rq_headers rq_body]. rewrite split_target_id by done.
  change (rq_method up) with (rq_method (call_request base c)). rewrite Hm. cbn iota.
  assert (go_header (rq_headers up) (js "X-Admin-API-Key") = proxy_key) as Hk
    by (unfold go_header, up; by rewrite proxy_admin_key).
  unfold AdminAuth. rewrite Hk. destruct (bool_decide (proxy_key = admin_key)); [|reflexivity].
  rewrite Hs. by destruct (service e c s) as [r s'].
Qed.

(** *** Answers are text, and stay so *)
Definition well_shaped (r : response) : Prop :=
  match rs_body r with
  | NoBody => rs_status r = 204
  | ErrorBody _ m => ((rs_status r <? 200) || (299 <? rs_status r)) = true ∧ js m ≠ []
  | _ => rs_status r = 200 ∨ rs_status r = 201
  end.
Definition reply_ok (r : response) : Prop :=
  well_shaped r ∧ match body_json payload_json (rs_body r) with Some j => json_ok j | None => True end.

Lemma parse_message j : json_ok j → JSON_parse (Marshal j ++ [10]) = Some j.
Proof. intros [Hu Hk]. by apply JSON_parse_print; [apply _|..]. Qed.

Lemma settle_returned st j : st = 200 ∨ st = 201 → json_ok j →
  settle (Fetched (proxy_response (Fetched (encode st (Some j))))) = Returned j.
Proof.
  intros Hst Hj. unfold encode, proxy_response. cbn [hr_status hr_text hr_json hr_headers].
  rewrite parse_message by done. by destruct Hst as [-> | ->].
Qed.

Lemma settle_thrown st (e m : jstr) : ((st <? 200) || (299 <? st)) = true → m ≠ [] →
  json_ok (JObj [(js "error", JStr e); (js "message", JStr m)]) →
  settle (Fetched (proxy_response (Fetched (encode st (Some (JObj [(js "error", JStr e); (js "message", JStr m)]))))))
  = Thrown m.
Proof.
  intros Hst Hm Hj. unfold encode, proxy_response. cbn [hr_status hr_text hr_json hr_headers].
  rewrite parse_message by done. destruct (Z.eqb_spec st 204) as [->|Hne]; [done|].
  unfold settle, error_message, hr_ok. cbn [hr_status hr_json from_option].
  replace ((200 <=? st) && (st <=? 299)) with false.
  - cbn [negb jget_throws jget map_get Datatypes.id].
    rewrite decide_False by (vm_compute; discriminate). rewrite decide_True by done. cbn [truthy].
    by rewrite bool_decide_false.
  - symmetry. apply andb_false_iff. boolify. rewrite !Z.leb_gt. destruct Hst; boolify; lia.
Qed.

Lemma settle_message r : reply_ok r →
  settle (Fetched (proxy_response (Fetched (message r)))) = outcome_of payload_json r.
Proof.
  destruct r as [st b]. intros [Hs Hj]. unfold message, outcome_of, well_shaped in *. cbn [rs_status rs_body] in *.
  destruct b; cbn [body_json] in *; try (by apply settle_returned).
  - by subst.
  - destruct Hs as [Hst Hm]. by apply settle_thrown.
Qed.

Lemma flag_json_ok r : row_text (r_flag r) → json_ok (flag_json (toResponse fmt_time r)).
Proof.
  intros (Hi & Hk & Hd & Hu). unfold flag_json, toResponse.
  apply fields_ok; [vm_compute; reflexivity..|]. each_field.
Qed.

Lemma event_json_ok e : event_text e → json_ok (event_json payload_json e).
Proof.
  intros He. pose proof (payloads_are_json e He) as Hj. destruct He as (Hk & Hp & Ht).
  unfold event_json. apply fields_ok; [vm_compute; reflexivity..|].
  assert (json_ok (JStr (event_type_text (ev_type e)))) by (apply string_ok; by destruct (ev_type e); apply js_units).
  each_field.
Qed.

(** *** Rows and events stay text *)
Lemma GetByID_text id d r : db_text d → GetByID id d = Some r → row_text (r_flag r).
Proof. intros [Hr _] [Hin _]%GetByID_Some. by eapply Forall_forall in Hr. Qed.

Lemma db_text_seq n d : db_text d → db_text (mkDb n (rows d) (log d)).
Proof. by intros [Hr Hl]. Qed.

Lemma append_text v ty k o now d : db_text d → Forall unit16 k → payload_text o →
  db_text (appendEvent fmt_time v ty k o now d).
Proof. intros [Hr Hl] Hk Ho. split; [done|]. cbn. apply Forall_app. split; [done|].
  apply Forall_singleton. unfold event_text. cbn. auto. Qed.

Lemma write_row_text v now id f r d : db_text d → row_text (r_flag r) → (∀ x, row_text x → row_text (f x)) →
  let '(res, d') := write_row fmt_time v now id f r d in
  db_text d' ∧ ∀ r', res = Ok (Some r') → row_text (r_flag r').
Proof.
  intros Hd Hr Hf. unfold write_row. destruct (row_ok _); [|by split].
  split; [|by intros r' [= <-]; apply Hf]. apply append_text; [|by apply Hr|by apply Hf].
  destruct Hd as [Hrs Hl]. split; [|done]. cbn. unfold set_row. change (map ?g ?l) with (g <$> l).
  apply Forall_fmap. eapply Forall_impl; [exact Hrs|]. intros x Hx. cbn. case_decide; [by apply Hf|done].
Qed.

Lemma set_fields_text v u x : update_ok u → row_text x → row_text (set_fields v u x).
Proof.
  intros [Hd _ Hu] (Hi & Hk & Hx & Hl). unfold set_fields, row_text. cbn.
  destruct u as [[d|] e p [l|]]; cbn in *; split_and!; try done; try apply Hd;
    (eapply Forall_impl; [exact Hu|]); intros s Hs; apply Hs.
Qed.

Lemma flip_enabled_text v x : row_text x → row_text (flip_enabled v x).
Proof. done. Qed.

Lemma Update_text now id u ex d : db_text d → update_ok u →
  let '(res, d') := Update fmt_time now id (mkUpdateFlagRequest u ex) d in
  db_text d' ∧ ∀ r, res = Ok (Some r) → row_text (r_flag r).
Proof.
  intros Hd Hu. unfold Update. cbn [ur_fields]. destruct (no_fields u).
  - split; [done|]. intros r [= Hr]. by eapply GetByID_text.
  - unfold nextVersion, Update_commit. cbn. pose proof (db_text_seq (seq d + 1) d Hd) as Hd'.
    destruct (GetByID id _) as [r|] eqn:Hr; [|by split].
    destruct (version_differs _ _); [by split|]. apply write_row_text; [done| |].
    + by eapply (GetByID_text id d).
    + intros x. by apply set_fields_text.
Qed.

Lemma Toggle_text now id d : db_text d →
  let '(res, d') := Toggle fmt_time now id d in
  db_text d' ∧ ∀ r, res = Ok (Some r) → row_text (r_flag r).
Proof.
  intros Hd. unfold Toggle, nextVersion, Toggle_commit. pose proof (db_text_seq (seq d + 1) d Hd) as Hd'.
  destruct (GetByID id _) as [r|] eqn:Hr; [|by split]. apply write_row_text; [done|by eapply (GetByID_text id d)|apply flip_enabled_text].
Qed.

Lemma Create_text now id i d : db_text d → Forall unit16 id → create_ok i →
  let '(res, d') := Create fmt_time now id i d in
  db_text d' ∧ ∀ r, res = Ok r → row_text (r_flag r).
Proof.
  intros Hd Hid [Hk Hds _ Hu]. unfold Create, nextVersion, Create_commit.
  set (f := mkFlagConfig _ _ _ _ _ _ _). assert (row_text f) as Hf.
  { split_and!; [done|apply Hk|apply Hds|]. eapply Forall_impl; [exact Hu|]. by intros s []. }
  destruct (_ && _ && _); [|by split; [apply db_text_seq|]]. split; [|by intros r [= <-]].
  apply append_text; [|apply Hk|done]. destruct Hd as [Hr Hl]. split; [|done]. cbn.
  apply Forall_app. by split; [|apply Forall_singleton].
Qed.

(** *** Every handler's answer *)
Definition error_fits (st : Z) (e m : String.string) : bool :=
  ((st <? 200) || (299 <? st)) && negb (bool_decide (js m = []))
  && forallb is_unit16 (js e) && forallb is_unit16 (js m).

Lemma error_ok st e m : error_fits st e m = true → reply_ok (writeError st e m).
Proof.
  unfold error_fits. rewrite !andb_true_iff. intros [[[Hs Hm%negb_true_iff%bool_decide_eq_false] He%js_units] Hu%js_units].
  split; [by split|]. cbn [rs_body body_json writeError]. apply fields_ok; [vm_compute; reflexivity..|]. each_field.
Qed.

Lemma flag_ok st r : st = 200 ∨ st = 201 → row_text (r_flag r) →
  reply_ok (mkResponse st (FlagBody (toResponse fmt_time r))).
Proof. intros Hs Hr. split; [done|]. by apply flag_json_ok. Qed.

Ltac handled := split; [first [by apply error_ok; vm_compute | by apply flag_ok; auto | done] | done].

Lemma publish_text (rd : Server.result (option row) * db) s :
  (db_text rd.2 ∧ ∀ r, rd.1 = Ok (Some r) → row_text (r_flag r)) →
  let '(res, s') := publish_result rd s in
  db_text (s_db s') ∧ ∀ r, res = inr (Some r) → row_text (r_flag r).
Proof.
  destruct rd as [[[r|]|e] d]; cbn; intros [Hd Hr]; (split; [done|]); try done. intros r' [= <-]. by apply Hr.
Qed.

Lemma update_reply_ok now id u h s : db_text (s_db s) → update_ok u →
  let '(r, s') := handle_UpdateFlag fmt_time now id (Some u) h s in reply_ok r ∧ db_text (s_db s').
Proof.
  intros Hd Hu. unfold handle_UpdateFlag, UpdateFlag. cbn [ur_fields].
  destruct (bad_percentage u); [handled|].
  pose proof (Update_text now id u (if_match_version h) (s_db s) Hd Hu) as Hup.
  pose proof (publish_text (Update fmt_time now id (mkUpdateFlagRequest u (if_match_version h)) (s_db s)) s) as Hp.
  destruct (Update _ _ _ _ _) as [res d]. specialize (Hp Hup).
  destruct (publish_result _ _) as [[[| | | |[]]|[r|]] s']; destruct Hp as [Hs Hr]; handled.
Qed.

Lemma toggle_reply_ok now id s : db_text (s_db s) →
  let '(r, s') := handle_ToggleFlag fmt_time now id s in reply_ok r ∧ db_text (s_db s').
Proof.
  intros Hd. unfold handle_ToggleFlag, ToggleFlag. pose proof (Toggle_text now id (s_db s) Hd) as Hup.
  pose proof (publish_text (Toggle fmt_time now id (s_db s)) s) as Hp.
  destruct (Toggle _ _ _ _) as [res d]. specialize (Hp Hup).
  destruct (publish_result _ _) as [[?|[r|]] s']; destruct Hp as [Hs Hr]; handled.
Qed.

Lemma create_reply_ok now id i s : db_text (s_db s) → Forall unit16 id → create_ok i →
  let '(r, s') := handle_CreateFlag fmt_time now id (Some i) s in reply_ok r ∧ db_text (s_db s').
Proof.
  intros Hd Hid Hi. unfold handle_CreateFlag, CreateFlag. destruct (validate_create i) as [e|] eqn:Hv.
  - unfold validate_create in Hv. repeat case_match; simplify_eq; handled.
  - destruct (bool_decide _); [|handled]. pose proof (Create_text now id i (s_db s) Hd Hid Hi) as Hc.
    destruct (Create _ _ _ _ _) as [[r|e] d]; destruct Hc as [Hs Hr]; cbn; handled.
Qed.

Lemma delete_reply_ok now id s : db_text (s_db s) →
  let '(r, s') := handle_DeleteFlag fmt_time now id s in reply_ok r ∧ db_text (s_db s').
Proof.
  intros Hd. unfold handle_DeleteFlag, DeleteFlag. destruct (GetByID id (s_db s)) as [r|] eqn:Hr; [|handled].
  pose proof (GetByID_text id _ r Hd Hr) as (_ & Hk & _). unfold Delete. rewrite Hr. unfold nextVersion, Delete_commit. cbn.
  split; [by split|]. destruct Hd as [Hrs Hl]. split; cbn.
  - by apply Forall_filter_keep.
  - apply Forall_app. split; [done|]. apply Forall_singleton. unfold event_text. cbn. auto.
Qed.

Lemma list_reply_ok d : db_text d → reply_ok (handle_ListFlags fmt_time d d).
Proof.
  intros [Hr _]. split; [by left|]. cbn [handle_ListFlags rs_body body_json fr_flags fr_config_version].
  apply fields_ok; [vm_compute; reflexivity..|]. apply Forall_cons. split; [by apply num_ok|].
  apply Forall_singleton. cbn [snd]. rewrite map_map. apply array_ok. unfold Server.List.
  rewrite merge_sort_Permutation. eapply Forall_impl; [exact Hr|]. intros r. apply flag_json_ok.
Qed.

Lemma get_reply_ok id s : db_text (s_db s) → reply_ok (handle_GetFlag fmt_time id s).
Proof.
  intros Hd. unfold handle_GetFlag. destruct (GetByID id (s_db s)) as [r|] eqn:Hr; [|by apply error_ok; vm_compute].
  apply flag_ok; [by left|by eapply GetByID_text].
Qed.

Lemma history_reply_ok id s : db_text (s_db s) → reply_ok (handle_GetFlagHistory id s).
Proof.
  intros Hd. unfold handle_GetFlagHistory, GetFlagHistory.
  destruct (GetByID id (s_db s)) as [r|]; [|by apply error_ok; vm_compute].
  split; [by left|]. cbn [rs_body body_json]. apply fields_ok; [vm_compute; reflexivity..|].
  apply Forall_singleton. cbn [snd]. apply array_ok. unfold ListEventsByFlag. apply Forall_take.
  rewrite merge_sort_Permutation. apply Forall_filter_keep. eapply Forall_impl; [exact (dt_log _ Hd)|].
  intros x. apply event_json_ok.
Qed.

Lemma service_reply_ok e c s : db_text (s_db s) → Forall unit16 (e_id e) → call_ok c →
  reply_ok (service e c s).1 ∧ db_text (s_db (service e c s).2).
Proof.
  intros Hd He Hc. destruct c as [|id|id|i|id u v|id|id]; cbn [service].
  - split; [by apply list_reply_ok|done].
  - split; [by apply get_reply_ok|done].
  - split; [by apply history_reply_ok|done].
  - pose proof (create_reply_ok (e_now e) (e_id e) i s Hd He Hc) as Hx. by destruct (handle_CreateFlag _ _ _ _ _).
  - destruct Hc as (_ & Hu & _).
    pose proof (update_reply_ok (e_now e) id u (match v with Some v => [34] ++ show v ++ [34] | None => [] end) s Hd Hu) as Hx.
    by destruct (handle_UpdateFlag _ _ _ _ _ _).
  - pose proof (delete_reply_ok (e_now e) id s Hd) as Hx. by destruct (handle_DeleteFlag _ _ _ _).
  - pose proof (toggle_reply_ok (e_now e) id s Hd) as Hx. by destruct (handle_ToggleFlag _ _ _ _).
Qed.

(** C6: the dashboard's API is the service.  A method of the page, taken through
    its route file, the proxy, the router, the key check and the decoders and
    back, returns exactly what the handler decides and leaves exactly the state it
    leaves: a value becomes the value, 204 becomes nothing, every error becomes an
    exception with the handler's own message, and an update arrives with its
    expected version.  With another key than the server's it is refused with the
    server's message and nothing changes.  Stored text stays text throughout. *)
Theorem dashboard_reaches_service (e : env) (c : call) (s : server) :
  db_text (s_db s) → Forall unit16 (e_id e) → call_ok c →
  (proxy_key = admin_key →
     let '(r, s') := service e c s in
     dashboard e c s = Some (outcome_of payload_json r, s') ∧ db_text (s_db s'))
  ∧ (proxy_key ≠ admin_key →
     dashboard e c s = Some (Thrown (js "Invalid or missing admin API key"), s)).
Proof.
  intros Hd He Hc. rewrite (dashboard_reply e c s Hc). split; intros Hk.
  - rewrite bool_decide_true by done. pose proof (service_reply_ok e c s Hd He Hc) as [Hr Ht].
    destruct (service e c s) as [r s']. by rewrite settle_message.
  - rewrite bool_decide_false by done. rewrite settle_message; [done|]. by apply error_ok; vm_compute.
Qed.
End end_to_end.

(** ** The probes, as the dashboard reads them *)

Lemma probe_ok nodeID pingDB pingRedis latest :
  Forall unit16 nodeID → (∀ e, pingDB = Some e → Forall unit16 e) → (∀ e, pingRedis = Some e → Forall unit16 e) →
  (∀ e, latest = inl e → Forall unit16 e) → json_ok (Readyz nodeID pingDB pingRedis latest).2.
Proof.
  intros Hn Hd Hr Hl. assert (json_ok (JStr (js "ok"))) as Hok by (by apply string_ok, js_units).
  destruct pingDB as [e1|], pingRedis as [e2|], latest as [e3|v]; (apply fields_ok; [vm_compute; reflexivity..|]);
    each_field; eauto using string_ok.
Qed.

(** The fleet pages read the probes right.  A node's readiness answer, in
    either status, is read by the health hook as exactly its node, whether
    Postgres, Redis and the version query all succeeded, the text about each
    dependency, and the version if there is one; and its version answer is read
    by the cluster hook as exactly its version and client count. *)
Theorem probes_round_trip (url nodeID : jstr) (pingDB pingRedis : option jstr) (latest : jstr + Z)
    (payload_json : FlagEvent → json) (clients : nat) (d : db) :
  Forall unit16 nodeID → (∀ e, pingDB = Some e → Forall unit16 e) → (∀ e, pingRedis = Some e → Forall unit16 e) →
  (∀ e, latest = inl e → Forall unit16 e) →
  let up := match pingDB, pingRedis, latest with None, None, inr v => Some v | _, _, _ => None end in
  let postgres := match pingDB, pingRedis, latest with
                  | Some e, _, _ => e | None, None, inl e => e | _, _, _ => js "ok" end in
  let '(st, j) := Readyz nodeID pingDB pingRedis latest in
  fetchReadyz url (Fetched (encode st (Some j)))
    = mkNodeReadiness url nodeID (bool_decide (is_Some up)) true (Some postgres) (Some (default (js "ok") pingRedis)) up
  ∧ st = (if up then 200 else 503)
  ∧ fetchNode url (Fetched (message payload_json (handle_Version nodeID clients d)))
    = mkNodeState url nodeID (Some (GetLatestVersion d)) (Some (Z.of_nat clients)) true.
Proof.
  intros Hn Hd Hr Hl. cbn zeta. pose proof (probe_ok nodeID pingDB pingRedis latest Hn Hd Hr Hl) as Hok.
  destruct (Readyz nodeID pingDB pingRedis latest) as [st j] eqn:He. cbn [snd] in Hok. split_and!.
  - unfold fetchReadyz, encode. cbn [hr_json]. rewrite parse_message by done. cbn [from_option Datatypes.id].
    destruct pingDB as [e1|], pingRedis as [e2|], latest as [e3|v]; cbn [Readyz] in He; simplify_eq;
      vm_compute; reflexivity.
  - destruct pingDB as [e1|], pingRedis as [e2|], latest as [e3|v]; cbn in He; by simplify_eq.
  - unfold handle_Version. generalize (GetLatestVersion d) as v, (Z.of_nat clients) as n. intros v n.
    unfold fetchNode, message, encode. cbn [rs_status rs_body body_json hr_status hr_json hr_ok].
    rewrite parse_message; [vm_compute; reflexivity|]. apply fields_ok; [vm_compute; reflexivity..|].
    repeat (apply Forall_cons; split); [apply num_ok|by apply string_ok|apply num_ok|by apply Forall_nil].
Qed.

(** ** Witnesses *)

(** A router that takes the first pattern that matches. *)
#[local] Program Instance first_match : Mux := {| mux t m p := head (candidates t m p) |}.
Next Obligation. intros t m p c. apply head_elem. Qed.
Next Obligation. intros t m p c Hc. simpl. by rewrite Hc. Qed.

Lemma show_text n : Forall unit16 (show n).
Proof.
  assert (∀ m, 0 ≤ m → Forall unit16 (show_nonneg m)) as Hd.
  { intros m Hm. eapply Forall_impl; [by apply show_nonneg_digits|].
    intros c Hc%is_digit_spec. unfold unit16. lia. }
  unfold show. destruct (n <? 0) eqn:E; boolify; [apply Forall_cons; split; [by unfold unit16|]|]; apply Hd; lia.
Qed.

Definition demo_payload (e : FlagEvent) : json :=
  match ev_payload e with FullFlag f => config_json f | KeyOnly k => JObj [(js "key", JStr k)] end.

Lemma demo_payload_ok e : event_text e → json_ok (demo_payload e).
Proof.
  intros (_ & Ho & _). unfold demo_payload. destruct (ev_payload e) as [f|k]; (apply fields_ok; [vm_compute; reflexivity..|]).
  - destruct Ho as (Hi & Hk & Hd & Hu). each_field.
  - each_field.
Qed.

Definition demo_env : env := mkEnv 2000 (js "id-2") None None 0.

Lemma demo_text : db_text (s_db demo_server).
Proof.
  assert (row_text (r_flag demo_row)) as Hr by (split_and!; try (by apply js_units); constructor).
  split; apply Forall_singleton; [exact Hr|]. split_and!; [by apply js_units|exact Hr|apply show_text].
Qed.

Lemma dashboard_reaches_service_witness :
  fst <$> dashboard show demo_payload (js "node-1") (js "k") (js "sdk") Some [] (js "http://lb") (js "k") demo_env
          (CUpdate (js "id-1") (demo_update 75) (Some 9)) demo_server
  = Some (Thrown (js "This flag was changed by someone else. Reload and try again.")).
Proof.
  pose proof (dashboard_reaches_service show demo_payload (js "node-1") (js "k") (js "sdk") Some [] (js "http://lb")
    (js "k") show_text demo_payload_ok demo_env (CUpdate (js "id-1") (demo_update 75) (Some 9)) demo_server
    demo_text) as [H _].
  - by apply js_units.
  - split_and!; [split; [by apply js_units|done|vm_compute; reflexivity|done]|by split|by split].
  - specialize (H eq_refl). revert H. cbn [service].
    assert (handle_UpdateFlag show (e_now demo_env) (js "id-1") (Some (demo_update 75)) ([34] ++ show 9 ++ [34]) demo_server
      = (writeError 409 "version_conflict" "This flag was changed by someone else. Reload and try again.",
         mkServer (nextVersion (s_db demo_server)).2 [])) as -> by (vm_compute; reflexivity).
    intros [-> _]. reflexivity.
Defined.

Lemma keys_guard_handlers_witness :
  let rq := mkRequest (js "DELETE") (js "/api/admin/flags/id-1?key=sdk") [] None in
  (serve show (js "node-1") (js "k") (js "sdk") Some demo_env rq demo_server).2 = demo_server.
Proof.
  cbn zeta. refine (proj1 (keys_guard_handlers show (js "node-1") (js "k") (js "sdk") Some demo_env
    (mkRequest (js "DELETE") (js "/api/admin/flags/id-1?key=sdk") [] None) demo_server _)).
  vm_compute. discriminate.
Defined.

Lemma probes_round_trip_witness :
  fetchReadyz (js "http://n1") (Fetched (encode 503 (Some (Readyz (js "n1") None (Some (js "EOF")) (inr 7)).2)))
  = mkNodeReadiness (js "http://n1") (js "n1") false true (Some (js "ok")) (Some (js "EOF")) None.
Proof.
  refine (proj1 (probes_round_trip (js "http://n1") (js "n1") None (Some (js "EOF")) (inr 7) demo_payload 0 empty_db _ _ _ _));
    [by apply js_units|done|intros ? [= <-]; by apply js_units|done].
Defined.
