(* ===== verification/Middleware.v ===== *)
(** * The middleware around the router ([internal/middleware/logging.go],
    [internal/middleware/cors.go], [internal/reqid/reqid.go])

    What a response goes through on its way: the log's wrapper of the response
    writer, with the flush of the stream that goes through it, and the CORS
    headers, with what a browser makes of them.  The CORS library is the
    interface [CorsLib]; what its options allow is documented behaviour. *)
From S2P Require Import Prelude JsMap Types Json JsonText Server Broker Api Number Router GoClient.

(** ** Response writers *)

(** What the connection's own writer can do: it has [FlushError], which says
    what is wrong with the connection; only [Flush]; or neither. *)
Inductive flushing := WithError (broken : option jstr) | PlainFlush | NoFlush.

Record base := mkBase {
  b_caps : flushing; b_header : headers; b_sent : option (Z * headers); b_body : jstr; b_pushed : nat }.

(** [http.ResponseWriter]: the connection's, or [responseWriter] around one. *)
Inductive ResponseWriter := Base (b : base) | Wrapped (w : ResponseWriter) (statusCode : Z).

(** The first [WriteHeader] commits the status with the headers of the moment;
    another is ignored. *)
Definition commit (code : Z) (b : base) : base :=
  match b_sent b with
  | Some _ => b
  | None => mkBase (b_caps b) (b_header b) (Some (code, b_header b)) (b_body b) (b_pushed b)
  end.
Definition set_header (k v : jstr) (b : base) : base :=
  mkBase (b_caps b) (map_set (b_header b) (lower k) v) (b_sent b) (b_body b) (b_pushed b).
Definition append_body (t : jstr) (b : base) : base :=
  let b := commit 200 b in mkBase (b_caps b) (b_header b) (b_sent b) (b_body b ++ t) (b_pushed b).
Definition push (b : base) : base :=
  let b := commit 200 b in mkBase (b_caps b) (b_header b) (b_sent b) (b_body b) (length (b_body b)).
Definition base_Flush (b : base) : base := match b_caps b with NoFlush => b | _ => push b end.

(** The methods a wrapper has from the writer it embeds, and its own. *)
Fixpoint on_base (f : base → base) (w : ResponseWriter) : ResponseWriter :=
  match w with Base b => Base (f b) | Wrapped w st => Wrapped (on_base f w) st end.
Definition Header_Set (k v : jstr) : ResponseWriter → ResponseWriter := on_base (set_header k v).
Definition Write (t : jstr) : ResponseWriter → ResponseWriter := on_base (append_body t).
Fixpoint WriteHeader (code : Z) (w : ResponseWriter) : ResponseWriter :=
  match w with Base b => Base (commit code b) | Wrapped w _ => Wrapped (WriteHeader code w) code end.

Definition has_FlushError (w : ResponseWriter) : bool :=
  match w with Base b => match b_caps b with WithError _ => true | _ => false end | Wrapped _ _ => false end.
Definition has_Flusher (w : ResponseWriter) : bool :=
  match w with Base b => match b_caps b with NoFlush => false | _ => true end | Wrapped _ _ => true end.
(** [Flush] of the wrapper forwards if the writer below is a [Flusher]. *)
Fixpoint Flush (w : ResponseWriter) : ResponseWriter :=
  match w with
  | Base b => Base (base_Flush b)
  | Wrapped w st => Wrapped (if has_Flusher w then Flush w else w) st
  end.
Definition Unwrap (w : ResponseWriter) : option ResponseWriter :=
  match w with Wrapped w _ => Some w | Base _ => None end.

Definition not_supported : jstr := js "feature not supported".
Definition FlushError (w : ResponseWriter) : ResponseWriter * option jstr :=
  match w with
  | Base b => (Base (base_Flush b), match b_caps b with WithError e => e | _ => None end)
  | Wrapped _ _ => (w, None)
  end.
(** [http.ResponseController.Flush]: the first writer down the chain that has
    [FlushError] or [Flush]. *)
Fixpoint rc_Flush (w : ResponseWriter) : ResponseWriter * option jstr :=
  if has_FlushError w then FlushError w
  else if has_Flusher w then (Flush w, None)
  else match w with
       | Wrapped w' st => let '(w', e) := rc_Flush w' in (Wrapped w' st, e)
       | Base _ => (w, Some not_supported)
       end.

(** What a handler does to its writer. *)
Inductive wop := OSet (k v : jstr) | OWriteHeader (code : Z) | OWrite (t : jstr) | OFlush.
Definition wexec (w : ResponseWriter) (o : wop) : ResponseWriter :=
  match o with
  | OSet k v => Header_Set k v w
  | OWriteHeader code => WriteHeader code w
  | OWrite t => Write t w
  | OFlush => (rc_Flush w).1
  end.
Definition handler_runs (ops : list wop) (w : ResponseWriter) : ResponseWriter := foldl wexec w ops.

Definition fresh (caps : flushing) : ResponseWriter := Base (mkBase caps [] None [] 0).
Fixpoint base_of (w : ResponseWriter) : base := match w with Base b => b | Wrapped w _ => base_of w end.
Definition sent_of (w : ResponseWriter) : option (Z * headers) := b_sent (base_of w).

(** ** Request ids ([reqid.go]) *)
Definition ctx := list jstr.
Definition With (c : ctx) (id : jstr) : ctx := id :: c.
Definition From (c : ctx) : jstr := default [] (head c).
(** Sixteen bytes of the system's generator, or its error. *)
Definition NewID (rand : option (list Z)) : jstr :=
  match rand with
  | Some b => b ≫= λ x, [hex (x / 16); hex (x mod 16)]
  | None => js "req-unknown"
  end.

Lemma From_With c id : From (With c id) = id.
Proof. done. Qed.

Lemma NewID_inj b b' : Forall (λ x, 0 ≤ x < 256) b → Forall (λ x, 0 ≤ x < 256) b' → NewID (Some b) = NewID (Some b') → b = b'.
Proof.
  intros Hb. revert b'. induction Hb as [|x b Hx _ IH]; intros b' Hb'; destruct Hb' as [|y b' Hy Hb']; try done.
  cbn. intros H. injection H as H1 H2 H.
  assert (∀ n m, 0 ≤ n < 16 → 0 ≤ m < 16 → hex n = hex m → n = m) as Hinj.
  { intros n m Hn Hm He. apply (f_equal unhex) in He. rewrite !hex_digit in He by done. congruence. }
  apply Hinj in H1; [|Z.to_euclidean_division_equations; lia..]. apply Hinj in H2; [|Z.to_euclidean_division_equations; lia..].
  f_equal; [|by apply IH]. rewrite (Z.div_mod x 16), (Z.div_mod y 16) by lia. congruence.
Qed.

(** ** [Logger] *)
Record log_line := mkLog { lg_id : jstr; lg_method : jstr; lg_path : jstr; lg_status : Z }.

(** [rw.statusCode] *)
Definition statusCode (w : ResponseWriter) : Z := match w with Wrapped _ st => st | Base _ => 0 end.
Definition Logger (id : jstr) (rq : http_request) (next : list wop) (w : ResponseWriter) : ResponseWriter * log_line :=
  let w := Header_Set (js "X-Request-Id") id w in
  let rw := handler_runs next (Wrapped w 200) in
  (default rw (Unwrap rw), mkLog id (rq_method rq) (split_target (rq_url rq)).1 (statusCode rw)).

(** The writer below the wrapper is what it would be without it. *)
Definition bexec (b : base) (o : wop) : base :=
  match o with
  | OSet k v => set_header k v b
  | OWriteHeader code => commit code b
  | OWrite t => append_body t b
  | OFlush => base_Flush b
  end.

Lemma wexec_base o b : wexec (Base b) o = Base (bexec b o).
Proof. destruct o; try done. cbn. unfold has_FlushError, has_Flusher, base_Flush. by destruct (b_caps b) eqn:E; cbn; rewrite ?E. Qed.
Lemma base_Flush_none b : b_caps b = NoFlush → base_Flush b = b.
Proof. unfold base_Flush. by intros ->. Qed.
Lemma wexec_wrapped o b st :
  wexec (Wrapped (Base b) st) o
  = Wrapped (Base (bexec b o)) (match o with OWriteHeader code => code | _ => st end).
Proof. destruct o; try done. cbn. destruct (b_caps b) eqn:E; cbn; [done..|by rewrite base_Flush_none]. Qed.

Definition bruns (ops : list wop) (b : base) : base := foldl bexec b ops.
Definition status_after (st : Z) (ops : list wop) : Z :=
  foldl (λ st o, match o with OWriteHeader code => code | _ => st end) st ops.
Lemma handler_runs_base ops b : handler_runs ops (Base b) = Base (bruns ops b).
Proof. revert b. induction ops as [|o ops IH]; intros b; [done|]. unfold handler_runs. cbn [foldl]. rewrite wexec_base. apply IH. Qed.
Lemma handler_runs_wrapped ops b st :
  handler_runs ops (Wrapped (Base b) st) = Wrapped (Base (bruns ops b)) (status_after st ops).
Proof.
  revert b st. induction ops as [|o ops IH]; intros b st; [done|]. unfold handler_runs. cbn [foldl]. rewrite wexec_wrapped. apply IH.
Qed.

Lemma Logger_base id rq ops b :
  Logger id rq ops (Base b)
  = (Base (bruns ops (set_header (js "X-Request-Id") id b)),
     mkLog id (rq_method rq) (split_target (rq_url rq)).1 (status_after 200 ops)).
Proof. unfold Logger. cbn [Header_Set on_base]. by rewrite handler_runs_wrapped. Qed.

(** A flush through the log's wrapper never says that it failed. *)
Lemma wrapped_flush_succeeds w st : (rc_Flush (Wrapped w st)).2 = None.
Proof. done. Qed.

(** ** The log tells the truth *)

(** When the handler returns, [net/http] commits a response it has not. *)
Definition finish (b : base) : base := commit 200 b.

(** The status is written before anything else is, and once. *)
Definition quiet (o : wop) : bool := match o with OWriteHeader _ => false | _ => true end.
Fixpoint tidy (ops : list wop) : bool :=
  match ops with
  | [] => true
  | OSet _ _ :: ops => tidy ops
  | _ :: ops => forallb quiet ops
  end.

Lemma status_quiet st ops : forallb quiet ops = true → status_after st ops = st.
Proof. revert st. induction ops as [|o ops IH]; intros st; [done|]. cbn. destruct o; cbn; try done; apply IH. Qed.

Lemma commit_sent c b x : b_sent b = Some x → commit c b = b.
Proof. unfold commit. by intros ->. Qed.
Lemma sent_keeps o b x : b_sent b = Some x → b_sent (bexec b o) = Some x.
Proof.
  intros H. pose proof (λ c, commit_sent c b x H) as Hc.
  destruct o; cbn; unfold append_body, base_Flush, push; rewrite ?Hc; try done. by destruct (b_caps b).
Qed.
Lemma sent_kept ops b x : b_sent b = Some x → b_sent (bruns ops b) = Some x.
Proof. revert b. induction ops as [|o ops IH]; intros b H; [done|]. by apply IH, sent_keeps. Qed.

Lemma quiet_sent ops b :
  forallb quiet ops = true → b_sent b = None → ∃ h, b_sent (finish (bruns ops b)) = Some (200, h).
Proof.
  revert b. induction ops as [|o ops IH]; intros b Hq Hb; [unfold finish, commit; cbn; rewrite Hb; by eexists|].
  cbn in Hq. boolify. destruct (b_sent (bexec b o)) as [[c h]|] eqn:Hs.
  - exists h. cbn [bruns foldl]. fold (bruns ops (bexec b o)). apply sent_kept with (ops := ops) in Hs as Hk.
    unfold finish. rewrite (commit_sent _ _ _ Hk), Hk. do 2 f_equal.
    destruct o; cbn in Hs; unfold append_body, base_Flush, push, commit in Hs; rewrite ?Hb in Hs; try done.
    + by simplify_eq/=.
    + destruct (b_caps b); rewrite ?Hb in Hs; by simplify_eq/=.
  - by apply IH.
Qed.

(** What is logged is what was sent. *)
Lemma logged_is_sent id rq ops b :
  tidy ops = true → b_sent b = None →
  ∃ h, b_sent (finish (base_of (Logger id rq ops (Base b)).1)) = Some (lg_status (Logger id rq ops (Base b)).2, h).
Proof.
  intros Ht Hb. rewrite Logger_base. cbn [fst snd base_of lg_status].
  assert (b_sent (set_header (js "X-Request-Id") id b) = None) as Hb' by done. revert Hb'.
  generalize (set_header (js "X-Request-Id") id b). clear b Hb. revert Ht.
  induction ops as [|o ops IH]; intros Ht b Hb; [unfold finish, commit; cbn; rewrite Hb; by eexists|].
  destruct o as [k v|code|t|]; cbn [tidy] in Ht; cbn [bruns foldl status_after];
    fold (bruns ops); fold (status_after 200 ops).
  - by apply IH.
  - fold (status_after code ops). rewrite status_quiet by done. eexists.
    assert (b_sent (bruns ops (commit code b)) = Some (code, b_header b)) as He.
    { apply sent_kept. unfold commit. by rewrite Hb. }
    unfold finish. by rewrite (commit_sent _ _ _ He).
  - rewrite status_quiet by done. by apply (quiet_sent (OWrite t :: ops)).
  - rewrite status_quiet by done. by apply (quiet_sent (OFlush :: ops)).
Qed.

(** ** What the handlers write *)
Definition json_line (j : json) : jstr := Marshal j ++ [10].
Definition writeJSON (status : Z) (j : json) : list wop :=
  [OSet (js "Content-Type") (js "application/json"); OWriteHeader status; OWrite (json_line j)].
(** The client handlers' good answers leave the status to the first write. *)
Definition encode_ok (j : json) : list wop :=
  [OSet (js "Content-Type") (js "application/json"); OWrite (json_line j)].
Definition client_body (b : body) : bool :=
  match b with ClientFlagsBody _ _ | ReconcileBody _ _ | VersionBody _ _ _ => true | _ => false end.

(** [ServeHTTP] of the broker up to its greeting. *)
Definition stream_ops : list wop :=
  [OSet (js "Content-Type") (js "text/event-stream"); OSet (js "Cache-Control") (js "no-cache");
   OSet (js "Connection") (js "keep-alive"); OSet (js "Access-Control-Allow-Origin") (js "*"); OFlush;
   OWrite (chunk_text (Comment (js " connected"))); OFlush].

(** ** CORS ([cors.go]) *)
Record cors_options := mkCorsOptions {
  co_AllowedOrigins : list jstr; co_AllowedMethods : list jstr; co_AllowedHeaders : list jstr;
  co_ExposedHeaders : list jstr; co_AllowCredentials : bool; co_MaxAge : Z }.

Definition CORS (allowedOrigins : list jstr) : cors_options := mkCorsOptions allowedOrigins
  [js "GET"; js "POST"; js "PUT"; js "PATCH"; js "DELETE"; js "OPTIONS"]
  [js "Accept"; js "Authorization"; js "Content-Type"; js "If-Match"; js "X-Admin-API-Key"; js "X-SDK-Key"]
  [js "Link"] true 300.

(** Headers set one after the other *)
Definition set_all (m : headers) (h : list (jstr * jstr)) : headers := foldl (λ m p, map_set m (lower p.1) p.2) m h.
Definition sets (h : list (jstr * jstr)) : list wop := map (λ p, OSet p.1 p.2) h.

(** A list in a header, and one of header names *)
Definition values_of (h : headers) (name : jstr) : list jstr :=
  match header_get h name with Some v => map TrimSpace (split_on 44 v) | None => [] end.
Definition names_of (h : headers) (name : jstr) : list jstr := map lower (values_of h name).

(** A value that is one entry of a list *)
Definition plain_value (n : jstr) : bool := bool_decide (44 ∉ n) && bool_decide (TrimSpace n = n).

Notation ACAO := (js "Access-Control-Allow-Origin").
Notation ACRM := (js "Access-Control-Request-Method").
Definition is_preflight (rq : http_request) : bool :=
  bool_decide (rq_method rq = js "OPTIONS") && negb (bool_decide (go_header (rq_headers rq) ACRM = [])).
(** [Access-Control-Allow-Origin] lets [origin] read. *)
Definition lets_read (origin : jstr) (h : headers) : bool :=
  match header_get h ACAO with Some v => bool_decide (v = js "*") || bool_decide (v = origin) | None => false end.

(** The library answers a preflight itself; to any other request it adds its
    headers and passes it on. *)
Inductive verdict := Answered (status : Z) (h : list (jstr * jstr)) | Passed (h : list (jstr * jstr)).
Class CorsLib := {
  cors : cors_options → http_request → verdict;
  origin_allowed : list jstr → jstr → bool;
  origin_listed l o : o ∈ l → origin_allowed l o = true;
  cors_preflight opts rq : is_preflight rq = true →
    ∃ st h, cors opts rq = Answered st h ∧ 200 ≤ st ≤ 299
    ∧ let origin := go_header (rq_headers rq) (js "Origin") in
      let method := go_header (rq_headers rq) ACRM in
      let asked := names_of (rq_headers rq) (js "Access-Control-Request-Headers") in
      (origin_allowed (co_AllowedOrigins opts) origin = false → header_get (set_all [] h) ACAO = None)
      ∧ (origin_allowed (co_AllowedOrigins opts) origin = true → method ∈ co_AllowedMethods opts → plain_value method = true →
         asked ⊆ map lower (co_AllowedHeaders opts) →
         lets_read origin (set_all [] h) = true
         ∧ method ∈ values_of (set_all [] h) (js "Access-Control-Allow-Methods")
         ∧ asked ⊆ names_of (set_all [] h) (js "Access-Control-Allow-Headers"));
  cors_actual opts rq : is_preflight rq = false →
    ∃ h, cors opts rq = Passed h
    ∧ let origin := go_header (rq_headers rq) (js "Origin") in
      (origin_allowed (co_AllowedOrigins opts) origin = false → header_get (set_all [] h) ACAO = None)
      ∧ (origin_allowed (co_AllowedOrigins opts) origin = true → rq_method rq ∈ co_AllowedMethods opts →
         lets_read origin (set_all [] h) = true) }.

(** ** The browser *)

(** A header a script may send anywhere without asking *)
Definition safelisted (p : jstr * jstr) : bool :=
  bool_decide (p.1 ∈ [js "accept"; js "accept-language"; js "content-language"])
  || bool_decide (p.1 = js "content-type")
     && bool_decide (p.2 ∈ [js "application/x-www-form-urlencoded"; js "multipart/form-data"; js "text/plain"]).
Definition unsafe_names (h : headers) : list jstr := (filter (λ p, safelisted p = false) h).*1.
Definition simple_method (m : jstr) : bool := bool_decide (m ∈ [js "GET"; js "HEAD"; js "POST"]).
Definition simple (rq : http_request) : bool :=
  simple_method (rq_method rq) && bool_decide (unsafe_names (rq_headers rq) = []).

Definition cross (origin : jstr) (rq : http_request) : http_request :=
  mkRequest (rq_method rq) (rq_url rq) (map_set (rq_headers rq) (js "origin") origin) (rq_body rq).
Definition preflight (origin : jstr) (rq : http_request) : http_request :=
  let names := unsafe_names (rq_headers rq) in
  mkRequest (js "OPTIONS") (rq_url rq)
    ([(js "origin", origin); (js "access-control-request-method", rq_method rq)]
     ++ match names with [] => [] | _ => [(js "access-control-request-headers", join (js ",") names)] end) None.
Definition preflight_ok (origin : jstr) (rq : http_request) (r : Z * headers) : bool :=
  (200 <=? r.1) && (r.1 <=? 299) && lets_read origin r.2
  && (simple_method (rq_method rq)
      || bool_decide (rq_method rq ∈ values_of r.2 (js "Access-Control-Allow-Methods")))
  && forallb (λ n, bool_decide (n ∈ names_of r.2 (js "Access-Control-Allow-Headers"))) (unsafe_names (rq_headers rq)).

(** ** Headers along the way *)
Lemma set_all_get m h k :
  map_get (set_all m h) k = match map_get (set_all [] h) k with Some v => Some v | None => map_get m k end.
Proof.
  induction h as [|p h IH] using rev_ind; [done|]. unfold set_all in *. rewrite !foldl_app. cbn.
  rewrite !map_get_set. by case_decide.
Qed.

Lemma bruns_app ops ops' b : bruns (ops ++ ops') b = bruns ops' (bruns ops b).
Proof. apply foldl_app. Qed.
Lemma bruns_sets h b :
  bruns (sets h) b = mkBase (b_caps b) (set_all (b_header b) h) (b_sent b) (b_body b) (b_pushed b).
Proof. revert b. induction h as [|p h IH]; intros b; [by destruct b|]. change (bruns (sets (p :: h)) b) with (bruns (sets h) (set_header p.1 p.2 b)). by rewrite IH. Qed.

Definition no_acao (o : wop) : bool := match o with OSet k _ => negb (bool_decide (lower k = lower ACAO)) | _ => true end.
Lemma bruns_acao ops b :
  forallb no_acao ops = true → b_sent b = None →
  ∃ st h, b_sent (finish (bruns ops b)) = Some (st, h) ∧ header_get h ACAO = header_get (b_header b) ACAO.
Proof.
  revert b. induction ops as [|o ops IH]; intros b Hn Hb.
  - exists 200, (b_header b). unfold finish, commit. cbn. by rewrite Hb.
  - cbn in Hn. boolify. assert (header_get (b_header (bexec b o)) ACAO = header_get (b_header b) ACAO) as Hh.
    { destruct o; cbn; unfold append_body, base_Flush, push, commit; rewrite ?Hb; try done.
      - unfold header_get. rewrite map_get_set. case_decide; [|done]. cbn [no_acao] in *. boolify. congruence.
      - by destruct (b_caps b). }
    cbn [bruns foldl]. fold (bruns ops (bexec b o)). destruct (b_sent (bexec b o)) as [[st h]|] eqn:Hs.
    + exists st, h. pose proof (sent_kept ops _ _ Hs) as Hk. unfold finish. rewrite (commit_sent _ _ _ Hk). split; [done|].
      rewrite <-Hh. f_equal. destruct o; cbn in Hs |- *; unfold append_body, base_Flush, push, commit in *; rewrite ?Hb in *;
        try (by simplify_eq/=). destruct (b_caps b); cbn in *; rewrite ?Hb in *; by simplify_eq/=.
    + rewrite <-Hh. by apply IH.
Qed.

Lemma split_on_join (l : list jstr) : l ≠ [] → Forall (λ x, 44 ∉ x) l → split_on 44 (join [44] l) = l.
Proof.
  intros Hne Hl. induction Hl as [|x l Hx Hl IH]; [done|]. destruct l as [|y l]; [by apply split_on_none|].
  change (join [44] (x :: y :: l)) with (x ++ 44 :: join [44] (y :: l)). rewrite split_on_app by done. f_equal. by apply IH.
Qed.

(** The preflight asks for the names it needs. *)
Definition plain_name (n : jstr) : bool := bool_decide (44 ∉ n) && bool_decide (lower (TrimSpace n) = n).
Lemma preflight_asks origin rq :
  Forall (λ n, plain_name n = true) (unsafe_names (rq_headers rq)) →
  names_of (rq_headers (preflight origin rq)) (js "Access-Control-Request-Headers") = unsafe_names (rq_headers rq).
Proof.
  cbn [rq_headers preflight]. generalize (unsafe_names (rq_headers rq)). intros names Hp. unfold names_of, values_of.
  destruct names as [|n names]; [reflexivity|]. unfold header_get. cbn [app map_get].
  rewrite decide_False, decide_False, decide_True by done. change (js ",") with [44].
  rewrite split_on_join; [|done|].
  - rewrite map_map. rewrite <-(map_id (n :: names)) at 2. apply map_ext_in. intros x Hx.
    rewrite Forall_forall in Hp. specialize (Hp x). rewrite list_elem_of_In in Hp. specialize (Hp Hx). unfold plain_name in Hp. by boolify.
  - eapply Forall_impl; [exact Hp|]. intros x Hx. unfold plain_name in Hx. by boolify.
Qed.

(** ** The whole chain *)
Section chain.
Context `{!Mux, !CorsLib} (fmt_time : Z → jstr) (payload_json : FlagEvent → json).
Context (node_id admin_key sdk_key : jstr) (uuid : jstr → option jstr) (origins : list jstr).
(** What the router writes for no route, and the metrics library for its page:
    no CORS header. *)
Context (not_routed metrics_page : list wop).
Hypothesis library_acao : forallb no_acao (not_routed ++ metrics_page) = true.

Definition reply_ops (r : response) : list wop :=
  match body_json payload_json (rs_body r) with
  | None => [OWriteHeader (rs_status r)]
  | Some j => if client_body (rs_body r) && (rs_status r =? 200) then encode_ok j else writeJSON (rs_status r) j
  end.
Definition answer_ops (a : answer) : list wop :=
  match a with
  | Reply r => reply_ops r
  | Probe st j => writeJSON st j
  | MetricsPage => metrics_page
  | StreamOpened => stream_ops
  | NotRouted => not_routed
  end.

Notation serve := (serve fmt_time node_id admin_key sdk_key uuid).
(** [r.Use(Logger); r.Use(CORS(...))] around the routes *)
Definition routed (e : env) (rq : http_request) (s : server) : list wop * server :=
  match cors (CORS origins) rq with
  | Answered st h => (sets h ++ [OWriteHeader st], s)
  | Passed h => let '(a, s') := serve e rq s in (sets h ++ answer_ops a, s')
  end.
(** The committed response and its body, the line in the log, the server. *)
Definition ServeHTTP (caps : flushing) (id : jstr) (e : env) (rq : http_request) (s : server)
    : option (Z * headers) * jstr * log_line * server :=
  let '(ops, s') := routed e rq s in
  let '(w, l) := Logger id rq ops (fresh caps) in
  let b := finish (base_of w) in (b_sent b, b_body b, l, s').

(** A script of a page of [origin] calls [fetch], or opens an [EventSource],
    which asks like a simple request: the status and the text it can read. *)
Definition page_request (origin : jstr) (caps : flushing) (id : jstr) (e : env) (rq : http_request) (s : server)
    : option (Z * jstr) * server :=
  let '(sent, body, _, s') := ServeHTTP caps id e (cross origin rq) s in
  (match sent with Some (st, h) => if lets_read origin h then Some (st, body) else None | None => None end, s').
Definition page_fetch (origin : jstr) (caps : flushing) (id id' : jstr) (e : env) (rq : http_request) (s : server)
    : option (Z * jstr) * server :=
  if simple rq then page_request origin caps id e rq s
  else let '(sent, _, _, s') := ServeHTTP caps id' e (preflight origin rq) s in
       match sent with
       | Some r => if preflight_ok origin rq r then page_request origin caps id e rq s' else (None, s')
       | None => (None, s')
       end.

Lemma answer_acao a : a ≠ StreamOpened → forallb no_acao (answer_ops a) = true.
Proof.
  rewrite forallb_app in library_acao. apply andb_true_iff in library_acao as [Hr Hm]. intros Ha.
  destruct a as [r|st j| | |]; try done. cbn. unfold reply_ops. destruct (body_json _ _); [|done]. by destruct (_ && _).
Qed.

Definition start (caps : flushing) (id : jstr) : base :=
  set_header (js "X-Request-Id") id (mkBase caps [] None [] 0).
Lemma ServeHTTP_runs caps id e rq s :
  let b := finish (bruns (routed e rq s).1 (start caps id)) in
  (ServeHTTP caps id e rq s).1.1 = (b_sent b, b_body b) ∧ (ServeHTTP caps id e rq s).2 = (routed e rq s).2.
Proof.
  cbn zeta. unfold ServeHTTP. destruct (routed e rq s) as [ops s']. unfold fresh. by rewrite Logger_base.
Qed.

Definition opens (a : answer) : bool := match a with StreamOpened => true | _ => false end.

(** A preflight is answered, and changes nothing. *)
Lemma preflight_is origin rq : rq_method rq ≠ [] → is_preflight (preflight origin rq) = true.
Proof.
  intros Hm. unfold is_preflight. cbn [rq_method preflight rq_headers]. rewrite bool_decide_true by done. cbn [andb].
  apply negb_true_iff, bool_decide_false. by destruct (rq_method rq).
Qed.
Lemma cross_is origin rq :
  header_get (rq_headers rq) ACRM = None → is_preflight (cross origin rq) = false.
Proof.
  intros Hn. unfold is_preflight, go_header, header_get in *. cbn [rq_headers cross]. rewrite map_get_set.
  rewrite decide_False by done. rewrite Hn. by rewrite andb_false_r.
Qed.
Lemma cross_origin origin rq : go_header (rq_headers (cross origin rq)) (js "Origin") = origin.
Proof. unfold go_header, header_get. cbn [rq_headers cross]. by rewrite map_get_set, decide_True. Qed.

Definition after_sets (caps : flushing) (id : jstr) (h : list (jstr * jstr)) : base :=
  mkBase caps (set_all [(js "x-request-id", id)] h) None [] 0.
Lemma after_sets_acao caps id h : header_get (b_header (after_sets caps id h)) ACAO = header_get (set_all [] h) ACAO.
Proof. unfold header_get. cbn [b_header after_sets]. rewrite set_all_get. by destruct (map_get (set_all [] h) _). Qed.
Lemma bruns_start caps id h ops :
  bruns (sets h ++ ops) (start caps id) = bruns ops (after_sets caps id h).
Proof. by rewrite bruns_app, bruns_sets. Qed.

(** The page sees the answer, if its origin is let in; the stream lets all in. *)
Lemma page_request_spec origin caps id e rq s h :
  cors (CORS origins) (cross origin rq) = Passed h →
  let '(a, s') := serve e (cross origin rq) s in
  let b := finish (bruns (answer_ops a) (after_sets caps id h)) in
  page_request origin caps id e rq s
  = (if lets_read origin (set_all [] h) || opens a
     then (λ x, (x.1, b_body b)) <$> b_sent b else None, s').
Proof.
  intros Hp. destruct (serve e (cross origin rq) s) as [a s'] eqn:Hs. cbn zeta.
  pose proof (ServeHTTP_runs caps id e (cross origin rq) s) as [H1 H2]. unfold page_request.
  destruct (ServeHTTP caps id e (cross origin rq) s) as [[[sent body] l] s1]. cbn [fst snd] in H1, H2.
  unfold routed in H1, H2. rewrite Hp, Hs in H1, H2. cbn [fst snd] in H1, H2. subst s1.
  rewrite bruns_start in H1. injection H1 as -> ->.
  assert (∀ m m', header_get m ACAO = header_get m' ACAO → lets_read origin m = lets_read origin m') as Hl
    by (intros m m' Hm; unfold lets_read; by rewrite Hm).
  destruct (opens a) eqn:Ho.
  - destruct a; try done. rewrite orb_true_r. cbn [answer_ops].
    change stream_ops with (take 4 stream_ops ++ drop 4 stream_ops). rewrite bruns_app.
    set (b := bruns (take 4 stream_ops) _).
    destruct (bruns_acao (drop 4 stream_ops) b) as (st & m & Hb & Hm); [vm_compute; reflexivity|done|].
    rewrite Hb. cbn. assert (lets_read origin m = true) as ->; [|done].
    unfold lets_read. rewrite Hm. unfold b. cbn. unfold header_get. by rewrite map_get_set_eq.
  - destruct (bruns_acao (answer_ops a) (after_sets caps id h)) as (st & m & Hb & Hm); [|done|].
    { apply answer_acao. by intros ->. }
    rewrite Hb. cbn. rewrite orb_false_r, (Hl m (set_all [] h)); [by case_match|].
    by rewrite Hm, after_sets_acao.
Qed.

Lemma serve_cross e origin rq s : serve e (cross origin rq) s = serve e rq s.
Proof.
  assert (∀ n, lower n ≠ js "origin" →
            go_header (map_set (rq_headers rq) (js "origin") origin) n = go_header (rq_headers rq) n) as Hg.
  { intros n Hn. unfold go_header, header_get. by rewrite map_get_set_ne. }
  unfold Router.serve. cbn [rq_method rq_url rq_body rq_headers cross].
  destruct (split_target (rq_url rq)) as [p q]. destruct (mux routes (rq_method rq) p) as [[[| | |o|o] x]|]; try done.
  - unfold AdminAuth. rewrite Hg by done. case_bool_decide; [|done]. do 2 f_equal.
    destruct o; try done. cbn. unfold admin. by rewrite Hg.
  - unfold SDKAuth, sdk_key_of. by rewrite Hg.
Qed.

Lemma reply_runs a r b :
  send payload_json a = Some r → b_sent b = None → b_body b = [] →
  let b' := finish (bruns (answer_ops a) b) in
  fst <$> b_sent b' = Some (hr_status r) ∧ b_body b' = hr_text r.
Proof.
  intros Hr Hs Hb. destruct a as [x|st j| | |]; try done; injection Hr as <-; cbn zeta.
  - cbn [answer_ops]. unfold reply_ops, encode. destruct (body_json payload_json (rs_body x)) as [j|].
    + destruct (client_body (rs_body x) && (rs_status x =? 200)) eqn:Hc;
        cbn; unfold finish, append_body, commit; cbn; rewrite ?Hs; cbn; rewrite ?Hb; [|done].
      apply andb_true_iff in Hc as [_ Hc]. apply Z.eqb_eq in Hc. by rewrite Hc.
    + cbn. unfold finish, commit. cbn. rewrite Hs. cbn. by rewrite Hb.
  - cbn. unfold finish, append_body, commit. cbn. rewrite Hs. cbn. by rewrite Hb.
Qed.

Lemma simple_unkeyed origin rq :
  simple rq = true → go_header (rq_headers (cross origin rq)) (js "X-Admin-API-Key") = [].
Proof.
  unfold simple. intros Hs. boolify. unfold go_header, header_get. cbn [rq_headers cross].
  rewrite map_get_set_ne by done. destruct (map_get (rq_headers rq) _) as [v|] eqn:Hv; [|done]. exfalso.
  apply map_get_elem in Hv.
  assert ((lower (js "X-Admin-API-Key"), v) ∈ filter (λ p, safelisted p = false) (rq_headers rq)) as Hf
    by (apply list_elem_of_filter; split; [vm_compute; reflexivity|done]).
  apply (list_elem_of_fmap_2 fst) in Hf. fold (unsafe_names (rq_headers rq)) in Hf.
  match goal with He : unsafe_names _ = [] |- _ => rewrite He in Hf end. by apply not_elem_of_nil in Hf.
Qed.

(** A script of an origin that is not let in asks for more than a simple request:
    the browser stops it. *)
Lemma preflight_refused origin caps id id' e rq s :
  rq_method rq ≠ [] → origin_allowed origins origin = false → simple rq = false →
  page_fetch origin caps id id' e rq s = (None, s).
Proof.
  intros Hm Ho Hs. unfold page_fetch. rewrite Hs.
  destruct (cors_preflight (CORS origins) (preflight origin rq) (preflight_is origin rq Hm)) as (st & h & Hc & _ & Hn & _).
  pose proof (ServeHTTP_runs caps id' e (preflight origin rq) s) as [H1 H2].
  destruct (ServeHTTP caps id' e (preflight origin rq) s) as [[[sent body] l] s1]. cbn [fst snd] in H1, H2.
  unfold routed in H1, H2. rewrite Hc in H1, H2. cbn [fst snd] in H1, H2. subst s1.
  rewrite bruns_start in H1. injection H1 as -> _. cbn.
  unfold preflight_ok, lets_read. cbn [fst snd].
  pose proof (after_sets_acao caps id' h) as Ha. cbn [b_header after_sets] in Ha. rewrite Ha, Hn; [|exact Ho].
  by rewrite andb_false_r.
Qed.

(** A preflight of an origin that is let in, for what the options list *)
Lemma preflight_granted origin caps id' e rq s :
  rq_method rq ≠ [] → origin_allowed origins origin = true → rq_method rq ∈ co_AllowedMethods (CORS origins) →
  unsafe_names (rq_headers rq) ⊆ map lower (co_AllowedHeaders (CORS origins)) →
  ∃ r body l, ServeHTTP caps id' e (preflight origin rq) s = (Some r, body, l, s) ∧ preflight_ok origin rq r = true.
Proof.
  intros Hm Ho Hme Hh.
  destruct (cors_preflight (CORS origins) (preflight origin rq) (preflight_is origin rq Hm)) as (st & h & Hc & Hst & _ & Hy).
  assert (Forall (λ n, plain_name n = true) (unsafe_names (rq_headers rq))) as Hp.
  { apply Forall_forall. intros n Hn%Hh%list_elem_of_In. revert n Hn. apply forallb_forall. vm_compute. reflexivity. }
  rewrite (preflight_asks origin rq Hp) in Hy.
  change (go_header (rq_headers (preflight origin rq)) (js "Origin")) with origin in Hy.
  change (go_header (rq_headers (preflight origin rq)) ACRM) with (rq_method rq) in Hy.
  destruct (Hy Ho Hme) as (Hr & Hv & Ha); [|exact Hh|].
  { apply list_elem_of_In in Hme. revert Hme. generalize (rq_method rq). apply forallb_forall. vm_compute. reflexivity. }
  pose proof (ServeHTTP_runs caps id' e (preflight origin rq) s) as [H1 H2].
  destruct (ServeHTTP caps id' e (preflight origin rq) s) as [[[sent body] l] s1]. cbn [fst snd] in H1, H2.
  unfold routed in H1, H2. rewrite Hc in H1, H2. cbn [fst snd] in H1, H2. subst s1.
  rewrite bruns_start in H1. injection H1 as -> _. do 3 eexists. split; [reflexivity|].
  assert (∀ k, k ≠ js "x-request-id" → map_get (set_all [(js "x-request-id", id')] h) k = map_get (set_all [] h) k) as Hg.
  { intros k Hk. rewrite set_all_get. destruct (map_get (set_all [] h) k); [done|]. cbn. by rewrite decide_False. }
  unfold preflight_ok, lets_read, names_of, values_of, header_get in *. cbn [fst snd].
  rewrite !Hg by done. rewrite Hr, (bool_decide_true (rq_method rq ∈ _)), orb_true_r by done.
  rewrite !andb_true_r. rewrite (proj2 (Z.leb_le _ _)), (proj2 (Z.leb_le _ _)) by lia. cbn.
  apply forallb_forall. intros n Hn%list_elem_of_In%Ha. by apply bool_decide_eq_true.
Qed.

(** C19: The origins that are allowed, and what the others are left.  A script of
    a page whose origin the configuration does not list changes nothing on the
    server, even if it knows every key, and reads no answer of it, but for one:
    the stream of flag updates, which any page that has the SDK key can open,
    because the handler replaces the header that the middleware set.  A page of
    an origin that is listed gets, through preflight, log and CORS headers,
    exactly the status, the body and the effect of the handler for every request
    with the methods and headers of the options. *)
Theorem origin_policy (origin : jstr) (caps : flushing) (id id' : jstr) (e : env) (rq : http_request) (s : server) :
  admin_key ≠ [] → rq_method rq ≠ [] → header_get (rq_headers rq) ACRM = None →
  let read := page_fetch origin caps id id' e rq s in
  (origin_allowed origins origin = false →
     read.2 = s ∧ (is_Some read.1 ↔ simple rq = true ∧ (serve e rq s).1 = StreamOpened))
  ∧ (simple rq = true → (serve e rq s).1 = StreamOpened → read.1 = Some (200, chunk_text (Comment (js " connected"))))
  ∧ (origin_allowed origins origin = true → rq_method rq ∈ co_AllowedMethods (CORS origins) →
     unsafe_names (rq_headers rq) ⊆ map lower (co_AllowedHeaders (CORS origins)) →
     ∀ r, send payload_json (serve e rq s).1 = Some r → read = (Some (hr_status r, hr_text r), (serve e rq s).2)).
Proof.
  cbn zeta. intros Hk Hm Hr.
  destruct (cors_actual (CORS origins) (cross origin rq) (cross_is origin rq Hr)) as (h & Hp & Hn & Hy).
  rewrite cross_origin in Hn, Hy. pose proof (page_request_spec origin caps id e rq) as Hpage.
  split_and!.
  - intros Ho. destruct (simple rq) eqn:Hs.
    + unfold page_fetch. rewrite Hs. specialize (Hpage s h Hp). rewrite serve_cross in Hpage.
      assert ((serve e rq s).2 = s) as Hsame.
      { rewrite <-(serve_cross e origin rq s). apply serve_unkeyed. rewrite simple_unkeyed by done. congruence. }
      destruct (serve e rq s) as [a s'] eqn:He. cbn [fst snd] in *. subst s'. rewrite Hpage. split; [done|]. cbn [fst].
      unfold lets_read. rewrite Hn by exact Ho. cbn [orb]. destruct (opens a) eqn:Hop.
      * destruct a; try done. split; [done|]. intros _. apply fmap_is_Some.
        destruct (bruns_acao (drop 4 stream_ops) (bruns (take 4 stream_ops) (after_sets caps id h))) as (st & m & Hb & _);
          [vm_compute; reflexivity|done|]. rewrite <-bruns_app in Hb. cbn [answer_ops].
        change stream_ops with (take 4 stream_ops ++ drop 4 stream_ops). by rewrite Hb.
      * split; [by intros []|]. intros [_ ->]. done.
    + rewrite preflight_refused by done. split; [done|]. split; [by intros []|by intros []].
  - intros Hs Hst. unfold page_fetch. rewrite Hs. specialize (Hpage s h Hp). rewrite serve_cross in Hpage.
    destruct (serve e rq s) as [a s']. cbn [fst] in Hst. subst a. rewrite Hpage. cbn [fst opens].
    rewrite orb_true_r. cbn [answer_ops stream_ops]. by destruct caps.
  - intros Ho Hme Hh r Hsend.
    assert (page_request origin caps id e rq s = (Some (hr_status r, hr_text r), (serve e rq s).2)) as Hdone.
    { specialize (Hpage s h Hp). rewrite serve_cross in Hpage. destruct (serve e rq s) as [a s']. cbn [fst snd] in *.
      rewrite Hpage, Hy by done. cbn [orb].
      destruct (reply_runs a r (after_sets caps id h) Hsend eq_refl eq_refl) as [Hst Hb]. rewrite Hb.
      destruct (b_sent _) as [[st m]|]; by simplify_eq/=. }
    unfold page_fetch. destruct (simple rq); [exact Hdone|].
    destruct (preflight_granted origin caps id' e rq s Hm Ho Hme Hh) as (x & body & l & -> & ->). exact Hdone.
Qed.
End chain.

(** A library that allows the origins it is given, by name *)
Definition exact_cors (opts : cors_options) (rq : http_request) : verdict :=
  let origin := go_header (rq_headers rq) (js "Origin") in
  let method := go_header (rq_headers rq) ACRM in
  let asked := go_header (rq_headers rq) (js "Access-Control-Request-Headers") in
  if is_preflight rq then
    Answered 200 (if bool_decide (origin ∈ co_AllowedOrigins opts) && bool_decide (method ∈ co_AllowedMethods opts)
                  then [(ACAO, origin); (js "Access-Control-Allow-Methods", method);
                        (js "Access-Control-Allow-Headers", asked)] else [])
  else Passed (if bool_decide (origin ∈ co_AllowedOrigins opts) && bool_decide (rq_method rq ∈ co_AllowedMethods opts)
               then [(ACAO, origin)] else []).

Lemma lets_read_self origin h : header_get h ACAO = Some origin → lets_read origin h = true.
Proof. unfold lets_read. intros ->. rewrite (bool_decide_true (origin = origin)) by done. apply orb_true_r. Qed.

#[local] Program Instance exact_lib : CorsLib := {
  cors := exact_cors; origin_allowed l o := bool_decide (o ∈ l) }.
Next Obligation. intros l o Hl. by apply bool_decide_eq_true. Qed.
Next Obligation.
  intros opts rq Hp. unfold exact_cors. rewrite Hp. do 2 eexists. split; [done|]. split; [lia|]. cbn zeta.
  split; [by intros ->|]. intros -> Hm Hv _. rewrite (bool_decide_true (_ ∈ co_AllowedMethods opts)) by done. cbn [andb].
  unfold plain_value in Hv. boolify. split; [by apply lets_read_self|]. split.
  - set (m := go_header (rq_headers rq) ACRM) in *.
    change (values_of _ _) with (map TrimSpace (split_on 44 m)). rewrite split_on_none by done.
    apply list_elem_of_singleton. congruence.
  - set (v := go_header (rq_headers rq) (js "Access-Control-Request-Headers")).
    change (names_of (set_all _ _) _) with (map lower (map TrimSpace (split_on 44 v))). unfold v, go_header, names_of, values_of.
    destruct (header_get (rq_headers rq) (js "Access-Control-Request-Headers")); [done|apply list_subseteq_nil].
Qed.
Next Obligation.
  intros opts rq Hp. unfold exact_cors. rewrite Hp. eexists. split; [done|]. cbn zeta. split; [by intros ->|].
  intros -> Hm. rewrite bool_decide_true by done. by apply lets_read_self.
Qed.
#[local] Existing Instance first_match.

(** The dashboard's origin is allowed, another is not: it deletes nothing, reads
    no flags, and hears the stream. *)
Definition demo_page (url : jstr) : http_request := mkRequest (js "GET") url [] None.
Definition demo_flags : http_request :=
  mkRequest (js "GET") (js "/api/client/flags") [(js "x-sdk-key", js "sdk")] None.
Definition demo_fetch (origin : jstr) (rq : http_request) : option (Z * jstr) * server :=
  page_fetch show demo_payload (js "n1") (js "secret") (js "sdk") Some [js "http://localhost:3000"] [] []
    origin (WithError None) (js "id1") (js "id2") demo_env rq demo_server.
Lemma origin_policy_witness :
  is_Some (demo_fetch (js "http://localhost:3000") demo_flags).1
  ∧ (demo_fetch (js "http://elsewhere") demo_flags).1 = None
  ∧ is_Some (demo_fetch (js "http://elsewhere") (demo_page (js "/api/client/stream?key=sdk"))).1
  ∧ (demo_fetch (js "http://elsewhere") demo_flags).2 = demo_server.
Proof.
  split_and!; [vm_compute; by eexists|vm_compute; reflexivity| |].
  - destruct (origin_policy show demo_payload (js "n1") (js "secret") (js "sdk") Some [js "http://localhost:3000"] [] [] eq_refl
      (js "http://elsewhere") (WithError None) (js "id1") (js "id2") demo_env
      (demo_page (js "/api/client/stream?key=sdk")) demo_server) as (_ & H & _); [done..|].
    eexists. apply H; vm_compute; reflexivity.
  - destruct (origin_policy show demo_payload (js "n1") (js "secret") (js "sdk") Some [js "http://localhost:3000"] [] [] eq_refl
      (js "http://elsewhere") (WithError None) (js "id1") (js "id2") demo_env demo_flags demo_server) as (H & _ & _); [done..|].
    apply H. vm_compute. reflexivity.
Defined.
