(* ===== verification/Idle.v ===== *)
(** * The stream's handler in time ([ServeHTTP] of [internal/sse/broker.go])

    The loop of a handler with its clock: the heartbeat's ticker, the idle timer,
    and flushes that block for as long as the client does not read.  [Broker] has
    the same handler without time.  The writer is one of [Middleware], so what a
    flush reports is what reaches the handler through the log's wrapper. *)
From S2P Require Import Prelude JsMap Types Json Broker Middleware.

(** Nanoseconds *)
Definition Second : Z := 1000000000.
Definition heartbeatInterval : Z := 15 * Second.
Definition defaultIdleTimeout : Z := 60 * Second.
(** [SetIdleTimeout] *)
Definition SetIdleTimeout (d idleTimeout : Z) : Z := if d >? 0 then d else idleTimeout.

(** At the [select]: the time, when the ticker was made and how many of its ticks
    are gone, received or dropped for want of room in a channel of one, when the
    idle timer fires, and the writer. *)
Record handler := mkHandler {
  h_now : Z; h_ticker : Z; h_seen : Z; h_idle : Z; h_writer : ResponseWriter }.

Inductive next := Continue (h : handler) | Return.

(** One turn of the loop: the case taken, when, and how long its flush blocks. *)
Inductive turn := TDone (t : Z) | TIdle (t : Z) | THeartbeat (t d : Z) | TEvent (t d : Z) (e : SSEEvent).

Section loop.
(** The idle cap of the broker, and how late the scheduler wakes a handler one of
    whose cases is ready. *)
Context (idleTimeout late : Z).

Definition next_tick (h : handler) : Z := h_ticker h + (h_seen h + 1) * heartbeatInterval.
Definition ticks_by (t : Z) (h : handler) : Z := (t - h_ticker h) / heartbeatInterval.
Definition tick_ready (t : Z) (h : handler) : bool := h_seen h <? ticks_by t h.
Definition idle_ready (t : Z) (h : handler) : bool := h_idle h <=? t.
(** The select is left once a timer is ready, if nothing else came before. *)
Definition wakes (t : Z) (h : handler) : bool :=
  (h_now h <=? t) && (t <=? Z.max (h_now h) (Z.min (next_tick h) (h_idle h)) + late).

(** Write, flush; on an error return, otherwise [resetIdle()] and on. *)
Definition deliver_at (t d : Z) (seen : Z) (x : chunk) (h : handler) : next :=
  let '(w, err) := rc_Flush (Write (chunk_text x) (h_writer h)) in
  match err with
  | Some _ => Return
  | None => Continue (mkHandler (t + d) (h_ticker h) seen (t + d + idleTimeout) w)
  end.

Definition take_turn (l : turn) (h : handler) : option next :=
  match l with
  | TDone t => if wakes t h then Some Return else None
  | TIdle t => if wakes t h && idle_ready t h then Some Return else None
  | THeartbeat t d =>
      if wakes t h && tick_ready t h && (0 <=? d)
      then Some (deliver_at t d (ticks_by t h) (Comment (js " heartbeat")) h) else None
  | TEvent t d e =>
      if wakes t h && (0 <=? d) then Some (deliver_at t d (h_seen h) (Frame e) h) else None
  end.

(** The ticker and the timer are made one after the other, before the loop. *)
Inductive looping (w : ResponseWriter) : handler → Prop :=
| loop_enters t0 t1 : t0 ≤ t1 → looping w (mkHandler t1 t0 0 (t1 + idleTimeout) w)
| loop_turns l h h' : looping w h → take_turn l h = Some (Continue h') → looping w h'.

(** ** Between two turns *)
Record timed (h : handler) : Prop := {
  ti_idle : h_idle h = h_now h + idleTimeout;
  ti_tick : next_tick h ≤ h_now h + heartbeatInterval;
  ti_past : h_ticker h ≤ h_now h;
  ti_seen : 0 ≤ h_seen h }.

Lemma deliver_timed t d seen x h h' :
  timed h → h_now h ≤ t → 0 ≤ d → h_ticker h + (seen + 1) * heartbeatInterval ≤ t + heartbeatInterval → 0 ≤ seen →
  deliver_at t d seen x h = Continue h' → timed h'.
Proof.
  intros [] Ht Hd Hs H0. unfold deliver_at. destruct (rc_Flush _) as [w []]; [done|]. intros [= <-].
  split; unfold next_tick; cbn; lia.
Qed.

Lemma turn_timed l h h' : timed h → take_turn l h = Some (Continue h') → timed h'.
Proof.
  intros Hh. destruct l as [t|t|t d|t d e]; cbn; try (by destruct (_ && _)); try (by destruct (wakes t h)).
  - destruct (wakes t h && _ && _) eqn:E; [|done]. unfold wakes in E. boolify. intros [= Hd].
    eapply deliver_timed; [done..| | |exact Hd]; destruct Hh; unfold ticks_by, heartbeatInterval, Second in *;
      Z.to_euclidean_division_equations; lia.
  - destruct (wakes t h && _) eqn:E; [|done]. unfold wakes in E. boolify. intros [= Hd].
    eapply deliver_timed; [done..| |by apply ti_seen|exact Hd]. destruct Hh. unfold next_tick in *. lia.
Qed.

Lemma looping_timed w h : looping w h → timed h.
Proof.
  induction 1 as [t0 t1 Ht|l h h' _ IH Hl]; [|by eapply turn_timed].
  split; unfold next_tick, heartbeatInterval, Second; cbn; lia.
Qed.

(** The wrapper of the log stays around the writer. *)
Definition wrapped (w : ResponseWriter) : bool := match w with Wrapped _ _ => true | Base _ => false end.
Lemma deliver_wrapped t d seen x h :
  wrapped (h_writer h) = true →
  ∃ h', deliver_at t d seen x h = Continue h' ∧ wrapped (h_writer h') = true ∧ h_now h' = t + d.
Proof.
  unfold deliver_at. destruct (h_writer h) as [|w st] eqn:Hw; [done|]. intros _. eexists. split; [reflexivity|]. by split.
Qed.

Lemma looping_wrapped w h : wrapped w = true → looping w h → wrapped (h_writer h) = true.
Proof.
  intros Hw. induction 1 as [|l h h' _ IH Hl]; [done|].
  destruct l as [t|t|t d|t d e]; cbn in Hl; repeat case_match; simplify_eq;
    match goal with H : deliver_at ?t ?d ?s ?x h = _ |- _ =>
      destruct (deliver_wrapped t d s x h IH) as (h1 & He & Hk & _); congruence end.
Qed.

(** C30: The idle cap never acts.  If it is longer than the heartbeat's interval,
    by more than the scheduler is late, no turn of the loop can take its case: not
    for a client that reads, and not for a client whose flushes block, however
    long they do, because the timer is set anew after each.  Nor does a failed
    flush end the loop, because the log's wrapper does not pass errors on.  So a
    handler returns only when its request or its channel ends, and the heartbeat
    can always be next. *)
Theorem idle_cap_never_acts (w : ResponseWriter) (h : handler) :
  wrapped w = true → 0 ≤ late → heartbeatInterval + late < idleTimeout → looping w h →
  (∀ t, take_turn (TIdle t) h = None)
  ∧ (∀ l, take_turn l h = Some Return → ∃ t, l = TDone t)
  ∧ (∀ d, 0 ≤ d → ∃ t h', h_now h ≤ t ≤ h_now h + heartbeatInterval
                   ∧ take_turn (THeartbeat t d) h = Some (Continue h') ∧ h_now h' = t + d).
Proof.
  intros Hw Hl Hi Hh. pose proof (looping_wrapped w h Hw Hh) as Hwr. apply looping_timed in Hh as [Hid Htk Hpa Hse].
  assert (∀ t, take_turn (TIdle t) h = None) as Hnever.
  { intros t. cbn. destruct (wakes t h && idle_ready t h) eqn:E; [|done]. unfold wakes, idle_ready in E. boolify.
    unfold heartbeatInterval, Second in *. lia. }
  split; [exact Hnever|]. split.
  - intros l Hr. destruct l as [t|t|t d|t d e]; [by eexists|by rewrite Hnever in Hr| |]; cbn in Hr;
      destruct (_ && _); simplify_eq;
      match goal with H : deliver_at ?t ?d ?s ?x h = _ |- _ =>
        destruct (deliver_wrapped t d s x h Hwr) as (h1 & He & _); congruence end.
  - intros d Hd. set (t := Z.max (h_now h) (next_tick h)).
    destruct (deliver_wrapped t d (ticks_by t h) (Comment (js " heartbeat")) h Hwr) as (h' & He & _ & Hn).
    exists t, h'. split; [unfold t, heartbeatInterval, Second in *; lia|]. split; [|exact Hn].
    cbn. rewrite He. rewrite (proj2 (Z.leb_le 0 d)) by done. rewrite andb_true_r.
    assert (wakes t h = true) as ->.
    { unfold wakes, t. apply andb_true_iff. rewrite !Z.leb_le. unfold heartbeatInterval, Second in *. lia. }
    assert (tick_ready t h = true) as ->; [|done].
    unfold tick_ready, ticks_by. apply Z.ltb_lt. unfold t, next_tick, heartbeatInterval, Second in *.
    Z.to_euclidean_division_equations. lia.
Qed.
End loop.

(** Without the wrapper the handler would notice that the client is gone. *)
Lemma bare_writer_notices idleTimeout b e t d seen x h :
  b_caps b = WithError (Some e) → h_writer h = Base b → deliver_at idleTimeout t d seen x h = Return.
Proof.
  intros Hb Hw. unfold deliver_at, Write. rewrite Hw. cbn [on_base].
  assert (b_caps (append_body (chunk_text x) b) = WithError (Some e)) as Hc
    by (unfold append_body, commit; by destruct (b_sent b)).
  revert Hc. generalize (append_body (chunk_text x) b). intros b' Hc. cbn. by rewrite Hc.
Qed.

(** A cap below the heartbeat's interval drops a client that is well: nothing can
    come before it, and it comes. *)
Lemma short_cap_drops idleTimeout late t w :
  0 ≤ late → 0 < idleTimeout → idleTimeout + late < heartbeatInterval →
  let h := mkHandler t t 0 (t + idleTimeout) w in
  (∀ t' d, take_turn idleTimeout late (THeartbeat t' d) h = None)
  ∧ take_turn idleTimeout late (TIdle (t + idleTimeout)) h = Some Return.
Proof.
  intros Hl Hp Hi. cbn zeta. split.
  - intros t' d. cbn. destruct (wakes late t' _ && _ && _) eqn:E; [|done]. unfold wakes, tick_ready, ticks_by, next_tick in E.
    cbn in E. boolify. cbn in *. unfold heartbeatInterval, Second in *. Z.to_euclidean_division_equations. lia.
  - cbn. unfold wakes, idle_ready, next_tick. cbn. rewrite (proj2 (Z.leb_le _ _)), (proj2 (Z.leb_le _ _)), Z.leb_refl; [done|lia..].
Qed.

(** Through the log, a client is gone after the first heartbeat, whose flush took
    five minutes; the handler is still there. *)
Definition demo_writer : ResponseWriter := Wrapped (fresh (WithError (Some (js "broken pipe")))) 200.
Definition demo_loop : handler := mkHandler 0 0 0 defaultIdleTimeout demo_writer.
Definition demo_stuck : option next := take_turn defaultIdleTimeout Second (THeartbeat heartbeatInterval (300 * Second)) demo_loop.

Lemma idle_cap_never_acts_witness :
  ∃ h, demo_stuck = Some (Continue h) ∧ h_now h = 315 * Second ∧ (∀ t, take_turn defaultIdleTimeout Second (TIdle t) h = None).
Proof.
  eexists. split; [vm_compute; reflexivity|]. split; [vm_compute; reflexivity|].
  apply (idle_cap_never_acts defaultIdleTimeout Second demo_writer); [reflexivity|vm_compute; discriminate|vm_compute; reflexivity|].
  eapply (loop_turns _ _ _ (THeartbeat heartbeatInterval (300 * Second)) demo_loop);
    [apply (loop_enters defaultIdleTimeout Second demo_writer 0 0); reflexivity|vm_compute; reflexivity].
Defined.
