(* ===== verification/SdkText.v ===== *)
(** * What the SDK reads ([sdk/FeatureFlagClient.ts] against the server's text)

    The browser SDK gets three kinds of JSON: the snapshot, pages of the event
    log, and the data of stream events.  This file reads each of them back with
    the casts the SDK makes, through the router and the key check, and shows that
    it is what the server stores; so the whole system ([System]) runs on text,
    without an assumption on it. *)
From S2P Require Import Prelude JsMap Types Hash Json JsonText Api Router.
From S2P Require Import Client Server Convergence Broker Outbox System.

(** ** The casts

    [as FlagConfig] and its like check nothing; a text in another shape, which
    no server sends, has no reading here. *)
Definition as_bool (j : option json) : option bool := match j with Some (JBool b) => Some b | _ => None end.
Definition as_strings (j : option json) : option (list jstr) :=
  as_array j ≫= mapM (λ x, as_string (Some x)).
Definition as_config (j : json) : option FlagConfig :=
  i ← as_string (jget j (js "id")); k ← as_string (jget j (js "key"));
  d ← as_string (jget j (js "description")); e ← as_bool (jget j (js "enabled"));
  p ← as_number (jget j (js "rollout_percentage")); u ← as_strings (jget j (js "targeted_users"));
  v ← as_number (jget j (js "version")); Some (mkFlagConfig i k d e p u v).
Definition as_object (j : json) : option FlagObj :=
  match as_config j with
  | Some f => Some (FullFlag f)
  | None => KeyOnly <$> as_string (jget j (js "key"))
  end.
Definition as_event_type (s : jstr) : option EventType :=
  if decide (s = js "created") then Some Created
  else if decide (s = js "updated") then Some Updated
  else if decide (s = js "deleted") then Some Deleted else None.
Definition as_event (j : json) : option FlagEvent :=
  v ← as_number (jget j (js "version")); t ← as_string (jget j (js "event_type")) ≫= as_event_type;
  k ← as_string (jget j (js "flag_key")); p ← jget j (js "payload") ≫= as_object;
  c ← as_string (jget j (js "created_at")); Some (mkFlagEvent v t k p c).

(** [JSON.parse(e.data)] in the listeners of the stream *)
Definition stream_object (data : jstr) : option FlagObj := JSON_parse data ≫= as_object.

(** What a suspended call settles to when this response arrives. *)
Definition settles (t : task) (r : http_response) : Client.answer :=
  match t with
  | BootFetch | ReconFetch _ _ _ _ => Response (hr_status r)
  | BootJson =>
      match hr_json r with
      | Some j => BootBody (as_array (jget j (js "flags")) ≫= mapM as_object) (as_number (jget j (js "config_version")))
      | None => Rejected
      end
  | ReconJson _ _ _ _ =>
      match (j ← hr_json r; l ← as_array (jget j (js "events")); mapM as_event l) with
      | Some evs => EventsBody evs
      | None => Rejected
      end
  | InitRest => Settled
  end.

Section text.
(** The times of the row at the version a flag has. *)
Context (created updated : FlagConfig → jstr).
(** The identifier of the row a deletion logs. *)
Context (deleted_id : FlagEvent → jstr).

Definition response_of (f : FlagConfig) : Flag :=
  mkFlag (fc_id f) (fc_key f) (fc_description f) (fc_enabled f) (fc_rollout_percentage f) (fc_targeted_users f)
    (fc_version f) (created f) (updated f).

(** [flagPayload], and the map [Delete] logs *)
Definition logged_json (e : FlagEvent) : json :=
  match ev_payload e with
  | FullFlag f => flag_json (response_of f)
  | KeyOnly k => JObj [(js "id", JStr (deleted_id e)); (js "key", JStr k)]
  end.
(** [publishFlagUpdate] and [publishFlagDelete] *)
Definition published_json (o : FlagObj) : json :=
  match o with FullFlag f => flag_json (response_of f) | KeyOnly k => JObj [(js "key", JStr k)] end.
Definition published_text (o : FlagObj) : jstr := Marshal (published_json o).

Hypothesis created_text : ∀ f, Forall unit16 (created f).
Hypothesis updated_text : ∀ f, Forall unit16 (updated f).

(** *** Reading back *)
Lemma mapM_map {A B C} (f : A → B) (g : B → option C) (h : A → C) l :
  (∀ x, g (f x) = Some (h x)) → mapM g (map f l) = Some (map h l).
Proof. intros Hg. induction l as [|x l IH]; [done|]. cbn. by rewrite Hg; cbn; rewrite IH. Qed.

Lemma as_strings_json l : as_strings (Some (strings_json l)) = Some l.
Proof. unfold as_strings, strings_json. cbn. rewrite (mapM_map _ _ Datatypes.id) by done. by rewrite map_id. Qed.

(** The object has the fields of the flag. *)
Record carries (j : json) (f : FlagConfig) : Prop := {
  ca_id : jget j (js "id") = Some (JStr (fc_id f));
  ca_key : jget j (js "key") = Some (JStr (fc_key f));
  ca_description : jget j (js "description") = Some (JStr (fc_description f));
  ca_enabled : jget j (js "enabled") = Some (JBool (fc_enabled f));
  ca_percentage : jget j (js "rollout_percentage") = Some (JNum (fc_rollout_percentage f));
  ca_users : jget j (js "targeted_users") = Some (strings_json (fc_targeted_users f));
  ca_version : jget j (js "version") = Some (JNum (fc_version f)) }.

Lemma as_object_carries j f : carries j f → as_object j = Some (FullFlag f).
Proof.
  intros [Hi Hk Hd He Hp Hu Hv]. unfold as_object, as_config. rewrite Hi, Hk, Hd, He, Hp, Hu, Hv, as_strings_json.
  by destruct f.
Qed.

Lemma response_carries f : carries (flag_json (response_of f)) f.
Proof.
  destruct f as [i k d e p u v]. unfold response_of, flag_json. cbn [fc_id fc_key fc_description fc_enabled
    fc_rollout_percentage fc_targeted_users fc_version fl_id fl_key fl_description fl_enabled
    fl_rollout_percentage fl_targeted_users fl_version fl_created_at fl_updated_at].
  generalize (created (mkFlagConfig i k d e p u v)) as c, (updated (mkFlagConfig i k d e p u v)) as m. intros c m.
  split; vm_compute; reflexivity.
Qed.

Lemma config_carries f : carries (config_json f) f.
Proof. destruct f as [i k d e p u v]. split; vm_compute; reflexivity. Qed.

(** A deletion names its key and is no flag. *)
Lemma as_object_key j k :
  jget j (js "description") = None → jget j (js "key") = Some (JStr k) → as_object j = Some (KeyOnly k).
Proof.
  intros Hd Hk. unfold as_object, as_config. rewrite Hd, Hk.
  by destruct (as_string (jget j (js "id"))).
Qed.

Lemma as_object_published o : as_object (published_json o) = Some o.
Proof.
  destruct o as [f|k]; [apply as_object_carries, response_carries|].
  apply as_object_key; vm_compute; reflexivity.
Qed.

Lemma as_object_logged j e : (∀ k, jget j k = jget (logged_json e) k) → as_object j = Some (ev_payload e).
Proof.
  unfold logged_json. destruct (ev_payload e) as [f|k]; intros Hj.
  - destruct (response_carries f). apply as_object_carries. by split; rewrite Hj.
  - generalize dependent (deleted_id e). intros i Hj. apply as_object_key; rewrite Hj; vm_compute; reflexivity.
Qed.

(** *** Texts that are JSON *)
Lemma published_ok o : payload_text o → json_ok (published_json o).
Proof.
  destruct o as [f|k].
  - intros (Hi & Hk & Hd & Hu). pose proof (created_text f). pose proof (updated_text f).
    apply fields_ok; [vm_compute; reflexivity..|]. each_field.
  - intros Hk. apply fields_ok; [vm_compute; reflexivity..|]. each_field.
Qed.

(** The data of a stream event is read as what was published. *)
Lemma stream_object_published o : payload_text o → stream_object (published_text o) = Some o.
Proof.
  intros Ho. destruct (published_ok o Ho) as [Hu Hk]. unfold stream_object, published_text.
  rewrite <-(app_nil_r (Marshal _)). unfold Marshal. rewrite JSON_parse_print by (done || apply _).
  apply as_object_published.
Qed.
End text.

(** ** Through the router *)

(** Digits need no decoding in a query. *)
Definition plain_query (s : jstr) : Prop := Forall (λ c, is_digit c = true) s.

Lemma query_text_digits s : plain_query s → query_text s = Some s.
Proof.
  intros Hs. unfold query_text.
  assert (query_unescape s = Some s) as ->.
  { induction Hs as [|c s Hc%is_digit_spec _ IH]; [done|]. cbn [query_unescape].
    rewrite (proj2 (Z.eqb_neq c 37)), IH by lia. cbn. by rewrite (proj2 (Z.eqb_neq c 43)) by lia. }
  cbn. f_equal. assert (Forall (λ c, 0 ≤ c < 128) s) as Ha
    by (eapply Forall_impl; [exact Hs|]; intros c Hc%is_digit_spec; lia).
  assert (utf8_decode s = s) as ->; [|by apply ascii_encodings].
  induction Ha as [|c s Hc _ IH]; [done|]. apply Forall_cons in Hs as [_ Hs]. cbn [utf8_decode].
  by rewrite (proj2 (Z.ltb_lt c 128)), IH by (done || lia).
Qed.

Lemma show_plain n : 0 ≤ n → plain_query (show n).
Proof. intros Hn. unfold show. rewrite (proj2 (Z.ltb_ge n 0)) by lia. by apply show_nonneg_digits. Qed.

Lemma split_plain c s : is_digit c = false → plain_query s → split_on c s = [s].
Proof. intros Hc Hs. apply split_on_none. intros Hin. eapply Forall_forall in Hs; [|exact Hin]. by rewrite Hc in Hs. Qed.

Lemma query_since n : 0 ≤ n → query_get (js "since=" ++ show n) (js "since") = show n.
Proof.
  intros Hn. pose proof (show_plain n Hn) as Hp. generalize dependent (show n). intros s Hp.
  unfold query_get, Query. spell. cbn [app split_on Z.eqb Pos.eqb]. rewrite split_plain by done.
  cbn [omap list_omap]. unfold query_pair. rewrite bool_decide_false by done.
  rewrite bool_decide_false.
  - cbn [orb cut_equals Z.eqb Pos.eqb]. rewrite (query_text_digits s) by done. vm_compute. reflexivity.
  - intros Hin. repeat (apply elem_of_cons in Hin as [?|Hin]; [done|]).
    eapply Forall_forall in Hp; [|exact Hin]. done.
Qed.

Section fetch.
Context `{!Mux} (config : SDKConfig) (fmt_time : Z → jstr) (payload_json : FlagEvent → json).
Context (node_id admin_key sdk_key : jstr) (uuid : jstr → option jstr).
Context (created updated : FlagConfig → jstr) (deleted_id : FlagEvent → jstr).
(** A [JSONB] column gives an object back with its fields, in an order and
    spacing of its own. *)
Hypothesis jsonb_fields : ∀ e k, jget (payload_json e) k = jget (logged_json created updated deleted_id e) k.
Hypothesis payloads_are_json : ∀ e, event_text e → json_ok (payload_json e).

Definition task_url (t : task) : jstr :=
  match t with
  | BootFetch | BootJson | InitRest => flags_url config
  | ReconFetch _ _ _ since | ReconJson _ _ _ since => events_url config since
  end.

(** [fetch(url, { headers: { "X-SDK-Key": this.config.sdkKey } })], answered by
    the server in state [s]. *)
Definition sdk_fetch (e : env) (url : jstr) (s : server) : option http_response :=
  fst <$> upstream fmt_time payload_json node_id admin_key sdk_key uuid (baseUrl config) e
            (mkRequest (js "GET") url (to_headers [(js "X-SDK-Key", sdkKey config)]) None) s.

Lemma sdk_header k : go_header (to_headers [(js "X-SDK-Key", k)]) (js "X-SDK-Key") = k.
Proof. vm_compute. reflexivity. Qed.

(** A client route answers, or the key check does. *)
Lemma sdk_fetch_route e p q t o s r :
  split_target t = (p, q) → candidates routes (js "GET") p = [(Router.Client o, [])] →
  client node_id e o q s = Reply r → sdkKey config ≠ [] →
  sdk_fetch e (baseUrl config ++ t) s
  = Some (message payload_json (if bool_decide (sdkKey config = sdk_key) then r
                                else writeError 401 "unauthorized" "Invalid or missing SDK key")).
Proof.
  intros Ht Hc Ho Hk. unfold sdk_fetch, upstream. cbn [rq_url rq_method rq_headers rq_body].
  rewrite strip_prefix_app. cbn [mbind option_bind]. unfold Router.serve. cbn [rq_url rq_method rq_headers rq_body].
  rewrite Ht, (mux_unique routes _ _ _ Hc). unfold SDKAuth, sdk_key_of. rewrite sdk_header.
  destruct (sdkKey config) as [|c k]; [done|].
  case_bool_decide; [rewrite Ho|]; reflexivity.
Qed.

Lemma flags_answer e s : sdkKey config ≠ [] → sdkKey config = sdk_key →
  sdk_fetch e (flags_url config) s = Some (message payload_json (GetAllFlags (s_db s) (s_db s))).
Proof.
  intros Hk He. unfold flags_url. erewrite sdk_fetch_route; [|vm_compute; reflexivity..|reflexivity|done].
  by rewrite bool_decide_true.
Qed.

Lemma events_answer e n s : sdkKey config ≠ [] → sdkKey config = sdk_key → 0 ≤ n < 2 ^ 63 →
  sdk_fetch e (events_url config n) s
  = Some (message payload_json (mkResponse 200 (ReconcileBody (ListEventsSince n 0 (s_db s)) (GetLatestVersion (s_db s))))).
Proof.
  intros Hk He Hn. unfold events_url.
  assert (split_target (js "/api/client/events?since=" ++ show n) = (js "/api/client/events", js "since=" ++ show n)) as Ht
    by (by spell).
  erewrite sdk_fetch_route; [|exact Ht|vm_compute; reflexivity|reflexivity|done].
  rewrite bool_decide_true by done. rewrite query_since by lia. unfold Reconcile.
  rewrite bool_decide_false by apply show_not_nil. rewrite go_ParseInt_show by lia.
  by rewrite (proj2 (Z.ltb_ge n 0)) by lia.
Qed.
(** *** The bodies *)
Lemma get_flags a b : jget (JObj [(js "config_version", a); (js "flags", b)]) (js "flags") = Some b.
Proof. vm_compute. reflexivity. Qed.
Lemma get_version k a b : jget (JObj [(js "config_version", a); (k, b)]) (js "config_version") = Some a.
Proof. vm_compute. reflexivity. Qed.
Lemma get_events a b : jget (JObj [(js "config_version", a); (js "events", b)]) (js "events") = Some b.
Proof. vm_compute. reflexivity. Qed.
Lemma event_fields v t k j c :
  let o := JObj [(js "version", JNum v); (js "event_type", JStr (event_type_text t)); (js "flag_key", JStr k);
                 (js "payload", j); (js "created_at", JStr c)] in
  jget o (js "version") = Some (JNum v) ∧ jget o (js "event_type") = Some (JStr (event_type_text t))
  ∧ jget o (js "flag_key") = Some (JStr k) ∧ jget o (js "payload") = Some j ∧ jget o (js "created_at") = Some (JStr c).
Proof. cbn zeta. generalize (event_type_text t) as x. intros x. split_and!; vm_compute; reflexivity. Qed.
Lemma as_event_type_text t : as_event_type (event_type_text t) = Some t.
Proof. destruct t; vm_compute; reflexivity. Qed.

Lemma config_ok f : row_text f → json_ok (config_json f).
Proof. intros (Hi & Hk & Hd & Hu). apply fields_ok; [vm_compute; reflexivity..|]. each_field. Qed.

Lemma message_json st j : json_ok j → hr_json (encode st (Some j)) = Some j.
Proof. intros Hj. unfold encode. cbn [hr_json]. by apply parse_message. Qed.

Lemma snapshot_settles s : db_text (s_db s) →
  settles BootJson (message payload_json (GetAllFlags (s_db s) (s_db s))) = answer_of (s_db s) BootJson.
Proof.
  intros [Hr _]. unfold message, GetAllFlags. cbn [rs_status rs_body body_json settles answer_of].
  set (fl := map r_flag (Server.List (s_db s))).
  assert (Forall row_text fl) as Hfl.
  { unfold fl. change (map r_flag ?l) with (r_flag <$> l). apply Forall_fmap. unfold Server.List.
    by rewrite merge_sort_Permutation. }
  generalize dependent fl. intros fl Hfl. generalize (GetLatestVersion (s_db s)) as v. intros v.
  rewrite message_json.
  - rewrite get_flags, get_version. cbn [as_array mbind option_bind as_number]. f_equal.
    apply mapM_map. intros f. apply as_object_carries, config_carries.
  - apply fields_ok; [vm_compute; reflexivity..|]. apply Forall_cons. split; [apply num_ok|]. apply Forall_singleton.
    apply array_ok. eapply Forall_impl; [exact Hfl|]. intros f. apply config_ok.
Qed.

Lemma as_event_json e : as_event (event_json payload_json e) = Some e.
Proof.
  pose proof (as_object_logged created updated deleted_id (payload_json e) e (jsonb_fields e)) as Hp.
  destruct e as [v t k o c]. unfold event_json. cbn [ev_version ev_type ev_flag_key ev_payload ev_created_at] in *.
  generalize dependent (payload_json (mkFlagEvent v t k o c)). intros j Hp. unfold as_event.
  destruct (event_fields v t k j c) as (-> & -> & -> & -> & ->). cbn [as_number as_string mbind option_bind].
  by rewrite as_event_type_text, Hp.
Qed.

Lemma page_settles p c g n s : db_text (s_db s) →
  settles (ReconJson p c g n)
    (message payload_json (mkResponse 200 (ReconcileBody (ListEventsSince n 0 (s_db s)) (GetLatestVersion (s_db s)))))
  = answer_of (s_db s) (ReconJson p c g n).
Proof.
  intros [_ Hl]. unfold message. cbn [rs_status rs_body body_json settles answer_of].
  assert (Forall event_text (ListEventsSince n 0 (s_db s))) as Hp.
  { unfold ListEventsSince. apply Forall_take. rewrite merge_sort_Permutation. by apply Forall_filter_keep. }
  generalize dependent (ListEventsSince n 0 (s_db s)). intros evs Hp. generalize (GetLatestVersion (s_db s)) as v. intros v.
  rewrite message_json.
  - cbn [mbind option_bind]. rewrite get_events. cbn [as_array mbind option_bind].
    by rewrite (mapM_map _ _ Datatypes.id), map_id by apply as_event_json.
  - apply fields_ok; [vm_compute; reflexivity..|]. apply Forall_cons. split; [apply num_ok|]. apply Forall_singleton.
    apply array_ok. eapply Forall_impl; [exact Hp|]. intros e. by apply event_json_ok.
Qed.
(** The page a call asks for. *)
Definition since_of (t : task) : Z :=
  match t with ReconFetch _ _ _ n | ReconJson _ _ _ n => n | BootFetch | BootJson | InitRest => 0 end.

(** C7: the SDK reads what the server stores.  Whatever a flag's text, the two
    calls of the SDK, taken through the router, the key check and the JSON text
    of the answer, settle to the table, the version and the page of the log the
    server holds then: the answers the model of the system gives to the client.
    With another key both settle to 401; and the data of every stream event is
    read as the payload it announces. *)
Theorem sdk_reads_the_store (e : env) (t : task) (s : server) :
  (∀ f, Forall unit16 (created f)) → (∀ f, Forall unit16 (updated f)) →
  db_text (s_db s) → sdkKey config ≠ [] → t ≠ InitRest → 0 ≤ since_of t < 2 ^ 63 →
  (∃ r, sdk_fetch e (task_url t) s = Some r
     ∧ (sdkKey config = sdk_key → settles t r = answer_of (s_db s) t)
     ∧ (sdkKey config ≠ sdk_key → hr_status r = 401))
  ∧ Forall (λ ev, stream_object (published_text created updated (ev_payload ev)) = Some (ev_payload ev)) (log (s_db s)).
Proof.
  intros Hc Hm Hd Hk Ht Hn. split.
  - destruct (decide (sdkKey config = sdk_key)) as [He|He].
    + destruct t as [| | |p c g n|p c g n]; [..|done| |]; cbn [since_of task_url] in *; try done.
      1, 2: eexists; split; [by apply flags_answer|]; split; [intros _; first [done | by apply snapshot_settles]|done].
      all: eexists; split; [by apply events_answer|]; split; [intros _; first [done | by apply page_settles]|done].
    + destruct t as [| | |p c g n|p c g n]; [..|done| |]; cbn [since_of task_url] in *; try done.
      1, 2: eexists; split; [eapply sdk_fetch_route; [vm_compute; reflexivity..|reflexivity|done]|].
      3, 4: eexists; split; [eapply sdk_fetch_route; [by spell|vm_compute; reflexivity|reflexivity|done]|].
      all: rewrite bool_decide_false by done; split; [done|reflexivity].
  - eapply Forall_impl; [apply Hd|]. intros ev (_ & Hp & _). by apply stream_object_published.
Qed.
End fetch.

(** ** Requests keep the table text *)
Section requests.
Context (fmt_time : Z → jstr).
Hypothesis times_are_text : ∀ t, Forall unit16 (fmt_time t).

(** What the decoders of the handlers give: 16-bit units in every string. *)
Definition write_text (w : write) : Prop :=
  match w with
  | WCreate id i => Forall unit16 id ∧ create_ok i
  | WUpdate _ req => update_ok (ur_fields req)
  | WToggle _ | WDelete _ => True
  end.

Lemma serve_write_text now w s :
  write_text w → db_text (s_db s) → db_text (s_db (serve_write fmt_time now w s)).
Proof.
  intros Hw Hd. destruct w as [id i|id [u ex]|id|id]; cbn [serve_write write_text ur_fields] in *.
  - destruct Hw as [Hid Hi]. unfold CreateFlag. destruct (validate_create i); [done|].
    destruct (bool_decide _); [|done]. pose proof (Create_text fmt_time times_are_text now id i (s_db s) Hd Hid Hi) as Hc.
    destruct (Create _ _ _ _ _) as [[r|e] d]; by destruct Hc.
  - unfold UpdateFlag. cbn [ur_fields]. destruct (bad_percentage u); [done|].
    pose proof (publish_text (Update fmt_time now id (mkUpdateFlagRequest u ex) (s_db s)) s) as Hp.
    pose proof (Update_text fmt_time times_are_text now id u ex (s_db s) Hd Hw) as Hup.
    destruct (Update _ _ _ _ _) as [res d]. specialize (Hp Hup). by destruct (publish_result _ _), Hp.
  - unfold ToggleFlag. pose proof (publish_text (Toggle fmt_time now id (s_db s)) s) as Hp.
    pose proof (Toggle_text fmt_time times_are_text now id (s_db s) Hd) as Hup.
    destruct (Toggle _ _ _ _) as [res d]. specialize (Hp Hup). by destruct (publish_result _ _), Hp.
  - pose proof (delete_reply_ok fmt_time (λ _, JNull) times_are_text now id s Hd) as Hx.
    unfold handle_DeleteFlag in Hx. destruct (DeleteFlag fmt_time now id s) as [[e|] s']; by destruct Hx.
Qed.
End requests.

(** ** The system on text *)
Section whole.
Context (config : SDKConfig) (fmt_time : Z → jstr) (i es : nat).
Context (created updated : FlagConfig → jstr).
Hypothesis times_are_text : ∀ t, Forall unit16 (fmt_time t).
Hypothesis created_text : ∀ f, Forall unit16 (created f).
Hypothesis updated_text : ∀ f, Forall unit16 (updated f).

Abbreviation run := (sys_run config fmt_time (published_text created updated) stream_object i es).

(** Requests arrive decoded. *)
Definition label_text (l : sys_label) : Prop := match l with Write _ w => write_text w | _ => True end.

Lemma sys_exec_text l y y' :
  label_text l → sys_exec config fmt_time (published_text created updated) stream_object i es l y = Some y' →
  db_text (s_db (y_server y)) → db_text (s_db (y_server y')).
Proof.
  destruct y as [s c n w r]. intros Hl He Hd. cbn [y_server] in Hd. destruct l; cbn [sys_exec label_text] in *;
    repeat (apply bind_Some in He as (? & _ & He)); repeat case_match; simplify_eq; try done;
    repeat (apply bind_Some in He as (? & _ & He)); simplify_eq; try done.
  by apply serve_write_text.
Qed.

Lemma sys_run_text ls y y' :
  Forall label_text ls → run ls y = Some y' → db_text (s_db (y_server y)) → db_text (s_db (y_server y')).
Proof.
  intros Hls. revert y. induction Hls as [|l ls Hl _ IH]; intros y Hr Hd; cbn [sys_run] in Hr; [by simplify_eq|].
  apply bind_Some in Hr as (y1 & He & Hr). eapply IH; [exact Hr|]. by eapply sys_exec_text.
Qed.

Lemma text_parses d : db_text d → Forall (parses (published_text created updated) stream_object) (log d).
Proof.
  intros [_ Hl]. eapply Forall_impl; [exact Hl|]. intros e (_ & Hp & _). by apply stream_object_published.
Qed.
(** The browser's stream is registered and its client up to date. *)
Record caught_up (y : system) : Prop := {
  cu_conn : is_Some (n_conns (y_node y) !! i);
  cu_registered : i ∈ n_clients (y_node y);
  cu_headers : (1 ≤ y_read y)%nat;
  cu_open : sources (y_client y) !! es = Some OPEN;
  cu_idle : reconciling (y_client y) = false;
  cu_flags : to_gmap (flags (y_client y)) = table_map (rows (s_db (y_server y)));
  cu_version : configVersion (y_client y) = GetLatestVersion (s_db (y_server y)) }.

(** All that was published has been written to the stream and read from it. *)
Record all_arrived (y : system) : Prop := {
  aa_consumed : y_consumed y = length (s_published (y_server y));
  aa_registered : i ∈ n_clients (y_node y);
  aa_read : ∃ c, n_conns (y_node y) !! i = Some c ∧ c_buf c = [] ∧ y_read y = length (c_out c) }.

(** C1: a live client mirrors the table.  Serve decoded requests in any order
    from an empty database until the browser's stream is registered and its
    client up to date; then serve more, and let envelopes be broadcast, handlers
    write and heartbeat, other streams come and go and the browser read, in any
    order, with flags, envelopes and stream events as the JSON text they are.
    Once all that was published has been read, the client holds the table again
    without a request, or it is asking for the part behind a burnt version and
    holds the table when that is answered. *)
Theorem browser_mirrors_table (before ls : list sys_label) (y0 y : system) :
  Forall label_text (before ++ ls) → run before initial = Some y0 → caught_up y0 →
  Forall (λ l, is_live l = true) ls → run ls y0 = Some y → all_arrived y →
  Z.of_nat (length (log (s_db (y_server y)))) < guard_limit →
  ∃ answers y', Forall (λ l, is_answer l = true) answers ∧ run answers y = Some y'
    ∧ y_server y' = y_server y ∧ reconciling (y_client y') = false
    ∧ to_gmap (flags (y_client y')) = table_map (rows (s_db (y_server y)))
    ∧ isStale (GetLatestVersion (s_db (y_server y))) (y_client y') = false.
Proof.
  intros [Hb Hl]%Forall_app Hr0 [[c0 Hc0] Hin Hh Ho Hi Hf Hv] Hlive Hr [Hcons Hin' (c & Hc & Hbuf & Hrd)] Hlen.
  assert (db_text (s_db (y_server initial))) as H0 by (split; constructor).
  apply (live_client_mirrors_table config fmt_time (published_text created updated) stream_object i es y0 ls y c0 c); try done.
  { by eapply sys_run_reachable. }
  apply text_parses, (sys_run_text ls y0 y Hl Hr), (sys_run_text before initial y0 Hb Hr0), H0.
Qed.
End whole.

(** ** Witnesses *)
#[local] Program Instance first_route : Mux := {| mux t m p := head (candidates t m p) |}.
Next Obligation. intros t m p c. apply head_elem. Qed.
Next Obligation. intros t m p c Hc. simpl. by rewrite Hc. Qed.

(** A flag whose description needs every kind of escape. *)
Definition quoted_input : CreateFlagInput :=
  mkCreateFlagInput key1 (js "a<b & 'c' \ é ☕ 😀" ++ [34; 10; 8232]) false 50 [js "alice"].
Definition before_text : list sys_label :=
  [Write 1 (WCreate (js "id-1") quoted_input); Consume []; Call LInit; Answer 0; Answer 0; Answer 0; Node Connect;
   Node (FirstFlush 0 true); Recv; Answer 0; Answer 0; Node (Register 0); Node (Greet 0)].

Abbreviation text_run := (sys_run demo_config show (published_text (λ _, js "t") (λ _, js "u")) stream_object 0 0) (only parsing).
Definition text_registered : system := initial_or (text_run before_text initial).
Definition text_arrived : system := initial_or (text_run live_run text_registered).

Lemma browser_mirrors_table_witness :
  configVersion (y_client text_arrived) = 2
  ∧ ∃ answers y', Forall (λ l, is_answer l = true) answers ∧ text_run answers text_arrived = Some y'
    ∧ y_server y' = y_server text_arrived ∧ reconciling (y_client y') = false
    ∧ to_gmap (flags (y_client y')) = table_map (rows (s_db (y_server text_arrived)))
    ∧ isStale (GetLatestVersion (s_db (y_server text_arrived))) (y_client y') = false.
Proof.
  split; [vm_compute; reflexivity|].
  assert (Forall unit16 (js "t") ∧ Forall unit16 (js "u")) as [Ht Hu] by (split; by apply js_units).
  apply (browser_mirrors_table demo_config show 0 0 (λ _, js "t") (λ _, js "u") show_text (λ _, Ht) (λ _, Hu)
           before_text live_run text_registered text_arrived).
  - assert (text_ok (js "alice") ∧ text_ok key1) as [Ha Hk]
      by (split; (split; [by apply js_units; vm_compute|vm_compute; reflexivity])).
    repeat (apply Forall_cons; split); try exact I; [| |by apply Forall_nil].
    + split; [by apply js_units|]. split; [exact Hk| |by split|by apply Forall_singleton].
      split; [by apply js_units; vm_compute|vm_compute; reflexivity].
    + by split.
  - vm_compute. reflexivity.
  - split; [by vm_compute; eexists|vm_compute; reflexivity|apply Nat.leb_le; vm_compute; reflexivity|vm_compute; reflexivity..].
  - repeat constructor.
  - vm_compute. reflexivity.
  - split; [vm_compute; reflexivity|vm_compute; reflexivity|]. eexists. split; [vm_compute; reflexivity|].
    split; vm_compute; reflexivity.
  - vm_compute. reflexivity.
Defined.

(** A column that stores shorter names first, as Postgres does. *)
Definition shorter (a b : jstr * json) : Prop := (length a.1 ≤ length b.1)%nat.
#[export] Instance shorter_dec : RelDecision shorter := λ a b, decide (length a.1 ≤ length b.1)%nat.
Definition jsonb (j : json) : json := match j with JObj fs => JObj (merge_sort shorter fs) | _ => j end.

Lemma foldr_conj_perm {A} (P : A → Prop) l l' :
  l ≡ₚ l' → foldr (λ x Q, P x ∧ Q) True l → foldr (λ x Q, P x ∧ Q) True l'.
Proof. induction 1; cbn; tauto. Qed.

Lemma json_ok_perm fs fs' : fs ≡ₚ fs' → json_ok (JObj fs) → json_ok (JObj fs').
Proof.
  intros Hp [Hu [Hd Hk]]. split; [|split].
  - exact (foldr_conj_perm (λ p, Forall unit16 p.1 ∧ json_units p.2) _ _ Hp Hu).
  - by rewrite <-Hp.
  - exact (foldr_conj_perm (λ p, json_keys p.2) _ _ Hp Hk).
Qed.

Lemma jget_perm fs fs' k : fs ≡ₚ fs' → NoDup fs.*1 → jget (JObj fs) k = jget (JObj fs') k.
Proof.
  intros Hp Hd. cbn [jget]. assert (NoDup fs'.*1) as Hd' by (by rewrite <-Hp).
  destruct (map_get fs' k) as [v|] eqn:Hk.
  - apply map_get_wf; [done|]. rewrite Hp. by apply map_get_elem.
  - apply map_get_None. apply map_get_None in Hk. unfold map_keys in *. by rewrite Hp.
Qed.

Definition demo_logged := logged_json (λ _, js "t") (λ _, js "u") (λ _, js "id-1").
Definition stored (e : FlagEvent) : json := jsonb (demo_logged e).

Lemma stored_fields e k : jget (stored e) k = jget (demo_logged e) k.
Proof.
  unfold stored, demo_logged, logged_json.
  destruct (ev_payload e) as [f|x]; symmetry; (apply jget_perm; [by rewrite merge_sort_Permutation|]);
    apply (bool_decide_unpack _); vm_compute; exact I.
Qed.

Lemma stored_ok e : event_text e → json_ok (stored e).
Proof.
  intros (_ & Hp & _). assert (Forall unit16 (js "t") ∧ Forall unit16 (js "u")) as [Ht Hu] by (split; by apply js_units).
  assert (json_ok (demo_logged e)) as Hok.
  { unfold demo_logged, logged_json. destruct (ev_payload e) as [f|x].
    - exact (published_ok (λ _, js "t") (λ _, js "u") (λ _, Ht) (λ _, Hu) (FullFlag f) Hp).
    - cbn [payload_text] in Hp. assert (Forall unit16 (js "id-1")) by (by apply js_units).
      apply fields_ok; [vm_compute; reflexivity..|]. each_field. }
  unfold stored, demo_logged, logged_json in *. destruct (ev_payload e); cbn [jsonb];
    (eapply json_ok_perm; [|exact Hok]); by rewrite merge_sort_Permutation.
Qed.

Lemma sdk_reads_the_store_witness :
  ∃ r, sdk_fetch demo_config show stored (js "node-1") (js "k") (sdkKey demo_config) Some demo_env
         (events_url demo_config 0) Server.demo_server = Some r
  ∧ settles (ReconJson Live false 0 0) r = EventsBody (log (s_db Server.demo_server)).
Proof.
  assert (Forall unit16 (js "t") ∧ Forall unit16 (js "u")) as [Ht Hu] by (split; by apply js_units).
  destruct (sdk_reads_the_store demo_config show stored (js "node-1") (js "k") (sdkKey demo_config) Some
    (λ _, js "t") (λ _, js "u") (λ _, js "id-1") stored_fields stored_ok demo_env (ReconJson Live false 0 0)
    Server.demo_server (λ _, Ht) (λ _, Hu) demo_text) as [(r & Hr & Hs & _) _].
  - vm_compute. discriminate.
  - discriminate.
  - by split.
  - exists r. split; [exact Hr|]. rewrite Hs by reflexivity. vm_compute. reflexivity.
Defined.
