(* ===== verification/Migrate.v ===== *)
(** * Migrations ([internal/migrate/migrate.go])

    Replicas that boot together run the same ordered files against one
    database.  A step is one statement of one replica, so the interleavings are
    those Postgres allows; a replica can fail or die at any point, and the
    connection that holds the advisory lock can be lost while its replica goes
    on over the pool. *)
From S2P Require Import Prelude.

(** A file of [fsys]: its name and its text. *)
Record file := mkFile { f_name : jstr; f_body : jstr }.

(** [sort.Strings] *)
Definition name_le (a b : file) : Prop := str_ltb (f_name b) (f_name a) = false.
#[export] Instance name_le_dec : RelDecision name_le.
Proof. intros a b. unfold name_le. apply _. Defined.

(** [strings.TrimSpace(body) != ""]; SQL text is ASCII, where both languages
    strip the same characters. *)
Definition blank (body : jstr) : bool := bool_decide (trim body = []).

Lemma tail_drop {A} k (l : list A) : tail (drop k l) = drop (S k) l.
Proof. revert l. induction k as [|k IH]; intros [|x l]; try done. apply (IH l). Qed.

Section migrate.
(** The schema, and what Postgres makes of a script: an error leaves nothing. *)
Context {S : Type} (exec_sql : jstr → S → option S).
Context (fsys : list file) (schema0 : S).

Definition names : list file := merge_sort name_le fsys.

(** Where a replica is in [Run]: before the lock, before the table, at a file,
    inside [applyOne] for one, returned. *)
Inductive runner :=
| Booting | Locked | Checking (rest : list file) | Applying (f : file) (rest : list file) | Finished | Failed.

(** The schema, [schema_migrations] and the advisory lock's owner. *)
Record store := mkStore { m_schema : S; m_applied : list jstr; m_lock : option nat }.
Record cluster := mkCluster { m_store : store; m_runners : list runner }.

Definition initial (n : nat) : cluster := mkCluster (mkStore schema0 [] None) (replicate n Booting).

Inductive label :=
| Acquire (i : nat)      (* [pg_advisory_lock] returns *)
| CreateTable (i : nat)
| CheckOne (i : nat)     (* the next file's [SELECT EXISTS], or the end of the loop *)
| ApplyOne (i : nat)     (* the transaction commits, or fails *)
| Crash (i : nat)        (* any other error, or the process dies *)
| LoseLock (i : nat).    (* the lock's connection is lost *)

Definition goto (i : nat) (r : runner) (s : store) (c : cluster) : cluster :=
  mkCluster s (<[i:=r]> (m_runners c)).
(** The deferred unlock, or the end of its session. *)
Definition release (i : nat) (s : store) : store :=
  mkStore (m_schema s) (m_applied s) (if decide (m_lock s = Some i) then None else m_lock s).

(** [applyOne]: body and bookkeeping row in one transaction. *)
Definition applyOne (f : file) (s : store) : option store :=
  schema ← (if blank (f_body f) then Some (m_schema s) else exec_sql (f_body f) (m_schema s));
  if decide (f_name f ∈ m_applied s) then None   (* the primary key *)
  else Some (mkStore schema (m_applied s ++ [f_name f]) (m_lock s)).

Definition exec (l : label) (c : cluster) : option cluster :=
  let s := m_store c in
  match l with
  | Acquire i =>
      match m_runners c !! i, m_lock s with
      | Some Booting, None => Some (goto i Locked (mkStore (m_schema s) (m_applied s) (Some i)) c)
      | _, _ => None
      end
  | CreateTable i =>
      match m_runners c !! i with Some Locked => Some (goto i (Checking names) s c) | _ => None end
  | CheckOne i =>
      match m_runners c !! i with
      | Some (Checking []) => Some (goto i Finished (release i s) c)
      | Some (Checking (f :: rest)) =>
          Some (goto i (if decide (f_name f ∈ m_applied s) then Checking rest else Applying f rest) s c)
      | _ => None
      end
  | ApplyOne i =>
      match m_runners c !! i with
      | Some (Applying f rest) =>
          Some (match applyOne f s with
                | Some s' => goto i (Checking rest) s' c
                | None => goto i Failed (release i s) c
                end)
      | _ => None
      end
  | Crash i => match m_runners c !! i with
               | Some (Booting | Locked | Checking _ | Applying _ _) => Some (goto i Failed (release i s) c)
               | _ => None
               end
  | LoseLock i => if decide (m_lock s = Some i) then Some (mkCluster (release i s) (m_runners c)) else None
  end.

Definition step (c c' : cluster) : Prop := ∃ l, exec l c = Some c'.
Definition reachable (c : cluster) : Prop := ∃ n, rtc step (initial n) c.

Fixpoint run (ls : list label) (c : cluster) : option cluster :=
  match ls with [] => Some c | l :: ls => exec l c ≫= run ls end.

(** The schema after a list of files, each once, in order *)
Fixpoint migrated (fs : list file) (s : S) : option S :=
  match fs with
  | [] => Some s
  | f :: fs => (if blank (f_body f) then Some s else exec_sql (f_body f) s) ≫= migrated fs
  end.

Lemma migrated_snoc fs f s : migrated (fs ++ [f]) s = migrated fs s ≫= migrated [f].
Proof.
  revert s. induction fs as [|g fs IH]; intros s; [done|]. cbn [app migrated].
  destruct (if blank _ then _ else _) as [s'|]; [apply IH|done].
Qed.

(** ** The invariant *)

(** A replica has seen the first [j] files applied, of the [k] that are. *)
Definition runner_ok (k : nat) (r : runner) : Prop :=
  match r with
  | Checking rest => ∃ j, (j ≤ k)%nat ∧ rest = drop j names
  | Applying f rest => ∃ j, (j ≤ k)%nat ∧ f :: rest = drop j names
  | Finished => k = length names
  | _ => True
  end.

Record inv (k : nat) (c : cluster) : Prop := {
  in_bound : (k ≤ length names)%nat;
  in_applied : m_applied (m_store c) = f_name <$> take k names;
  in_schema : migrated (take k names) schema0 = Some (m_schema (m_store c));
  in_runners : Forall (runner_ok k) (m_runners c) }.

Context (names_unique : NoDup (f_name <$> fsys)).

Lemma sorted_unique : NoDup (f_name <$> names).
Proof. unfold names. by rewrite merge_sort_Permutation. Qed.

(** A file the replica is at is applied exactly when it is among the first. *)
Lemma applied_at j k f rest : (j ≤ k)%nat → f :: rest = drop j names →
  (f_name f ∈ f_name <$> take k names) ↔ (j < k)%nat.
Proof.
  intros Hj Hd. assert (names !! j = Some f) as Hf.
  { rewrite <-(Nat.add_0_r j), <-lookup_drop, <-Hd. done. }
  assert ((f_name <$> names) !! j = Some (f_name f)) as Hn by (by rewrite list_lookup_fmap, Hf).
  rewrite fmap_take, list_elem_of_lookup. split.
  - intros [i Hi]. apply lookup_take_Some in Hi as [Hi Hik].
    by rewrite (NoDup_lookup _ _ _ _ sorted_unique Hn Hi).
  - intros Hlt. exists j. rewrite lookup_take_lt; done.
Qed.

Lemma runners_grow k k' l : (k ≤ k')%nat → (k' ≤ length names)%nat → Forall (runner_ok k) l → Forall (runner_ok k') l.
Proof.
  intros Hk Hb Hl. eapply Forall_impl; [exact Hl|]. intros [| |rest|f rest| |] Hr; cbn in *; try done.
  - destruct Hr as (j & ? & ?). exists j. split; [lia|done].
  - destruct Hr as (j & ? & ?). exists j. split; [lia|done].
  - lia.
Qed.

Lemma inv_goto k i r s c : inv k (mkCluster s (m_runners c)) → runner_ok k r → inv k (goto i r s c).
Proof. intros [Hb Ha Hs Hr] Hi. split; try done. cbn. by apply Forall_insert. Qed.

Lemma inv_store k c s : inv k c → m_applied s = m_applied (m_store c) → m_schema s = m_schema (m_store c) →
  inv k (mkCluster s (m_runners c)).
Proof. intros [Hb Ha Hs Hr] Ea Es. split; cbn; congruence. Qed.

(** A committed file is the next one. *)
Lemma inv_apply k i f rest s' c :
  inv k c → m_runners c !! i = Some (Applying f rest) → applyOne f (m_store c) = Some s' →
  inv (Datatypes.S k) (goto i (Checking rest) s' c).
Proof.
  intros [Hb Ha Hs Hr] Hi Happ. pose proof (Forall_lookup_1 _ _ _ _ Hr Hi) as (j & Hj & Hd).
  unfold applyOne in Happ. apply bind_Some in Happ as (schema & Hsql & Happ).
  rewrite Ha in Happ. case_decide as Hin; [done|]. injection Happ as <-.
  assert (¬ (j < k)%nat) as Hjk by (intros H; by apply Hin, (applied_at j k f rest)). assert (j = k) as -> by lia.
  assert (take (Datatypes.S k) names = take k names ++ [f]) as Ht.
  { apply take_S_r. by rewrite <-(Nat.add_0_r k), <-lookup_drop, <-Hd. }
  assert (k < length names)%nat as Hlt.
  { apply (f_equal length) in Hd. rewrite length_drop in Hd. cbn in Hd. lia. }
  split; cbn.
  - lia.
  - by rewrite Ht, fmap_app.
  - rewrite Ht, migrated_snoc, Hs. cbn. by rewrite Hsql.
  - apply Forall_insert; [eapply runners_grow; [| |exact Hr]; lia|].
    exists (Datatypes.S k). split; [done|]. apply (f_equal tail) in Hd. cbn in Hd. rewrite Hd. apply tail_drop.
Qed.

Lemma inv_step k c c' : inv k c → step c c' → ∃ k', (k ≤ k')%nat ∧ inv k' c'.
Proof.
  intros Hinv [l Hl]. destruct l as [i|i|i|i|i|i]; cbn [exec] in Hl.
  - destruct (m_runners c !! i) as [[]|]; try done. destruct (m_lock _); [done|]. simplify_eq.
    exists k. split; [done|]. apply inv_goto; [by apply inv_store|done].
  - destruct (m_runners c !! i) as [[]|]; try done. simplify_eq.
    exists k. split; [done|]. apply inv_goto; [by apply inv_store|]. exists 0%nat. split; [lia|done].
  - destruct (m_runners c !! i) as [[| |[|f rest]| | |]|] eqn:Hi; try done; simplify_eq;
      pose proof (Forall_lookup_1 _ _ _ _ (in_runners _ _ Hinv) Hi) as (j & Hj & Hd); exists k; (split; [done|]).
    + apply inv_goto; [by apply inv_store|]. cbn. pose proof (in_bound _ _ Hinv).
      apply (f_equal length) in Hd. rewrite length_drop in Hd. cbn in Hd. lia.
    + apply inv_goto; [by apply inv_store|]. rewrite (in_applied _ _ Hinv). case_decide as Hin; [|by exists j].
      exists (Datatypes.S j). split; [by apply (applied_at j k f rest Hj Hd)|].
      apply (f_equal tail) in Hd. cbn in Hd. rewrite Hd. apply tail_drop.
  - destruct (m_runners c !! i) as [[]|] eqn:Hi; try done. simplify_eq.
    destruct (applyOne _ _) as [s'|] eqn:Happ.
    + exists (Datatypes.S k). split; [lia|]. by eapply inv_apply.
    + exists k. split; [done|]. apply inv_goto; [by apply inv_store|done].
  - destruct (m_runners c !! i) as [[]|]; try done; simplify_eq; exists k; (split; [done|]);
      (apply inv_goto; [by apply inv_store|done]).
  - case_decide; [|done]. simplify_eq. exists k. split; [done|]. by apply inv_store.
Qed.

Lemma inv_initial n : inv 0 (initial n).
Proof. split; try done; [lia|]. cbn. by apply Forall_replicate. Qed.

Lemma reachable_inv c : reachable c → ∃ k, inv k c.
Proof.
  intros [n Hr]. assert (∃ k, inv k (initial n)) as H0 by (exists 0%nat; apply inv_initial).
  revert H0. induction Hr as [c|c1 c2 c3 Hs _ IH]; [done|]. intros [k Hk]. apply IH.
  destruct (inv_step k c1 c2 Hk Hs) as (k' & _ & Hk'). by exists k'.
Qed.

(** C11: migrations run once and in order, whatever happens.  For any number of
    replicas that boot together, at every moment, with crashes, failing scripts
    and a lost lock, the recorded files are the first ones in name order without
    repetition, the schema is exactly what these scripts make of the old one, and
    a replica whose [Run] returned nil finds every file applied. *)
Theorem migrations_run_once (c : cluster) :
  reachable c →
  ∃ k, (k ≤ length names)%nat ∧ m_applied (m_store c) = f_name <$> take k names ∧ NoDup (m_applied (m_store c))
    ∧ migrated (take k names) schema0 = Some (m_schema (m_store c))
    ∧ (Finished ∈ m_runners c → k = length names).
Proof.
  intros [k [Hb Ha Hs Hr]]%reachable_inv. exists k. split_and!; try done.
  - rewrite Ha, fmap_take. apply NoDup_take, sorted_unique.
  - intros Hin. by apply (proj1 (Forall_forall _ _) Hr Finished).
Qed.

(** *** A restart finishes *)
Definition own (i : nat) (l : label) : bool :=
  match l with
  | Acquire j | CreateTable j | CheckOne j | ApplyOne j => bool_decide (j = i)
  | Crash _ | LoseLock _ => false
  end.

Lemma run_app ls ls' c : run (ls ++ ls') c = run ls c ≫= run ls'.
Proof. revert c. induction ls as [|l ls IH]; intros c; [done|]. cbn. destruct (exec l c); [apply IH|done]. Qed.

Lemma migrated_prefix k s : is_Some (migrated names s) → is_Some (migrated (take k names) s).
Proof.
  rewrite <-(take_drop k names) at 1. generalize (take k names) as l. intros l. revert s.
  induction l as [|f l IH]; intros s; [by eexists|]. cbn [app migrated].
  destruct (if blank _ then _ else _); [apply IH|done].
Qed.

Lemma next_applies k c f rest :
  inv k c → runner_ok k (Applying f rest) → f_name f ∉ m_applied (m_store c) → is_Some (migrated names schema0) →
  is_Some (applyOne f (m_store c)).
Proof.
  intros [Hb Ha Hs Hr] (j & Hj & Hd) Hin Hsql. rewrite Ha in Hin.
  assert (¬ (j < k)%nat) as Hjk by (intros H; by apply Hin, (applied_at j k f rest)). assert (j = k) as -> by lia.
  assert (take (Datatypes.S k) names = take k names ++ [f]) as Ht.
  { apply take_S_r. by rewrite <-(Nat.add_0_r k), <-lookup_drop, <-Hd. }
  destruct (migrated_prefix (Datatypes.S k) schema0 Hsql) as [s' Hs']. rewrite Ht, migrated_snoc, Hs in Hs'.
  cbn in Hs'. apply bind_Some in Hs' as (schema & Hx & _). unfold applyOne. rewrite Hx, Ha. cbn.
  by rewrite decide_False.
Qed.

(** One replica left alone *)
Definition finishes (i : nat) (n : nat) (c : cluster) : Prop :=
  ∃ ls c', Forall (λ l, own i l = true) ls ∧ (length ls ≤ n)%nat ∧ run ls c = Some c'
    ∧ m_runners c' !! i = Some Finished ∧ ∃ k, inv k c'.

Lemma finishes_step i n l c c1 : own i l = true → exec l c = Some c1 → finishes i n c1 → finishes i (Datatypes.S n) c.
Proof.
  intros Ho He (ls & c' & Hls & Hn & Hrun & Hf). exists (l :: ls), c'. split_and!; try apply Hf.
  - by constructor.
  - cbn. lia.
  - cbn. by rewrite He.
Qed.

Lemma finishes_le i n n' c : (n ≤ n')%nat → finishes i n c → finishes i n' c.
Proof. intros Hle (ls & c' & Hls & Hn & H). exists ls, c'. split_and!; try apply H; [done|lia]. Qed.

Lemma goto_at i r s c : is_Some (m_runners c !! i) → m_runners (goto i r s c) !! i = Some r.
Proof. intros [x Hx]. cbn. eapply list_lookup_insert_eq, lookup_lt_Some, Hx. Qed.

Lemma loop_finishes i rest k c :
  inv k c → m_runners c !! i = Some (Checking rest) → is_Some (migrated names schema0) →
  finishes i (2 * length rest + 1) c.
Proof.
  revert k c. induction rest as [|f rest IH]; intros k c Hinv Hi Hsql.
  all: assert (own i (CheckOne i) = true) as Ho by (by apply bool_decide_eq_true_2).
  - assert (exec (CheckOne i) c = Some (goto i Finished (release i (m_store c)) c)) as He by (cbn; by rewrite Hi).
    destruct (inv_step k c _ Hinv (ex_intro _ _ He)) as (k' & _ & Hk').
    eapply finishes_step; [done|exact He|]. exists [], (goto i Finished (release i (m_store c)) c).
    split_and!; [by constructor|done|done|by apply goto_at|by exists k'].
  - pose proof (Forall_lookup_1 _ _ _ _ (in_runners _ _ Hinv) Hi) as Hok.
    set (r := if decide (f_name f ∈ m_applied (m_store c)) then Checking rest else Applying f rest).
    assert (exec (CheckOne i) c = Some (goto i r (m_store c) c)) as He by (cbn; by rewrite Hi).
    destruct (inv_step k c _ Hinv (ex_intro _ _ He)) as (k1 & _ & Hk1).
    pose proof (goto_at i r (m_store c) c ltac:(by eexists)) as Hr1.
    apply (finishes_le i (Datatypes.S (Datatypes.S (2 * length rest + 1)))); [cbn; lia|].
    eapply finishes_step; [done|exact He|]. unfold r in *. case_decide as Hin.
    + eapply finishes_le; [|by eapply IH]. lia.
    + pose proof (Forall_lookup_1 _ _ _ _ (in_runners _ _ Hk1) Hr1) as Hok1.
      destruct (next_applies k1 _ f rest Hk1 Hok1 Hin Hsql) as [s' Hs'].
      assert (exec (ApplyOne i) (goto i (Applying f rest) (m_store c) c)
        = Some (goto i (Checking rest) s' (goto i (Applying f rest) (m_store c) c))) as Ha.
      { cbn [exec]. rewrite Hr1. by rewrite Hs'. }
      destruct (inv_step k1 _ _ Hk1 (ex_intro _ _ Ha)) as (k2 & _ & Hk2).
      eapply (finishes_step i _ (ApplyOne i)); [by apply bool_decide_eq_true_2|exact Ha|].
      eapply (IH k2); [exact Hk2| |done]. by apply goto_at.
Qed.

(** C31: a restart completes the migrations.  From every reachable state in
    which the lock is free, a replica that boots and is left alone returns after
    at most two statements per file and three more, and then every file is
    applied and the schema is what all scripts make of the first one; when they
    were applied already, nothing changes. *)
Theorem migration_completes (c : cluster) (i : nat) (final : S) :
  reachable c → m_lock (m_store c) = None → m_runners c !! i = Some Booting → migrated names schema0 = Some final →
  ∃ ls c', Forall (λ l, own i l = true) ls ∧ (length ls ≤ 2 * length names + 3)%nat ∧ run ls c = Some c'
    ∧ m_runners c' !! i = Some Finished
    ∧ m_applied (m_store c') = f_name <$> names ∧ m_schema (m_store c') = final.
Proof.
  intros [k Hinv]%reachable_inv Hlock Hi Hfin.
  set (c1 := goto i Locked (mkStore (m_schema (m_store c)) (m_applied (m_store c)) (Some i)) c).
  assert (exec (Acquire i) c = Some c1) as H1 by (cbn [exec]; by rewrite Hi, Hlock).
  destruct (inv_step k c c1 Hinv (ex_intro _ _ H1)) as (k1 & _ & Hk1).
  assert (m_runners c1 !! i = Some Locked) as Hi1 by (by apply goto_at).
  set (c2 := goto i (Checking names) (m_store c1) c1).
  assert (exec (CreateTable i) c1 = Some c2) as H2 by (cbn [exec]; by rewrite Hi1).
  destruct (inv_step k1 c1 c2 Hk1 (ex_intro _ _ H2)) as (k2 & _ & Hk2).
  assert (m_runners c2 !! i = Some (Checking names)) as Hi2 by (by apply goto_at).
  assert (finishes i (2 * length names + 3) c) as (ls & c' & Hls & Hn & Hrun & Hf & k' & Hk').
  { apply (finishes_le i (Datatypes.S (Datatypes.S (2 * length names + 1)))); [lia|].
    eapply (finishes_step i _ (Acquire i)); [by apply bool_decide_eq_true_2|exact H1|].
    eapply (finishes_step i _ (CreateTable i)); [by apply bool_decide_eq_true_2|exact H2|]. eapply loop_finishes; [done..|by eexists]. }
  exists ls, c'. pose proof (Forall_lookup_1 _ _ _ _ (in_runners _ _ Hk') Hf) as Hk. cbn in Hk. subst k'.
  pose proof (in_applied _ _ Hk') as Ha. pose proof (in_schema _ _ Hk') as Hs. rewrite firstn_all in *.
  split_and!; try done. congruence.
Qed.

(** *** The lock *)
Definition critical (r : runner) : bool :=
  match r with Locked | Checking _ | Applying _ _ => true | _ => false end.
Definition keeps_lock (l : label) : bool := match l with LoseLock _ => false | _ => true end.

(** A replica inside [Run] holds the lock, and what it found missing is. *)
Definition lock_inv (c : cluster) : Prop := ∀ i r, m_runners c !! i = Some r → critical r = true →
  m_lock (m_store c) = Some i ∧ ∀ f rest, r = Applying f rest → f_name f ∉ m_applied (m_store c).

Lemma lock_goto i r s c :
  lock_inv c → (∃ r0, m_runners c !! i = Some r0 ∧ (critical r0 = true ∨ m_lock (m_store c) = None)) →
  (critical r = true → m_lock s = Some i ∧ ∀ f rest, r = Applying f rest → f_name f ∉ m_applied s) →
  lock_inv (goto i r s c).
Proof.
  intros Hl (r0 & Hi & H0) Hr j rj. cbn. intros Hj Hc. destruct (decide (j = i)) as [->|Hne].
  - rewrite list_lookup_insert_eq in Hj by (by eapply lookup_lt_Some). simplify_eq. by apply Hr.
  - rewrite list_lookup_insert_ne in Hj by done. destruct (Hl j rj Hj Hc) as [Hlock _].
    destruct H0 as [H0|H0]; [|congruence]. destruct (Hl i r0 Hi H0) as [Hlock' _]. congruence.
Qed.

Lemma lock_step l c c' : keeps_lock l = true → lock_inv c → exec l c = Some c' → lock_inv c'.
Proof.
  intros Hk Hl He. destruct l as [i|i|i|i|i|i]; cbn [exec] in He; try done.
  - destruct (m_runners c !! i) as [[]|] eqn:Hi; try done. destruct (m_lock _) eqn:Hlock; [done|]. simplify_eq.
    apply lock_goto; [done|exists Booting; auto|done].
  - destruct (m_runners c !! i) as [[]|] eqn:Hi; try done. simplify_eq.
    apply lock_goto; [done|exists Locked; auto|]. intros _. split; [by apply (Hl i Locked)|done].
  - destruct (m_runners c !! i) as [[| |[|f rest]| | |]|] eqn:Hi; try done; simplify_eq;
      (apply lock_goto; [done|eexists; split; [exact Hi|by left]|]); [done|].
    intros _. split; [by eapply Hl|]. intros f' rest'. case_decide; [done|]. by intros [= <- <-].
  - destruct (m_runners c !! i) as [[]|] eqn:Hi; try done. simplify_eq.
    destruct (applyOne _ _) as [s'|] eqn:Happ; (apply lock_goto; [done|eexists; split; [exact Hi|by left]|]); [|done].
    intros _. split; [|done]. unfold applyOne in Happ. apply bind_Some in Happ as (x & _ & Happ).
    case_decide; [done|]. simplify_eq. by eapply Hl.
  - destruct (m_runners c !! i) as [[]|] eqn:Hi; try done; simplify_eq;
      intros j rj; cbn; intros Hj Hc; (destruct (decide (j = i)) as [->|Hne];
        [rewrite list_lookup_insert_eq in Hj by (by eapply lookup_lt_Some); by simplify_eq|]);
      rewrite list_lookup_insert_ne in Hj by done; destruct (Hl j rj Hj Hc) as [Hlock Hf];
      (split; [rewrite Hlock, decide_False by congruence; done|done]).
Qed.

Lemma lock_run ls c c' : Forall (λ l, keeps_lock l = true) ls → lock_inv c → run ls c = Some c' → lock_inv c'.
Proof.
  intros Hls. revert c. induction Hls as [|l ls Hl _ IH]; intros c Hc Hr; [by cbn in Hr; simplify_eq|].
  cbn in Hr. apply bind_Some in Hr as (c1 & H1 & Hr). by eapply IH, Hr; eapply lock_step.
Qed.

(** The lock is what spares the replicas each other.  While no lock
    connection is lost, at most one of any number of replicas is inside its
    critical part at any moment, and a file it found missing is still missing when
    it applies it: no transaction ever fails on the primary key, so one succeeds
    whenever its script does. *)
Theorem migration_lock_excludes (n : nat) (ls : list label) (c : cluster) (i j : nat) (r r' : runner) :
  Forall (λ l, keeps_lock l = true) ls → run ls (initial n) = Some c →
  m_runners c !! i = Some r → m_runners c !! j = Some r' → critical r = true →
  (critical r' = true → i = j)
  ∧ ∀ f rest, r = Applying f rest →
      is_Some (applyOne f (m_store c)) ↔ (blank (f_body f) = true ∨ is_Some (exec_sql (f_body f) (m_schema (m_store c)))).
Proof.
  intros Hls Hrun Hi Hj Hr.
  assert (lock_inv c) as Hl.
  { eapply lock_run; [exact Hls| |exact Hrun]. intros k rk Hk Hc. cbn in Hk.
    apply lookup_replicate in Hk as [-> _]. done. }
  split.
  - intros Hr'. destruct (Hl i r Hi Hr) as [H1 _]. destruct (Hl j r' Hj Hr') as [H2 _]. congruence.
  - intros f rest ->. destruct (Hl i _ Hi Hr) as [_ Hf]. specialize (Hf f rest eq_refl). unfold applyOne.
    destruct (blank (f_body f)).
    + cbn. rewrite decide_False by done. split; [by left|by eexists].
    + destruct (exec_sql _ _) as [s|]; cbn.
      * rewrite decide_False by done. split; [by right; eexists|by eexists].
      * split; [by intros [? [=]]|by intros [[=]|[? [=]]]].
Qed.
End migrate.

(** ** Witnesses *)

(** A schema that remembers its scripts. *)
Definition demo_sql (body : jstr) (s : list jstr) : option (list jstr) :=
  if bool_decide (body = js "BROKEN") then None else Some (s ++ [body]).
Definition demo_files : list file :=
  [mkFile (js "002_add_versioning.sql") (js "CREATE SEQUENCE config_version_seq");
   mkFile (js "001_create_flags.sql") (js "CREATE TABLE feature_flags")].

(** Two replicas; the first dies after one file. *)
Definition demo_labels : list label := [Acquire 0; CreateTable 0; CheckOne 0; ApplyOne 0; Crash 0].

Lemma demo_unique : NoDup (f_name <$> demo_files).
Proof. apply (bool_decide_unpack _). vm_compute. exact I. Qed.

Lemma run_reachable {S} exec_sql fsys (schema0 : S) n ls c :
  run exec_sql fsys ls (initial schema0 n) = Some c → reachable exec_sql fsys schema0 c.
Proof.
  intros Hr. exists n. revert Hr. generalize (initial schema0 n) as c0. induction ls as [|l ls IH]; intros c0 Hr.
  - cbn in Hr. simplify_eq. apply rtc_refl.
  - cbn in Hr. apply bind_Some in Hr as (c1 & H1 & Hr). eapply rtc_l; [by exists l|by apply IH].
Qed.

Definition demo_cluster : cluster :=
  default (initial [] 0) (run demo_sql demo_files demo_labels (initial [] 2)).

Lemma demo_cluster_run : run demo_sql demo_files demo_labels (initial [] 2) = Some demo_cluster.
Proof. vm_compute. reflexivity. Qed.

Lemma migrations_run_once_witness :
  m_applied (m_store demo_cluster) = [js "001_create_flags.sql"] ∧ NoDup (m_applied (m_store demo_cluster)).
Proof.
  split; [vm_compute; reflexivity|].
  destruct (migrations_run_once demo_sql demo_files [] demo_unique demo_cluster
    (run_reachable _ _ _ _ _ _ demo_cluster_run)) as (k & _ & _ & H & _). exact H.
Defined.

Lemma migration_completes_witness :
  ∃ ls c', (length ls ≤ 7)%nat ∧ run demo_sql demo_files ls demo_cluster = Some c'
    ∧ m_applied (m_store c') = [js "001_create_flags.sql"; js "002_add_versioning.sql"].
Proof.
  destruct (migration_completes demo_sql demo_files [] demo_unique demo_cluster 1
    [js "CREATE TABLE feature_flags"; js "CREATE SEQUENCE config_version_seq"]
    (run_reachable _ _ _ _ _ _ demo_cluster_run)) as (ls & c' & _ & Hn & Hr & _ & Ha & _); [vm_compute; reflexivity..|].
  exists ls, c'. split_and!; [exact Hn|exact Hr|]. rewrite Ha. vm_compute. reflexivity.
Defined.

Definition demo_midway : cluster :=
  default (initial [] 0) (run demo_sql demo_files [Acquire 0; CreateTable 0; CheckOne 0] (initial [] 2)).

Lemma migration_lock_excludes_witness :
  ∃ f rest, m_runners demo_midway !! 0%nat = Some (Applying f rest) ∧ is_Some (applyOne demo_sql f (m_store demo_midway)).
Proof.
  eexists _, _. split; [vm_compute; reflexivity|].
  eapply (proj2 (migration_lock_excludes demo_sql demo_files [] 2 [Acquire 0; CreateTable 0; CheckOne 0] demo_midway 0 1
    _ Booting ltac:(by repeat constructor) ltac:(vm_compute; reflexivity) ltac:(vm_compute; reflexivity)
    ltac:(vm_compute; reflexivity) eq_refl)); [reflexivity|].
  right. vm_compute. by eexists.
Defined.
