(* ===== verification/Visualizer.v ===== *)
(** * The rollout visualizer

    [components/explain/RolloutVisualizer.tsx]: what the grid tells about
    [evaluate], square by square. *)
From S2P Require Import Prelude JsMap Types Hash Evaluate.

(** ** [RolloutVisualizer.tsx] *)
Module Visualizer.

Definition GRID : Z := 10.
Definition SAMPLE : list jstr := map (λ i, js "user-" ++ show (Z.of_nat i + 1)) (seq 0 100).

Inductive CellState := OnRollout | OnTargeted | Off.
#[export] Instance CellState_eq_dec : EqDecision CellState.
Proof. solve_decision. Defined.

Record Cell := mkCell { user : jstr; bucket : Z }.

(** The comparator of the sort: bucket, then name. *)
Definition cell_le (a b : Cell) : Prop :=
  bucket a < bucket b ∨ (bucket a = bucket b ∧ str_ltb (user b) (user a) = false).
#[export] Instance cell_le_dec : RelDecision cell_le.
Proof. intros a b. unfold cell_le. apply _. Defined.

Definition cells (key : jstr) : list Cell :=
  merge_sort cell_le (map (λ u, mkCell u (rolloutBucket key u)) SAMPLE).

(** The hooks' state of one mounted visualizer. *)
Record state := mkState { pct : Z; prevFlagPct : Z; selected : option jstr; focusIdx : Z }.

Definition mount (flag : EvaluableFlag) : state :=
  mkState (ef_rollout_percentage flag) (ef_rollout_percentage flag) None 0.

(** The set-state during render: follow the flag's own percentage. *)
Definition sync (flag : EvaluableFlag) (s : state) : state :=
  if ef_rollout_percentage flag =? prevFlagPct s then s
  else mkState (ef_rollout_percentage flag) (ef_rollout_percentage flag) (selected s) (focusIdx s).

Definition explored (flag : EvaluableFlag) (s : state) : EvaluableFlag := with_pct flag (pct s).

Definition stateOf (f : EvaluableFlag) (c : Cell) : CellState :=
  let t := evaluate (Some f) (user c) in
  if negb (et_on t) then Off
  else if decide (et_reason t = Targeted) then OnTargeted else OnRollout.

Definition onCount (f : EvaluableFlag) (l : list Cell) : Z :=
  Z.of_nat (length (filter (λ c, stateOf f c ≠ Off) l)).

Definition dirty (flag : EvaluableFlag) (s : state) : bool := negb (pct s =? ef_rollout_percentage flag).

Inductive key := ArrowRight | ArrowLeft | ArrowDown | ArrowUp | Home | End | OtherKey.

(** [onGridKeyDown] on a grid of [n] cells; [None] leaves the event alone. *)
Definition next_focus (k : key) (n focusIdx : Z) : option Z :=
  match k with
  | ArrowRight => Some (Z.min (focusIdx + 1) (n - 1))
  | ArrowLeft => Some (Z.max (focusIdx - 1) 0)
  | ArrowDown => Some (Z.min (focusIdx + GRID) (n - 1))
  | ArrowUp => Some (Z.max (focusIdx - GRID) 0)
  | Home => Some 0
  | End => Some (n - 1)
  | OtherKey => None
  end.

Inductive event := Drag (v : Z) | ResetPct | ClickCell (u : jstr) | FocusCell (i : Z) | KeyDown (k : key).

Definition handle (flag : EvaluableFlag) (e : event) (s : state) : state :=
  match e with
  | Drag v => mkState v (prevFlagPct s) (selected s) (focusIdx s)
  | ResetPct => mkState (ef_rollout_percentage flag) (prevFlagPct s) (selected s) (focusIdx s)
  | ClickCell u =>
      mkState (pct s) (prevFlagPct s)
        (if bool_decide (selected s = Some u) then None else Some u) (focusIdx s)
  | FocusCell i => mkState (pct s) (prevFlagPct s) (selected s) i
  | KeyDown k =>
      match next_focus k (Z.of_nat (length (cells (ef_key flag)))) (focusIdx s) with
      | Some i => mkState (pct s) (prevFlagPct s) (selected s) i
      | None => s
      end
  end.

(** One square as the markup shows it. *)
Record square := mkSquare {
  sq_state : CellState; sq_tabIndex : Z; sq_pressed : bool; sq_label : jstr; sq_title : jstr }.

Definition square_of (flag : EvaluableFlag) (highlightUser : option jstr) (s : state) (i : Z) (c : Cell) : square :=
  let st := stateOf (explored flag s) c in
  let isSel := bool_decide (selected s = Some (user c)) in
  let isHighlight := bool_decide (highlightUser = Some (user c)) in
  mkSquare st (if i =? focusIdx s then 0 else -1) isSel
    (user c ++ js ": bucket " ++ show (bucket c) ++ js ", "
     ++ (if decide (st = Off) then js "off" else js "on")
     ++ (if decide (st = OnTargeted) then js " (targeted)" else [])
     ++ (if isHighlight then js ", current user" else []))
    (user c ++ js " · bucket " ++ show (bucket c)).

(** The selected user's roll: its verdict line. *)
Definition SelectedRoll (flag : EvaluableFlag) (u : jstr) (b : Z) : jstr :=
  let t := evaluate (Some flag) u in
  js "= " ++ show b ++
  if decide (et_reason t = Targeted) then js "  → but " ++ u ++ js " is targeted → ON"
  else js "  → " ++ show b ++ js " < " ++ show (ef_rollout_percentage flag) ++ js "? "
       ++ if et_on t then js "yes → ON" else js "no → OFF".

(** The line above it: what was hashed. *)
Definition roll_formula (flag : EvaluableFlag) (u : jstr) : jstr :=
  js "fnv1a32(" ++ [34] ++ et_hashInput (evaluate (Some flag) u) ++ [34] ++ js ") % 100".

Record view := mkView {
  v_title : jstr; v_count : jstr; v_squares : list square; v_legend_current : option jstr;
  v_slider : Z; v_actual : jstr; v_reset : bool; v_roll : option (jstr * jstr) }.

Definition RolloutVisualizer (flag : EvaluableFlag) (highlightUser : option jstr) (s : state) : view :=
  let l := cells (ef_key flag) in
  mkView (show (pct s) ++ js "%")
    (show (onCount (explored flag s) l) ++ js " of " ++ show (Z.of_nat (length l)) ++ js " sample users on")
    (imap (λ i c, square_of flag highlightUser s (Z.of_nat i) c) l)
    (match highlightUser with
     | Some (c :: u) => Some (js "Current user (" ++ (c :: u) ++ js ")")
     | _ => None
     end)
    (pct s) (show (ef_rollout_percentage flag) ++ js "%") (dirty flag s)
    (match selected s with
     | Some u => match head (filter (λ c, user c = u) l) with
                 | Some c => Some (roll_formula (explored flag s) (user c),
                              SelectedRoll (explored flag s) (user c) (bucket c))
                 | None => None
                 end
     | None => None
     end).

(** ** Lemmas *)
Lemma str_ltb_total a b : str_ltb a b = false → str_ltb b a = false → a = b.
Proof.
  revert b. induction a as [|x a IH]; intros [|y b]; simpl; try done.
  intros [H1%Z.ltb_ge H2]%orb_false_iff [H3%Z.ltb_ge H4]%orb_false_iff.
  assert (x = y) as -> by lia. rewrite Z.eqb_refl in H2, H4. simpl in H2, H4. f_equal. by apply IH.
Qed.

Lemma str_ltb_trans a b c : str_ltb a b = true → str_ltb b c = true → str_ltb a c = true.
Proof.
  revert b c. induction a as [|x a IH]; intros [|y b] [|z c]; simpl; try done.
  rewrite !orb_true_iff, !andb_true_iff, !Z.ltb_lt, !Z.eqb_eq.
  intros [?|[-> ?]] [?|[-> ?]]; [left; lia | by left | by left | right; eauto].
Qed.

Lemma str_ltb_irrefl a : str_ltb a a = false.
Proof. induction a as [|x a IH]; [done|]. simpl. by rewrite IH, Z.ltb_irrefl, andb_false_r. Qed.

Lemma str_ltb_asym a b : str_ltb a b = true → str_ltb b a = false.
Proof.
  intros Hab. destruct (str_ltb b a) eqn:Hba; [|done].
  pose proof (str_ltb_trans _ _ _ Hab Hba) as Haa. by rewrite str_ltb_irrefl in Haa.
Qed.

#[export] Instance cell_le_total : Total cell_le.
Proof.
  intros a b. unfold cell_le. destruct (Z.lt_trichotomy (bucket a) (bucket b)) as [?|[?|?]]; auto.
  destruct (str_ltb (user b) (user a)) eqn:Hl; [right; right; split; [done|by apply str_ltb_asym]|auto].
Qed.

#[export] Instance cell_le_trans : Transitive cell_le.
Proof.
  intros a b c. unfold cell_le. intros [?|[? H1]] [?|[? H2]]; [left; lia|left; lia|left; lia|].
  right. split; [lia|]. destruct (str_ltb (user c) (user a)) eqn:Hca; [|done].
  destruct (str_ltb (user a) (user b)) eqn:Hab.
  - pose proof (str_ltb_trans _ _ _ Hca Hab). congruence.
  - pose proof (str_ltb_total _ _ Hab H1) as Heq. rewrite Heq in *. congruence.
Qed.

Lemma cells_perm k : cells k ≡ₚ map (λ u, mkCell u (rolloutBucket k u)) SAMPLE.
Proof. apply merge_sort_Permutation. Qed.

Lemma cells_sorted k : StronglySorted cell_le (cells k).
Proof. apply StronglySorted_merge_sort; apply _. Qed.

Lemma cells_bucket k c : c ∈ cells k → bucket c = rolloutBucket k (user c).
Proof.
  rewrite cells_perm. change (map ?f ?l) with (f <$> l).
  intros (u & -> & _)%list_elem_of_fmap. done.
Qed.

Lemma cells_length k : length (cells k) = 100%nat.
Proof. rewrite cells_perm. unfold SAMPLE. by rewrite !length_map, length_seq. Qed.

Lemma stateOf_off f c :
  ef_enabled f = true → bucket c = rolloutBucket (ef_key f) (user c) →
  includes (ef_targeted_users f) (user c) = false →
  stateOf f c = (if bucket c <? ef_rollout_percentage f then OnRollout else Off).
Proof.
  intros He Hb Ht. unfold stateOf. rewrite evaluate_decision. unfold decision.
  rewrite He, Ht, <-Hb. simpl. destruct (bucket c <? _); [|done]. simpl.
  rewrite decide_False; [done|]. unfold evaluate. rewrite He, Ht. simpl.
  repeat case_match; simpl; congruence.
Qed.

Lemma sorted_prefix (l : list Cell) p :
  StronglySorted cell_le l →
  ∃ k, filter (λ c, bucket c < p) l = take k l ∧ filter (λ c, ¬ bucket c < p) l = drop k l.
Proof.
  induction 1 as [|c l Hl [k [IH1 IH2]] Hc]; [by exists 0%nat|].
  rewrite !filter_cons. destruct (decide (bucket c < p)) as [Hlt|Hge].
  - exists (S k). rewrite decide_False by (intros Hn; by apply Hn). simpl. by rewrite IH1, IH2.
  - exists 0%nat. simpl. rewrite decide_True by done.
    assert (Forall (λ c', ¬ bucket c' < p) l) as Hall.
    { eapply Forall_impl; [exact Hc|]. unfold cell_le. simpl. lia. }
    rewrite (filter_none _ l) by done. by rewrite (filter_all _ l).
Qed.

Lemma length_filter_mono {A} (P Q : A → Prop) `{∀ x, Decision (P x), ∀ x, Decision (Q x)} (l : list A) :
  (∀ x, P x → Q x) → (length (filter P l) ≤ length (filter Q l))%nat.
Proof.
  intros HPQ. induction l as [|x l IH]; [done|]. rewrite !filter_cons.
  destruct (decide (P x)) as [Hp|]; [rewrite decide_True by auto; simpl; lia|].
  case_decide; simpl; lia.
Qed.

Lemma filter_take_lookup (l : list Cell) p i c :
  StronglySorted cell_le l → l !! i = Some c →
  (bucket c < p ↔ (i < length (filter (λ c, (bucket c < p)%Z) l))%nat).
Proof.
  intros Hl Hi. destruct (sorted_prefix l p Hl) as (k & Ht & Hd).
  pose proof (lookup_lt_Some _ _ _ Hi) as Hlen.
  rewrite Ht, length_take. split.
  - intros Hc. destruct (decide (i < k)%nat); [lia|]. exfalso.
    assert (c ∈ drop k l) as Hin.
    { apply list_elem_of_lookup. exists (i - k)%nat. rewrite lookup_drop. by replace (k + (i - k))%nat with i by lia. }
    rewrite <-Hd in Hin. by apply list_elem_of_filter in Hin as [Hn _].
  - intros Hk. assert (c ∈ take k l) as Hin.
    { apply list_elem_of_lookup. exists i. rewrite lookup_take_lt by lia. done. }
    rewrite <-Ht in Hin. by apply list_elem_of_filter in Hin as [? _].
Qed.

(** How many sample users a percentage lets in. *)
Definition fill (k : jstr) (p : Z) : nat := length (filter (λ c, bucket c < p) (cells k)).

(** The grid fills like a meter.  For an enabled flag without a targeted
    sample user the squares at any percentage are on up to a level and off from
    there, in an order that does not depend on the percentage; the level is the
    count the heading prints, and raising the percentage raises it, so squares
    flip in place and only from off to on. *)
Theorem grid_fills_like_a_meter (f : EvaluableFlag) (p p' : Z) :
  ef_enabled f = true → (∀ u, u ∈ SAMPLE → u ∉ ef_targeted_users f) → p ≤ p' →
  let l := cells (ef_key f) in
  length l = 100%nat
  ∧ (fill (ef_key f) p ≤ fill (ef_key f) p')%nat
  ∧ onCount (with_pct f p) l = Z.of_nat (fill (ef_key f) p)
  ∧ ∀ i c, l !! i = Some c →
      stateOf (with_pct f p) c = (if decide (i < fill (ef_key f) p)%nat then OnRollout else Off)
      ∧ stateOf (with_pct f p') c = (if decide (i < fill (ef_key f) p')%nat then OnRollout else Off).
Proof.
  intros He Ht Hp l.
  assert (∀ q c, c ∈ l → stateOf (with_pct f q) c = if bucket c <? q then OnRollout else Off) as Hst.
  { intros q c Hc. unfold l in Hc. apply stateOf_off; [done|by apply cells_bucket|]. simpl.
    rewrite cells_perm in Hc. change (map ?g ?x) with (g <$> x) in Hc.
    apply list_elem_of_fmap in Hc as (u & -> & Hu). apply bool_decide_eq_false. by apply Ht. }
  split_and!; [apply cells_length | | |].
  - apply length_filter_mono. lia.
  - unfold onCount, fill. fold l. do 2 f_equal. apply filter_ext_elem. intros c Hc.
    rewrite Hst by done. destruct (Z.ltb_spec (bucket c) p); split; (done || lia).
  - intros i c Hi. pose proof (list_elem_of_lookup_2 _ _ _ Hi) as Hc. rewrite !Hst by done. unfold fill.
    pose proof (filter_take_lookup l p i c (cells_sorted _) Hi) as H1.
    pose proof (filter_take_lookup l p' i c (cells_sorted _) Hi) as H2.
    fold l. split; case_decide; destruct (Z.ltb_spec (bucket c) p), (Z.ltb_spec (bucket c) p'); tauto || lia.
Qed.

(** On a disabled flag the roll of a selected user reads as false arithmetic. *)
Lemma SelectedRoll_disabled f u b :
  ef_enabled f = false →
  SelectedRoll f u b
  = js "= " ++ show b ++ js "  → " ++ show b ++ js " < " ++ show (ef_rollout_percentage f)
    ++ js "? no → OFF".
Proof. intros He. unfold SelectedRoll, evaluate. rewrite He. done. Qed.

Example disabled_roll_misreads :
  SelectedRoll (mkEvaluableFlag (js "f") false 50 []) (js "user-1") 3 = js "= 3  → 3 < 50? no → OFF".
Proof. vm_compute. reflexivity. Qed.

Definition demo : EvaluableFlag := mkEvaluableFlag (js "dark-mode") true 25 [js "alice"].

Lemma grid_fills_like_a_meter_witness :
  let l := cells (js "dark-mode") in
  length l = 100%nat
  ∧ (fill (js "dark-mode") 25 ≤ fill (js "dark-mode") 60)%nat
  ∧ onCount (with_pct demo 25) l = Z.of_nat (fill (js "dark-mode") 25)
  ∧ ∀ i c, l !! i = Some c →
      stateOf (with_pct demo 25) c = (if decide (i < fill (js "dark-mode") 25)%nat then OnRollout else Off)
      ∧ stateOf (with_pct demo 60) c = (if decide (i < fill (js "dark-mode") 60)%nat then OnRollout else Off).
Proof.
  apply (grid_fills_like_a_meter demo 25 60); [reflexivity| |lia].
  apply Forall_forall, (bool_decide_unpack _). vm_compute. exact I.
Defined.
End Visualizer.
