(* ===== verification/Why.v ===== *)
(** * The why-explainer

    [components/explain/WhyExplainer.tsx]: the three steps it narrates for a
    trace of [evaluate], with their texts. *)
From S2P Require Import Prelude JsMap Types Hash Evaluate Json.

Inductive StepStatus := Pass | Fail | Skipped.
#[export] Instance StepStatus_eq_dec : EqDecision StepStatus.
Proof. solve_decision. Defined.

Record Step := mkStep { st_label : jstr; st_detail : jstr; st_status : StepStatus }.

(** [t.hashInput.split(":").slice(1).join(":")] *)
Definition after_key (hashInput : jstr) : jstr := join (js ":") (tail (split_on 58 hashInput)).

(** The quoted string the bucket is said to hash. *)
Definition hashed_display (t : EvalTrace) (flag : EvaluableFlag) : jstr :=
  [34] ++ ef_key flag ++ js ":" ++ after_key (et_hashInput t) ++ [34].

Definition rollout_detail (t : EvalTrace) (flag : EvaluableFlag) : jstr :=
  let on := et_on t in
  js "bucket " ++ match et_bucket t with Some b => show b | None => [] end
  ++ (if on then js " < " else js " ≥ ") ++ show (et_percentage t) ++ js "% — "
  ++ (if on then js "inside the rollout, so ON." else js "outside the rollout, so OFF.")
  ++ js " The bucket is a fixed hash of " ++ hashed_display t flag
  ++ js ", so it never changes for this user.".

Definition enabled_step (flag : EvaluableFlag) : Step :=
  mkStep (js "Is the flag enabled?")
    (if ef_enabled flag then js "Yes — the flag is on globally, so evaluation continues."
     else js "No — the flag is off for everyone (a global kill switch). Nothing else matters.")
    (if ef_enabled flag then Pass else Fail).

Definition targeting_step (t : EvalTrace) (flag : EvaluableFlag) : Step :=
  let targetingReached := ef_enabled flag in
  mkStep (js "Is this user targeted?")
    (if negb targetingReached then js "Not reached — the flag is disabled."
     else if et_targeted t then
       js "Yes — this user is on the always-on allow-list, which overrides the percentage."
     else js "No — not on the allow-list, so it comes down to the rollout dice roll.")
    (if negb targetingReached then Skipped else if et_targeted t then Pass else Fail).

Definition rollout_step (t : EvalTrace) (flag : EvaluableFlag) : Step :=
  let rolloutReached := ef_enabled flag && negb (et_targeted t) in
  let '(status, detail) :=
    if negb rolloutReached then
      (Skipped, if negb (ef_enabled flag) then js "Not reached — the flag is disabled."
                else js "Not reached — targeting already decided it (ON).")
    else if decide (et_reason t = RolloutFull) then (Pass, js "Rollout is 100% — everyone is in.")
    else if decide (et_reason t = RolloutZero) then
      (Fail, js "Rollout is 0% — no one is in (via the percentage).")
    else (if et_on t then Pass else Fail, rollout_detail t flag) in
  mkStep (js "Inside the rollout percentage?") detail status.

Definition buildSteps (t : EvalTrace) (flag : EvaluableFlag) : list Step :=
  [enabled_step flag; targeting_step t flag; rollout_step t flag].

Definition REASON_COPY (r : EvalReason) : jstr :=
  match r with
  | NoFlag => js "This flag doesn't exist, so it's off."
  | Disabled => js "The flag is disabled globally."
  | Targeted => js "This user is targeted — an always-on override."
  | RolloutZero => js "Rollout is 0% and the user isn't targeted."
  | RolloutFull => js "Rollout is 100% — everyone's in."
  | InRollout => js "The user's fixed bucket falls inside the rollout."
  | OutOfRollout => js "The user's fixed bucket falls outside the rollout."
  end.

(** [ICON] and the [aria-label] beside it *)
Inductive icon := Check | Cross | Minus.
Definition ICON (s : StepStatus) : icon := match s with Pass => Check | Fail => Cross | Skipped => Minus end.
Definition step_aria (s : StepStatus) : jstr :=
  match s with Pass => js "yes" | Fail => js "no" | Skipped => js "not reached" end.

Record view := mkView {
  v_user : jstr; v_verdict : jstr; v_on : bool; v_reason : jstr;
  v_steps : list (icon * jstr * Step) }.

(** The component for the text in its input. *)
Definition WhyExplainer (flag : EvaluableFlag) (user : jstr) : view :=
  let trimmed := trim user in
  let trace := evaluate (Some flag) trimmed in
  mkView (if bool_decide (trimmed = []) then js "—" else trimmed)
    (if et_on trace then js "ON" else js "OFF") (et_on trace) (REASON_COPY (et_reason trace))
    (map (λ s, (ICON (st_status s), step_aria (st_status s), s)) (buildSteps trace flag)).

(** ** Lemmas *)

Lemma join_split c (s : jstr) : join [c] (split_on c s) = s.
Proof.
  induction s as [|x s IH]; [done|]. simpl. destruct (Z.eqb_spec x c) as [->|Hne].
  - simpl. destruct (split_on c s) as [|w ws] eqn:Hs; [by destruct s; simpl in Hs; repeat case_match|].
    rewrite IH. done.
  - destruct (split_on c s) as [|w ws]; [by rewrite <-IH|]. simpl in *.
    destruct ws; simpl in *; by rewrite IH.
Qed.

Lemma evaluate_hashInput f u : et_hashInput (evaluate (Some f) u) = ef_key f ++ js ":" ++ u.
Proof. unfold evaluate. repeat case_match; done. Qed.

Lemma hashed_display_exact f u :
  58 ∉ ef_key f → hashed_display (evaluate (Some f) u) f = [34] ++ et_hashInput (evaluate (Some f) u) ++ [34].
Proof.
  intros Hk. unfold hashed_display, after_key. rewrite evaluate_hashInput.
  change (js ":" ++ u) with (58 :: u). rewrite split_on_app by done. simpl tail.
  change (js ":") with [58]. rewrite join_split. by rewrite <-(assoc_L (++)).
Qed.

(** ** Property *)

(** The narrative is the decision.  The verdict is ON exactly when the
    steps show an enabled flag and then a pass at targeting or at the percentage;
    a step is marked not reached exactly when an earlier one decided; and when the
    dice decided, the string shown as hashed is the string [evaluate] hashed,
    for every key without a colon. *)
Theorem why_steps_tell_the_decision (f : EvaluableFlag) (u : jstr) :
  let t := evaluate (Some f) (trim u) in
  let s1 := st_status (enabled_step f) in
  let s2 := st_status (targeting_step t f) in
  let s3 := st_status (rollout_step t f) in
  v_on (WhyExplainer f u) = et_on t
  ∧ (et_on t = true ↔ s1 = Pass ∧ (s2 = Pass ∨ s3 = Pass))
  ∧ (s2 = Skipped ↔ s1 = Fail) ∧ (s3 = Skipped ↔ s1 = Fail ∨ s2 = Pass)
  ∧ (58 ∉ ef_key f → et_bucket t ≠ None →
       st_detail (rollout_step t f) = rollout_detail t f
       ∧ hashed_display t f = [34] ++ et_hashInput t ++ [34]).
Proof.
  cbn zeta. split; [done|].
  pose proof (hashed_display_exact f (trim u)) as Hh.
  unfold enabled_step, targeting_step, rollout_step. cbn [st_status st_detail].
  remember (evaluate (Some f) (trim u)) as t eqn:Ht. unfold evaluate in Ht.
  destruct (ef_enabled f); cbn [negb andb] in *.
  2: { subst t. cbn. split_and!; naive_solver. }
  destruct (includes _ _); cbn [negb andb] in *.
  { subst t. cbn. split_and!; naive_solver. }
  destruct (_ <=? 0); [subst t; cbn; split_and!; naive_solver|].
  destruct (_ >=? 100); [subst t; cbn; split_and!; naive_solver|].
  assert (et_targeted t = false ∧ et_reason t ≠ RolloutFull ∧ et_reason t ≠ RolloutZero)
    as (Htg & H1 & H2) by (subst t; destruct (_ <? _); done).
  rewrite Htg. cbn [negb]. rewrite !decide_False by done. cbn [st_status st_detail].
  destruct (et_on t); split_and!; naive_solver.
Qed.

Example why_colon_key :
  hashed_display (evaluate (Some (mkEvaluableFlag (js "a:b") true 50 [])) (js "u")) (mkEvaluableFlag (js "a:b") true 50 [])
  = [34] ++ js "a:b:b:u" ++ [34].
Proof. vm_compute. reflexivity. Qed.
