(* ===== verification/Hero.v ===== *)
(** * The propagation heroes

    [components/overview/PropagationHero.tsx] and
    [components/cluster/ClusterHero.tsx]: press a button, toggle the demo flag,
    poll every node until it reports the new version.  [runFlip] is cut at its
    awaits; the live stream, the narration timer and the render run in between.
    Times are microseconds of [performance.now()]. *)
From S2P Require Import Prelude JsMap Types Json Api Fleet.

Definition HERO_KEY : jstr := js "hero-demo".
Definition PROPAGATION_TIMEOUT : Z := 8000 * 1000.

(** [Math.round] of milliseconds *)
Definition round_ms (t : Z) : Z := (t + 500) / 1000.

(** The seeding request both heroes send when the flag is missing. *)
Definition seed_input (description : jstr) : CreateFlagInput :=
  mkCreateFlagInput HERO_KEY description false 100 [].

(** The effect that sends it runs when the list of flags changes: [seedingRef],
    the requests without an answer, and whether one has created the flag. *)
Record seeder := mkSeeder { seedingRef : bool; sd_pending : nat; sd_created : bool }.
Inductive seed_event := ListChanged (flags : option (list Flag)) | SeedSettled (ok : bool).
Definition seed_exec (e : seed_event) (s : seeder) : option seeder :=
  match e with
  | ListChanged None => Some s
  | ListChanged (Some flags) =>
      if existsb (λ f, bool_decide (fl_key f = HERO_KEY)) flags || seedingRef s then Some s
      else Some (mkSeeder true (S (sd_pending s)) (sd_created s))
  | SeedSettled ok =>
      match sd_pending s with
      | O => None
      | S n => Some (mkSeeder (if ok then seedingRef s else false) n (sd_created s || ok))
      end
  end.

Inductive seeding : seeder → Prop :=
| seeding_mounted : seeding (mkSeeder false 0 false)
| seeding_step e s s' : seeding s → seed_exec e s = Some s' → seeding s'.

(** At most one request is on its way, and none after one has succeeded: a
    hero whose flag is deleted later does not create it again. *)
Lemma seeds_once s :
  seeding s → (sd_pending s ≤ 1)%nat ∧ (sd_created s = true → sd_pending s = 0%nat)
  ∧ ((sd_pending s ≠ 0)%nat ∨ sd_created s = true → seedingRef s = true).
Proof.
  induction 1 as [|e s s' _ (H1 & H2 & H3) He]; [cbn; naive_solver lia|].
  destruct s as [ref n c], e as [[fl|]|ok]; cbn in *; [|by simplify_eq|].
  - destruct (existsb _ fl || ref) eqn:Hr; simplify_eq; [done|]. apply orb_false_iff in Hr as [_ ->].
    destruct n as [|n]; [|exfalso; naive_solver lia]. destruct c; [exfalso; naive_solver|]. cbn. naive_solver lia.
  - destruct n as [|n]; simplify_eq. assert (n = 0%nat) as -> by lia. cbn. destruct c; [naive_solver lia|].
    destruct ok; cbn; naive_solver lia.
Qed.

Inductive Phase := Idle | Running | Converged | Settled.
#[export] Instance Phase_eq_dec : EqDecision Phase.
Proof. solve_decision. Defined.
Inductive StageState := SIdle | SActive | SDone.
#[export] Instance StageState_eq_dec : EqDecision StageState.
Proof. solve_decision. Defined.

(** ** The polling both heroes share *)

(** [Math.max(data?.config_version ?? 0, ...pre.map(...))] *)
Definition pre_max (cached : option Z) (pre : list NodeState) : Z :=
  max_list (default 0 cached)
    (map (λ n, if ns_ok n then default 0 (ns_configVersion n) else 0) pre).

Definition reached (target : Z) (s : NodeState) : bool :=
  ns_ok s && match ns_configVersion s with Some v => target <=? v | None => false end.

(** The [for] over one poll: record first arrivals, and whether all are there.
    [now] is read per arrival; the loop body does not wait in between. *)
Definition record_arrivals (target t0 now : Z) (states : list NodeState) (arrival : list (jstr * Z)) : list (jstr * Z) :=
  foldl (λ a s, if reached target s && negb (map_has a (ns_url s))
                then map_set a (ns_url s) (Z.max 0 (now - t0)) else a) arrival states.
Definition all_arrived (target : Z) (states : list NodeState) : bool := forallb (reached target) states.

(** A poll's states are [fetchNode] of every URL, in order. *)
Definition poll_states (urls : list jstr) (answers : list fetched) : list NodeState :=
  zip_with fetchNode urls answers.

(** Where [runFlip] is suspended. *)
Inductive pc := AwaitPre | AwaitToggle | AwaitPoll | AwaitSleep.

Record locals := mkLocals {
  l_pc : pc; l_t0 : Z; l_target : Z; l_arrival : list (jstr * Z); l_deadline : Z }.

Definition set_pc (p : pc) (l : locals) : locals :=
  mkLocals p (l_t0 l) (l_target l) (l_arrival l) (l_deadline l).

Lemma fetchNode_url u r : ns_url (fetchNode u r) = u.
Proof. unfold fetchNode. repeat case_match; done. Qed.

Lemma poll_states_urls urls answers :
  length answers = length urls → map ns_url (poll_states urls answers) = urls.
Proof.
  unfold poll_states. revert answers. induction urls as [|u urls IH]; intros [|a answers]; try done.
  intros [= Hl]. simpl. by rewrite fetchNode_url, IH.
Qed.

Lemma record_arrivals_keeps target t0 now states a u v :
  map_get a u = Some v → map_get (record_arrivals target t0 now states a) u = Some v.
Proof.
  unfold record_arrivals. revert a. induction states as [|s states IH]; intros a Ha; [done|]. simpl.
  apply IH. destruct (reached target s && negb (map_has a (ns_url s))) eqn:E; [|done].
  boolify. rewrite map_get_set. case_decide as Hu; [|done].
  unfold map_has in *. rewrite Hu, Ha in *. done.
Qed.

(** A node that has reached the target has an arrival time after the poll. *)
Lemma record_arrivals_has target t0 now states a s :
  s ∈ states → reached target s = true →
  map_has (record_arrivals target t0 now states a) (ns_url s) = true.
Proof.
  revert a. induction states as [|s0 states IH]; intros a Hin Hr; [set_solver|].
  apply elem_of_cons in Hin as [<-|Hin]; [|by apply IH].
  unfold record_arrivals. simpl. rewrite Hr. simpl. fold (record_arrivals target t0 now states).
  destruct (map_has a (ns_url s)) eqn:Hh; simpl.
  - unfold map_has in Hh |- *. destruct (map_get a (ns_url s)) eqn:Hg; [|done].
    change (foldl _ ?a states) with (record_arrivals target t0 now states a).
    by rewrite (record_arrivals_keeps _ _ _ _ _ _ _ Hg).
  - change (foldl _ ?a states) with (record_arrivals target t0 now states a). unfold map_has.
    by rewrite (record_arrivals_keeps _ _ _ _ _ _ (Z.max 0 (now - t0))) by apply map_get_set_eq.
Qed.

(** ** [PropagationHero.tsx] *)
Module Propagation.

Definition POLL : Z := 180 * 1000.

Record NodeLite := mkNodeLite { n_url : jstr; n_id : jstr; n_arrived : bool; n_ms : option Z }.

Record hero := mkHero {
  phase : Phase; admin : StageState; postgres : StageState; redis : StageState; browser : StageState;
  nodes : list NodeLite; browserMs : option Z; targetVersion : option Z; narration : jstr;
  error : option jstr;
  (* refs *)
  running : bool; t0Ref : Z; targetRef : Z; observedRef : option Z;
  (* the suspended call and its narration timer *)
  call : option locals; redisTimer : bool }.

Definition idle_text : jstr :=
  js "Press Flip it to change hero-demo and watch the change travel across the cluster.".

Definition fresh_nodes (urls : list jstr) : list NodeLite := map (λ u, mkNodeLite u u false None) urls.

Definition mount (urls : list jstr) : hero :=
  mkHero Idle SIdle SIdle SIdle SIdle (fresh_nodes urls) None None idle_text None
    false 0 0 None None false.

Section hero.
Context (urls : list jstr).

(** Names once on mount: [states] answers [urls] in order. *)
Definition name_nodes (states : list NodeState) (h : hero) : hero :=
  mkHero (phase h) (admin h) (postgres h) (redis h) (browser h)
    (imap (λ i n, mkNodeLite (n_url n)
                    (match states !! i with Some s => ns_nodeId s | None => n_id n end)
                    (n_arrived n) (n_ms n)) (nodes h))
    (browserMs h) (targetVersion h) (narration h) (error h)
    (running h) (t0Ref h) (targetRef h) (observedRef h) (call h) (redisTimer h).

(** The stream's [flag_updated]: [key] is the key field of the data, [None]
    when absent or malformed. *)
Definition other_key (key : option jstr) : bool :=
  match key with Some (c :: k) => negb (bool_decide (c :: k = HERO_KEY)) | _ => false end.

Definition onUpdate (lastEventId : jstr) (key : option jstr) (now : Z) (h : hero) : hero :=
  if negb (running h) || bool_decide (observedRef h ≠ None) then h
  else if other_key key then h
  else match parseInt10 lastEventId with
       | None => h
       | Some version =>
           if version <? targetRef h then h
           else mkHero (phase h) (admin h) (postgres h) (redis h) SDone (nodes h)
                  (Some (Z.max 0 (now - t0Ref h))) (targetVersion h)
                  (js "Pushed here live over SSE — the change reached this browser.") (error h)
                  (running h) (t0Ref h) (targetRef h) (Some now) (call h) (redisTimer h)
       end.

(** [runFlip] up to its first await; [heroFlag] tells whether the flag is
    known. *)
Definition flip (heroFlag : bool) (h : hero) : hero :=
  if running h || negb heroFlag then h
  else mkHero Running SActive SIdle SIdle SIdle (fresh_nodes urls) None (targetVersion h)
         (js "Sending your change to the control plane…") None
         true (t0Ref h) (targetRef h) None (Some (mkLocals AwaitPre 0 0 [] 0)) (redisTimer h).

Definition set_call (l : option locals) (h : hero) : hero :=
  mkHero (phase h) (admin h) (postgres h) (redis h) (browser h) (nodes h) (browserMs h)
    (targetVersion h) (narration h) (error h) (running h) (t0Ref h) (targetRef h) (observedRef h)
    l (redisTimer h).

(** The nodes answered: the target is the next version, the clock starts. *)
Definition got_pre (cached : option Z) (pre : list NodeState) (now : Z) (h : hero) : hero :=
  let target := pre_max cached pre + 1 in
  mkHero (phase h) (admin h) (postgres h) (redis h) (browser h) (nodes h) (browserMs h)
    (Some target) (narration h) (error h) (running h) now target (observedRef h)
    (Some (mkLocals AwaitToggle now target [] 0)) (redisTimer h).

Definition failed (h : hero) : hero :=
  mkHero Idle SIdle (postgres h) (redis h) (browser h) (nodes h) (browserMs h) (targetVersion h)
    idle_text (Some (js "Couldn't reach the control plane. Is the stack running on :8080?"))
    false (t0Ref h) (targetRef h) (observedRef h) None (redisTimer h).

(** After the loop, [converged] or not. *)
Definition finish (converged : bool) (l : locals) (h : hero) : hero :=
  let arrived := Z.of_nat (length (l_arrival l)) in
  if converged then
    mkHero Converged (admin h) (postgres h) SDone (browser h) (nodes h)
      (match observedRef h with Some o => Some (Z.max 0 (o - l_t0 l)) | None => browserMs h end)
      (targetVersion h)
      (js "Converged — every server agrees on the new version, and you saw it live.") (error h)
      false (t0Ref h) (targetRef h) (observedRef h) None false
  else
    mkHero Settled (admin h) (postgres h) SDone (browser h) (nodes h) (browserMs h) (targetVersion h)
      (js "Still propagating — " ++ show arrived ++ js " of " ++ show (count urls)
       ++ js " servers caught up so far. A lagging node catches up on its own.") (error h)
      false (t0Ref h) (targetRef h) (observedRef h) None false.

(** [while (performance.now() < deadline)] *)
Definition loop_test (now : Z) (l : locals) (h : hero) : hero :=
  if now <? l_deadline l then set_call (Some (set_pc AwaitPoll l)) h else finish false l h.

(** The toggle succeeded: the narration timer is set and polling starts. *)
Definition toggled (now : Z) (l : locals) (h : hero) : hero :=
  let h := mkHero (phase h) SDone SDone (redis h) (browser h) (nodes h) (browserMs h) (targetVersion h)
             (js "Saved first — written to Postgres, the source of truth. It's now v"
              ++ show (l_target l) ++ js ".") (error h)
             (running h) (t0Ref h) (targetRef h) (observedRef h) (call h) true in
  loop_test now (mkLocals AwaitPoll (l_t0 l) (l_target l) [] (now + PROPAGATION_TIMEOUT)) h.

Definition redis_timer (h : hero) : hero :=
  mkHero (phase h) (admin h) (postgres h) SDone (browser h) (nodes h) (browserMs h) (targetVersion h)
    (js "Announced — Redis fans the change out to every server.") (error h)
    (running h) (t0Ref h) (targetRef h) (observedRef h) (call h) false.

Definition polled (states : list NodeState) (now : Z) (l : locals) (h : hero) : hero :=
  let arrival := record_arrivals (l_target l) (l_t0 l) now states (l_arrival l) in
  let l := mkLocals (l_pc l) (l_t0 l) (l_target l) arrival (l_deadline l) in
  let arrivedCount := Z.of_nat (length arrival) in
  let h := mkHero (phase h) (admin h) (postgres h) (redis h) (browser h)
             (map (λ s, mkNodeLite (ns_url s) (ns_nodeId s) (map_has arrival (ns_url s))
                          (map_get arrival (ns_url s))) states)
             (browserMs h) (targetVersion h)
             (if (arrivedCount >? 0) && (arrivedCount <? count urls) then
                js "Servers catching up — " ++ show arrivedCount ++ js " of " ++ show (count urls)
                ++ js " now on v" ++ show (l_target l) ++ js "."
              else narration h) (error h)
             (running h) (t0Ref h) (targetRef h) (observedRef h) (call h) (redisTimer h) in
  if all_arrived (l_target l) states && bool_decide (observedRef h ≠ None) then finish true l h
  else set_call (Some (set_pc AwaitSleep l)) h.

Inductive label :=
| LNames (states : list NodeState)
| LFlip (heroFlag : bool)
| LPre (cached : option Z) (pre : list NodeState) (now : Z)
| LToggled (now : Z) | LToggleFailed
| LPolled (answers : list fetched) (now : Z)
| LSlept (now : Z)
| LRedis
| LEvent (lastEventId : jstr) (key : option jstr) (now : Z).

Definition exec (e : label) (h : hero) : option hero :=
  match e with
  | LNames states => Some (name_nodes states h)
  | LFlip heroFlag => Some (flip heroFlag h)
  | LEvent id key now => Some (onUpdate id key now h)
  | LRedis => if redisTimer h then Some (redis_timer h) else None
  | _ =>
      match call h with
      | None => None
      | Some l =>
          match l_pc l, e with
          | AwaitPre, LPre cached pre now => Some (got_pre cached pre now h)
          | AwaitToggle, LToggled now => Some (toggled now l h)
          | AwaitToggle, LToggleFailed => Some (failed h)
          | AwaitPoll, LPolled answers now =>
              if decide (length answers = length urls) then Some (polled (poll_states urls answers) now l h)
              else None
          | AwaitSleep, LSlept now => Some (loop_test now l h)
          | _, _ => None
          end
      end
  end.

Inductive reachable : hero → Prop :=
| reach_mount : reachable (mount urls)
| reach_step h e h' : reachable h → exec e h = Some h' → reachable h'.

(** ** Render *)
Record stage := mkStage { st_label : jstr; st_sub : jstr; st_state : StageState }.
Definition NodeChip (n : NodeLite) : jstr * bool * option jstr :=
  (n_id n, n_arrived n,
   if n_arrived n then (λ t, show (round_ms t) ++ js " ms") <$> n_ms n else None).

Record view := mkView {
  v_flip_disabled : bool; v_replay : bool; v_stages : list stage; v_connectors : list bool;
  v_chips : list (jstr * bool * option jstr); v_narration : jstr; v_badge : option (tone * jstr);
  v_error : option jstr }.

Definition arrivedCount (h : hero) : Z := count (filter (λ n, n_arrived n = true) (nodes h)).

Definition badge (h : hero) : option (tone * jstr) :=
  match targetVersion h with
  | None => None
  | Some target =>
      match phase h with
      | Converged =>
          Some (Success, js "Converged at v" ++ show target ++
            match browserMs h with Some t => js " · " ++ show (round_ms t) ++ js " ms" | None => [] end)
      | Settled =>
          Some (Warning, show (arrivedCount h) ++ js "/" ++ show (count urls) ++ js " on v" ++ show target)
      | _ => None
      end
  end.

Definition render (heroFlag : bool) (h : hero) : view :=
  let running := bool_decide (phase h = Running) in
  mkView (running || negb heroFlag) (bool_decide (phase h = Converged) || bool_decide (phase h = Settled))
    [mkStage (js "You") (js "admin change") (admin h);
     mkStage (js "Postgres") (js "source of truth") (postgres h);
     mkStage (js "Redis") (js "the messenger") (redis h);
     mkStage (js "This browser")
       (match browserMs h with Some t => show (round_ms t) ++ js " ms" | None => js "pushed live" end)
       (browser h)]
    [bool_decide (admin h = SDone); bool_decide (postgres h = SDone);
     bool_decide (redis h = SDone) && (arrivedCount h >? 0); bool_decide (browser h = SDone)]
    (map NodeChip (nodes h)) (narration h) (badge h)
    (match error h with Some [] => None | e => e end).

(** ** What the hero may claim *)
Definition polling (l : locals) : bool :=
  match l_pc l with AwaitPoll | AwaitSleep => true | _ => false end.

Definition targeted (l : locals) : bool := match l_pc l with AwaitPre => false | _ => true end.

Definition all_green (h : hero) : Prop :=
  map n_url (nodes h) = urls ∧ Forall (λ n, n_arrived n = true) (nodes h)
  ∧ browser h = SDone ∧ targetVersion h ≠ None.

Record inv (h : hero) : Prop := {
  inv_run : running h = match call h with Some _ => true | None => false end;
  inv_phase : phase h = Running ↔ running h = true;
  inv_timer : redisTimer h = true → ∃ l, call h = Some l ∧ polling l = true;
  inv_browser : browser h = SDone ↔ observedRef h ≠ None;
  inv_target : ∀ l, call h = Some l → targeted l = true → targetVersion h ≠ None;
  inv_conv : phase h = Converged → all_green h }.

(** A state in the middle of a run. *)
Lemma inv_running h l :
  running h = true → call h = Some l → phase h = Running →
  (redisTimer h = true → polling l = true) → (browser h = SDone ↔ observedRef h ≠ None) →
  (targeted l = true → targetVersion h ≠ None) → inv h.
Proof.
  intros Hr Hc Hp Ht Hb Hv. split; rewrite ?Hr, ?Hc, ?Hp; try done.
  - intros Hrt. exists l. auto.
  - intros l' [= <-]. done.
Qed.

(** A state between two runs. *)
Lemma inv_stopped h :
  running h = false → call h = None → phase h ≠ Running → redisTimer h = false →
  (browser h = SDone ↔ observedRef h ≠ None) → (phase h = Converged → all_green h) → inv h.
Proof. intros Hr Hc Hp Ht Hb Hv. split; rewrite ?Hr, ?Hc, ?Ht; done. Qed.

Lemma inv_loop_test now l h :
  running h = true → phase h = Running → (browser h = SDone ↔ observedRef h ≠ None) →
  targetVersion h ≠ None → inv (loop_test now l h).
Proof.
  intros Hr Hp Hb Ht. unfold loop_test. destruct (now <? l_deadline l).
  - by apply (inv_running _ (set_pc AwaitPoll l)).
  - by apply inv_stopped.
Qed.

Lemma inv_polled answers now l h :
  length answers = length urls → inv h → call h = Some l → polling l = true →
  inv (polled (poll_states urls answers) now l h).
Proof.
  intros Hlen [Hrun Hph _ Hb Htg _] Hc Hp. rewrite Hc in Hrun.
  assert (targetVersion h ≠ None) as Ht.
  { apply (Htg l Hc). unfold polling, targeted in *. by destruct (l_pc l). }
  unfold polled. set (states := poll_states urls answers). set (arrival := record_arrivals _ _ _ _ _).
  assert (phase h = Running) as Hphase by (by apply Hph).
  cbn zeta. cbn [l_target observedRef].
  destruct (all_arrived (l_target l) states && bool_decide (observedRef h ≠ None)) eqn:Hcond.
  2: by (eapply inv_running; [exact Hrun | reflexivity | exact Hphase | done..]).
  apply andb_true_iff in Hcond as [Ha Ho%bool_decide_eq_true]. apply inv_stopped; try done.
  intros _. unfold all_green. simpl. split_and!; [| |by apply Hb|done].
  - rewrite map_map. simpl. by apply poll_states_urls.
  - apply Forall_forall. intros n Hn. change (map ?f ?l) with (f <$> l) in Hn.
    apply list_elem_of_fmap in Hn as (s & -> & Hs). simpl. apply record_arrivals_has; [done|].
    unfold all_arrived in Ha. rewrite forallb_forall in Ha. apply Ha. by apply list_elem_of_In.
Qed.

Lemma named_nodes (states : list NodeState) i (l : list NodeLite) :
  let l' := imap (λ j n, mkNodeLite (n_url n)
                    (match states !! (i + j)%nat with Some s => ns_nodeId s | None => n_id n end)
                    (n_arrived n) (n_ms n)) l in
  map n_url l' = map n_url l ∧ (Forall (λ n, n_arrived n = true) l → Forall (λ n, n_arrived n = true) l').
Proof.
  revert i. induction l as [|n l IH]; intros i; [done|]. cbn zeta. rewrite imap_cons. simpl.
  destruct (IH (S i)) as [IH1 IH2]. split.
  - f_equal. rewrite <-IH1. f_equal. apply imap_ext. intros j x _. simpl. by rewrite Nat.add_succ_r.
  - intros [Hn Hl]%Forall_cons. constructor; [done|]. specialize (IH2 Hl).
    erewrite imap_ext; [exact IH2|]. intros j x _. simpl. by rewrite Nat.add_succ_r.
Qed.

Lemma inv_names states h : inv h → inv (name_nodes states h).
Proof.
  intros [Hr Hp Ht Hb Htg Hc]. split; try done. simpl. intros Hphase.
  destruct (Hc Hphase) as (Hu & Hn & ? & ?). destruct (named_nodes states 0 (nodes h)) as [H1 H2].
  unfold all_green. simpl. split_and!; [by rewrite <-Hu|by apply H2|done|done].
Qed.

Lemma inv_exec e h h' : inv h → exec e h = Some h' → inv h'.
Proof.
  intros Hi He. destruct e as [st|hf|c pre now|now| |st now|now| |id k now]; simpl in He.
  - simplify_eq. by apply inv_names.
  - simplify_eq. unfold flip. destruct (running h || negb hf) eqn:Hg; [done|]. boolify.
    destruct Hi as [Hr _ Ht _ _ _]. eapply inv_running; try done. simpl. intros Hrt.
    destruct (Ht Hrt) as (l & Hc & _). rewrite Hc in Hr. congruence.
  - destruct (call h) as [l|] eqn:Hc; [|done]. destruct (l_pc l) eqn:Hl; simplify_eq.
    destruct Hi as [Hr Hp Ht Hb _ _]. rewrite Hc in Hr. eapply inv_running; try done; simpl.
    + by apply Hp.
    + intros Hrt. destruct (Ht Hrt) as (l' & Hc' & Hpl). rewrite Hc in Hc'. simplify_eq.
      unfold polling in Hpl. by rewrite Hl in Hpl.
  - destruct (call h) as [l|] eqn:Hc; [|done]. destruct (l_pc l) eqn:Hl; simplify_eq.
    destruct Hi as [Hr Hp _ Hb Htg _]. rewrite Hc in Hr.
    apply inv_loop_test; try done; simpl; [by apply Hp|].
    apply (Htg l Hc). unfold targeted. by rewrite Hl.
  - destruct (call h) as [l|] eqn:Hc; [|done]. destruct (l_pc l) eqn:Hl; simplify_eq.
    destruct Hi as [Hr Hp Ht Hb _ _]. apply inv_stopped; try done. simpl.
    destruct (redisTimer h); [|done]. destruct (Ht eq_refl) as (l' & Hl' & Hpl).
    rewrite Hc in Hl'. simplify_eq. unfold polling in Hpl. by rewrite Hl in Hpl.
  - destruct (call h) as [l|] eqn:Hc; [|done]. destruct (l_pc l) eqn:Hl; try done.
    case_decide; simplify_eq. apply inv_polled; try done. unfold polling. by rewrite Hl.
  - destruct (call h) as [l|] eqn:Hc; [|done]. destruct (l_pc l) eqn:Hl; simplify_eq.
    destruct Hi as [Hr Hp _ Hb Htg _]. rewrite Hc in Hr. apply inv_loop_test; try done; [by apply Hp|].
    apply (Htg l Hc). unfold targeted. by rewrite Hl.
  - destruct (redisTimer h) eqn:Hrt; simplify_eq. destruct Hi as [Hr Hp Ht Hb Htg _].
    destruct (Ht Hrt) as (l & Hc & Hpl). rewrite Hc in Hr. apply (inv_running _ l); try done; simpl.
    + by apply Hp.
    + by apply Htg.
  - simplify_eq. unfold onUpdate. destruct (negb (running h) || _) eqn:Hg; [done|]. boolify.
    destruct (other_key k); [done|]. destruct (parseInt10 id) as [v|]; [|done].
    destruct (v <? targetRef h); [done|]. destruct Hi as [Hr Hp Ht Hb Htg Hc].
    destruct (call h) as [l|] eqn:Hcall; [|congruence]. apply (inv_running _ l); simpl; try done.
    + by apply Hp.
    + intros Hrt. destruct (Ht Hrt) as (l' & Hl' & ?). by simplify_eq.
    + by apply Htg.
Qed.

Lemma inv_reachable h : reachable h → inv h.
Proof.
  induction 1 as [|h e h' _ IH He]; [|by eapply inv_exec]. by apply inv_stopped.
Qed.


(** ** The wait is bounded *)

(** A run from its toggle on: the clock of the last step, and the polls made. *)
Inductive timed : Z → nat → hero → Prop :=
| timed_toggle now l h :
    call h = Some l → l_pc l = AwaitToggle → timed now 0 (toggled now l h)
| timed_poll t k h answers now h' :
    timed t k h → t ≤ now → exec (LPolled answers now) h = Some h' → timed now (S k) h'
| timed_sleep t k h now h' :
    timed t k h → t + POLL ≤ now → exec (LSlept now) h = Some h' → timed now k h'
| timed_names t k h st : timed t k h → timed t k (name_nodes st h)
| timed_click t k h hf : timed t k h → running h = true → timed t k (flip hf h)
| timed_redis t k h h' : timed t k h → exec LRedis h = Some h' → timed t k h'
| timed_event t k h id key now : timed t k h → timed t k (onUpdate id key now h).

(** Where the clock stands in a run begun at [start]. *)
Definition on_time (start t : Z) (k : nat) (c : option locals) : Prop :=
  (k ≤ 45)%nat ∧
  match c with
  | None => True
  | Some l =>
      l_deadline l = start + PROPAGATION_TIMEOUT ∧
      match l_pc l with
      | AwaitPoll => start + Z.of_nat k * POLL ≤ t < l_deadline l
      | AwaitSleep => start + (Z.of_nat k - 1) * POLL ≤ t
      | _ => False
      end
  end.

Lemma call_loop_test now l h :
  call (loop_test now l h) = if now <? l_deadline l then Some (set_pc AwaitPoll l) else None.
Proof. unfold loop_test. by destruct (now <? l_deadline l). Qed.

Lemma call_polled states now l h :
  call (polled states now l h) = None ∨
  ∃ l', call (polled states now l h) = Some l' ∧ l_pc l' = AwaitSleep ∧ l_deadline l' = l_deadline l.
Proof.
  unfold polled. cbn zeta. match goal with |- context [if ?b then finish _ _ _ else _] => destruct b end;
    [left; done|right; eexists; done].
Qed.

Lemma call_onUpdate id key now h : call (onUpdate id key now h) = call h.
Proof. unfold onUpdate. repeat case_match; done. Qed.

Lemma timed_on_time t k h : timed t k h → ∃ start, on_time start t k (call h).
Proof.
  unfold POLL, PROPAGATION_TIMEOUT, on_time.
  induction 1 as [now l h Hc Hl|t k h answers now h' _ [s [Hk IH]] Ht He|t k h now h' _ [s [Hk IH]] Ht He
    |t k h st _ IH|t k h hf _ IH Hr|t k h h' _ IH He|t k h id key now _ IH]; simpl in *.
  - exists now. unfold toggled. rewrite call_loop_test. simpl. split; [lia|].
    unfold PROPAGATION_TIMEOUT. destruct (_ <? _) eqn:E; [|done]. simpl. split; [done|lia].
  - destruct (call h) as [l|]; [|done]. destruct (l_pc l) eqn:Hl; try done. case_decide; simplify_eq.
    unfold POLL, PROPAGATION_TIMEOUT in *.
    exists s. split; [lia|]. destruct (call_polled (poll_states urls answers) now l h) as [->|(l' & -> & -> & ->)];
      [done|]. lia.
  - destruct (call h) as [l|]; [|done]. destruct (l_pc l) eqn:Hl; simplify_eq.
    exists s. rewrite call_loop_test. split; [done|].
    unfold POLL, PROPAGATION_TIMEOUT in *. destruct (Z.ltb_spec now (l_deadline l)); [|done]. simpl. lia.
  - exact IH.
  - unfold flip. rewrite Hr. exact IH.
  - destruct (redisTimer h); [|done]. simplify_eq. exact IH.
  - by rewrite call_onUpdate.
Qed.

(** The wait is bounded.  Polling every 180 ms against an eight second
    deadline, a run asks the servers at most 45 times, whatever they answer and
    however slow they are; between the polls it is never stuck, and the sleep
    that ends past the deadline leaves the hero settled and ready for the next
    click. *)
Theorem hero_wait_is_bounded t k h :
  timed t k h →
  (k ≤ 45)%nat ∧
  ∀ l, call h = Some l →
    match l_pc l with
    | AwaitPoll => ∀ answers now, length answers = length urls →
        is_Some (exec (LPolled answers now) h)
    | AwaitSleep => ∀ now, ∃ h', exec (LSlept now) h = Some h' ∧
        (k = 45%nat → t + POLL ≤ now → call h' = None ∧ running h' = false ∧ phase h' = Settled)
    | _ => False
    end.
Proof.
  intros [s [Hk Ht]]%timed_on_time. split; [done|]. intros l Hl. rewrite Hl in Ht.
  unfold POLL, PROPAGATION_TIMEOUT in *. simpl. rewrite Hl.
  destruct (l_pc l) eqn:Hpc; try (by destruct Ht).
  - intros answers now Hlen. rewrite decide_True by done. eauto.
  - intros now. eexists. split; [done|]. intros -> Hnow. unfold loop_test.
    unfold PROPAGATION_TIMEOUT in *. destruct (Z.ltb_spec now (l_deadline l)); [|done]. lia.
Qed.
End hero.

(** ** A run of two servers, one of them slow *)
Fixpoint execs (urls : list jstr) (es : list label) (h : hero) : option hero :=
  match es with
  | [] => Some h
  | e :: es => exec urls e h ≫= execs urls es
  end.

Lemma reachable_execs urls es h h' :
  reachable urls h → execs urls es h = Some h' → reachable urls h'.
Proof.
  revert h. induction es as [|e es IH]; intros h Hr He; simpl in He; [by simplify_eq|].
  destruct (exec urls e h) as [h1|] eqn:E; [|done]. simpl in He.
  eapply IH; [|exact He]. by eapply reach_step.
Qed.

Definition two : list jstr := [js "http://n1:8080"; js "http://n2:8080"].
Definition answers (v1 v2 : Z) : list fetched :=
  map (λ v, Fetched (mkHttpResponse 200 (js "OK") [] [] (Some (JObj [(js "config_version", JNum v)])))) [v1; v2].

Definition a_run : list label :=
  [LFlip true; LPre (Some 6) (poll_states two (answers 6 6)) 1000; LToggled 25000;
   LPolled (answers 7 6) 60000; LEvent (js "7") (Some HERO_KEY) 70000; LRedis; LSlept 240000;
   LPolled (answers 7 7) 260000].

Definition after (n : nat) : hero := default (mount two) (execs two (take n a_run) (mount two)).


Lemma timed_after_poll : timed two 60000 1 (after 4).
Proof.
  apply (timed_poll two 25000 0 (after 3) (answers 7 6)); [|lia|by vm_compute].
  change (after 3) with (toggled two 25000 (mkLocals AwaitToggle 1000 7 [] 0) (after 2)).
  by apply timed_toggle; vm_compute.
Qed.

Lemma hero_wait_is_bounded_witness :
  timed two 60000 1 (after 4) ∧ (1 ≤ 45)%nat ∧
  ∀ l, call (after 4) = Some l →
    match l_pc l with
    | AwaitPoll => ∀ a now, length a = length two → is_Some (exec two (LPolled a now) (after 4))
    | AwaitSleep => ∀ now, ∃ h', exec two (LSlept now) (after 4) = Some h' ∧
        (1%nat = 45%nat → 60000 + POLL ≤ now → call h' = None ∧ running h' = false ∧ phase h' = Settled)
    | _ => False
    end.
Proof. split; [apply timed_after_poll|]. apply (hero_wait_is_bounded two 60000 1 (after 4) timed_after_poll). Defined.
End Propagation.

(** ** [ClusterHero.tsx] *)
Module Cluster.

Definition POLL : Z := 160 * 1000.

Record NodeRow := mkNodeRow {
  n_url : jstr; n_id : jstr; n_pre : option Z; n_cur : option Z; n_arrived : bool; n_ms : option Z }.

Record hero := mkHero {
  phase : Phase; source : StageState; nodes : list NodeRow; target : option Z; narration : jstr;
  error : option jstr; running : bool; call : option locals }.

Definition idle_text : jstr :=
  js "Press Flip it to change hero-demo and watch all three servers converge.".

Definition initialNodes (urls : list jstr) : list NodeRow :=
  map (λ u, mkNodeRow u u None None false None) urls.
Definition mount (urls : list jstr) : hero :=
  mkHero Idle SIdle (initialNodes urls) None idle_text None false None.

(** [a ?? b] *)
Definition orelse {A} (a b : option A) : option A := match a with Some x => Some x | None => b end.

Section hero.
Context (urls : list jstr).

Definition name_nodes (states : list NodeState) (h : hero) : hero :=
  mkHero (phase h) (source h)
    (imap (λ i n, let s := states !! i in
             mkNodeRow (n_url n) (match s with Some s => ns_nodeId s | None => n_id n end)
               (n_pre n) (orelse (s ≫= ns_configVersion) (n_cur n)) (n_arrived n) (n_ms n)) (nodes h))
    (target h) (narration h) (error h) (running h) (call h).

Definition flip (heroFlag : bool) (h : hero) : hero :=
  if running h || negb heroFlag then h
  else mkHero Running SActive (nodes h) None (narration h) None true (Some (mkLocals AwaitPre 0 0 [] 0)).

Definition got_pre (cached : option Z) (pre : list NodeState) (now : Z) (h : hero) : hero :=
  let tgt := pre_max cached pre + 1 in
  mkHero (phase h) (source h)
    (imap (λ i u, let s := pre !! i in
             mkNodeRow u (match s with Some s => ns_nodeId s | None => u end)
               (s ≫= ns_configVersion) (s ≫= ns_configVersion) false None) urls)
    (Some tgt) (js "Saving your change to Postgres, then announcing it on Redis…") (error h)
    (running h) (Some (mkLocals AwaitToggle now tgt [] 0)).

Definition failed (h : hero) : hero :=
  mkHero Idle SIdle (nodes h) (target h) idle_text
    (Some (js "Couldn't reach the control plane. Is the stack running on :8080?")) false None.

Definition finish (converged : bool) (l : locals) (h : hero) : hero :=
  if converged then
    mkHero Converged (source h) (nodes h) (target h)
      (js "Converged — all three servers now agree on the new version.") (error h) false None
  else
    mkHero Settled (source h) (nodes h) (target h)
      (js "Still catching up — " ++ show (Z.of_nat (length (l_arrival l))) ++ js " of " ++ show (count urls)
       ++ js " on v" ++ show (l_target l) ++ js ". A lagging node reconciles on its own.")
      (error h) false None.

Definition set_call (l : option locals) (h : hero) : hero :=
  mkHero (phase h) (source h) (nodes h) (target h) (narration h) (error h) (running h) l.

Definition loop_test (now : Z) (l : locals) (h : hero) : hero :=
  if now <? l_deadline l then set_call (Some (set_pc AwaitPoll l)) h else finish false l h.

Definition toggled (now : Z) (l : locals) (h : hero) : hero :=
  loop_test now (mkLocals AwaitPoll (l_t0 l) (l_target l) [] (now + PROPAGATION_TIMEOUT))
    (mkHero (phase h) SDone (nodes h) (target h) (narration h) (error h) (running h) (call h)).

(** The row update of one poll: [states.find((x) => x.url === n.url)]. *)
Definition update_row (states : list NodeState) (arrival : list (jstr * Z)) (n : NodeRow) : NodeRow :=
  let s := head (filter (λ s, ns_url s = n_url n) states) in
  mkNodeRow (n_url n) (match s with Some s => ns_nodeId s | None => n_id n end) (n_pre n)
    (orelse (s ≫= ns_configVersion) (n_cur n)) (map_has arrival (n_url n))
    (orelse (map_get arrival (n_url n)) (n_ms n)).

Definition polled (states : list NodeState) (now : Z) (l : locals) (h : hero) : hero :=
  let arrival := record_arrivals (l_target l) (l_t0 l) now states (l_arrival l) in
  let l := mkLocals (l_pc l) (l_t0 l) (l_target l) arrival (l_deadline l) in
  let arrivedCount := Z.of_nat (length arrival) in
  let h := mkHero (phase h) (source h) (map (update_row states arrival) (nodes h)) (target h)
             (if (arrivedCount >? 0) && (arrivedCount <? count urls) then
                js "Diverged — " ++ show arrivedCount ++ js " of " ++ show (count urls)
                ++ js " servers on v" ++ show (l_target l) ++ js ", the rest catching up."
              else narration h) (error h) (running h) (call h) in
  if all_arrived (l_target l) states then finish true l h
  else set_call (Some (set_pc AwaitSleep l)) h.

Inductive label :=
| LNames (states : list NodeState)
| LFlip (heroFlag : bool)
| LPre (cached : option Z) (pre : list NodeState) (now : Z)
| LToggled (now : Z) | LToggleFailed
| LPolled (answers : list fetched) (now : Z)
| LSlept (now : Z).

Definition exec (e : label) (h : hero) : option hero :=
  match e with
  | LNames states => Some (name_nodes states h)
  | LFlip heroFlag => Some (flip heroFlag h)
  | _ =>
      match call h with
      | None => None
      | Some l =>
          match l_pc l, e with
          | AwaitPre, LPre cached pre now => Some (got_pre cached pre now h)
          | AwaitToggle, LToggled now => Some (toggled now l h)
          | AwaitToggle, LToggleFailed => Some (failed h)
          | AwaitPoll, LPolled answers now =>
              if decide (length answers = length urls) then Some (polled (poll_states urls answers) now l h)
              else None
          | AwaitSleep, LSlept now => Some (loop_test now l h)
          | _, _ => None
          end
      end
  end.

(** ** Render *)
Definition arrivedCount (h : hero) : Z := count (filter (λ n, n_arrived n = true) (nodes h)).
Definition diverged (h : hero) : bool :=
  bool_decide (phase h = Running) && (arrivedCount h >? 0) && (arrivedCount h <? count urls).

Record card := mkCard {
  c_id : jstr; c_tone : tone; c_ms : option jstr; c_transition : option (jstr * jstr); c_version : jstr }.

Definition NodeCard (n : NodeRow) (target : option Z) : card :=
  let behind := match target with Some _ => negb (n_arrived n) | None => false end in
  mkCard (n_id n)
    (if n_arrived n then Success else if behind then Warning else Muted)
    (if n_arrived n then (λ t, show (round_ms t) ++ js " ms") <$> n_ms n else None)
    (match target, n_pre n with
     | Some t, Some p => if n_arrived n then None else Some (ver p, ver t ++ js "?")
     | _, _ => None
     end)
    (match n_cur n with Some v => ver v | None => dash end).

Record view := mkView {
  v_flip_disabled : bool; v_replay : bool; v_source : list (jstr * bool); v_cards : list card;
  v_narration : jstr; v_badge : option (tone * jstr); v_error : option jstr }.

Definition badge (h : hero) : option (tone * jstr) :=
  match target h with
  | None => None
  | Some t =>
      if decide (phase h = Converged) then Some (Success, js "Converged at v" ++ show t)
      else if bool_decide (phase h = Settled) || diverged h then
        Some (Warning, js "Diverged · " ++ show (arrivedCount h) ++ js "/" ++ show (count urls)
                       ++ js " on v" ++ show t)
      else None
  end.

Definition render (heroFlag : bool) (h : hero) : view :=
  mkView (bool_decide (phase h = Running) || negb heroFlag)
    (bool_decide (phase h = Converged) || bool_decide (phase h = Settled))
    [(js "You", negb (bool_decide (source h = SIdle))); (js "Postgres", bool_decide (source h = SDone));
     (js "Redis", bool_decide (source h = SDone))]
    (map (λ n, NodeCard n (target h)) (nodes h)) (narration h) (badge h)
    (match error h with Some [] => None | e => e end).

(** ** What the cards may claim *)
Inductive reachable : hero → Prop :=
| reach_mount : reachable (mount urls)
| reach_step h e h' : reachable h → exec e h = Some h' → reachable h'.

Record inv (h : hero) : Prop := {
  inv_run : running h = match call h with Some _ => true | None => false end;
  inv_phase : phase h = Running ↔ running h = true;
  inv_urls : map n_url (nodes h) = urls;
  inv_target : ∀ l, call h = Some l → l_pc l ≠ AwaitPre → target h = Some (l_target l) }.

Lemma imap_urls {A} (f : nat → A → NodeRow) (g : A → jstr) (l : list A) :
  (∀ i x, n_url (f i x) = g x) → map n_url (imap f l) = map g l.
Proof.
  revert f. induction l as [|x l IH]; intros f Hf; [done|]. rewrite imap_cons. simpl.
  rewrite Hf. f_equal. apply (IH (f ∘ S)). intros i y. apply Hf.
Qed.

Lemma cluster_inv_loop_test now l h :
  inv h → call h ≠ None → target h = Some (l_target l) → inv (loop_test now l h).
Proof.
  intros [Hr Hp Hu Ht] Hc Htg. destruct (call h) as [l0|] eqn:Hcall; [|done].
  unfold loop_test. destruct (now <? l_deadline l); split; simpl; try done.
  intros l' [= <-] _. exact Htg.
Qed.

Lemma cluster_inv_polled answers now l h :
  inv h → call h = Some l → l_pc l ≠ AwaitPre → inv (polled (poll_states urls answers) now l h).
Proof.
  intros [Hr Hp Hu Ht] Hc Hl. pose proof (Ht l Hc Hl) as Htg. rewrite Hc in Hr. unfold polled. cbn zeta.
  assert (map n_url (map (update_row (poll_states urls answers)
    (record_arrivals (l_target l) (l_t0 l) now (poll_states urls answers) (l_arrival l))) (nodes h)) = urls) as Hm
    by (rewrite map_map; exact Hu).
  destruct (all_arrived _ _); split; simpl; try done. intros l' [= <-] _. exact Htg.
Qed.

Lemma cluster_inv_exec e h h' : inv h → exec e h = Some h' → inv h'.
Proof.
  intros Hi He. pose proof Hi as [Hr Hp Hu Ht]. destruct e as [st|hf|c pre now|now| |a now|now]; simpl in He.
  1: { simplify_eq. split; try done. simpl. rewrite <-Hu. by apply imap_urls. }
  1: { simplify_eq. unfold flip. destruct (running h || negb hf) eqn:Hg; [done|]. split; try done.
       simpl. by intros l [= <-]. }
  all: destruct (call h) as [l|] eqn:Hc; [|done]; destruct (l_pc l) eqn:Hl; simplify_eq.
  - split; try done; simpl; [|by intros l' [= <-]]. rewrite (imap_urls _ (λ u, u)) by done. apply map_id.
  - apply cluster_inv_loop_test; simpl; [|by rewrite Hc|apply (Ht l eq_refl); by rewrite Hl].
    split; simpl; rewrite ?Hc; done.
  - split; done.
  - case_decide; simplify_eq. apply cluster_inv_polled; try done. by rewrite Hl.
  - apply cluster_inv_loop_test; try done; [by rewrite Hc|]. apply (Ht l eq_refl). by rewrite Hl.
Qed.

Lemma cluster_inv_reachable h : reachable h → inv h.
Proof. induction 1 as [|h e h' _ IH He]; [|by eapply cluster_inv_exec]. split; try done. simpl.
  unfold initialNodes. rewrite map_map. apply map_id. Qed.

(** Converged is entered by a poll that found every server there. *)
Lemma enters_converged e h h' :
  exec e h = Some h' → phase h ≠ Converged → phase h' = Converged →
  ∃ l answers now, e = LPolled answers now ∧ call h = Some l ∧ l_pc l = AwaitPoll ∧
    length answers = length urls ∧ all_arrived (l_target l) (poll_states urls answers) = true ∧
    h' = polled (poll_states urls answers) now l h.
Proof.
  intros He Hn Hc. destruct e as [st|hf|c pre now|now| |a now|now]; simpl in He.
  1: by simplify_eq.
  1: { simplify_eq. unfold flip in Hc. by destruct (running h || negb hf). }
  all: destruct (call h) as [l|] eqn:Hcall; [|done]; destruct (l_pc l) eqn:Hl; simplify_eq; try done.
  - unfold toggled, loop_test in Hc. by destruct (now <? _).
  - case_decide; simplify_eq. exists l, a, now. split_and!; try done.
    unfold polled in Hc. cbn zeta in Hc. by destruct (all_arrived _ _).
  - unfold loop_test in Hc. by destruct (now <? _).
Qed.

(** A polled row whose server has reached the target. *)
Lemma update_row_reached target t0 now states a n :
  n_url n ∈ map ns_url states → all_arrived target states = true →
  let n' := update_row states (record_arrivals target t0 now states a) n in
  n_arrived n' = true ∧ ∃ v, n_cur n' = Some v ∧ target ≤ v.
Proof.
  unfold all_arrived. rewrite forallb_forall. intros Hin Ha.
  destruct (filter (λ s, ns_url s = n_url n) states) as [|s r] eqn:Hf.
  { exfalso. change (map ?f ?l) with (f <$> l) in Hin. apply list_elem_of_fmap in Hin as (s & Hs & Hin).
    assert (s ∈ filter (λ s, ns_url s = n_url n) states) as Hx by (by apply list_elem_of_filter).
    rewrite Hf in Hx. set_solver. }
  assert (s ∈ filter (λ s, ns_url s = n_url n) states) as Hs by (rewrite Hf; set_solver).
  apply list_elem_of_filter in Hs as [Hu Hs]. pose proof (Ha s ltac:(by apply list_elem_of_In)) as Hreach.
  pose proof (record_arrivals_has target t0 now states a s Hs Hreach) as Hh. rewrite Hu in Hh.
  cbn zeta. unfold update_row. rewrite Hf. simpl. split; [done|].
  unfold reached in Hreach. boolify. destruct (ns_configVersion s) as [v|]; [|done]. simpl. exists v. split; [done|lia].
Qed.

(** The cluster card tells the truth when it turns green.  At the step
    that makes it read Converged, in whatever order polls and clicks came,
    every server's row is marked arrived and shows a version at least the one
    aimed at, no row shows a pending transition, the badge names that version,
    and the run is over. *)
Theorem cluster_converged_is_real h e h' :
  reachable h → exec e h = Some h' → phase h ≠ Converged → phase h' = Converged →
  running h' = false ∧ call h' = None ∧ map n_url (nodes h') = urls ∧
  ∃ t, target h' = Some t ∧
    badge h' = Some (Success, js "Converged at v" ++ show t) ∧
    Forall (λ n, n_arrived n = true ∧ ∃ v, n_cur n = Some v ∧ t ≤ v) (nodes h') ∧
    Forall (λ c, c_tone c = Success ∧ c_transition c = None) (v_cards (render true h')).
Proof.
  intros Hr He Hn Hc. pose proof (cluster_inv_reachable h Hr) as Hi. pose proof (cluster_inv_exec _ _ _ Hi He) as [Hr' Hp' Hu' _].
  destruct (enters_converged e h h' He Hn Hc) as (l & a & now & -> & Hcall & Hl & Hlen & Ha & ->).
  assert (target h = Some (l_target l)) as Ht by (apply (inv_target h Hi l Hcall); by rewrite Hl).
  assert (Forall (λ n, n_arrived n = true ∧ ∃ v, n_cur n = Some v ∧ l_target l ≤ v)
            (nodes (polled (poll_states urls a) now l h))) as Hrows.
  { unfold polled. cbn zeta. cbn [l_target]. rewrite Ha. simpl. apply Forall_forall. intros n Hin.
    change (map ?f ?l) with (f <$> l) in Hin. apply list_elem_of_fmap in Hin as (n0 & -> & Hin).
    apply update_row_reached; [|done]. rewrite poll_states_urls by done.
    rewrite <-(inv_urls h Hi). change (map ?f ?l) with (f <$> l). by apply list_elem_of_fmap_2. }
  assert (running (polled (poll_states urls a) now l h) = false ∧ call (polled (poll_states urls a) now l h) = None
          ∧ target (polled (poll_states urls a) now l h) = target h) as (H1 & H2 & H3)
    by (unfold polled; cbn zeta; cbn [l_target]; rewrite Ha; done).
  revert Hrows Hc Hu' H1 H2 H3. generalize (polled (poll_states urls a) now l h). intros g Hrows Hg Hu H1 H2 H3.
  rewrite Ht in H3. split_and!; try done. exists (l_target l). split_and!; try done.
  - unfold badge. by rewrite H3, decide_True.
  - simpl. apply Forall_map. eapply Forall_impl; [exact Hrows|]. intros n [Hn1 _]. unfold NodeCard. simpl.
    rewrite H3, Hn1. split; [done|]. by destruct (n_pre n).
Qed.
End hero.

(** ** Two servers, and names that come late *)
Fixpoint execs (urls : list jstr) (es : list label) (h : hero) : option hero :=
  match es with
  | [] => Some h
  | e :: es => exec urls e h ≫= execs urls es
  end.

Lemma cluster_reachable_execs urls es h h' :
  reachable urls h → execs urls es h = Some h' → reachable urls h'.
Proof.
  revert h. induction es as [|e es IH]; intros h Hr He; simpl in He; [by simplify_eq|].
  destruct (exec urls e h) as [h1|] eqn:E; [|done]. simpl in He.
  eapply IH; [|exact He]. by eapply reach_step.
Qed.

Definition two : list jstr := Propagation.two.
Definition answers : Z → Z → list fetched := Propagation.answers.
Definition a_run : list label :=
  [LFlip true; LPre (Some 6) (poll_states two (answers 6 6)) 1000; LToggled 25000;
   LPolled (answers 7 6) 60000; LSlept 240000; LPolled (answers 7 7) 260000].
Definition after (n : nat) : hero := default (mount two) (execs two (take n a_run) (mount two)).

Lemma cluster_converged_is_real_witness :
  phase (after 6) = Converged ∧ running (after 6) = false ∧ call (after 6) = None ∧
  map n_url (nodes (after 6)) = two ∧
  ∃ t, target (after 6) = Some t ∧
    badge two (after 6) = Some (Success, js "Converged at v" ++ show t) ∧
    Forall (λ n, n_arrived n = true ∧ ∃ v, n_cur n = Some v ∧ t ≤ v) (nodes (after 6)) ∧
    Forall (λ c, c_tone c = Success ∧ c_transition c = None) (v_cards (render two true (after 6))).
Proof.
  split; [by vm_compute|].
  apply (cluster_converged_is_real two (after 5) (LPolled (answers 7 7) 260000) (after 6));
    [|by vm_compute|by vm_compute|by vm_compute].
  apply (cluster_reachable_execs two (take 5 a_run) (mount two)); [apply reach_mount|by vm_compute].
Defined.

(** The names asked for on mount can answer after a whole run: they bring the
    old version back onto a card that is marked arrived. *)
Example late_names_show_old_version :
  let h := name_nodes (poll_states two (answers 6 6)) (after 6) in
  phase h = Converged ∧ map c_version (v_cards (render two true h)) = [js "v6"; js "v6"] ∧
  badge two h = Some (Success, js "Converged at v7").
Proof. vm_compute. done. Qed.
End Cluster.
