(* ===== verification/Feed.v ===== *)
(** * The two feeds of changes

    [components/explain/SseConsole.tsx], the live stream in words, and
    [components/explain/VersionTimeline.tsx], the durable log as ticks.
    Times are milliseconds since the epoch. *)
From S2P Require Import Prelude JsMap Types Json Api Fleet.
From Stdlib Require Import Sorting.

(** [Math.round((now - at) / 1000)], never below zero *)
Definition seconds_since (now at_ : Z) : Z := Z.max 0 ((now - at_ + 500) / 1000).

(** What React puts in place of a child: booleans and [null] render as
    nothing, lists as their members, and an object makes the render throw. *)
Fixpoint react_text (j : json) : option jstr :=
  match j with
  | JNull | JBool _ => Some []
  | JNum n => Some (show n)
  | JStr s => Some s
  | JArr l => foldr (λ x acc, acc ≫= λ r, (λ t, t ++ r) <$> react_text x) (Some []) l
  | JObj _ => None
  end.

(** ** [SseConsole.tsx] *)
Module Console.

Inductive EntryKind := On | Off | Gone.
#[export] Instance EntryKind_eq_dec : EqDecision EntryKind.
Proof. solve_decision. Defined.

(** [e_key] is whatever truthy value the frame carries: the cast to a string is
    not checked. *)
Record Entry := mkEntry {
  e_seq : nat; e_version : Z; e_key : json; e_kind : EntryKind; e_rollout : option Z; e_at : Z }.

Inductive Conn := Connecting | Live | Down.
#[export] Instance Conn_eq_dec : EqDecision Conn.
Proof. solve_decision. Defined.

Definition MAX_FULL : nat := 60.
Definition MAX_COMPACT : nat := 6.

(** A frame: its event type ([true] for [flag_deleted]), its id, its data
    ([None] when it does not parse), and when it arrived. *)
Record frame := mkFrame { f_deleted : bool; f_id : jstr; f_data : option json; f_at : Z }.

Definition frame_key (d : json) : json :=
  match jget d (js "key") with
  | Some k => if truthy (Some k) then k else JStr (js "(unknown)")
  | None => JStr (js "(unknown)")
  end.

(** The [try] block: reading a field of [null] throws and keeps the defaults. *)
Definition read_data (data : option json) : json * bool * option Z :=
  match data with
  | None | Some JNull => (JStr (js "(unknown)"), false, None)
  | Some d => (frame_key d, truthy (jget d (js "enabled")), as_number (jget d (js "rollout_percentage")))
  end.

Definition entry_of (seq : nat) (f : frame) : Entry :=
  let '(key, enabled, rollout) := read_data (f_data f) in
  let kind := if f_deleted f then Gone else if enabled then On else Off in
  mkEntry seq (default 0 (parseInt10 (f_id f))) key kind
    (if decide (kind = On) then rollout else None) (f_at f).

Record console := mkConsole {
  entries : list Entry; conn : Conn; paused : bool; pausedRef : bool; seqRef : nat }.
Definition mount : console := mkConsole [] Connecting false false 0.

Definition push (max : nat) (f : frame) (c : console) : console :=
  if pausedRef c then c
  else mkConsole (take max (entry_of (seqRef c) f :: entries c)) (conn c) (paused c) (pausedRef c)
         (S (seqRef c)).

(** Between a click on Pause and the effect that copies it, frames still pass. *)
Inductive label := LOpen | LError | LFrame (f : frame) | LPause | LEffect | LClear.

Definition step (max : nat) (c : console) (e : label) : console :=
  match e with
  | LOpen => mkConsole (entries c) Live (paused c) (pausedRef c) (seqRef c)
  | LError => mkConsole (entries c) (if decide (conn c = Live) then Down else Connecting) (paused c)
                (pausedRef c) (seqRef c)
  | LFrame f => push max f c
  | LPause => mkConsole (entries c) (conn c) (negb (paused c)) (pausedRef c) (seqRef c)
  | LEffect => mkConsole (entries c) (conn c) (paused c) (paused c) (seqRef c)
  | LClear => mkConsole [] (conn c) (paused c) (pausedRef c) (seqRef c)
  end.
Definition run (max : nat) (ls : list label) : console := foldl (step max) mount ls.

(** ** Render *)
Definition ConnPill (c : Conn) : tone * jstr :=
  match c with
  | Live => (Success, js "live") | Down => (Destructive, js "down") | Connecting => (Warning, js "connecting")
  end.

Definition Verdict (e : Entry) : jstr * option jstr :=
  match e_kind e with
  | Gone => (js "deleted", None)
  | On => (js "ON", match e_rollout e with
                    | Some r => if r <? 100 then Some (show r ++ js "%") else None
                    | None => None
                    end)
  | Off => (js "OFF", None)
  end.

Definition RelTime (now at_ : Z) : jstr :=
  let s := seconds_since now at_ in
  if s <? 2 then js "now" else if s <? 60 then show s ++ js "s" else show (s / 60) ++ js "m".

Record row := mkRow { r_version : jstr; r_key : option jstr; r_verdict : jstr * option jstr; r_time : jstr }.
Definition EntryRow (now : Z) (e : Entry) : row :=
  mkRow (ver (e_version e)) (react_text (e_key e)) (Verdict e) (RelTime now (e_at e)).

Definition disconnected_text : jstr := js "Stream disconnected — is the stack running on :8080?".
Definition waiting_text : jstr :=
  js "Waiting for the next change… flip a flag to see it appear here live.".

(** The list, or the sentence in its place. *)
Definition body (now : Z) (c : console) : jstr + list row :=
  match entries c with
  | [] => inl (if decide (conn c = Down) then disconnected_text else waiting_text)
  | es => inr (map (EntryRow now) es)
  end.

Record view := mkView { v_pill : tone * jstr; v_buttons : option (jstr * jstr); v_body : jstr + list row }.
Definition SseConsole (compact : bool) (now : Z) (c : console) : view :=
  mkView (ConnPill (conn c))
    (if compact then None
     else Some (if paused c then js "Resume feed" else js "Pause feed", js "Clear feed"))
    (body now c).

(** ** What it should show: every frame heard since the last clear *)
Record transcript := mkTranscript {
  t_paused : bool; t_deaf : bool; t_heard : list frame; t_cleared : nat }.

Definition listen (t : transcript) (e : label) : transcript :=
  match e with
  | LFrame f => if t_deaf t then t
                else mkTranscript (t_paused t) (t_deaf t) (t_heard t ++ [f]) (t_cleared t)
  | LPause => mkTranscript (negb (t_paused t)) (t_deaf t) (t_heard t) (t_cleared t)
  | LEffect => mkTranscript (t_paused t) (t_paused t) (t_heard t) (t_cleared t)
  | LClear => mkTranscript (t_paused t) (t_deaf t) (t_heard t) (length (t_heard t))
  | LOpen | LError => t
  end.
Definition listened (ls : list label) : transcript := foldl listen (mkTranscript false false [] 0) ls.

Definition expected (max : nat) (t : transcript) : list Entry :=
  take max (reverse (drop (t_cleared t) (imap entry_of (t_heard t)))).

Lemma take_cons_take {A} n (x : A) l : take n (x :: take n l) = take n (x :: l).
Proof. destruct n as [|n]; [done|]. simpl. f_equal. rewrite take_take. f_equal. lia. Qed.

Lemma console_transcript max ls :
  let c := run max ls in let t := listened ls in
  entries c = expected max t ∧ paused c = t_paused t ∧ pausedRef c = t_deaf t ∧
  seqRef c = length (t_heard t) ∧ (t_cleared t ≤ length (t_heard t))%nat.
Proof.
  cbn zeta. induction ls as [|e ls IH] using rev_ind.
  { unfold expected. simpl. by rewrite reverse_nil, take_nil. }
  unfold run, listened. rewrite !foldl_app. fold (run max ls). fold (listened ls).
  cbn [foldl]. destruct IH as (He & Hp & Hd & Hs & Hc).
  generalize dependent (listened ls). generalize (run max ls). intros c t He Hp Hd Hs Hc.
  destruct e as [| |f| | |]; simpl; try by rewrite ?Hp; auto.
  - unfold push. rewrite Hd. destruct (t_deaf t) eqn:Ht; simpl; [by rewrite Ht|].
    rewrite length_app, Hs. simpl. split_and!; try done; try lia.
    rewrite He. unfold expected. simpl. rewrite imap_app, drop_app_le by (by rewrite length_imap).
    rewrite reverse_app. simpl. rewrite Nat.add_0_r. by rewrite take_cons_take.
  - split_and!; try done. unfold expected. simpl. rewrite drop_ge by (by rewrite length_imap).
    by rewrite reverse_nil, take_nil.
Qed.

Lemma imap_entry_seq fs : e_seq <$> imap entry_of fs = seq 0 (length fs).
Proof.
  rewrite fmap_imap. transitivity (imap (λ i (_ : frame), i) fs).
  - apply imap_ext. intros i f _. simpl. unfold entry_of. by destruct (read_data (f_data f)) as [[??]?].
  - by rewrite (imap_seq_0 fs (λ i, i)), list_fmap_id.
Qed.

Lemma texts_differ : waiting_text ≠ disconnected_text.
Proof. intros H. apply (f_equal length) in H. vm_compute in H. discriminate H. Qed.

(** The console neither invents nor loses a line.  After any sequence of
    frames, clicks, connection changes and effects, its list is the newest
    [max] of the frames heard since the last clear, newest first, each decoded
    on its own; no two lines share a React key; and when it has no line, the
    sentence shown says disconnected exactly when the pill says down. *)
Theorem console_is_faithful max ls now :
  let c := run max ls in
  entries c = expected max (listened ls) ∧ NoDup (e_seq <$> entries c) ∧
  (entries c = [] → ∃ s, body now c = inl s ∧
     (s = disconnected_text ↔ ConnPill (conn c) = (Destructive, js "down"))).
Proof.
  cbn zeta. destruct (console_transcript max ls) as (He & _). split_and!; [exact He| |].
  - rewrite He. unfold expected. rewrite fmap_take, fmap_reverse, fmap_drop, imap_entry_seq.
    apply NoDup_take. rewrite (reverse_Permutation _).
    eapply sublist_NoDup; [apply NoDup_seq|apply sublist_drop].
  - intros Hn. unfold body. rewrite Hn. eexists. split; [done|].
    destruct (conn (run max ls)); cbn [ConnPill]; [rewrite decide_False by done|rewrite decide_False by done|].
    1,2: split; intros H; [exfalso; exact (texts_differ H)|apply (f_equal fst) in H; discriminate H].
    rewrite decide_True by done. split; reflexivity.
Qed.

(** A stream that never opened reads connecting however often it fails, and a
    second failure turns down back into connecting. *)
Example unreachable_reads_connecting : conn (run 60 [LError; LError; LError]) = Connecting.
Proof. done. Qed.
Example second_error_hides_down :
  conn (run 60 [LOpen; LError]) = Down ∧ conn (run 60 [LOpen; LError; LError]) = Connecting.
Proof. done. Qed.
End Console.

(** ** [VersionTimeline.tsx] *)
Module Timeline.

(** [[...events].sort((a, b) => a.version - b.version)]: the sort is stable. *)
Fixpoint insert (e : FlagEvent) (l : list FlagEvent) : list FlagEvent :=
  match l with
  | [] => [e]
  | x :: r => if ev_version e <=? ev_version x then e :: l else x :: insert e r
  end.
Definition sort (l : list FlagEvent) : list FlagEvent := foldr insert [] l.

Definition ticks_of (data : option (list FlagEvent)) : list FlagEvent := sort (default [] data).

Definition kind_label (t : EventType) : jstr :=
  match t with Created => js "created" | Updated => js "updated" | Deleted => js "deleted" end.
(** [KIND_STYLE]: the dot's tone and the label. *)
Definition KIND_STYLE (t : EventType) : tone * jstr :=
  (match t with Created => Primary | Updated => Foreground | Deleted => Muted end, kind_label t).

(** The click on a tick. *)
Definition select (v : Z) (selected : option Z) : option Z :=
  if decide (selected = Some v) then None else Some v.
Definition selectedEvent (selected : option Z) (events : list FlagEvent) : option FlagEvent :=
  head (filter (λ e, Some (ev_version e) = selected) events).

Definition RelTime (now then_ : Z) : jstr :=
  let s := seconds_since now then_ in
  if s <? 60 then show s ++ js "s ago"
  else if s <? 3600 then show (s / 60) ++ js "m ago"
  else if s <? 86400 then show (s / 3600) ++ js "h ago"
  else show (s / 86400) ++ js "d ago".

(** The fields [Detail] reads of the payload, absent in a deletion's. *)
Definition p_enabled (o : FlagObj) : bool := match o with FullFlag f => fc_enabled f | KeyOnly _ => false end.
Definition p_rollout (o : FlagObj) : option Z :=
  match o with FullFlag f => Some (fc_rollout_percentage f) | KeyOnly _ => None end.
Definition p_users (o : FlagObj) : list jstr := match o with FullFlag f => fc_targeted_users f | KeyOnly _ => [] end.

Definition Detail (e : FlagEvent) : jstr * jstr :=
  let p := ev_payload e in
  (ver (ev_version e) ++ js " · " ++ ev_flag_key e ++ js " " ++ kind_label (ev_type e),
   if decide (ev_type e = Deleted) then js "The flag was removed. Clients drop it and evaluate it as off."
   else js "Now " ++ (if p_enabled p then js "ON" else js "OFF")
        ++ match p_rollout p with Some r => js " at " ++ show r ++ js "% rollout" | None => [] end
        ++ (if count (p_users p) >? 0 then
              js " · " ++ show (count (p_users p)) ++ js " targeted user" ++ plural (count (p_users p))
            else [])
        ++ js ".").

Record tick := mkTick {
  k_version : Z; k_flag_key : jstr; k_style : tone * jstr; k_first : bool; k_pressed : bool; k_time : jstr }.
Definition TimelineTick (now : Z) (parse : jstr → Z) (selected : option Z) (i : nat) (e : FlagEvent) : tick :=
  mkTick (ev_version e) (ev_flag_key e) (KIND_STYLE (ev_type e)) (bool_decide (i = 0%nat))
    (bool_decide (Some (ev_version e) = selected)) (RelTime now (parse (ev_created_at e))).

Inductive rail := Skeleton | NoChanges | Ticks (l : list tick).
Definition VersionTimeline (now : Z) (parse : jstr → Z) (isLoading : bool) (data : option (list FlagEvent))
    (selected : option Z) : rail * option (jstr * jstr) :=
  let events := ticks_of data in
  (match events with
   | [] => if isLoading then Skeleton else NoChanges
   | _ => Ticks (imap (TimelineTick now parse selected) events)
   end, Detail <$> selectedEvent selected events).

Definition by_version (a b : FlagEvent) : Prop := ev_version a ≤ ev_version b.
#[export] Instance by_version_trans : Transitive by_version.
Proof. unfold by_version. intros a b c ??. lia. Qed.

Lemma insert_perm e l : insert e l ≡ₚ e :: l.
Proof.
  induction l as [|x l IH]; [done|]. simpl. destruct (ev_version e <=? ev_version x); [done|].
  rewrite IH. apply Permutation_swap.
Qed.
Lemma sort_perm l : sort l ≡ₚ l.
Proof. induction l as [|e l IH]; [done|]. simpl. by rewrite insert_perm, IH. Qed.

Lemma insert_sorted e l : StronglySorted by_version l → StronglySorted by_version (insert e l).
Proof.
  induction 1 as [|x l Hl IH Hx]; simpl; [by repeat constructor|].
  destruct (Z.leb_spec (ev_version e) (ev_version x)) as [Hle|Hgt].
  - constructor; [by constructor|]. constructor; [done|]. eapply Forall_impl; [exact Hx|].
    intros y Hy. by transitivity x.
  - constructor; [done|]. rewrite insert_perm. constructor; [unfold by_version; lia|done].
Qed.
Lemma sort_sorted l : StronglySorted by_version (sort l).
Proof. induction l as [|e l IH]; [constructor|]. by apply insert_sorted. Qed.

(** On a page of the log, which the server sends in order, the sort changes
    nothing. *)
Lemma sort_id l : StronglySorted by_version l → sort l = l.
Proof.
  induction 1 as [|e l Hl IH He]; [done|]. simpl. rewrite IH. destruct l as [|x l]; [done|]. simpl.
  inversion He; subst. unfold by_version in *. destruct (Z.leb_spec (ev_version e) (ev_version x)); [done|lia].
Qed.

(** A version names one event, so a click opens the event of the tick clicked,
    and a second click closes it. *)
Lemma select_opens data e :
  e ∈ ticks_of data → NoDup (map ev_version (ticks_of data)) →
  selectedEvent (select (ev_version e) None) (ticks_of data) = Some e.
Proof.
  intros He Hn. unfold select, selectedEvent. simpl.
  destruct (filter _ (ticks_of data)) as [|x r] eqn:Hf.
  { exfalso. assert (e ∈ filter (λ e', Some (ev_version e') = Some (ev_version e)) (ticks_of data)) as Hx
      by (by apply list_elem_of_filter). rewrite Hf in Hx. set_solver. }
  assert (x ∈ filter (λ e', Some (ev_version e') = Some (ev_version e)) (ticks_of data)) as Hx
    by (rewrite Hf; set_solver).
  apply list_elem_of_filter in Hx as [[= Hv] Hx]. simpl. f_equal.
  by apply (NoDup_fmap_inj ev_version (ticks_of data)).
Qed.
Lemma select_twice v s : select v (select v s) = if decide (s = Some v) then Some v else None.
Proof. unfold select. repeat case_decide; congruence. Qed.
End Timeline.
