(* ===== verification/Forms.v ===== *)
(** * Editing a flag

    The flag form and its inputs ([components/flags/FlagForm.tsx],
    [RolloutSlider.tsx], [TargetedUsersInput.tsx]) and the two pages around it
    ([app/flags/new/page.tsx], [app/flags/[id]/page.tsx]).  Times are
    milliseconds. *)
From S2P Require Import Prelude JsMap Types Json Api Server.

(** ** [RolloutSlider.tsx] *)
Record slider := mkSlider { localValue : Z; debounce : option (Z * Z) }.

Definition DEBOUNCE : Z := 200.

(** [useState(value)] *)
Definition slider_mount (value : Z) : slider := mkSlider value None.
(** [handleChange]: the timer is set anew; it carries the value and its time. *)
Definition handleChange (v now : Z) (s : slider) : slider := mkSlider v (Some (v, now + DEBOUNCE)).
(** The effect on [value] *)
Definition slider_sync (old value : Z) (s : slider) : slider :=
  if value =? old then s else mkSlider value (debounce s).
Definition slider_text (s : slider) : jstr := show (localValue s) ++ js "%".

(** ** [TargetedUsersInput.tsx] *)

(** [addUser]: the users and the text left in the box. *)
Definition addUser (input : jstr) (users : list jstr) : jstr * list jstr :=
  let trimmed := trim input in
  if negb (bool_decide (trimmed = [])) && negb (bool_decide (trimmed ∈ users)) then ([], users ++ [trimmed])
  else (input, users).
Definition removeUser (user : jstr) (users : list jstr) : list jstr := filter (λ u, u ≠ user) users.

(** ** [FlagForm.tsx] *)
Record form := mkForm {
  isEdit : bool; key : jstr; description : jstr; enabled : bool; rolloutPercentage : Z;
  targetedUsers : list jstr; errors : list (jstr * jstr); userInput : jstr; rollout_slider : slider }.

Definition mount_new : form := mkForm false [] [] false 0 [] [] [] (slider_mount 0).
Definition mount_edit (f : Flag) : form :=
  mkForm true (fl_key f) (fl_description f) (fl_enabled f) (fl_rollout_percentage f)
    (fl_targeted_users f) [] [] (slider_mount (fl_rollout_percentage f)).

Definition key_error (f : form) : option jstr :=
  if isEdit f then None
  else if bool_decide (key f = []) then Some (js "Key is required")
  else if negb (forallb is_key_char (key f)) then Some (js "Use letters, numbers, and hyphens only")
  else if Z.of_nat (length (key f)) >? 64 then Some (js "Key must be at most 64 characters")
  else None.
Definition rollout_error (f : form) : option jstr :=
  if (rolloutPercentage f <? 0) || (rolloutPercentage f >? 100) then Some (js "Must be between 0 and 100")
  else None.

Definition validate (f : form) : list (jstr * jstr) :=
  match key_error f with Some e => [(js "key", e)] | None => [] end
  ++ match rollout_error f with Some e => [(js "rollout", e)] | None => [] end.

Definition set_errors (e : list (jstr * jstr)) (f : form) : form :=
  mkForm (isEdit f) (key f) (description f) (enabled f) (rolloutPercentage f) (targetedUsers f) e
    (userInput f) (rollout_slider f).

Definition create_input (f : form) : CreateFlagInput :=
  mkCreateFlagInput (key f) (description f) (enabled f) (rolloutPercentage f) (targetedUsers f).
Definition update_input (f : form) : UpdateFlagInput :=
  mkUpdateFlagInput (Some (description f)) (Some (enabled f)) (Some (rolloutPercentage f))
    (Some (targetedUsers f)).

(** [handleSubmit]: the form after it, and the call of [onSubmit]. *)
Definition handleSubmit (f : form) : form * option (CreateFlagInput + UpdateFlagInput) :=
  let errs := validate f in
  (set_errors errs f,
   match errs with
   | [] => Some (if isEdit f then inr (update_input f) else inl (create_input f))
   | _ => None
   end).

Inductive edit :=
| EKey (s : jstr) | EDescription (s : jstr) | EEnabled (b : bool)
| ESlide (v now : Z) | ETimer (now : Z)
| EUserInput (s : jstr) | EAddUser | ERemoveUser (u : jstr).

Definition set_slider (p : Z) (s : slider) (f : form) : form :=
  mkForm (isEdit f) (key f) (description f) (enabled f) p (targetedUsers f) (errors f) (userInput f) s.

Definition edit_form (e : edit) (f : form) : form :=
  match e with
  | EKey s => if isEdit f then f   (* the input is disabled *)
              else mkForm (isEdit f) s (description f) (enabled f) (rolloutPercentage f) (targetedUsers f)
                     (errors f) (userInput f) (rollout_slider f)
  | EDescription s => mkForm (isEdit f) (key f) s (enabled f) (rolloutPercentage f) (targetedUsers f)
                        (errors f) (userInput f) (rollout_slider f)
  | EEnabled b => mkForm (isEdit f) (key f) (description f) b (rolloutPercentage f) (targetedUsers f)
                    (errors f) (userInput f) (rollout_slider f)
  | ESlide v now => set_slider (rolloutPercentage f) (handleChange v now (rollout_slider f)) f
  | ETimer now =>
      match debounce (rollout_slider f) with
      | Some (v, due) =>
          if due <=? now then
            set_slider v (slider_sync (rolloutPercentage f) v (mkSlider (localValue (rollout_slider f)) None)) f
          else f
      | None => f
      end
  | EUserInput s => mkForm (isEdit f) (key f) (description f) (enabled f) (rolloutPercentage f)
                      (targetedUsers f) (errors f) s (rollout_slider f)
  | EAddUser => let '(i, us) := addUser (userInput f) (targetedUsers f) in
                mkForm (isEdit f) (key f) (description f) (enabled f) (rolloutPercentage f) us
                  (errors f) i (rollout_slider f)
  | ERemoveUser u => mkForm (isEdit f) (key f) (description f) (enabled f) (rolloutPercentage f)
                       (removeUser u (targetedUsers f)) (errors f) (userInput f) (rollout_slider f)
  end.

(** What the form shows around its inputs. *)
Record form_view := mkFormView {
  v_key_star : bool; v_key_disabled : bool; v_key_invalid : bool; v_key_message : jstr * jstr;
  v_rollout_message : option jstr; v_percentage : jstr; v_chips : list jstr; v_button : jstr * bool }.

Definition FlagForm (isLoading : bool) (f : form) : form_view :=
  mkFormView (negb (isEdit f)) (isEdit f) (bool_decide (map_get (errors f) (js "key") ≠ None))
    (match map_get (errors f) (js "key") with
     | Some e => (js "key-error", e)
     | None => (js "key-hint", if isEdit f then js "The key is immutable once created."
                               else js "Stable identifier used by SDKs. Cannot be changed later.")
     end)
    (map_get (errors f) (js "rollout")) (slider_text (rollout_slider f)) (targetedUsers f)
    (if isLoading then js "Saving…" else if isEdit f then js "Save changes" else js "Create flag", isLoading).

(** ** [app/flags/new/page.tsx] *)
Inductive toast := ToastSuccess (s : jstr) | ToastError (s : jstr).

(** After the mutation: the toast, and where the router goes; [native] is the
    browser's own message for a failed fetch. *)
Definition after_create (native : jstr) (o : outcome) : option toast * option jstr :=
  match o with
  | Returned _ | ReturnedUndefined => (Some (ToastSuccess (js "Flag created")), Some (js "/flags"))
  | Thrown m => (Some (ToastError m), None)
  | ThrownNative => (Some (ToastError native), None)
  end.

(** ** [app/flags/[id]/page.tsx] *)
Record page := mkPage {
  p_id : jstr; p_form : option form; p_flag : option Flag; p_isLoading : bool; p_deleting : bool;
  p_toasts : list toast; p_router : option jstr }.
Definition open_page (id : jstr) : page := mkPage id None None true false [] None.

Definition set_form (fm : form) (p : page) : page :=
  mkPage (p_id p) (Some fm) (p_flag p) (p_isLoading p) (p_deleting p) (p_toasts p) (p_router p).

(** The detail query answers: the form is mounted the first time a flag is
    there; later answers replace the flag and leave the form's state alone. *)
Definition fetched_flag (f : Flag) (p : page) : page :=
  mkPage (p_id p) (Some (default (mount_edit f) (p_form p))) (Some f) false (p_deleting p) (p_toasts p) (p_router p).

Definition fetch_failed (p : page) : page :=
  mkPage (p_id p) (p_form p) (p_flag p) false (p_deleting p) (p_toasts p) (p_router p).

(** [useFlag(id, !deleting)] *)
Definition query_on (p : page) : bool := negb (bool_decide (p_id p = [])) && negb (p_deleting p).

(** [handleSubmit]: what [updateFlag.mutate] is called with. *)
Definition submit (p : page) : page * option (jstr * UpdateFlagInput * option Z) :=
  match p_form p with
  | None => (p, None)
  | Some fm =>
      let '(fm', call) := handleSubmit fm in
      (set_form fm' p,
       match call with
       | Some (inr input) => Some (p_id p, input, fl_version <$> p_flag p)
       | _ => None
       end)
  end.

Definition add_toast (t : toast) (p : page) : page :=
  mkPage (p_id p) (p_form p) (p_flag p) (p_isLoading p) (p_deleting p) (p_toasts p ++ [t]) (p_router p).
Definition update_succeeded (p : page) : page := add_toast (ToastSuccess (js "Flag updated")) p.
(** The invalidation that follows is the next [fetched_flag]. *)
Definition update_failed (message : jstr) (p : page) : page := add_toast (ToastError message) p.

Definition set_deleting (b : bool) (p : page) : page :=
  mkPage (p_id p) (p_form p) (p_flag p) (p_isLoading p) b (p_toasts p) (p_router p).
Definition handleDelete (p : page) : page := set_deleting true p.
Definition delete_succeeded (p : page) : page :=
  mkPage (p_id p) (p_form p) (p_flag p) (p_isLoading p) (p_deleting p)
    (p_toasts p ++ [ToastSuccess (js "Flag deleted")]) (Some (js "/flags")).
Definition delete_failed (message : jstr) (p : page) : page :=
  add_toast (ToastError message) (set_deleting false p).

Record header := mkHeader { h_key : jstr; h_enabled : bool; h_version : jstr; h_description : option jstr }.
Inductive page_view := PageSkeleton | NotFound | Editing (h : header) (f : form_view).
Definition FlagDetailPage (updating : bool) (p : page) : page_view :=
  if p_isLoading p then PageSkeleton
  else match p_flag p, p_form p with
       | Some f, Some fm =>
           Editing (mkHeader (fl_key f) (fl_enabled f) (js "v" ++ show (fl_version f))
                      (match fl_description f with [] => None | d => Some d end)) (FlagForm updating fm)
       | _, _ => NotFound
       end.

(** ** The form against the server's validation *)
Lemma key_char_ascii c : is_key_char c = true → 0 <= c < 128.
Proof. unfold is_key_char, is_digit. intros H. repeat (apply orb_true_iff in H as [H|H]); boolify; lia. Qed.

Lemma key_length k : forallb is_key_char k = true → go_len k = Z.of_nat (length k).
Proof.
  unfold go_len. induction k as [|c k IH]; [done|]. cbn [forallb]. rewrite andb_true_iff. intros [Hc Hk].
  apply key_char_ascii in Hc. cbn [foldr length]. rewrite IH by done. unfold unit_bytes.
  rewrite (proj2 (Z.ltb_lt _ _)) by lia. lia.
Qed.

Lemma validate_nil f : validate f = [] ↔ key_error f = None ∧ rollout_error f = None.
Proof. unfold validate. destruct (key_error f), (rollout_error f); simpl; naive_solver. Qed.

Lemma rollout_error_None f : rollout_error f = None ↔ 0 ≤ rolloutPercentage f ≤ 100.
Proof. unfold rollout_error. destruct (_ || _) eqn:E; boolify; naive_solver lia. Qed.

Lemma form_server_validation f :
  isEdit f = false → validate f = [] ↔ validate_create (create_input f) = None.
Proof.
  intros He. rewrite validate_nil, rollout_error_None. unfold validate_create, key_error, key_matches. rewrite He.
  cbn [create_input ci_key ci_rollout_percentage]. destruct (bool_decide (key f = [])) eqn:Hk; cbn [orb negb andb].
  { split; [intros [? _]|]; discriminate. }
  destruct (forallb is_key_char (key f)) eqn:Hc; cbn [negb].
  - rewrite (key_length _ Hc). destruct (Z.gtb_spec (Z.of_nat (length (key f))) 64).
    + split; [intros [? _]|]; discriminate.
    + destruct (_ || _) eqn:E; boolify; naive_solver lia.
  - destruct (_ >? _); (split; [intros [? _]|]; discriminate).
Qed.

(** C35: the create form and the server agree.  The form lets a new flag
    through exactly when the server's own validation passes on what it sends;
    so after the form the server never answers a validation error, only created,
    a duplicate key, or the database's refusal of the description, which the
    form does not check. *)
Theorem form_agrees_with_server fmt_time (f : form) (now : Z) (id : jstr) (s : server) :
  isEdit f = false →
  let '(res, s') := handle_CreateFlag fmt_time now id (Some (create_input f)) s in
  match (handleSubmit f).2 with
  | Some call =>
      call = inl (create_input f) ∧ errors (handleSubmit f).1 = [] ∧
      (rs_status res = 201 ∨ rs_status res = 409 ∨ rs_status res = 500)
  | None =>
      errors (handleSubmit f).1 ≠ [] ∧ rs_status res = 400 ∧ s' = s
  end.
Proof.
  intros He. pose proof (form_server_validation f He) as Hv. unfold handleSubmit. cbn zeta. rewrite He.
  unfold handle_CreateFlag, CreateFlag. destruct (validate f) as [|e l]; cbn [snd fst errors set_errors].
  - destruct Hv as [-> _]; [|done].
    destruct (bool_decide _); [|by auto].
    destruct (Create _ _ _ _ _) as [[r|e] d]; simpl; auto.
  - destruct (validate_create (create_input f)) as [e'|] eqn:E; [|by destruct Hv as [_ Hv]; discriminate Hv].
    unfold validate_create in E. repeat case_match; simplify_eq; done.
Qed.

(** ** Saving an edit *)
Section saving.
Context (fmt_time : Z → jstr) (base internal admin_key path : jstr).

(** The header the handler reads after the browser and the proxy. *)
Definition sent_if_match (id : jstr) (u : UpdateFlagInput) (v : option Z) : jstr :=
  go_header (rq_headers (proxy_request internal admin_key (updateFlag base id u v) path)) (js "If-Match").

(** Pressing Save, through to the server. *)
Definition save (now : Z) (p : page) (s : server) : option (response * server) :=
  (λ '(id, u, v), handle_UpdateFlag fmt_time now id (Some u) (sent_if_match id u v) s) <$> (submit p).2.

Lemma handle_fresh now id u h s r :
  GetByID id (s_db s) = Some r → no_fields u = false → bad_percentage u = false →
  if_match_version h = Some (fc_version (r_flag r)) →
  row_ok (set_fields (seq (s_db s) + 1) u (r_flag r)) = true →
  ∃ s', handle_UpdateFlag fmt_time now id (Some u) h s =
          (mkResponse 200 (FlagBody (toResponse fmt_time
             (mkRow (set_fields (seq (s_db s) + 1) u (r_flag r)) (r_created r) now))), s') ∧
        GetByID id (s_db s') = Some (mkRow (set_fields (seq (s_db s) + 1) u (r_flag r)) (r_created r) now).
Proof.
  intros Hr Hu Hb Hh Hok.
  destruct (Update_fresh fmt_time now id u (s_db s) r _ Hr Hu eq_refl Hok) as (d' & Hup & Hrows & Hs & Hl).
  unfold handle_UpdateFlag, UpdateFlag. simpl. rewrite Hb, Hh, Hup. eexists. split; [done|]. simpl.
  destruct d' as [sq rs lg]; simpl in *; subst. by apply GetByID_set_row.
Qed.

Lemma sent_version id u v : - 2 ^ 63 ≤ v < 2 ^ 63 → if_match_version (sent_if_match id u (Some v)) = Some v.
Proof. intros Hv. unfold sent_if_match. rewrite update_if_match. by apply if_match_version_quoted. Qed.

Lemma submit_valid p fm f :
  p_form p = Some fm → isEdit fm = true → validate fm = [] → p_flag p = Some f →
  submit p = (set_form (set_errors [] fm) p, Some (p_id p, update_input fm, Some (fl_version f))).
Proof. intros Hf He Hv Hp. unfold submit, handleSubmit. by rewrite Hf, Hv, He, Hp. Qed.

Lemma save_valid now p fm f s :
  p_form p = Some fm → isEdit fm = true → validate fm = [] → p_flag p = Some f →
  save now p s = Some (handle_UpdateFlag fmt_time now (p_id p) (Some (update_input fm))
                         (sent_if_match (p_id p) (update_input fm) (Some (fl_version f))) s).
Proof. intros Hf He Hv Hp. unfold save. by rewrite (submit_valid p fm f). Qed.

(** C13: a save is guarded by the version on the page, and that version moves
    without the form.  A page that still holds the flag its form was opened on
    is refused with 409 when someone else saved in between, and nothing
    changes.  But any answer of the detail query, the one requested after that
    very refusal included, renews the version and leaves the fields as they
    were: the next Save is accepted, and writes the old description, switch,
    percentage and users of the form over the other edit. *)
Theorem refetched_form_overwrites (p : page) (fm : form) (f : Flag) (s : server) (r : row) (now1 now2 : Z) :
  p_form p = Some fm → isEdit fm = true → validate fm = [] → p_flag p = Some f →
  GetByID (p_id p) (s_db s) = Some r → row_ok (r_flag r) = true →
  char_count (description fm) ≤ 256 →
  fl_version f ≠ fc_version (r_flag r) →
  - 2 ^ 63 ≤ fl_version f < 2 ^ 63 → - 2 ^ 63 ≤ fc_version (r_flag r) < 2 ^ 63 →
  ∃ res1 s1, save now1 p s = Some (res1, s1) ∧ rs_status res1 = 409 ∧ rows (s_db s1) = rows (s_db s) ∧
  let p2 := fetched_flag (toResponse fmt_time r) (update_failed (js "version conflict") (submit p).1) in
  ∃ res2 s2 g, save now2 p2 s1 = Some (res2, s2) ∧ rs_status res2 = 200 ∧
    r_flag <$> GetByID (p_id p) (s_db s2) = Some g ∧
    fc_description g = description fm ∧ fc_enabled g = enabled fm ∧
    fc_rollout_percentage g = rolloutPercentage fm ∧ fc_targeted_users g = targetedUsers fm.
Proof.
  intros Hfm He Hv Hf Hr Hok Hd Hne Hb1 Hb2.
  pose proof (proj1 (validate_nil fm) Hv) as [_ Hp%rollout_error_None].
  assert (bad_percentage (update_input fm) = false) as Hbad.
  { unfold bad_percentage. simpl. apply orb_false_iff. split; [lia|]. rewrite Z.gtb_ltb. lia. }
  rewrite (save_valid now1 p fm f s Hfm He Hv Hf).
  rewrite (handle_stale fmt_time now1 (p_id p) (update_input fm) _ s r (fl_version f) Hr eq_refl Hbad
    (sent_version (p_id p) (update_input fm) _ Hb1) Hne).
  eexists _, _. split; [reflexivity|]. split; [reflexivity|]. split; [reflexivity|]. cbn zeta.
  rewrite (submit_valid p fm f Hfm He Hv Hf).
  set (s1 := mkServer _ _).
  destruct (handle_fresh now2 (p_id p) (update_input fm)
    (sent_if_match (p_id p) (update_input fm) (Some (fc_version (r_flag r)))) s1 r) as (s2 & Hup & Hg);
    [exact Hr|done|exact Hbad|by apply sent_version| |].
  { revert Hok. unfold row_ok. simpl. rewrite !andb_true_iff. lia. }
  eexists _, s2, _. split.
  { rewrite (save_valid now2 _ (set_errors [] fm) (toResponse fmt_time r) s1); [|done..]. exact (f_equal Some Hup). }
  split; [reflexivity|]. rewrite Hg. done.
Qed.
End saving.

(** ** The form's state *)
Inductive reachable (start : form) : form → Prop :=
| reach_start : reachable start start
| reach_edit e f : reachable start f → reachable start (edit_form e f)
| reach_submit f : reachable start f → reachable start (handleSubmit f).1.

Record settled (f : form) : Prop := {
  shown_is_kept : match debounce (rollout_slider f) with
                  | Some (v, _) => localValue (rollout_slider f) = v
                  | None => localValue (rollout_slider f) = rolloutPercentage f
                  end;
  users_unique : NoDup (targetedUsers f);
  users_present : Forall (λ u, u ≠ []) (targetedUsers f) }.

Lemma addUser_ok i us :
  NoDup us → Forall (λ u, u ≠ []) us →
  NoDup (addUser i us).2 ∧ Forall (λ u, u ≠ []) (addUser i us).2.
Proof.
  intros Hn Hf. unfold addUser. destruct (_ && _) eqn:E; [|done]. cbn [snd]. boolify. split.
  - apply NoDup_app. split_and!; [done| |by apply NoDup_singleton]. intros x Hx ->%list_elem_of_singleton. done.
  - apply Forall_app. split; [done|]. by apply Forall_singleton.
Qed.

Lemma settled_edit e f : settled f → settled (edit_form e f).
Proof.
  intros [Hs Hu Hp]. destruct e; simpl; try (split; done).
  - destruct (isEdit f); split; done.
  - destruct (debounce (rollout_slider f)) as [[v due]|] eqn:Hd; [|by split; rewrite ?Hd].
    destruct (due <=? now); [|by split; rewrite ?Hd]. split; simpl; [|done|done].
    unfold slider_sync. destruct (Z.eqb_spec v (rolloutPercentage f)); simpl; [|done]. by rewrite Hs.
  - destruct (addUser_ok (userInput f) _ Hu Hp) as [H1 H2]. destruct (addUser _ _); split; done.
  - split; [done|by apply NoDup_filter|]. simpl. apply Forall_forall. intros x [_ Hx]%list_elem_of_filter.
    rewrite Forall_forall in Hp. by apply Hp.
Qed.

(** The percentage shown and the percentage saved.  Whatever is typed,
    slid, added and submitted, 200 ms after the last move of the slider the
    number beside it is the percentage a submit sends; the targeted users stay
    free of blanks and repeats.  Before the timer, the submit sends the
    percentage from before the slide. *)
Theorem slider_settles start f v now now' :
  settled start → reachable start f →
  let slid := edit_form (ESlide v now) f in
  slider_text (rollout_slider slid) = show v ++ js "%" ∧
  ui_rollout_percentage (update_input slid) = ui_rollout_percentage (update_input f) ∧
  (now' < now + 200 → edit_form (ETimer now') slid = slid) ∧
  (now + 200 ≤ now' →
     let done := edit_form (ETimer now') slid in
     rolloutPercentage done = v ∧ slider_text (rollout_slider done) = show (rolloutPercentage done) ++ js "%") ∧
  (debounce (rollout_slider f) = None → slider_text (rollout_slider f) = show (rolloutPercentage f) ++ js "%") ∧
  NoDup (targetedUsers f) ∧ Forall (λ u, u ≠ []) (targetedUsers f).
Proof.
  intros Hst Hr. assert (settled f) as [Hs Hu Hp].
  { induction Hr as [|e f _ IH|f _ [? ? ?]]; [done|by apply settled_edit|by split]. }
  cbn zeta. cbn [edit_form set_slider rollout_slider handleChange debounce localValue update_input
    ui_rollout_percentage rolloutPercentage slider_text]. unfold DEBOUNCE. split_and!; try done.
  - intros H. by rewrite (proj2 (Z.leb_gt _ _)) by lia.
  - intros H. rewrite (proj2 (Z.leb_le _ _)) by lia. simpl. split; [done|].
    unfold slider_sync. by destruct (v =? rolloutPercentage f).
  - intros Hd. rewrite Hd in Hs. unfold slider_text. by rewrite Hs.
Qed.

(** ** Witnesses *)
Definition typed_form : form :=
  fold_left (λ f e, edit_form e f) [EKey (js "new-flag"); EEnabled true; ESlide 40 1000; ETimer 1200] mount_new.

Lemma form_agrees_with_server_witness :
  isEdit typed_form = false ∧
  let '(res, s') := handle_CreateFlag show 3000 (js "id-2") (Some (create_input typed_form)) demo_server in
  match (handleSubmit typed_form).2 with
  | Some call =>
      call = inl (create_input typed_form) ∧ errors (handleSubmit typed_form).1 = [] ∧
      (rs_status res = 201 ∨ rs_status res = 409 ∨ rs_status res = 500)
  | None => errors (handleSubmit typed_form).1 ≠ [] ∧ rs_status res = 400 ∧ s' = demo_server
  end.
Proof. split; [reflexivity|]. exact (form_agrees_with_server show typed_form 3000 (js "id-2") demo_server eq_refl). Defined.

(** Two administrators: this page loaded version 1, the other one saved
    version 2 with 75 %. *)
Definition loaded_page : page := fetched_flag (toResponse show demo_row) (open_page (js "id-1")).
Definition my_form : form := edit_form (EDescription (js "Dark theme, all pages")) (mount_edit (toResponse show demo_row)).
Definition their_server : server :=
  (handle_UpdateFlag show 2000 (js "id-1") (Some (demo_update 75)) demo_if_match demo_server).2.
Definition their_row : row :=
  mkRow (mkFlagConfig (js "id-1") (js "dark-mode") (js "Dark theme") true 75 [] 2) 1000 2000.

Lemma refetched_form_overwrites_witness :
  let p := set_form my_form loaded_page in
  let host := js "http://localhost:3000" in let api := js "http://api:8080" in
  ∃ res1 s1, save show host api (js "k") (js "/x") 3000 p their_server = Some (res1, s1) ∧ rs_status res1 = 409 ∧
    rows (s_db s1) = rows (s_db their_server) ∧
  let p2 := fetched_flag (toResponse show their_row) (update_failed (js "version conflict") (submit p).1) in
  ∃ res2 s2 g, save show host api (js "k") (js "/x") 4000 p2 s1 = Some (res2, s2) ∧ rs_status res2 = 200 ∧
    r_flag <$> GetByID (js "id-1") (s_db s2) = Some g ∧
    fc_description g = description my_form ∧ fc_enabled g = enabled my_form ∧
    fc_rollout_percentage g = rolloutPercentage my_form ∧ fc_targeted_users g = targetedUsers my_form.
Proof.
  apply (refetched_form_overwrites show (js "http://localhost:3000") (js "http://api:8080") (js "k") (js "/x")
    (set_form my_form loaded_page) my_form (toResponse show demo_row) their_server their_row 3000 4000);
    first [vm_compute; reflexivity | vm_compute; discriminate | vm_compute; split; discriminate || reflexivity].
Defined.

Lemma slider_settles_witness :
  let slid := edit_form (ESlide 80 5000) typed_form in
  settled mount_new ∧
  slider_text (rollout_slider slid) = show 80 ++ js "%" ∧
  ui_rollout_percentage (update_input slid) = Some 40 ∧
  rolloutPercentage (edit_form (ETimer 5200) slid) = 80.
Proof.
  assert (settled mount_new) as Hm by (split; [reflexivity|apply NoDup_nil_2|apply Forall_nil_2]).
  assert (reachable mount_new typed_form) as Hr by (unfold typed_form; cbn [fold_left]; repeat apply reach_edit; apply reach_start).
  destruct (slider_settles mount_new typed_form 80 5000 5200 Hm Hr) as (H1 & H2 & _ & H3 & _).
  split; [exact Hm|]. split; [exact H1|]. split; [exact H2|]. apply H3. lia.
Defined.
