(* ===== verification/Teach.v ===== *)
(** * The teaching layer

    The Explain switch and the panels that follow it
    ([components/explain/ExplainProvider.tsx], [ExplainToggle.tsx],
    [GuideCallout.tsx], [AdvancedDetails.tsx]), the guided tour
    ([GuidedTour.tsx]), the glossary ([lib/glossary.ts], [Term.tsx],
    [app/glossary/page.tsx]) and the Learn page ([app/learn/page.tsx]). *)
From S2P Require Import Prelude JsMap Types Json.

(** ** [window.localStorage]

    Shared by the tabs of a browser; in private modes reading or writing can
    throw. *)
Record storage := mkStorage { reads_throw : bool; writes_throw : bool; items : list (jstr * jstr) }.

(** [None] is a throw, [Some None] a missing item. *)
Definition getItem (k : jstr) (s : storage) : option (option jstr) :=
  if reads_throw s then None else Some (map_get (items s) k).
(** [setItem] in a [try] that ignores the throw *)
Definition setItem (k v : jstr) (s : storage) : storage :=
  if writes_throw s then s else mkStorage (reads_throw s) (writes_throw s) (map_set (items s) k v).

Lemma getItem_setItem k v s :
  getItem k (setItem k v s) = if reads_throw s then None
                              else if writes_throw s then getItem k s else Some (Some v).
Proof.
  unfold setItem, getItem. destruct (writes_throw s), (reads_throw s) eqn:E; simpl; rewrite ?E; try done.
  by rewrite map_get_set_eq.
Qed.

(** ** [ExplainProvider.tsx] *)
Module Explain.

Definition STORAGE_KEY : jstr := js "flagplane-explain".

Definition readExplain (s : storage) : bool :=
  match getItem STORAGE_KEY s with
  | Some (Some v) => negb (bool_decide (v = js "0"))
  | _ => true
  end.
Definition stored_text (v : bool) : jstr := if v then js "1" else js "0".

(** The value each tab renders, and whether a [storage] event is on its way. *)
Record tab := mkTab { shown : bool; event_due : bool }.
Record world := mkWorld { store : storage; tabs : list tab }.

(** [writeExplain] in tab [i]: the tab's own listeners run; the browser sends
    the event to the other tabs when the stored text changed. *)
Definition writeExplain (i : nat) (v : bool) (w : world) : world :=
  let s := setItem STORAGE_KEY (stored_text v) (store w) in
  let changed := negb (bool_decide (getItem STORAGE_KEY s = getItem STORAGE_KEY (store w))) in
  mkWorld s (imap (λ j t, if decide (j = i) then mkTab (readExplain s) (event_due t)
                          else mkTab (shown t) (event_due t || changed)) (tabs w)).

Definition setExplain := writeExplain.
Definition toggleExplain (i : nat) (w : world) : world := writeExplain i (negb (readExplain (store w))) w.
(** [onStorage] with the key of this store *)
Definition deliver (i : nat) (w : world) : world :=
  mkWorld (store w) (alter (λ t, mkTab (readExplain (store w)) false) i (tabs w)).
(** A tab opens; its first snapshot on the client is the stored value. *)
Definition open_tab (w : world) : world := mkWorld (store w) (tabs w ++ [mkTab (readExplain (store w)) false]).

Inductive reachable : world → Prop :=
| reach_start s : reachable (mkWorld s [])
| reach_open w : reachable w → reachable (open_tab w)
| reach_set i v w : reachable w → reachable (setExplain i v w)
| reach_toggle i w : reachable w → reachable (toggleExplain i w)
| reach_deliver i w : reachable w → reachable (deliver i w).

(** [GuideCallout] renders its children or nothing. *)
Definition GuideCallout {A} (explain : bool) (children : A) : option A := if explain then Some children else None.

(** [ExplainToggle]: the switch's state and its tooltip. *)
Definition ExplainToggle (explain : bool) : bool * jstr :=
  (explain,
   if explain then js "Explain is on — guide notes shown, dense detail tucked away. Click for the pro view."
   else js "Explain is off — pro view. Click to bring back the guided explanations.").

(** [AdvancedDetails]: open, and the switch as last seen. *)
Record details := mkDetails { open : bool; prevExplain : bool }.
Definition mount_details (explain : bool) : details := mkDetails (negb explain) explain.
(** The set-state during render *)
Definition sync_details (explain : bool) (d : details) : details :=
  if Bool.eqb explain (prevExplain d) then d else mkDetails (negb explain) explain.
Definition click_details (d : details) : details := mkDetails (negb (open d)) (prevExplain d).

Definition agrees (w : world) : Prop :=
  ∀ i t, tabs w !! i = Some t → event_due t = false → shown t = readExplain (store w).

Lemma readExplain_same s s' :
  getItem STORAGE_KEY s = getItem STORAGE_KEY s' → readExplain s = readExplain s'.
Proof. unfold readExplain. by intros ->. Qed.

Lemma agrees_write i v w : agrees w → agrees (writeExplain i v w).
Proof.
  intros Ha j t. unfold writeExplain. cbn [tabs store]. rewrite list_lookup_imap.
  destruct (tabs w !! j) as [t0|] eqn:Hj; [|done]. cbn [fmap option_fmap option_map].
  intros [= <-]. case_decide; simpl; [done|]. intros Hd. apply orb_false_iff in Hd as [Hd Hc].
  rewrite (Ha j t0 Hj Hd). apply negb_false_iff, bool_decide_eq_true in Hc. by apply readExplain_same.
Qed.

Lemma reachable_agrees w : reachable w → agrees w.
Proof.
  induction 1 as [s|w _ IH|i v w _ IH|i w _ IH|i w _ IH].
  - intros i t. done.
  - intros i t. unfold open_tab. simpl. rewrite lookup_app. destruct (tabs w !! i) eqn:Hi.
    + intros [= <-]. by apply IH with i.
    + destruct (i - length (tabs w))%nat; simpl; [|done]. by intros [= <-].
  - by apply agrees_write.
  - by apply agrees_write.
  - intros j t. unfold deliver. simpl. destruct (decide (i = j)) as [->|Hne].
    + rewrite list_lookup_alter_eq. destruct (tabs w !! j); [|done]. by intros [= <-].
    + rewrite list_lookup_alter_ne by done. apply IH.
Qed.

Lemma readExplain_set v s :
  readExplain (setItem STORAGE_KEY (stored_text v) s)
  = if reads_throw s then true else if writes_throw s then readExplain s else v.
Proof.
  unfold readExplain. rewrite getItem_setItem. destruct (reads_throw s) eqn:Hr; [done|].
  destruct (writes_throw s); [done|]. destruct v; vm_compute; reflexivity.
Qed.

Lemma readExplain_blocked s : reads_throw s = true → readExplain s = true.
Proof. unfold readExplain, getItem. by intros ->. Qed.

(** The Explain switch.  Across any number of tabs and any order of
    clicks and storage events, every tab without an event on its way shows the
    stored choice; a click flips the tab clicked when the storage can be read and
    written, and does nothing at all when it cannot: the promise to ignore
    persistence failures ignores the click. *)
Theorem explain_switch (w : world) (i : nat) (t : tab) :
  reachable w → tabs w !! i = Some t → event_due t = false →
  shown t = readExplain (store w) ∧
  let works := negb (reads_throw (store w)) && negb (writes_throw (store w)) in
  shown <$> tabs (toggleExplain i w) !! i = Some (if works then negb (shown t) else shown t) ∧
  (∀ j t', tabs (toggleExplain i w) !! j = Some t' → event_due t' = false →
     shown t' = readExplain (store (toggleExplain i w))).
Proof.
  intros Hr Hi Hd. pose proof (reachable_agrees w Hr) as Ha. split; [by apply (Ha i)|].
  cbn zeta. split; [|by apply agrees_write].
  unfold toggleExplain, writeExplain. cbn [tabs]. rewrite list_lookup_imap, Hi. cbn [fmap option_fmap option_map].
  rewrite decide_True by done. cbn [shown]. rewrite readExplain_set, (Ha i t Hi Hd).
  destruct (reads_throw (store w)) eqn:E; simpl; [by rewrite readExplain_blocked|].
  by destruct (writes_throw (store w)).
Qed.

Definition two_tabs : world := open_tab (open_tab (mkWorld (mkStorage false false []) [])).

Lemma explain_switch_witness :
  let w := deliver 1 (toggleExplain 0 two_tabs) in
  tabs w !! 1%nat = Some (mkTab false false) ∧
  shown <$> tabs (toggleExplain 1 w) !! 1%nat = Some true.
Proof.
  split; [reflexivity|].
  apply (explain_switch (deliver 1 (toggleExplain 0 two_tabs)) 1 (mkTab false false)); [|reflexivity|reflexivity].
  apply reach_deliver, reach_toggle, reach_open, reach_open, reach_start.
Defined.
End Explain.

(** ** [GuidedTour.tsx] *)
Module Tour.

Definition SEEN_KEY : jstr := js "flagplane-tour-seen".

Definition seen (s : storage) : bool :=
  match getItem SEEN_KEY s with
  | None => true
  | Some v => bool_decide (v = Some (js "1"))
  end.
Definition markSeen (s : storage) : storage := setItem SEEN_KEY (js "1") s.

Record Step := mkStep {
  s_chapter : jstr; s_title : jstr; s_body : jstr; s_href : jstr; s_linkLabel : jstr }.

Definition STEPS : list Step :=
  [mkStep (js "1 · What a flag is")
     (js "A switch for your app")
     (js "A feature flag turns something on or off without a redeploy. Start on the Overview and flip hero-demo to watch one change travel end to end.")
     (js "/")
     (js "Go to Overview");
   mkStep (js "2 · Percentage rollout")
     (js "25% isn't random")
     (js "Each user gets a fixed dice roll from a hash of their id, so the same person always lands the same side. Drag the rollout on the Demo and watch who flips.")
     (js "/demo")
     (js "Go to Demo");
   mkStep (js "3 · Why ON or OFF")
     (js "Read the decision")
     (js "Targeting is an always-on allow-list checked before the percentage. The Demo's “Why ON/OFF?” card shows the exact three-step verdict for any user.")
     (js "/demo")
     (js "Open the explainer");
   mkStep (js "4 · Local evaluation")
     (js "The decision is instant")
     (js "The SDK evaluates flags on the device with zero network calls — that's why it's fast and works offline. Switch users on the Demo to see it decide per person.")
     (js "/demo")
     (js "Try the Demo");
   mkStep (js "5 · Real-time updates")
     (js "Pushed, not polled")
     (js "Changes are pushed to every client over a live stream (SSE). The Cluster page has a human-readable feed — flip a flag and watch it appear within milliseconds.")
     (js "/cluster")
     (js "See the live feed");
   mkStep (js "6 · Many servers")
     (js "Diverge, then converge")
     (js "Flags run on three servers at once. Right after a change they can briefly differ, then all agree — that's convergence. The Cluster hero shows it with real timings.")
     (js "/cluster")
     (js "Watch convergence");
   mkStep (js "7 · Versioning")
     (js "Every change is a save point")
     (js "Each edit bumps a version and is recorded durably, so edits are safe even when two people change a flag at once. Open a flag to see its history.")
     (js "/flags")
     (js "Go to Flags");
   mkStep (js "8 · Failure & recovery")
     (js "It heals itself")
     (js "Lose the messenger (Redis) or a server and writes still work — everyone holds last-known-good and catches up when it returns. The Resilience page watches it live.")
     (js "/resilience")
     (js "See resilience");
   mkStep (js "You're ready")
     (js "Now make it yours")
     (js "That's the whole system. Build a flag with zero risk in the Playground, or browse every concept as a card in Learn.")
     (js "/playground")
     (js "Open the Playground")].

(** The module's [override], and the component's state. *)
Record tour := mkTour { store : storage; override : option bool; step : nat; wasOpen : bool }.

Definition readOpen (t : tour) : bool := match override t with None => negb (seen (store t)) | Some b => b end.

(** The set-state during render *)
Definition sync (t : tour) : tour :=
  let open := readOpen t in
  if Bool.eqb open (wasOpen t) then t
  else mkTour (store t) (override t) (if open then 0 else step t) open.

Definition load (s : storage) : tour := sync (mkTour s None 0 false).
Definition openTour (t : tour) : tour := sync (mkTour (store t) (Some true) (step t) (wasOpen t)).
Definition closeTour (t : tour) : tour := sync (mkTour (markSeen (store t)) (Some false) (step t) (wasOpen t)).

Definition isFirst (t : tour) : bool := (step t =? 0)%nat.
Definition isLast (t : tour) : bool := (step t =? length STEPS - 1)%nat.
Definition set_step (n : nat) (t : tour) : tour := mkTour (store t) (override t) n (wasOpen t).

(** What can be clicked: every close button, link and Escape close the tour;
    Back is there past the first step, Next before the last. *)
Inductive label := LOpen | LClose | LBack | LNext | LReload.
Definition exec (e : label) (t : tour) : option tour :=
  match e with
  | LOpen => Some (openTour t)
  | LClose => if readOpen t then Some (closeTour t) else None
  | LBack => if readOpen t && negb (isFirst t) then Some (set_step (step t - 1) t) else None
  | LNext => if readOpen t && negb (isLast t) then Some (set_step (step t + 1) t) else None
  | LReload => Some (load (store t))
  end.

Record view := mkView {
  v_step : Step; v_dots : list bool; v_first : jstr; v_last : jstr }.
(** [Some None] is the crash of reading a step that is not there. *)
Definition GuidedTour (t : tour) : option (option view) :=
  if readOpen t then
    Some ((λ s, mkView s (imap (λ i _, bool_decide (i = step t)) STEPS)
                  (if isFirst t then js "Skip" else js "Back") (if isLast t then js "Done" else js "Next"))
            <$> STEPS !! step t)
  else None.

Inductive reachable (s : storage) : tour → Prop :=
| reach_load : reachable s (load s)
| reach_exec e t t' : reachable s t → exec e t = Some t' → reachable s t'.

(** A run in which nobody asks for the tour. *)
Inductive left_alone : tour → tour → Prop :=
| alone_refl t : left_alone t t
| alone_step t t1 e t2 : left_alone t t1 → e ≠ LOpen → exec e t1 = Some t2 → left_alone t t2.

Lemma sync_step t n : (step t < n)%nat → (step (sync t) < n)%nat.
Proof. unfold sync. destruct (Bool.eqb _ _); [done|]. simpl. destruct (readOpen t); [lia|done]. Qed.
Lemma sync_store t : store (sync t) = store t ∧ override (sync t) = override t.
Proof. unfold sync. by destruct (Bool.eqb _ _). Qed.

Lemma nine_steps : length STEPS = 9%nat.
Proof. reflexivity. Qed.

Lemma step_bound s t : reachable s t → (step t < length STEPS)%nat.
Proof.
  rewrite nine_steps. induction 1 as [|e t t' _ IH He]; [apply sync_step; simpl; lia|].
  destruct e; simpl in He.
  - simplify_eq. by apply sync_step.
  - destruct (readOpen t); simplify_eq. by apply sync_step.
  - destruct (readOpen t && _); simplify_eq. simpl. lia.
  - destruct (readOpen t && negb (isLast t)) eqn:E; simplify_eq. apply andb_true_iff in E as [_ E].
    unfold isLast in E. rewrite nine_steps in E. apply negb_true_iff, Nat.eqb_neq in E. simpl. lia.
  - simplify_eq. apply sync_step. simpl. lia.
Qed.

Definition quiet (t : tour) : Prop :=
  override t ≠ Some true ∧ (override t = None → seen (store t) = true) ∧ seen (store t) = true.

Lemma quiet_closed t : quiet t → readOpen t = false.
Proof. intros (Hn & Hs & _). unfold readOpen. destruct (override t) as [[]|]; [done|done|]. by rewrite Hs. Qed.

Lemma quiet_exec e t t' : quiet t → e ≠ LOpen → exec e t = Some t' → quiet t'.
Proof.
  intros Hq Hne He. pose proof (quiet_closed t Hq) as Hc. destruct Hq as (Hn & _ & Hs).
  destruct e; simpl in He; rewrite ?Hc in He; simplify_eq.
  unfold load, quiet. destruct (sync_store (mkTour (store t) None 0 false)) as [-> ->]. done.
Qed.

Lemma quiet_alone t t' : left_alone t t' → quiet t → quiet t'.
Proof. induction 1 as [|t t1 e t2 _ IH Hne He]; [done|]. intros Hq.
  exact (quiet_exec e t1 t2 (IH Hq) Hne He).
Qed.

(** The tour.  However it is opened, stepped, closed and reloaded, the
    step shown is one of the nine, and the ends have Skip and Done.  Once closed it
    stays closed through every later reload until somebody asks for it, unless
    the browser lets the mark be read but not written. *)
Theorem tour_is_polite (s : storage) (t : tour) :
  reachable s t →
  (readOpen t = true → ∃ v, GuidedTour t = Some (Some v)) ∧
  (readOpen t = true → reads_throw (store t) || negb (writes_throw (store t)) = true →
     ∃ t', exec LClose t = Some t' ∧ ∀ t'', left_alone t' t'' → GuidedTour t'' = None).
Proof.
  intros Hr. split.
  - intros Ho. unfold GuidedTour. rewrite Ho. pose proof (step_bound s t Hr) as Hb.
    apply lookup_lt_is_Some in Hb as [x Hx]. rewrite Hx. eauto.
  - intros Ho Hst. simpl. rewrite Ho. eexists. split; [done|]. intros t'' Hl.
    assert (quiet (closeTour t)) as Hq.
    { unfold closeTour, quiet. destruct (sync_store (mkTour (markSeen (store t)) (Some false) (step t) (wasOpen t))) as [-> ->].
      cbn [store override]. assert (seen (markSeen (store t)) = true) as ->; [|done].
      unfold seen, markSeen. rewrite getItem_setItem. destruct (reads_throw (store t)); [done|].
      destruct (writes_throw (store t)); [done|]. by apply bool_decide_eq_true. }
    unfold GuidedTour. by rewrite (quiet_closed _ (quiet_alone _ _ Hl Hq)).
Qed.

Definition fresh_browser : storage := mkStorage false false [].

Lemma tour_is_polite_witness :
  reachable fresh_browser (load fresh_browser) ∧ readOpen (load fresh_browser) = true ∧
  (∃ v, GuidedTour (load fresh_browser) = Some (Some v)) ∧
  ∃ t', exec LClose (load fresh_browser) = Some t' ∧ ∀ t'', left_alone t' t'' → GuidedTour t'' = None.
Proof.
  destruct (tour_is_polite fresh_browser (load fresh_browser) (reach_load _)) as [H1 H2].
  split; [apply reach_load|]. split; [reflexivity|]. split; [apply H1; reflexivity|apply H2; reflexivity].
Defined.
End Tour.

(** ** [lib/glossary.ts] *)
Module Glossary.

Record GlossaryEntry := mkGlossaryEntry {
  g_id : jstr; g_term : jstr; g_short : jstr; g_definition : jstr; g_analogy : jstr }.

Definition GLOSSARY : list GlossaryEntry :=
  [mkGlossaryEntry (js "rollout")
     (js "Percentage rollout")
     (js "Turn a feature on for a fixed share of users — the same people each time, no flicker.")
     (js "A flag can be on for only a slice of users — say 25%. It isn't random per request: each user gets a fixed dice roll from a hash of their id, so the same person always lands on the same side. You can dial the percentage up as you gain confidence.")
     (js "A bouncer with a permanent guest list and a dice that always rolls the same number for you.");
   mkGlossaryEntry (js "targeting")
     (js "Targeting")
     (js "An always-on allow-list of specific users, regardless of the rollout %.")
     (js "Named users who always get the feature, no matter the rollout percentage. Targeting is checked before the percentage, so your beta testers or your own account see the change immediately while everyone else waits for the rollout.")
     (js "The VIP list at the door — you're in, no dice roll needed.");
   mkGlossaryEntry (js "local-evaluation")
     (js "Local evaluation")
     (js "The SDK decides on/off on the device — no network call per check.")
     (js "The SDK holds the full flag config and computes on/off right on the device using the same math everywhere. Checking a flag is a local function call, not a request to the server, so it's instant and keeps working even if the network blips.")
     (js "Everyone carries the same rulebook, so nobody has to phone head office to make a call.");
   mkGlossaryEntry (js "sse")
     (js "SSE (real-time updates)")
     (js "The server pushes changes to the browser over a live stream.")
     (js "Server-Sent Events keep a one-way stream open from the server to the client. When a flag changes, the server pushes it down the stream immediately — the client doesn't poll on a timer. That's how a flip reaches every open page in milliseconds.")
     (js "A live radio you leave on, not you dialing the station every few seconds.");
   mkGlossaryEntry (js "propagation")
     (js "Propagation")
     (js "A change traveling from the database out to every server and client.")
     (js "The journey a flag change takes after you save it: written to Postgres, announced over Redis, applied by every backend, then pushed to connected clients. Propagation latency is how long that whole trip takes, measured end to end.")
     (js "A memo leaving the head office and reaching every desk in the building.");
   mkGlossaryEntry (js "convergence")
     (js "Convergence")
     (js "Every node agreeing on the same latest version.")
     (js "The cluster has converged when every reachable node reports the same config version. Right after a change they may briefly differ; convergence is the moment they all catch up and agree again.")
     (js "Everyone in the meeting finally on the same page number.");
   mkGlossaryEntry (js "config-version")
     (js "config_version")
     (js "A global counter that bumps by one on every committed change.")
     (js "One monotonically increasing number for the whole system, incremented on each committed change. It's the heartbeat you see in the top bar. Comparing versions tells you instantly whether a node or client is up to date or behind.")
     (js "A save-point counter — every save gets the next number.");
   mkGlossaryEntry (js "versioning")
     (js "Versioning")
     (js "Numbering every change so anyone can tell what they've applied.")
     (js "Every change is stamped with a version number. Clients apply versions in order and never go backwards, so it's always clear which state each client is on and whether it has missed anything.")
     (js "Save points in a game — each has a number, and you load them in order.");
   mkGlossaryEntry (js "reconcile")
     (js "Reconcile")
     (js "A client that fell behind replays the missed changes in order to catch up.")
     (js "If a client's stream drops and it misses events, on reconnect it asks the server for everything after its last version and replays those changes in order. It ends up at the exact latest state — no full reload, no guessing.")
     (js "You dozed off in the meeting, then quietly read the notes to catch up.");
   mkGlossaryEntry (js "optimistic-concurrency")
     (js "Optimistic concurrency")
     (js "Edits carry the version you saw; a stale edit is rejected with a 409.")
     (js "When you save an edit, the client sends the version it loaded (an If-Match check). If someone changed the flag in the meantime, the server rejects your write with a 409 conflict instead of silently overwriting their change. You re-load and retry on the fresh version.")
     (js "Editing a shared doc: if it changed under you, it warns you before you clobber someone's work.");
   mkGlossaryEntry (js "p99")
     (js "p99")
     (js "The value 99% of measurements come in under — a tail-latency check.")
     (js "A percentile. p99 propagation latency means 99% of changes propagated faster than this number; only the slowest 1% took longer. Watching the tail (p99), not just the average, is how you catch the bad-case experience.")
     (js "Not the typical commute — the near-worst day you should still plan around.");
   mkGlossaryEntry (js "readyz")
     (js "/readyz")
     (js "A per-node health check: is this server ready to serve correct data?")
     (js "Each backend exposes /readyz. It returns ready only when the node can reach its dependencies (Postgres, Redis) and holds current config. A load balancer uses it to route traffic only to nodes that can actually serve correct answers.")
     (js "A shop's 'Open' sign — it only flips on when the tills and lights actually work.");
   mkGlossaryEntry (js "event-log")
     (js "Event log")
     (js "The durable, ordered record of every flag change — the real history.")
     (js "Every change is appended to a durable log in the database, each with a monotonically increasing version. Unlike the live stream (which is ephemeral and can be missed), the log is the source of truth: a client that fell behind replays from it to catch up, and the version timeline is just this log, drawn.")
     (js "A ship's logbook — the messenger may not always reach you, but the log is always there to read back.");
   mkGlossaryEntry (js "determinism")
     (js "Determinism")
     (js "Same input, same answer, every time — no randomness, no flicker.")
     (js "A rollout is deterministic: a given user always gets the same verdict for a flag, on every page load and on every server. It isn't a fresh coin flip each request — it's a fixed roll derived from the user's id. That's why 25% means the same 25% of people, not a different quarter each time.")
     (js "A dice that always rolls the same number for you — your seat is fixed.");
   mkGlossaryEntry (js "hash-bucket")
     (js "Hash bucket")
     (js "A user's fixed 0–99 slot for a flag, from a hash of their id.")
     (js "To decide a percentage rollout without storing per-user state, the flag key and user id are hashed (FNV-1a) into a number 0–99 — the user's bucket. If the bucket is below the rollout percentage, they're in. Because the hash is fixed, so is the bucket, so the answer is stable and every server computes it identically.")
     (js "A permanent locker number — everyone can look it up and get the same one.")].

Definition GLOSSARY_BY_ID : list (jstr * GlossaryEntry) := map_of_entries (map (λ e, (g_id e, e)) GLOSSARY).

(** [Term]: plain text, or a link with its text and tooltip. *)
Inductive term_view := Plain (label : jstr) | TermLink (href label tooltip : jstr).
Definition Term (name : jstr) (children : option jstr) : term_view :=
  match map_get GLOSSARY_BY_ID name with
  | None => Plain (default name children)
  | Some e => TermLink (js "/glossary#" ++ g_id e) (default (g_term e) children) (g_short e)
  end.

(** [GlossaryPage]: anchor, term, definition and analogy of each card. *)
Definition GlossaryPage : list (jstr * jstr * jstr * jstr) :=
  map (λ e, (g_id e, g_term e, g_definition e, g_analogy e)) GLOSSARY.

(** ** [app/learn/page.tsx] *)
Record Chapter := mkChapter {
  c_n : Z; c_title : jstr; c_line : jstr; c_termId : option jstr; c_href : jstr; c_seeLabel : jstr }.

Definition CHAPTERS : list Chapter :=
  [mkChapter 1 (js "What a feature flag is")
     (js "A switch for your app you can flip without shipping new code — turn a feature on for everyone, no one, or just some people.")
     None (js "/") (js "Flip one on the Overview");
   mkChapter 2 (js "Percentage rollouts & determinism")
     (js "Turn a feature on for a fixed share of users. It isn't random per request: each user gets a stable dice roll, so the same person always lands the same side.")
     (Some (js "rollout")) (js "/demo") (js "Drag the rollout on the Demo");
   mkChapter 3 (js "Targeting")
     (js "An always-on allow-list of specific users, checked before the percentage — so your beta testers or your own account see a feature immediately.")
     (Some (js "targeting")) (js "/demo") (js "Check “Why ON/OFF?”");
   mkChapter 4 (js "Local evaluation")
     (js "The SDK decides on the device with identical math and zero network calls — that's why it's instant and keeps working offline.")
     (Some (js "local-evaluation")) (js "/demo") (js "Switch users on the Demo");
   mkChapter 5 (js "Real-time updates (SSE)")
     (js "Changes are pushed to every client the instant they happen over a live stream — a radio you tune into, not a number you keep re-dialing.")
     (Some (js "sse")) (js "/cluster") (js "Watch the live feed");
   mkChapter 6 (js "Many servers & convergence")
     (js "Flags run on three backends at once. Right after a change they can briefly differ, then all agree — that moment is convergence.")
     (Some (js "convergence")) (js "/cluster") (js "See it converge");
   mkChapter 7 (js "Versioning & safe edits")
     (js "Every change bumps a version and is recorded durably, so two people editing at once never silently clobber each other.")
     (Some (js "versioning")) (js "/flags") (js "Open a flag's history");
   mkChapter 8 (js "Failure & recovery")
     (js "Lose the messenger or a server and writes still work — everyone holds last-known-good and quietly catches up when it returns.")
     (Some (js "reconcile")) (js "/resilience") (js "Watch it recover")].

(** [String(n).padStart(2, "0")] *)
Definition padStart2 (s : jstr) : jstr := replicate (2 - length s) 48 ++ s.

Record chapter_card := mkChapterCard {
  k_number : jstr; k_title : jstr; k_line : jstr; k_analogy : option jstr; k_see : jstr * jstr;
  k_definition : option jstr }.
Definition ChapterCard (c : Chapter) : chapter_card :=
  let entry := match c_termId c with Some [] | None => None | Some t => map_get GLOSSARY_BY_ID t end in
  mkChapterCard (padStart2 (show (c_n c))) (c_title c) (c_line c) (g_analogy <$> entry)
    (c_href c, c_seeLabel c)
    (match entry with Some _ => (λ t, js "/glossary#" ++ t) <$> c_termId c | None => None end).
Definition LearnPage : list chapter_card := map ChapterCard CHAPTERS.

(** The ids used in a [Term] across the pages. *)
Definition term_names : list jstr :=
  [js "config-version"; js "convergence"; js "determinism"; js "event-log"; js "hash-bucket";
   js "local-evaluation"; js "optimistic-concurrency"; js "p99"; js "propagation"; js "readyz";
   js "reconcile"; js "rollout"; js "sse"; js "targeting"; js "versioning"].

Lemma glossary_ids_unique : NoDup (map g_id GLOSSARY).
Proof. apply (bool_decide_unpack _). vm_compute. exact I. Qed.

Definition is_link (v : term_view) : bool := match v with TermLink _ _ _ => true | Plain _ => false end.

(** Every id is its own anchor and URL-safe, every term used resolves, and
    every chapter but the first finds its analogy. *)
Lemma glossary_resolves :
  forallb (λ e, bool_decide (encodeURIComponent (g_id e) = Some (g_id e)) &&
                bool_decide (g_id <$> map_get GLOSSARY_BY_ID (g_id e) = Some (g_id e))) GLOSSARY = true ∧
  forallb (λ n, is_link (Term n None)) term_names = true ∧
  map (λ k, bool_decide (k_analogy k = None)) LearnPage = true :: replicate 7 false.
Proof. vm_compute. auto. Qed.
End Glossary.
