(* ===== verification/Shell.v ===== *)
(** * The shell around the pages ([app/layout.tsx], [app/providers.tsx])

    The providers every page is in, and the stores outside React that components
    read with [useSyncExternalStore]: the Explain switch
    ([ExplainProvider.tsx]), the tour ([GuidedTour.tsx]) and the preference for
    reduced motion ([hooks/useReducedMotion.ts]). *)
From S2P Require Import Prelude JsMap Types Teach.

(** ** Stores outside React *)
Section external_store.
(** The store, what a component reads of it, and what it reads on the server *)
Context {S A : Type} (getSnapshot : S → A) (getServerSnapshot : A).

(** A component that reads it: what it rendered last, and whether it has
    subscribed. *)
Record reader := mkReader { rd_value : A; rd_subscribed : bool }.
Record scene := mkScene { sg_store : S; sg_readers : gmap nat reader; sg_listeners : list nat }.

(** The markup of the server comes alive, a component is mounted later, React
    subscribes it after the commit, the store changes, a component goes. *)
Inductive shell_label := Hydrate (i : nat) | Mount (i : nat) | Subscribe (i : nat) | Change (s : S) | Unmount (i : nat).

(** A listener reads the store again and renders. *)
Definition call_listener (s : S) (r : gmap nat reader) (i : nat) : gmap nat reader :=
  alter (λ x, mkReader (getSnapshot s) (rd_subscribed x)) i r.

Definition shell_exec (l : shell_label) (g : scene) : option scene :=
  match l with
  | Hydrate i => match sg_readers g !! i with
                 | None => Some (mkScene (sg_store g) (<[i := mkReader getServerSnapshot false]> (sg_readers g)) (sg_listeners g))
                 | Some _ => None
                 end
  | Mount i => match sg_readers g !! i with
               | None => Some (mkScene (sg_store g) (<[i := mkReader (getSnapshot (sg_store g)) false]> (sg_readers g)) (sg_listeners g))
               | Some _ => None
               end
  | Subscribe i => match sg_readers g !! i with
                   | Some (mkReader _ false) =>
                       Some (mkScene (sg_store g) (<[i := mkReader (getSnapshot (sg_store g)) true]> (sg_readers g)) (sg_listeners g ++ [i]))
                   | _ => None
                   end
  | Change s => Some (mkScene s (foldl (call_listener s) (sg_readers g) (sg_listeners g)) (sg_listeners g))
  | Unmount i => Some (mkScene (sg_store g) (delete i (sg_readers g)) (filter (λ j, j ≠ i) (sg_listeners g)))
  end.

Inductive on_screen : scene → Prop :=
| scene_start s : on_screen (mkScene s ∅ [])
| scene_next l g g' : on_screen g → shell_exec l g = Some g' → on_screen g'.

Record scene_ok (g : scene) : Prop := {
  so_once : NoDup (sg_listeners g);
  so_listens i : i ∈ sg_listeners g ↔ ∃ v, sg_readers g !! i = Some (mkReader v true);
  so_current i v : sg_readers g !! i = Some (mkReader v true) → v = getSnapshot (sg_store g) }.

Lemma call_listeners_lookup s ls r i : NoDup ls →
  foldl (call_listener s) r ls !! i
  = if decide (i ∈ ls) then (λ x, mkReader (getSnapshot s) (rd_subscribed x)) <$> r !! i else r !! i.
Proof.
  intros Hn. revert r. induction Hn as [|j ls Hj _ IH]; intros r; [by rewrite decide_False by apply not_elem_of_nil|].
  cbn [foldl]. rewrite IH. unfold call_listener. rewrite lookup_alter. repeat case_decide; try set_solver; by subst.
Qed.

Lemma scene_step l g g' : shell_exec l g = Some g' → scene_ok g → scene_ok g'.
Proof.
  intros He [Hn Hl Hc]. destruct g as [s r ls], l as [i|i|i|s'|i]; cbn in *.
  - destruct (r !! i) eqn:Hi; [done|]. injection He as <-. split; cbn; [done| |].
    + intros j. rewrite Hl, lookup_insert. case_decide; [subst; rewrite Hi; naive_solver|done].
    + intros j v. rewrite lookup_insert. case_decide; [done|apply Hc].
  - destruct (r !! i) eqn:Hi; [done|]. injection He as <-. split; cbn; [done| |].
    + intros j. rewrite Hl, lookup_insert. case_decide; [subst; rewrite Hi; naive_solver|done].
    + intros j v. rewrite lookup_insert. case_decide; [done|apply Hc].
  - destruct (r !! i) as [[v0 []]|] eqn:Hi; [done| |done]. injection He as <-. split; cbn.
    + apply NoDup_app. split_and!; [done| |apply NoDup_singleton]. intros j Hj [->|[]%not_elem_of_nil]%elem_of_cons.
      apply Hl in Hj as [v Hv]. congruence.
    + intros j. rewrite elem_of_app, list_elem_of_singleton, Hl, lookup_insert. case_decide; naive_solver.
    + intros j v. rewrite lookup_insert. case_decide; [by intros [= <-]|apply Hc].
  - injection He as <-. split; cbn; [done| |].
    + intros j. rewrite call_listeners_lookup by done. case_decide as Hj; [|by rewrite Hl].
      split; [|done]. intros _. apply Hl in Hj as [v ->]. by eexists.
    + intros j v. rewrite call_listeners_lookup by done. case_decide as Hj; [|intros Hv; exfalso; apply Hj, Hl; eauto].
      apply Hl in Hj as [v0 ->]. cbn. by intros [= <-].
  - injection He as <-. split; cbn.
    + by apply NoDup_filter.
    + intros j. rewrite list_elem_of_filter, Hl, lookup_delete. case_decide; naive_solver.
    + intros j v. rewrite lookup_delete. case_decide; [done|apply Hc].
Qed.

(** However components come and go and the store changes, every component that
    has subscribed shows the store as it is, each is called once, and none after
    it has gone. *)
Lemma readers_follow g : on_screen g → scene_ok g.
Proof.
  induction 1 as [s|l g g' _ IH He]; [|by eapply scene_step].
  split; cbn; [constructor| |done]. intros i. rewrite lookup_empty. split; [by intros ?%not_elem_of_nil|by intros [? ?]].
Qed.
End external_store.

(** The preference for reduced motion: the media query's answer, [false] on the
    server. *)
Definition motion_snapshot (matches : bool) : bool := matches.
Definition motion_server : bool := false.
Definition useReducedMotion (r : @reader bool) : bool := rd_value r.
Definition motion_exec := shell_exec motion_snapshot motion_server.

(** The Explain switch is on, and the tour closed, on the server. *)
Definition explain_server : bool := true.
Definition explain_exec := shell_exec Explain.readExplain explain_server.
Definition tour_server : bool := false.
Definition tour_exec := shell_exec Tour.readOpen tour_server.

(** What the browser renders first is what the server sent, whatever is stored;
    once the component has subscribed it shows what is stored. *)
Lemma hydration_matches {S A} (getSnapshot : S → A) (server : A) s i :
  ∃ g g', shell_exec getSnapshot server (Hydrate i) (mkScene s ∅ []) = Some g
  ∧ rd_value <$> sg_readers g !! i = Some server
  ∧ shell_exec getSnapshot server (Subscribe i) g = Some g'
  ∧ rd_value <$> sg_readers g' !! i = Some (getSnapshot s).
Proof.
  do 2 eexists. split; [cbn; by rewrite lookup_empty|]. cbn. rewrite !lookup_insert_eq. cbn.
  split; [done|]. split; [done|]. cbn. by rewrite lookup_insert_eq.
Qed.

(** ** The providers *)
Inductive provider :=
| ThemeProvider (attribute defaultTheme : jstr) (enableSystem : bool)
| QueryClientProvider (staleTime : Z) (refetchOnWindowFocus : bool)
| ExplainProvider
| TooltipProvider (delay : Z).

(** The part of the tree that matters here: who is inside which provider. *)
Inductive tree := Within (p : provider) (kids : list tree) | Part (name : jstr).

Definition Providers (kids : list tree) : tree :=
  Within (ThemeProvider (js "class") (js "system") true)
    [Within (QueryClientProvider (5 * 1000) true) [Within ExplainProvider kids]].

Definition RootLayout (page : jstr) : tree :=
  Providers [Within (TooltipProvider 200)
    [Part (js "Sidebar"); Part (js "TopBar"); Part page; Part (js "GuidedTour"); Part (js "Toaster")]].

(** The providers around each part, innermost first. *)
Fixpoint parts (around : list provider) (t : tree) : list (jstr * list provider) :=
  match t with
  | Within p kids => flat_map (parts (p :: around)) kids
  | Part name => [(name, around)]
  end.

Definition is_explain (p : provider) : bool := match p with ExplainProvider => true | _ => false end.
Definition is_query (p : provider) : bool := match p with QueryClientProvider _ _ => true | _ => false end.
(** [useExplain]: the context, or the error it throws. *)
Definition useExplain (around : list provider) (explain : bool) : jstr + bool :=
  if existsb is_explain around then inr explain
  else inl (js "useExplain must be used within an ExplainProvider").

(** No part of the app can be without the switch or without a query client. *)
Lemma layout_provides page explain :
  Forall (λ x, useExplain x.2 explain = inr explain ∧ existsb is_query x.2 = true) (parts [] (RootLayout page)).
Proof. repeat constructor. Qed.
