(* ===== verification/Dashboard.v ===== *)
(** * The dashboard's queries and what keeps them fresh ([hooks/useFlags.ts],
    [hooks/useSSE.ts], [app/flags/[id]/page.tsx])

    The pages read the server through a cache of queries: their answers, the
    fetches under way, and what starts one - a page that opens, an interval, a
    mutation or an event of the stream.  The cache is a library, the interface
    [QueryClient], whose laws are its documented behaviour; what is fetched is the
    whole way of a request ([Router]). *)
From S2P Require Import Prelude JsMap Types Json JsonText Server Api Number Router Forms Shell.

Notation key := (list jstr).

(** A filter matches a key that it is a prefix of, or only its own if it is
    exact. *)
Definition matches (k : key) (exact : bool) (k' : key) : bool :=
  if exact then bool_decide (k' = k) else bool_decide (k `prefix_of` k').

(** The default of the client every page is under: five seconds *)
Definition staleTime : Z :=
  default 0 (head (omap (λ p, match p with QueryClientProvider t _ => Some t | _ => None end)
                        (default [] (snd <$> head (parts [] (Providers [Part (js "page")])))))).

(** What the pages ask of the library, and what happens to it.  [Observe] is a
    component that mounts or whose [enabled] changes, [Fetch] an interval or the
    window's focus; the [n]-th fetch of a key settles with a value, or without
    one when its retries are used up. *)
Inductive query_op :=
| Invalidate (k : key) (exact : bool)
| Cancel (k : key)
| Remove (k : key)
| Observe (o : nat) (k : key) (enabled : bool) (now : Z)
| Fetch (k : key)
| Settle (k : key) (n : nat) (r : option json) (now : Z).

Definition ends_fetch (op : query_op) (k : key) (n : nat) : bool :=
  match op with Settle k' n' _ _ => bool_decide (k' = k ∧ n' = n) | _ => false end.
Definition cancels (op : query_op) (k : key) : bool :=
  match op with Cancel k' | Remove k' => matches k' false k | _ => false end.
Definition removes (op : query_op) (k : key) : bool :=
  match op with Remove k' => matches k' false k | _ => false end.

(** The library: the value of a key with the time it came, whether an
    invalidation has come since, the number of the running fetch and of the
    fetches so far, and the components that observe it. *)
Class QueryClient := {
  cache : Type;
  q_data : cache → key → option (json * Z);
  q_invalid : cache → key → bool;
  q_running : cache → key → option nat;
  q_started : cache → key → nat;
  q_observers : cache → key → gset nat;
  q_do : query_op → cache → cache;
  (** Fetches are counted. *)
  running_started c k n : q_running c k = Some n → (n < q_started c k)%nat;
  started_mono op c k : (q_started c k ≤ q_started (q_do op c) k)%nat;
  (** A fetch goes on until it settles or is cancelled; others begin anew. *)
  do_running op c k :
    q_running (q_do op c) k = q_running c k
    ∨ (∃ n, q_running (q_do op c) k = Some n ∧ (q_started c k ≤ n)%nat)
    ∨ q_running (q_do op c) k = None ∧ ((∃ n, q_running c k = Some n ∧ ends_fetch op k n = true) ∨ cancels op k = true);
  (** Only the running fetch changes what is shown. *)
  do_data op c k : removes op k = false →
    q_data (q_do op c) k = q_data c k
    ∨ ∃ n j t, op = Settle k n (Some j) t ∧ q_running c k = Some n ∧ q_data (q_do op c) k = Some (j, t);
  settle_value c k n j t : q_running c k = Some n →
    q_data (q_do (Settle k n (Some j) t) c) k = Some (j, t) ∧ q_running (q_do (Settle k n (Some j) t) c) k = None;
  (** A query that nobody observes, or only disabled, is not fetched. *)
  do_unobserved op c k : q_observers (q_do op c) k = ∅ →
    q_running (q_do op c) k = q_running c k ∨ q_running (q_do op c) k = None;
  do_observers op c k : q_observers (q_do op c) k
    = match op with
      | Observe o k' enabled _ =>
          if bool_decide (k' = k) then if enabled then {[o]} ∪ q_observers c k else q_observers c k ∖ {[o]}
          else q_observers c k
      | _ => q_observers c k
      end;
  (** What is observed and shown is fetched again when it is invalidated, the
      fetch under way being cancelled; the rest is marked. *)
  invalidate_fetches c k exact k' : matches k exact k' = true → q_observers c k' ≠ ∅ → is_Some (q_data c k') →
    ∃ n, q_running (q_do (Invalidate k exact) c) k' = Some n ∧ (q_started c k' ≤ n)%nat;
  invalidate_marks c k exact k' : matches k exact k' = true → q_observers c k' = ∅ → is_Some (q_data c k') →
    q_invalid (q_do (Invalidate k exact) c) k' = true;
  (** A component that mounts is shown what is there, and starts a fetch if that
      is stale: absent, invalidated, or older than [staleTime]. *)
  observe_fresh c o k now j t : q_data c k = Some (j, t) → q_invalid c k = false → now < t + staleTime →
    q_running (q_do (Observe o k true now) c) k = q_running c k;
  observe_stale c o k now : (∀ j t, q_data c k = Some (j, t) → q_invalid c k = true ∨ t + staleTime ≤ now) →
    is_Some (q_running (q_do (Observe o k true now) c) k);
  cancel_stops c k k' : matches k false k' = true → q_running (q_do (Cancel k) c) k' = None;
  remove_drops c k k' : matches k false k' = true →
    q_data (q_do (Remove k) c) k' = None ∧ q_running (q_do (Remove k) c) k' = None }.

(** ** The dashboard *)

(** What a query asks for. *)
Definition queryFn (q : query) : call :=
  match q with QFlags => CList | QFlag id => CGet id | QHistory id => CHistory id end.

(** Answers on their way are by key and number of the fetch. *)
Record dash `{!QueryClient} := mkDash {
  d_server : server; d_cache : cache; d_stream : bool; d_answers : gmap (key * nat) json }.
Arguments mkDash {_} _ _ _ _.
#[global] Arguments dash {_}.

Definition with_op `{!QueryClient} (op : query_op) (d : dash) : dash :=
  mkDash (d_server d) (q_do op (d_cache d)) (d_stream d) (d_answers d).
Definition with_stream `{!QueryClient} (open : bool) (d : dash) : dash :=
  mkDash (d_server d) (d_cache d) open (d_answers d).

Inductive dlabel :=
| Served (e : env) (rq : http_request)              (* anybody's request *)
| Asked (e : env) (q : query)                       (* the running fetch, or a retry of it, at the server *)
| Answered (q : query) (n : nat) (now : Z)          (* its answer in the browser *)
| Failed (q : query) (n : nat) (now : Z)            (* its last retry failed *)
| Succeeded (m : mutation)                          (* the [onSuccess] of a mutation's hook *)
| Streaming (on : bool)                             (* [useSSE]'s effect and its cleanup *)
| Message (msg : sse_message)                       (* on the open stream *)
| Mounted (o : nat) (q : query) (enabled : bool) (now : Z)
| Unmounted (o : nat) (q : query)
| Polled (q : query)                                (* [refetchInterval], or the window's focus *)
| Refreshed (k : key)                               (* a page's own [invalidateQueries] *)
| Cancelled (k : key) | Removed (k : key).

(** [refetchOnWindowFocus: false] of [useFlag] *)
Definition query_focus (q : query) : bool := match q with QFlag _ => false | _ => true end.

Definition on_message `{!QueryClient} (msg : sse_message) (d : dash) : dash :=
  foldl (λ d k, with_op (Invalidate k false) d) d (createSSEConnection msg ≫= useSSE).

(** [handleSubmit]'s [onError] and [handleDelete] of the detail page, with what
    follows the deletion; the page is the component [o]. *)
Definition save_refused (id : jstr) : list dlabel := [Refreshed [js "flags"; id]].
Definition delete_clicked (o : nat) (id : jstr) (now : Z) : list dlabel :=
  [Cancelled [js "flags"; id]; Mounted o (QFlag id) false now].
Definition delete_answered (o : nat) (id : jstr) : list dlabel :=
  [Succeeded (MDelete id); Removed [js "flags"; id]; Unmounted o (QFlag id)].

Section dashboard.
Context `{!Mux} `{!QueryClient} (fmt_time : Z → jstr) (payload_json : FlagEvent → json).
Context (node_id admin_key sdk_key : jstr) (uuid : jstr → option jstr).
Context (base internal proxy_key : jstr).

Notation asks := (Router.dashboard fmt_time payload_json node_id admin_key sdk_key uuid base internal proxy_key).
Notation serves := (serve fmt_time node_id admin_key sdk_key uuid).

Definition dash_exec (l : dlabel) (d : dash) : option dash :=
  match l with
  | Served e rq => Some (mkDash (serves e rq (d_server d)).2 (d_cache d) (d_stream d) (d_answers d))
  | Asked e q =>
      n ← q_running (d_cache d) (query_key q);
      '(o, s) ← asks e (queryFn q) (d_server d);
      Some (mkDash s (d_cache d) (d_stream d)
        match o with Returned j => <[(query_key q, n) := j]> (d_answers d) | _ => d_answers d end)
  | Answered q n now =>
      j ← d_answers d !! (query_key q, n);
      Some (with_op (Settle (query_key q) n (Some j) now) d)
  | Failed q n now => Some (with_op (Settle (query_key q) n None now) d)
  | Succeeded m => let '(k, exact) := invalidates m in Some (with_op (Invalidate k exact) d)
  | Streaming on => Some (with_stream on d)
  | Message msg => if d_stream d then Some (on_message msg d) else None
  | Mounted o q enabled now => Some (with_op (Observe o (query_key q) (query_enabled q enabled) now) d)
  | Unmounted o q => Some (with_op (Observe o (query_key q) false 0) d)
  | Polled q =>
      if (query_focus q || bool_decide (is_Some (query_refetch q))) && bool_decide (q_observers (d_cache d) (query_key q) ≠ ∅)
      then Some (with_op (Fetch (query_key q)) d) else None
  | Refreshed k => Some (with_op (Invalidate k false) d)
  | Cancelled k => Some (with_op (Cancel k) d)
  | Removed k => Some (with_op (Remove k) d)
  end.

Fixpoint dash_run (ls : list dlabel) (d : dash) : option dash :=
  match ls with
  | [] => Some d
  | l :: ls => d' ← dash_exec l d; dash_run ls d'
  end.

(** A page that has just been loaded, before any query *)
Definition dash_start (s : server) (c : cache) : dash := mkDash s c false ∅.
Definition dash_reachable (d : dash) : Prop := ∃ s c ls, dash_run ls (dash_start s c) = Some d.

(** The server moves by requests, the dashboard's and others'. *)
Definition moves (s s' : server) : Prop := ∃ e rq, s' = (serves e rq s).2.

Lemma asks_moves e c s o s' : asks e c s = Some (o, s') → moves s s'.
Proof.
  unfold Router.dashboard, upstream. intros (p & _ & Hp)%bind_Some.
  apply bind_Some in Hp as ([r s1] & Hu & [= _ <-]). apply bind_Some in Hu as (t & _ & Hu).
  destruct (serves _ _ s) as [a s2] eqn:Hs. apply bind_Some in Hu as (r' & _ & [= _ <-]).
  eexists _, _. by rewrite Hs.
Qed.

Lemma query_key_inj q q' : query_key q = query_key q' → q = q'.
Proof. by destruct q, q'; intros [=]; subst. Qed.

(** The operations of the library a label comes to. *)
Definition dash_ops (l : dlabel) (d : dash) : list query_op :=
  match l with
  | Served _ _ | Asked _ _ | Streaming _ => []
  | Answered q n now => match d_answers d !! (query_key q, n) with Some j => [Settle (query_key q) n (Some j) now] | None => [] end
  | Failed q n now => [Settle (query_key q) n None now]
  | Succeeded m => [Invalidate (invalidates m).1 (invalidates m).2]
  | Message msg => (λ k, Invalidate k false) <$> (createSSEConnection msg ≫= useSSE)
  | Mounted o q enabled now => [Observe o (query_key q) (query_enabled q enabled) now]
  | Unmounted o q => [Observe o (query_key q) false 0]
  | Polled q => [Fetch (query_key q)]
  | Refreshed k => [Invalidate k false]
  | Cancelled k => [Cancel k]
  | Removed k => [Remove k]
  end.
Notation q_all := (foldl (λ c op, q_do op c)).

Lemma on_message_parts msg d :
  on_message msg d = mkDash (d_server d) (q_all (d_cache d) ((λ k, Invalidate k false) <$> (createSSEConnection msg ≫= useSSE)))
    (d_stream d) (d_answers d).
Proof.
  unfold on_message. generalize (createSSEConnection msg ≫= useSSE). intros ks. revert d.
  induction ks as [|k ks IH]; intros d; [by destruct d|]. cbn [foldl fmap list_fmap]. by rewrite IH.
Qed.

Lemma exec_parts l d d' : dash_exec l d = Some d' →
  d_cache d' = q_all (d_cache d) (dash_ops l d)
  ∧ rtc moves (d_server d) (d_server d')
  ∧ (d_answers d' = d_answers d
     ∨ ∃ e q n j, l = Asked e q ∧ q_running (d_cache d) (query_key q) = Some n
         ∧ asks e (queryFn q) (d_server d) = Some (Returned j, d_server d')
         ∧ d_answers d' = <[(query_key q, n) := j]> (d_answers d)).
Proof.
  destruct l as [e rq|e q|q n t|q n t|m|on|msg|o q en t|o q|q|k|k|k]; cbn [dash_exec dash_ops]; intros Hl;
    try (simplify_eq; split_and!; [done|by apply rtc_refl|by left]).
  - simplify_eq. split_and!; [done|apply rtc_once; by exists e, rq|by left].
  - apply bind_Some in Hl as (n & Hn & Hx). apply bind_Some in Hx as ([o s] & Ho & [= <-]).
    split_and!; [done|apply rtc_once; by eapply asks_moves|].
    destruct o as [j| | |]; [right|by left..]. by exists e, q, n, j.
  - apply bind_Some in Hl as (j & Hj & [= <-]). rewrite Hj. split_and!; [done|by apply rtc_refl|by left].
  - destruct (invalidates m) as [k exact]. simplify_eq. split_and!; [done|by apply rtc_refl|by left].
  - destruct (d_stream d); simplify_eq. rewrite on_message_parts. split_and!; [done|by apply rtc_refl|by left].
  - case_match; simplify_eq. split_and!; [done|by apply rtc_refl|by left].
Qed.

(** No answer is ahead of the fetches. *)
Definition answers_ok (d : dash) : Prop :=
  ∀ k n j, d_answers d !! (k, n) = Some j → (n < q_started (d_cache d) k)%nat.

Lemma all_started ops c k : (q_started c k ≤ q_started (q_all c ops) k)%nat.
Proof. revert c. induction ops as [|op ops IH]; intros c; [done|]. cbn. etrans; [apply started_mono|apply IH]. Qed.

Lemma exec_answers l d d' : dash_exec l d = Some d' → answers_ok d → answers_ok d'.
Proof.
  intros (Hc & _ & Ha)%exec_parts Hd k n j Hj. rewrite Hc.
  assert (n < q_started (d_cache d) k)%nat; [|eapply Nat.lt_le_trans; [done|apply all_started]].
  destruct Ha as [Ha|(e & q & n' & j' & -> & Hn & _ & Ha)]; rewrite Ha in Hj; [by eapply Hd|].
  apply lookup_insert_Some in Hj as [[[= <- <-] _]|[_ Hj]]; [by apply running_started|by eapply Hd].
Qed.

Lemma run_answers ls d d' : dash_run ls d = Some d' → answers_ok d → answers_ok d'.
Proof.
  revert d. induction ls as [|l ls IH]; intros d; cbn; [by intros [= <-]|].
  intros (d1 & H1 & H2)%bind_Some Hd. eapply IH; [exact H2|]. by eapply exec_answers.
Qed.

Lemma reachable_answers d : dash_reachable d → answers_ok d.
Proof. intros (s & c & ls & Hr). eapply run_answers; [exact Hr|]. intros k n j. cbn. by rewrite lookup_empty. Qed.

(** ** Freshness *)

(** What refreshes a query: the success of a mutation - the list only, if a flag
    was deleted -, an event of the stream, a page. *)
Definition refreshes (l : dlabel) (q : query) : bool :=
  match l with
  | Succeeded (MDelete _) => match q with QFlags => true | _ => false end
  | Succeeded _ => true
  | Message (MUpdated (Some _)) | Message (MDeleted (Some _)) => true
  | Refreshed k => bool_decide (k `prefix_of` query_key q)
  | _ => false
  end.

(** Nothing ends a fetch of the query but its answer. *)
Definition undisturbed (q : query) (l : dlabel) : bool :=
  match l with
  | Failed q' _ _ => negb (bool_decide (query_key q' = query_key q))
  | Cancelled k | Removed k => negb (matches k false (query_key q))
  | _ => true
  end.

Lemma refreshes_ops l q d : refreshes l q = true →
  ∃ k exact, dash_ops l d = [Invalidate k exact] ∧ matches k exact (query_key q) = true.
Proof.
  intros Hl. assert (bool_decide ([js "flags"] `prefix_of` query_key q) = true) as Hall.
  { apply bool_decide_eq_true. destruct q; by eexists. }
  destruct l as [| | | |m| |[[f|]|[k|]|]| | | |k| |]; try done; eexists _, _; (split; [reflexivity|]); try done.
  destruct m, q; done.
Qed.

(** What a cache shows and fetches of [k] after the fetches up to [N]. *)
Record cache_since (k : key) (N : nat) (old : option (json * Z)) (P : json → Prop) (c : cache) : Prop := {
  cs_started : (N ≤ q_started c k)%nat;
  cs_running n : q_running c k = Some n → (N ≤ n)%nat;
  cs_data : q_data c k = old ∨ q_data c k = None ∨ ∃ j t, q_data c k = Some (j, t) ∧ P j }.
Definition on_its_way (k : key) (P : json → Prop) (c : cache) : Prop :=
  is_Some (q_running c k) ∨ ∃ j t, q_data c k = Some (j, t) ∧ P j.

Lemma op_since k N old P op c :
  (∀ n j t, op = Settle k n (Some j) t → (N ≤ n)%nat → P j) →
  cache_since k N old P c → cache_since k N old P (q_do op c).
Proof.
  intros Hop [Hs Hr Hd]. split.
  - etrans; [exact Hs|apply started_mono].
  - intros n Hn. destruct (do_running op c k) as [He|[(m & He & Hm)|[He _]]]; rewrite He in Hn; [by apply Hr| |done].
    simplify_eq. by etrans.
  - destruct (removes op k) eqn:Hrm.
    + destruct op; try done. right; left. by apply remove_drops.
    + destruct (do_data op c k Hrm) as [->|(n & j & t & -> & Hn & ->)]; [exact Hd|].
      right; right. exists j, t. split; [done|]. eapply Hop; [done|by apply Hr].
Qed.

Lemma op_on_its_way k N old P op c :
  (∀ n j t, op = Settle k n (Some j) t → (N ≤ n)%nat → P j) → (∀ n t, op ≠ Settle k n None t) → cancels op k = false →
  cache_since k N old P c → on_its_way k P c → on_its_way k P (q_do op c).
Proof.
  intros Hop Hf Hc Hs [Hr|(j & t & Hd & HP)].
  - destruct (do_running op c k) as [He|[(m & He & _)|[_ [(n & Hn & Hst)|Hx]]]]; [left; by rewrite He|left; by rewrite He| |congruence].
    destruct op as [| | | | |k' n' r t]; try done. cbn in Hst. apply bool_decide_eq_true in Hst as [-> ->].
    destruct r as [j|]; [|by destruct (Hf n t)]. right. exists j, t.
    split; [by apply settle_value|]. eapply Hop; [done|]. by eapply cs_running.
  - right. assert (removes op k = false) as Hrm by (by destruct op).
    destruct (do_data op c k Hrm) as [->|(n & j' & t' & -> & Hn & ->)]; [by exists j, t|].
    exists j', t'. split; [done|]. eapply Hop; [done|]. by eapply cs_running.
Qed.

Section refreshing.
Context (q : query) (N : nat) (old : option (json * Z)) (s0 : server).

(** An answer to a question put to the server since it was in [s0]. *)
Definition fresh (s : server) (j : json) : Prop :=
  ∃ s1 e s2, rtc moves s0 s1 ∧ asks e (queryFn q) s1 = Some (Returned j, s2) ∧ rtc moves s2 s.

Lemma fresh_mono s s' j : rtc moves s s' → fresh s j → fresh s' j.
Proof. intros Hm (s1 & e & s2 & H1 & H2 & H3). exists s1, e, s2. split_and!; [done..|by etrans]. Qed.

Record since (d : dash) : Prop := {
  si_cache : cache_since (query_key q) N old (fresh (d_server d)) (d_cache d);
  si_answers n j : d_answers d !! (query_key q, n) = Some j → (N ≤ n)%nat → fresh (d_server d) j;
  si_moves : rtc moves s0 (d_server d) }.

Lemma cache_since_mono s s' c : rtc moves s s' →
  cache_since (query_key q) N old (fresh s) c → cache_since (query_key q) N old (fresh s') c.
Proof.
  intros Hm [Hs Hr Hd]. split; [done..|]. destruct Hd as [?|[?|(j & t & ? & ?)]]; [by left|by right; left|].
  right; right. exists j, t. split; [done|]. by eapply fresh_mono.
Qed.

(** The operations of a label, on the answers of a dashboard. *)
Lemma ops_settle l d n j t : since d →
  Settle (query_key q) n (Some j) t ∈ dash_ops l d → (N ≤ n)%nat → fresh (d_server d) j.
Proof.
  intros Hd Hin Hn. destruct l as [| |q' n' t'| | | |msg| | | | | |]; cbn [dash_ops] in Hin; try set_solver.
  destruct (d_answers d !! (query_key q', n')) eqn:Hj; [|set_solver].
  apply list_elem_of_singleton in Hin as [= Hk -> -> ->]. rewrite <- Hk in Hj. by eapply si_answers.
Qed.

Lemma ops_since s ops c :
  (∀ n j t, Settle (query_key q) n (Some j) t ∈ ops → (N ≤ n)%nat → fresh s j) →
  cache_since (query_key q) N old (fresh s) c → cache_since (query_key q) N old (fresh s) (q_all c ops).
Proof.
  revert c. induction ops as [|op ops IH]; intros c Hops Hc; [done|]. cbn. apply IH.
  - intros n j t Hin. apply (Hops n j t). by right.
  - apply op_since; [|done]. intros n j t ->. apply (Hops n j t). by left.
Qed.

Lemma exec_since l d d' : dash_exec l d = Some d' → since d → since d'.
Proof.
  intros Hl Hd. pose proof (exec_parts l d d' Hl) as (Hc & Hm & Ha). destruct (id Hd) as [Hca Han Hmo]. split.
  - rewrite Hc. eapply cache_since_mono; [exact Hm|]. apply ops_since; [|done]. intros n j t Hin Hn. by eapply ops_settle.
  - intros n j Hj Hn. destruct Ha as [Ha|(e & q' & n' & j' & -> & Hr & Hq & Ha)]; rewrite Ha in Hj.
    + eapply fresh_mono; [exact Hm|]. by eapply Han.
    + apply lookup_insert_Some in Hj as [[[= Hk <-] <-]|[_ Hj]]; [|by eapply fresh_mono; [exact Hm|eapply Han]].
      apply query_key_inj in Hk as ->. by exists (d_server d), e, (d_server d').
  - by etrans.
Qed.

Lemma run_since ls d d' : dash_run ls d = Some d' → since d → since d'.
Proof.
  revert d. induction ls as [|l ls IH]; intros d; cbn; [by intros [= <-]|].
  intros (d1 & H1 & H2)%bind_Some Hd. eapply IH; [exact H2|]. by eapply exec_since.
Qed.

Notation coming s := (on_its_way (query_key q) (fresh s)).

Lemma ops_coming s ops c :
  (∀ n j t, Settle (query_key q) n (Some j) t ∈ ops → (N ≤ n)%nat → fresh s j) →
  Forall (λ op, cancels op (query_key q) = false ∧ ∀ n t, op ≠ Settle (query_key q) n None t) ops →
  cache_since (query_key q) N old (fresh s) c → coming s c → coming s (q_all c ops).
Proof.
  revert c. induction ops as [|op ops IH]; intros c Hops Ho Hc Hw; [done|]. apply Forall_cons in Ho as [[Hx Hf] Ho].
  assert (∀ n j t, op = Settle (query_key q) n (Some j) t → (N ≤ n)%nat → fresh s j) as Hop
    by (intros n j t ->; apply (Hops n j t); by left).
  cbn. apply IH; [|done|by apply op_since|by eapply op_on_its_way]. intros n j t Hin. apply (Hops n j t). by right.
Qed.

Lemma undisturbed_ops l d : undisturbed q l = true →
  Forall (λ op, cancels op (query_key q) = false ∧ ∀ n t, op ≠ Settle (query_key q) n None t) (dash_ops l d).
Proof.
  intros Hl. destruct l as [| |q' n t|q' n t|m| |msg| | | | |k|k]; cbn [dash_ops undisturbed] in *;
    try (apply negb_true_iff in Hl); try apply Forall_nil_2; try (apply Forall_singleton; by split).
  - case_match; [by apply Forall_singleton|apply Forall_nil_2].
  - apply Forall_singleton. split; [done|]. intros n' t' [= Hk _ _]. by apply bool_decide_eq_false in Hl.
  - apply Forall_fmap. by apply Forall_true.
Qed.

Lemma exec_coming l d d' : dash_exec l d = Some d' → undisturbed q l = true → since d →
  coming (d_server d) (d_cache d) → coming (d_server d') (d_cache d').
Proof.
  intros Hl Hu Hd Hw. pose proof (exec_parts l d d' Hl) as (Hc & Hm & _).
  assert (coming (d_server d) (d_cache d')) as [?|(j & t & Hj & Hf)].
  - rewrite Hc. apply ops_coming; [|by apply undisturbed_ops|by apply si_cache|done]. intros n j t Hin Hn. by eapply ops_settle.
  - by left.
  - right. exists j, t. split; [done|]. by eapply fresh_mono.
Qed.

Lemma run_coming ls d d' : dash_run ls d = Some d' → Forall (λ l, undisturbed q l = true) ls → since d →
  coming (d_server d) (d_cache d) → coming (d_server d') (d_cache d').
Proof.
  revert d. induction ls as [|l ls IH]; intros d; cbn; [by intros [= <-]|].
  intros (d1 & H1 & H2)%bind_Some [Hl Hls]%Forall_cons Hd Hw.
  eapply IH; [exact H2|exact Hls|by eapply exec_since|by eapply exec_coming].
Qed.
End refreshing.

(** C12: What was refreshed is fresh.  When a mutation of this browser has
    succeeded, an event came from the stream or a page asked for it, each query
    that is on screen and refreshed by that is being fetched anew; and from then
    on, whatever requests cross, fail, are retried or arrive late, it never shows
    another answer than the one it shows but one to a question put to the server
    since - so with the mutation in it - and, as long as that fetch is neither
    failed nor cancelled, such an answer is on the screen or on its way. *)
Theorem refreshed_is_fresh (d d1 d2 : dash) (l : dlabel) (q : query) (ls : list dlabel) :
  dash_reachable d → refreshes l q = true →
  q_observers (d_cache d) (query_key q) ≠ ∅ → is_Some (q_data (d_cache d) (query_key q)) →
  dash_exec l d = Some d1 → dash_run ls d1 = Some d2 →
  is_Some (q_running (d_cache d1) (query_key q))
  ∧ (q_data (d_cache d2) (query_key q) = q_data (d_cache d) (query_key q) ∨ q_data (d_cache d2) (query_key q) = None
     ∨ ∃ j t, q_data (d_cache d2) (query_key q) = Some (j, t) ∧ fresh q (d_server d) (d_server d2) j)
  ∧ (Forall (λ l, undisturbed q l = true) ls →
     is_Some (q_running (d_cache d2) (query_key q))
     ∨ ∃ j t, q_data (d_cache d2) (query_key q) = Some (j, t) ∧ fresh q (d_server d) (d_server d2) j).
Proof.
  intros Ha%reachable_answers Hl Ho Hdata H1 H2. pose proof (exec_parts l d d1 H1) as (Hc & Hm & Han).
  destruct (refreshes_ops l q d Hl) as (k & exact & Hops & Hk). rewrite Hops in Hc. cbn in Hc.
  destruct (invalidate_fetches (d_cache d) k exact (query_key q) Hk Ho Hdata) as (n & Hn & Hge). rewrite <-Hc in Hn.
  assert (since q (q_started (d_cache d) (query_key q)) (q_data (d_cache d) (query_key q)) (d_server d) d1) as Hs.
  { split; [|intros m j Hj Hm'; exfalso|done].
    - rewrite Hc. split; [apply started_mono|intros m Hm'; rewrite <-Hc in Hm'; by simplify_eq|left].
      by destruct (do_data (Invalidate k exact) (d_cache d) (query_key q) eq_refl) as [?|(? & ? & ? & ? & _)].
    - destruct Han as [Han|(e & q' & n' & j' & -> & _)]; [|done]. rewrite Han in Hj. apply Ha in Hj. lia. }
  split; [by eexists|]. pose proof (run_since _ _ _ _ ls d1 d2 H2 Hs) as Hs2. split; [by destruct Hs2 as [[]]|].
  intros Hls. eapply run_coming; [exact H2|exact Hls|exact Hs|left; by eexists].
Qed.
(** A fetch that gets through is shown. *)
Lemma answer_is_shown (d : dash) (q : query) (e : env) (n : nat) (j : json) (s : server) (t : Z) :
  q_running (d_cache d) (query_key q) = Some n → asks e (queryFn q) (d_server d) = Some (Returned j, s) →
  ∃ d', dash_run [Asked e q; Answered q n t] d = Some d' ∧ q_data (d_cache d') (query_key q) = Some (j, t).
Proof.
  intros Hn Hq. cbn [dash_run dash_exec mbind option_bind]. rewrite Hn. cbn [option_bind]. rewrite Hq. cbn.
  rewrite lookup_insert_eq. cbn. eexists. split; [reflexivity|]. by apply settle_value.
Qed.

(** ** A flag that is gone *)
Definition opens (q : query) (l : dlabel) : bool :=
  match l with Mounted _ q' enabled _ => query_enabled q' enabled && bool_decide (query_key q' = query_key q) | _ => false end.

Lemma op_unobserved op c k : (∀ o now, op ≠ Observe o k true now) →
  q_observers c k = ∅ → q_running c k = None → q_observers (q_do op c) k = ∅ ∧ q_running (q_do op c) k = None.
Proof.
  intros Hop Ho Hr. assert (q_observers (q_do op c) k = ∅) as Ho'.
  { rewrite do_observers. destruct op as [| | |o k' [] now| |]; try done; case_bool_decide; subst; [|done|set_solver|done].
    by destruct (Hop o now). }
  split; [done|]. destruct (do_unobserved op c k Ho') as [He|He]; congruence.
Qed.

Lemma ops_unobserved ops c k : Forall (λ op, ∀ o now, op ≠ Observe o k true now) ops →
  q_observers c k = ∅ → q_running c k = None → q_observers (q_all c ops) k = ∅ ∧ q_running (q_all c ops) k = None.
Proof.
  intros Hops. revert c. induction Hops as [|op ops Hop _ IH]; intros c Ho Hr; [done|].
  cbn. destruct (op_unobserved op c k Hop Ho Hr). by apply IH.
Qed.

Lemma closed_ops q l d : opens q l = false → Forall (λ op, ∀ o now, op ≠ Observe o (query_key q) true now) (dash_ops l d).
Proof.
  intros Hl. destruct l as [| | | | | |msg|o q' en now| | | | |]; cbn [dash_ops]; try apply Forall_nil_2; try by apply Forall_singleton.
  - case_match; [by apply Forall_singleton|apply Forall_nil_2].
  - apply Forall_fmap. by apply Forall_true.
  - apply Forall_singleton. intros o' now' [= _ Hk He _]. cbn in Hl. by rewrite He, Hk, bool_decide_true in Hl.
Qed.

Lemma run_unobserved ls d d' q : Forall (λ l, opens q l = false) ls → dash_run ls d = Some d' →
  q_observers (d_cache d) (query_key q) = ∅ → q_running (d_cache d) (query_key q) = None →
  q_observers (d_cache d') (query_key q) = ∅ ∧ q_running (d_cache d') (query_key q) = None.
Proof.
  intros Hls. revert d. induction Hls as [|l ls Hl _ IH]; intros d; cbn; [by intros [= <-]|].
  intros (d1 & H1 & H2)%bind_Some Ho Hr. pose proof (exec_parts l d d1 H1) as (Hc & _).
  destruct (ops_unobserved (dash_ops l d) (d_cache d) (query_key q) (closed_ops q l d Hl) Ho Hr) as [Ho1 Hr1].
  rewrite <-Hc in Ho1, Hr1. by eapply IH.
Qed.
(** A deletion asks for nothing that is gone.  From the click on the page's
    button until a page of that flag opens, no fetch of its query is under way,
    so no question for it reaches the server, whatever mutations, events and polls
    come; and after the answer its data is dropped. *)
Lemma deleted_not_asked (o : nat) (id : jstr) (now : Z) (d d2 : dash) (ls : list dlabel) :
  q_observers (d_cache d) (query_key (QFlag id)) ⊆ {[o]} →
  Forall (λ l, opens (QFlag id) l = false) ls → dash_run (delete_clicked o id now ++ ls) d = Some d2 →
  (∀ e, dash_exec (Asked e (QFlag id)) d2 = None)
  ∧ (∀ d3, dash_run (delete_answered o id) d2 = Some d3 → q_data (d_cache d3) (query_key (QFlag id)) = None).
Proof.
  intros Ho Hls H2. cbn [delete_clicked app dash_run dash_exec mbind option_bind] in H2.
  replace (query_enabled (QFlag id) false) with false in H2 by (cbn; by rewrite andb_false_r).
  assert (matches [js "flags"; id] false (query_key (QFlag id)) = true) as Hk by (by apply bool_decide_eq_true).
  set (d1 := with_op _ (with_op _ d)) in H2.
  assert (q_observers (d_cache d1) (query_key (QFlag id)) = ∅) as Ho1.
  { cbn [d1 with_op d_cache]. rewrite !do_observers, bool_decide_true by done. set_solver. }
  assert (q_running (d_cache d1) (query_key (QFlag id)) = None) as Hr1.
  { cbn [d1 with_op d_cache] in *. destruct (do_unobserved _ _ _ Ho1) as [He|He]; rewrite He; [by apply cancel_stops|done]. }
  destruct (run_unobserved ls d1 d2 (QFlag id) Hls H2 Ho1 Hr1) as [_ Hr2]. split.
  - intros e. cbn [dash_exec]. by rewrite Hr2.
  - intros d3 H3. cbn in H3. simplify_eq. cbn [d_cache with_op].
    match goal with |- q_data (q_do ?op ?c) ?k = _ => destruct (do_data op c k eq_refl) as [->|(?&?&?&[=]&_)] end.
    by apply remove_drops.
Qed.

(** ** A flag that is opened again *)

(** Requests of others do not touch the cache. *)
Lemma served_keeps ls d d' : Forall (λ l, ∃ e rq, l = Served e rq) ls → dash_run ls d = Some d' →
  d_cache d' = d_cache d.
Proof.
  intros Hls. revert d. induction Hls as [|l ls (e & rq & ->) _ IH]; intros d; cbn; [by intros [= <-]|].
  intros H2. by rewrite (IH _ H2).
Qed.

(** [flag?.version], of the answer the page shows *)
Definition flag_version (j : json) : option Z :=
  match jget j (js "version") with Some (JNum v) => Some v | _ => None end.

(** C14: The detail page is not loaded fresh.  A flag whose page is opened within
    five seconds of its last answer, with no invalidation in between, is shown as
    of that answer and not asked for, whatever has been saved since; and as its
    save carries the version shown, the server refuses it as a change made by
    somebody else, although nobody has changed the flag since the page was
    opened. *)
Theorem detail_opens_stale (d d1 : dash) (ls : list dlabel) (o : nat) (id : jstr) (t now v : Z) (j : json) :
  id ≠ [] → flag_version j = Some v →
  q_data (d_cache d) (query_key (QFlag id)) = Some (j, t) → q_invalid (d_cache d) (query_key (QFlag id)) = false →
  now < t + staleTime → Forall (λ l, ∃ e rq, l = Served e rq) ls → dash_run ls d = Some d1 →
  ∃ d2, dash_exec (Mounted o (QFlag id) true now) d1 = Some d2
  ∧ q_data (d_cache d2) (query_key (QFlag id)) = Some (j, t)
  ∧ q_running (d_cache d2) (query_key (QFlag id)) = q_running (d_cache d) (query_key (QFlag id))
  ∧ d_server d2 = d_server d1
  ∧ (∀ e u r, (∀ t, Forall unit16 (fmt_time t)) → (∀ e, event_text e → json_ok (payload_json e)) →
       proxy_key = admin_key → db_text (s_db (d_server d2)) → Forall unit16 (e_id e) →
       call_ok uuid (CUpdate id u (flag_version j)) → no_fields u = false → bad_percentage u = false →
       GetByID id (s_db (d_server d2)) = Some r → v ≠ fc_version (r_flag r) →
       ∃ s, asks e (CUpdate id u (flag_version j)) (d_server d2)
              = Some (Thrown (js "This flag was changed by someone else. Reload and try again."), s)
            ∧ rows (s_db s) = rows (s_db (d_server d2))).
Proof.
  intros Hid Hver Hd Hi Ht Hls H1. rewrite Hver. apply served_keeps in H1 as Hc; [|done]. cbn [dash_exec]. eexists. split; [reflexivity|].
  cbn [with_op d_cache d_server]. rewrite Hc. split_and!; [| |done|].
  - match goal with |- q_data (q_do ?op ?c) ?k = _ => destruct (do_data op c k eq_refl) as [->|(?&?&?&[=]&_)] end. done.
  - cbn [query_enabled]. rewrite bool_decide_false by done. by eapply observe_fresh.
  - intros e u r Htx Hpl Hk Hdb He Hcall Hu Hp Hr Hv.
    pose proof (dashboard_reaches_service fmt_time payload_json node_id admin_key sdk_key uuid base internal proxy_key
      Htx Hpl e (CUpdate id u (Some v)) (d_server d1) Hdb He Hcall) as [Hs _].
    specialize (Hs Hk). cbn [service] in Hs. destruct Hcall as (_ & _ & Hv64).
    rewrite (handle_stale fmt_time (e_now e) id u _ (d_server d1) r v Hr Hu Hp (if_match_version_quoted v Hv64) Hv) in Hs.
    destruct Hs as [-> _]. by eexists.
Qed.
End dashboard.

(** ** A library that keeps these laws *)
Record view := mkView {
  v_data : option (json * Z); v_invalid : bool; v_busy : bool; v_count : nat; v_observers : gset nat }.
Definition v_started (v : view) : nat := if v_busy v then S (v_count v) else v_count v.
Definition v_running (v : view) : option nat := if v_busy v then Some (v_count v) else None.
Definition v_begin (v : view) : view :=
  mkView (v_data v) (v_invalid v) true (if v_busy v then S (v_count v) else v_count v) (v_observers v).
Definition v_end (v : view) : view :=
  mkView (v_data v) (v_invalid v) false (if v_busy v then S (v_count v) else v_count v) (v_observers v).
Definition v_mark (v : view) : view := mkView (v_data v) true (v_busy v) (v_count v) (v_observers v).
Definition v_show (x : option (json * Z)) (v : view) : view := mkView x false (v_busy v) (v_count v) (v_observers v).
Definition v_observe (s : gset nat) (v : view) : view := mkView (v_data v) (v_invalid v) (v_busy v) (v_count v) s.
Definition v_stale (now : Z) (v : view) : bool :=
  match v_data v with Some (_, t) => v_invalid v || (t + staleTime <=? now) | None => true end.

Definition v_do (op : query_op) (k : key) (v : view) : view :=
  match op with
  | Invalidate k' exact =>
      if matches k' exact k then
        if bool_decide (v_observers v ≠ ∅) then
          if bool_decide (is_Some (v_data v)) || negb (v_busy v) then v_begin (v_mark v) else v_mark v
        else v_mark v
      else v
  | Cancel k' => if matches k' false k then v_end v else v
  | Remove k' => if matches k' false k then v_show None (v_end v) else v
  | Observe o k' enabled now =>
      if bool_decide (k' = k) then
        if enabled then
          let w := v_observe ({[o]} ∪ v_observers v) v in
          if v_stale now v && negb (v_busy v) then v_begin w else w
        else v_observe (v_observers v ∖ {[o]}) v
      else v
  | Fetch k' => if bool_decide (k' = k ∧ v_observers v ≠ ∅) && negb (v_busy v) then v_begin v else v
  | Settle k' n r now =>
      if bool_decide (k' = k ∧ v_running v = Some n) then
        match r with Some j => v_show (Some (j, now)) (v_end v) | None => v_end v end
      else v
  end.

(** Case analysis on an operation and a view *)
Ltac view_cases :=
  intros; unfold v_running, v_started in *;
  repeat match goal with
  | v : view |- _ => destruct v as [? ? [] ? ?]
  | op : query_op |- _ => destruct op
  end; cbn in *; repeat (case_match; simplify_eq/=); boolify; simplify_eq/=; try done; try lia.

Lemma v_running_started v n : v_running v = Some n → (n < v_started v)%nat.
Proof. view_cases. Qed.
Lemma v_started_mono op k v : (v_started v ≤ v_started (v_do op k v))%nat.
Proof. view_cases. Qed.
Lemma v_do_running op k v :
  v_running (v_do op k v) = v_running v
  ∨ (∃ n, v_running (v_do op k v) = Some n ∧ (v_started v ≤ n)%nat)
  ∨ v_running (v_do op k v) = None ∧ ((∃ n, v_running v = Some n ∧ ends_fetch op k n = true) ∨ cancels op k = true).
Proof.
  view_cases; eauto. all: destruct_and?; simplify_eq; right; right; split; [done|left].
  all: eexists; split; [done|by apply bool_decide_eq_true].
Qed.
Lemma v_do_data op k v : removes op k = false →
  v_data (v_do op k v) = v_data v
  ∨ ∃ n j t, op = Settle k n (Some j) t ∧ v_running v = Some n ∧ v_data (v_do op k v) = Some (j, t).
Proof. view_cases; auto. all: destruct_and?; simplify_eq; right; eauto 10. Qed.
Lemma v_settle_value k n j t v : v_running v = Some n →
  v_data (v_do (Settle k n (Some j) t) k v) = Some (j, t) ∧ v_running (v_do (Settle k n (Some j) t) k v) = None.
Proof. view_cases. all: naive_solver. Qed.
Lemma v_do_unobserved op k v : v_observers (v_do op k v) = ∅ →
  v_running (v_do op k v) = v_running v ∨ v_running (v_do op k v) = None.
Proof. view_cases; auto. all: try (destruct_and?; done). all: set_solver. Qed.
Lemma v_do_observers op k v : v_observers (v_do op k v)
  = match op with
    | Observe o k' enabled _ =>
        if bool_decide (k' = k) then if enabled then {[o]} ∪ v_observers v else v_observers v ∖ {[o]}
        else v_observers v
    | _ => v_observers v
    end.
Proof. view_cases. Qed.
Lemma v_invalidate_fetches v k exact k' : matches k exact k' = true → v_observers v ≠ ∅ → is_Some (v_data v) →
  ∃ n, v_running (v_do (Invalidate k exact) k' v) = Some n ∧ (v_started v ≤ n)%nat.
Proof. intros Hm Ho [x Hx]. cbn [v_do]. rewrite Hm, bool_decide_true, Hx by done. destruct v as [? ? [] ? ?]; cbn; eauto. Qed.
Lemma v_invalidate_marks v k exact k' : matches k exact k' = true → v_observers v = ∅ → is_Some (v_data v) →
  v_invalid (v_do (Invalidate k exact) k' v) = true.
Proof. intros Hm Ho _. cbn [v_do]. rewrite Hm, bool_decide_false by (by intros []). done. Qed.
Lemma v_observe_fresh v o k now j t : v_data v = Some (j, t) → v_invalid v = false → now < t + staleTime →
  v_running (v_do (Observe o k true now) k v) = v_running v.
Proof.
  intros Hd Hi Ht. cbn [v_do]. rewrite bool_decide_true by done. unfold v_stale. rewrite Hd, Hi.
  by rewrite (proj2 (Z.leb_gt _ _)).
Qed.
Lemma v_observe_stale v o k now : (∀ j t, v_data v = Some (j, t) → v_invalid v = true ∨ t + staleTime ≤ now) →
  is_Some (v_running (v_do (Observe o k true now) k v)).
Proof.
  intros Hs. assert (v_stale now v = true) as Hst.
  { unfold v_stale. destruct (v_data v) as [[j t]|]; [|done]. destruct (Hs j t eq_refl) as [->|Ht%Z.leb_le]; [done|].
    by rewrite Ht, orb_true_r. }
  cbn [v_do]. rewrite bool_decide_true, Hst by done. destruct v as [? ? [] ? ?]; by eexists.
Qed.

#[local] Instance views : QueryClient.
Proof.
  refine {| cache := key → view; q_data c k := v_data (c k); q_invalid c k := v_invalid (c k);
    q_running c k := v_running (c k); q_started c k := v_started (c k); q_observers c k := v_observers (c k);
    q_do op c := λ k, v_do op k (c k) |}; intros.
  - by apply v_running_started.
  - apply v_started_mono.
  - apply v_do_running.
  - by apply v_do_data.
  - by apply v_settle_value.
  - by apply v_do_unobserved.
  - apply v_do_observers.
  - by apply v_invalidate_fetches.
  - by apply v_invalidate_marks.
  - by eapply v_observe_fresh.
  - by apply v_observe_stale.
  - cbn [v_do]. by case_match.
  - cbn [v_do]. by case_match.
Defined.

(** ** Witnesses *)
#[local] Existing Instance first_match.
Definition no_queries : cache := λ _, mkView None false false 0 ∅.
Notation demo_exec := (dash_exec show demo_payload (js "node-1") (js "k") (js "sdk") Some [] (js "http://lb") (js "k")).
Notation demo_runs := (dash_run show demo_payload (js "node-1") (js "k") (js "sdk") Some [] (js "http://lb") (js "k")).
Definition came_to (o : option dash) : dash := default (dash_start demo_server no_queries) o.
Lemma came_to_Some o : bool_decide (is_Some o) = true → o = Some (came_to o).
Proof. intros [d ->]%bool_decide_eq_true. done. Qed.

(** The list is read, a flag toggled, the list read again. *)
Definition read_once (o : nat) (q : query) : list dlabel := [Mounted o q true 0; Asked demo_env q; Answered q 0 10].
Definition toggling : dlabel :=
  Served demo_env (mkRequest (js "PATCH") (js "/api/admin/flags/id-1/toggle") [(js "x-admin-api-key", js "k")] None).
Definition list_again : list dlabel := [Asked demo_env QFlags; Answered QFlags 1 30].
Definition demo_toggled : dash := came_to (demo_runs (read_once 0 QFlags ++ [toggling]) (dash_start demo_server no_queries)).
Definition demo_refreshed : dash := came_to (demo_exec (Succeeded (MToggle (js "id-1"))) demo_toggled).
Definition demo_relisted : dash := came_to (demo_runs list_again demo_refreshed).
(** The first flag of the list on the screen *)
Definition first_enabled (d : dash) : option json :=
  '(j, _) ← q_data (d_cache d) (query_key QFlags);
  match jget j (js "flags") with Some (JArr (f :: _)) => jget f (js "enabled") | _ => None end.

Lemma refreshed_is_fresh_witness :
  first_enabled demo_toggled = Some (JBool true) ∧ first_enabled demo_relisted = Some (JBool false)
  ∧ is_Some (q_running (d_cache demo_refreshed) (query_key QFlags))
  ∧ ∃ t j, q_data (d_cache demo_relisted) (query_key QFlags) = Some (j, t)
      ∧ fresh show demo_payload (js "node-1") (js "k") (js "sdk") Some [] (js "http://lb") (js "k")
          QFlags (d_server demo_toggled) (d_server demo_relisted) j.
Proof.
  split; [vm_compute; reflexivity|]. split; [vm_compute; reflexivity|].
  destruct (refreshed_is_fresh show demo_payload (js "node-1") (js "k") (js "sdk") Some [] (js "http://lb") (js "k")
    demo_toggled demo_refreshed demo_relisted (Succeeded (MToggle (js "id-1"))) QFlags list_again) as (Hr & _ & Hf).
  - exists demo_server, no_queries, (read_once 0 QFlags ++ [toggling]). apply came_to_Some. vm_compute. reflexivity.
  - reflexivity.
  - vm_compute. discriminate.
  - vm_compute. eauto.
  - apply came_to_Some. vm_compute. reflexivity.
  - apply came_to_Some. vm_compute. reflexivity.
  - split; [exact Hr|]. destruct Hf as [[n Hn]|(j & t & Hj & Hf)].
    + apply Forall_cons_2; [reflexivity|]. apply Forall_cons_2; [reflexivity|apply Forall_nil_2].
    + exfalso. revert Hn. vm_compute. discriminate.
    + exists t, j. split; [exact Hj|exact Hf].
Defined.

(** A flag's page is read and left; somebody edits the flag; it is opened. *)
Definition editing : dlabel :=
  Served demo_env (mkRequest (js "PUT") (js "/api/admin/flags/id-1") [(js "x-admin-api-key", js "k")]
    (Some (stringify_update (demo_update 75)))).
Definition demo_left : dash :=
  came_to (demo_runs (read_once 1 (QFlag (js "id-1")) ++ [Unmounted 1 (QFlag (js "id-1"))]) (dash_start demo_server no_queries)).
Definition demo_edited : dash := came_to (demo_runs [editing] demo_left).
Definition demo_shown : json :=
  from_option fst JNull (q_data (d_cache demo_left) (query_key (QFlag (js "id-1")))).

Lemma update_call_ok p v : int64 p → v = None ∨ v = Some 1 → call_ok Some (CUpdate (js "id-1") (demo_update p) v).
Proof.
  intros Hp Hv. split; [split; [by apply js_units|done|vm_compute; reflexivity|done]|].
  split; [by split|]. by destruct Hv as [-> | ->].
Qed.
Lemma edited_text : db_text (s_db (d_server demo_edited)).
Proof.
  pose proof (service_reply_ok show demo_payload Some show_text demo_payload_ok demo_env
    (CUpdate (js "id-1") (demo_update 75) None) demo_server demo_text) as Ht.
  assert (s_db (d_server demo_edited)
    = s_db (service show demo_env (CUpdate (js "id-1") (demo_update 75) None) demo_server).2) as -> by (vm_compute; reflexivity).
  apply Ht; [by apply js_units|]. apply update_call_ok; [by split|by left].
Qed.

Lemma detail_opens_stale_witness :
  ∃ d2 s, demo_exec (Mounted 1 (QFlag (js "id-1")) true 4000) demo_edited = Some d2
  ∧ q_running (d_cache d2) (query_key (QFlag (js "id-1"))) = None
  ∧ Router.dashboard show demo_payload (js "node-1") (js "k") (js "sdk") Some [] (js "http://lb") (js "k")
      demo_env (CUpdate (js "id-1") (demo_update 80) (flag_version demo_shown)) (d_server d2)
    = Some (Thrown (js "This flag was changed by someone else. Reload and try again."), s).
Proof.
  destruct (detail_opens_stale show demo_payload (js "node-1") (js "k") (js "sdk") Some [] (js "http://lb") (js "k")
    demo_left demo_edited [editing] 1 (js "id-1") 10 4000 1 demo_shown) as (d2 & H2 & _ & Hr & Hs & Hu).
  - discriminate.
  - vm_compute. reflexivity.
  - vm_compute. reflexivity.
  - vm_compute. reflexivity.
  - vm_compute. reflexivity.
  - apply Forall_singleton. by eexists _, _.
  - apply came_to_Some. vm_compute. reflexivity.
  - rewrite Hs in Hu. destruct (Hu demo_env (demo_update 80)
      (mkRow (mkFlagConfig (js "id-1") (js "dark-mode") (js "Dark theme") true 75 [] 2) 1000 2000)) as (s & Ha & _).
    + apply show_text.
    + apply demo_payload_ok.
    + reflexivity.
    + apply edited_text.
    + by apply js_units.
    + replace (flag_version demo_shown) with (Some 1) by (vm_compute; reflexivity). apply update_call_ok; [by split|by right].
    + reflexivity.
    + reflexivity.
    + vm_compute. reflexivity.
    + discriminate.
    + exists d2, s. split; [exact H2|]. split; [rewrite Hr; vm_compute; reflexivity|by rewrite Hs].
Defined.
