(* ===== verification/Pages.v ===== *)
(** * Lists, overview and navigation

    The flag table and the history drawer ([components/flags/FlagList.tsx],
    [FlagHistoryDrawer.tsx], [StatusBadge.tsx], [RolloutBar.tsx],
    [ToggleSwitch.tsx]), the overview ([app/page.tsx]) and the frame around the
    pages ([components/layout/TopBar.tsx], [Sidebar.tsx]). *)
From S2P Require Import Prelude JsMap Types Json Api Number Fleet.
From Stdlib Require Import QArith.
#[local] Open Scope Z_scope.

(** ** The flag table *)
Definition StatusBadge (enabled : bool) : tone * jstr := if enabled then (Success, js "On") else (Muted, js "Off").

(** [RolloutBar]: the clamped percentage of its bar and its label. *)
Definition RolloutBar (percentage : Z) (active : bool) : Z * jstr * tone :=
  let pct := Z.max 0 (Z.min 100 percentage) in (pct, show pct ++ js "%", if active then Primary else Muted).

(** [ToggleSwitch]: checked, disabled, and its label. *)
Definition ToggleSwitch (enabled disabled : bool) : bool * bool * jstr :=
  (enabled, disabled, if enabled then js "Disable flag" else js "Enable flag").

Record flag_row := mkFlagRow {
  r_status : tone * jstr; r_key : jstr; r_href : jstr; r_description : jstr; r_tooltip : option jstr;
  r_rollout : Z * jstr * tone; r_version : jstr; r_targeting : jstr; r_switch : bool * bool * jstr }.

Definition flag_row_of (toggling : bool) (f : Flag) : flag_row :=
  mkFlagRow (StatusBadge (fl_enabled f)) (fl_key f) (js "/flags/" ++ fl_id f)
    (match fl_description f with [] => dash | d => d end)
    (match fl_description f with [] => None | d => Some d end)
    (RolloutBar (fl_rollout_percentage f) (fl_enabled f)) (ver (fl_version f))
    (if count (fl_targeted_users f) >? 0 then show (count (fl_targeted_users f)) else dash)
    (ToggleSwitch (fl_enabled f) toggling).

Inductive flag_list := ErrorState | SkeletonTable | EmptyState | Rows (l : list flag_row).
Definition FlagList (isError isLoading toggling : bool) (data : option FlagsResponse) : flag_list :=
  if isError then ErrorState
  else if isLoading then SkeletonTable
  else match fr_flags <$> data with
       | None | Some [] => EmptyState
       | Some fs => Rows (map (flag_row_of toggling) fs)
       end.

(** ** The history drawer *)
Definition EVENT_META (t : EventType) : jstr * tone :=
  match t with
  | Created => (js "Created", Success) | Updated => (js "Updated", Primary) | Deleted => (js "Deleted", Destructive)
  end.

(** The payload's fields as the row reads them; a deletion's has neither. *)
Definition history_line (e : FlagEvent) : option jstr :=
  match ev_type e, ev_payload e with
  | Deleted, _ | _, KeyOnly _ => None
  | _, FullFlag f => Some ((if fc_enabled f then js "enabled" else js "disabled")
                           ++ js " · " ++ show (fc_rollout_percentage f) ++ js "% rollout")
  end.
Definition EventRow (e : FlagEvent) : (jstr * tone) * jstr * option jstr :=
  (EVENT_META (ev_type e), ver (ev_version e), history_line e).

(** [useFlagHistory(flagId, open)]: asked for only while the drawer is open. *)
Definition history_enabled (flagId : jstr) (open : bool) : bool := negb (bool_decide (flagId = [])) && open.

Inductive drawer := Closed | HistorySkeleton | NoEvents | Events (l : list ((jstr * tone) * jstr * option jstr)).
Definition FlagHistoryDrawer (open isLoading : bool) (events : option (list FlagEvent)) : drawer :=
  if negb open then Closed
  else if isLoading then HistorySkeleton
  else match events with
       | None | Some [] => NoEvents
       | Some es => Events (map EventRow es)
       end.

(** ** The overview *)

(** [Math.round(sum / total)] *)
Definition avgRollout (flags : list Flag) : Z :=
  let total := count flags in
  if total =? 0 then 0
  else let sum := foldl (λ s f, s + fl_rollout_percentage f) 0 flags in (2 * sum + total) / (2 * total).

Record inventory := mkInventory {
  i_total : Z; i_enabled : Z; i_hint : option jstr; i_avg : jstr; i_targeted : Z }.
Definition flag_inventory (data : option FlagsResponse) : inventory :=
  let flags := default [] (fr_flags <$> data) in
  mkInventory (count flags) (count (filter (λ f, fl_enabled f = true) flags))
    (if count flags =? 0 then None else Some (js "of " ++ show (count flags)))
    (show (avgRollout flags) ++ js "%")
    (count (filter (λ f, fl_targeted_users f ≠ []) flags)).

(** The page's own copy of the health page's milliseconds. *)
Definition ms (seconds : option Q) : jstr :=
  match seconds with
  | None => dash
  | Some s => let v := (s * 1000)%Q in
              if 100 * Z.pos (Qden v) <=? Qnum v then show (round_half_up v) else toFixed1 v
  end.
Lemma ms_copies q : ms q = HealthPage.ms q.
Proof. reflexivity. Qed.

(** [HealthStrip]: dot, ready count, and the two metrics. *)
Record strip := mkStrip { s_dot : tone; s_ready : jstr; s_clients : jstr; s_p99 : jstr }.
Definition HealthStrip (nodes : option (list NodeReadiness)) (metrics : option FleetMetrics) : strip :=
  let nodeList := default [] nodes in
  let total := count nodeList in
  mkStrip
    (if total =? 0 then Muted else if HealthPage.allReady nodeList then Success else Warning)
    (if total =? 0 then dash else show (HealthPage.readyCount nodeList) ++ js "/" ++ show total)
    (if HealthPage.unavailable metrics then dash
     else match HealthPage.metric fm_sseClients metrics with Some q => show_count q | None => dash end)
    (if HealthPage.unavailable metrics then dash else ms (HealthPage.metric fm_p99 metrics)).

Definition OverviewPage (data : option FlagsResponse) (nodes : option (list NodeReadiness))
    (metrics : option FleetMetrics) : inventory * strip :=
  (flag_inventory data, HealthStrip nodes metrics).

(** ** The frame *)
Definition startsWith (p s : jstr) : bool := bool_decide (take (length p) s = p).

Definition PAGE_TITLES : list (jstr * jstr) :=
  [(js "/flags", js "Flags"); (js "/demo", js "Demo"); (js "/cluster", js "Cluster"); (js "/health", js "Health");
   (js "/resilience", js "Resilience"); (js "/learn", js "Learn"); (js "/playground", js "Playground");
   (js "/glossary", js "Glossary")].

Definition pageTitle (pathname : jstr) : jstr :=
  if decide (pathname = js "/") then js "Overview"
  else if startsWith (js "/flags/new") pathname then js "New flag"
  else if startsWith (js "/flags/") pathname then js "Flag detail"
  else match head (filter (λ p, startsWith p.1 pathname = true) PAGE_TITLES) with
       | Some p => p.2
       | None => js "FlagPlane"
       end.

(** [TopBar]: title, version, and the status with its tooltip. *)
Record bar := mkBar { b_title : jstr; b_version : jstr; b_status : tone * jstr * jstr }.
Definition TopBar (pathname : jstr) (data : option FlagsResponse) (isError isSuccess : bool) : bar :=
  mkBar (pageTitle pathname)
    (match data with Some r => ver (fr_config_version r) | None => js "v" ++ dash end)
    (if isSuccess && negb isError then (Success, js "Live", js "Connected to the control plane")
     else (Destructive, js "Offline", js "Cannot reach the API at :8080")).

Definition navItems : list (jstr * jstr) :=
  [(js "/", js "Overview"); (js "/flags", js "Flags"); (js "/demo", js "Demo"); (js "/cluster", js "Cluster");
   (js "/health", js "Health"); (js "/resilience", js "Resilience")].
Definition learnItems : list (jstr * jstr) :=
  [(js "/learn", js "Learn"); (js "/playground", js "Playground"); (js "/glossary", js "Glossary")].

Definition isActive (pathname href : jstr) : bool :=
  bool_decide (pathname = href) || (negb (bool_decide (href = js "/")) && startsWith (href ++ js "/") pathname).

(** Label, link and whether it is the current page; every item is live. *)
Definition Sidebar (pathname : jstr) : list (jstr * jstr * bool) :=
  map (λ i, (i.2, i.1, isActive pathname i.1)) (navItems ++ learnItems).

(** ** Lemmas *)
Lemma RolloutBar_range p a : 0 ≤ (RolloutBar p a).1.1 ≤ 100.
Proof. unfold RolloutBar. simpl. lia. Qed.

Lemma sum_bounds (flags : list Flag) s :
  Forall (λ f, 0 ≤ fl_rollout_percentage f ≤ 100) flags →
  s ≤ foldl (λ s f, s + fl_rollout_percentage f) s flags ≤ s + 100 * count flags.
Proof.
  intros Hf. revert s. unfold count. induction Hf as [|f l Hp Hf IH]; intros s; simpl; [lia|].
  specialize (IH (s + fl_rollout_percentage f)). lia.
Qed.

(** The average of percentages is one. *)
Lemma avgRollout_range flags :
  Forall (λ f, 0 ≤ fl_rollout_percentage f ≤ 100) flags → 0 ≤ avgRollout flags ≤ 100.
Proof.
  intros Hf. unfold avgRollout. destruct (Z.eqb_spec (count flags) 0) as [|Hc]; [lia|].
  assert (0 < count flags) by (unfold count in *; lia). pose proof (sum_bounds flags 0 Hf).
  split; [apply Z.div_pos; lia|]. apply Z.lt_succ_r, Z.div_lt_upper_bound; lia.
Qed.

Lemma startsWith_app p s : startsWith p s = true ↔ ∃ r, s = p ++ r.
Proof.
  unfold startsWith. rewrite bool_decide_eq_true. split.
  - intros H. exists (drop (length p) s). rewrite <-H at 1. by rewrite take_drop.
  - intros [r ->]. by rewrite take_app_length.
Qed.

(** The path up to its second slash. *)
Fixpoint segment (s : jstr) : jstr :=
  match s with c :: r => if c =? 47 then [] else c :: segment r | [] => [] end.
Definition first_segment (p : jstr) : jstr := match p with c :: r => c :: segment r | [] => [] end.

Lemma segment_app s r : 47 ∉ s → segment (s ++ 47 :: r) = s.
Proof.
  induction s as [|c s IH]; intros Hs; [done|]. simpl.
  rewrite (proj2 (Z.eqb_neq c 47)) by set_solver. f_equal. apply IH. set_solver.
Qed.
Lemma segment_id s : 47 ∉ s → segment s = s.
Proof.
  induction s as [|c s IH]; intros Hs; [done|]. simpl.
  rewrite (proj2 (Z.eqb_neq c 47)) by set_solver. f_equal. apply IH. set_solver.
Qed.

(** An item is the current one exactly on its own first segment. *)
Lemma isActive_segment pathname c s :
  47 ∉ s → isActive pathname (c :: s) = true → first_segment pathname = c :: s.
Proof.
  intros Hs. unfold isActive. rewrite orb_true_iff, andb_true_iff, bool_decide_eq_true. intros [->|[_ H]].
  - simpl. by rewrite segment_id.
  - apply startsWith_app in H as [r ->]. rewrite <-app_assoc. simpl. by rewrite segment_app.
Qed.

(** At most one item of the sidebar is marked as the current page. *)
Lemma one_active pathname h1 l1 h2 l2 :
  (l1, h1, true) ∈ Sidebar pathname → (l2, h2, true) ∈ Sidebar pathname → h1 = h2.
Proof.
  assert (Forall (λ i : jstr * jstr, ∃ c s, i.1 = c :: s ∧ 47 ∉ s) (navItems ++ learnItems)) as Hsh.
  { repeat constructor; simpl; eexists _, _; (split; [reflexivity|]); apply (bool_decide_unpack _); vm_compute; exact I. }
  unfold Sidebar. intros H1 H2. change (map ?f ?l) with (f <$> l) in *.
  apply list_elem_of_fmap in H1 as ([a1 b1] & [= -> -> Ha1] & Hi1).
  apply list_elem_of_fmap in H2 as ([a2 b2] & [= -> -> Ha2] & Hi2).
  rewrite Forall_forall in Hsh. destruct (Hsh _ Hi1) as (c1 & s1 & E1 & N1). destruct (Hsh _ Hi2) as (c2 & s2 & E2 & N2).
  simpl in *. subst. symmetry in Ha1, Ha2.
  by rewrite <-(isActive_segment _ _ _ N1 Ha1), <-(isActive_segment _ _ _ N2 Ha2).
Qed.
