(* ===== verification/Demo.v ===== *)
(** * The demo and the playground

    The pages that run the SDK in the browser: [app/demo/page.tsx] with
    [components/demo/UserSwitcher.tsx], [FeatureCard.tsx] and
    [DynamicFlagCard.tsx], and [app/playground/page.tsx].  A page watches the
    client through its two callbacks and the promise of [init]; the model reads
    them off the client's trace. *)
From S2P Require Import Prelude JsMap Types Hash Evaluate Client.

(** ** [UserSwitcher.tsx] *)
Definition PRESET_USERS : list jstr := map (λ i, js "user-" ++ show (Z.of_nat i + 1)) (seq 0 10).
Definition isPreset (user : jstr) : bool := bool_decide (user ∈ PRESET_USERS).

(** The select's value, its items, and the text box, when there is one. *)
Record switcher := mkSwitcher { sw_value : jstr; sw_items : list jstr; sw_input : option jstr }.
Definition UserSwitcher (currentUser : jstr) : switcher :=
  mkSwitcher (if isPreset currentUser then currentUser else js "custom") (PRESET_USERS ++ [js "custom"])
    (if isPreset currentUser then None else Some currentUser).

(** What the visitor can do: pick an item, type in the box that is there. *)
Inductive switch_event := Pick (item : jstr) | Type_ (text : jstr).
Definition switch (e : switch_event) (currentUser : jstr) : option jstr :=
  match e with
  | Pick v => if decide (v ∈ sw_items (UserSwitcher currentUser)) then
                Some (if bool_decide (v = []) || bool_decide (v = js "custom") then currentUser else v)
              else None
  | Type_ v => match sw_input (UserSwitcher currentUser) with Some _ => Some v | None => None end
  end.

(** ** [app/demo/page.tsx] *)
Record page := mkPage {
  currentUser : jstr; allFlags : list (jstr * FlagObj); isReady : bool; pg_status : ConnectionStatus;
  clientVersion : Z; pickedVizKey : option jstr }.
Definition mount : page := mkPage (js "user-1") [] false Connecting 0 None.

(** [syncFlags]: [new Map(client.getAllFlags())] and the version. *)
Definition syncFlags (w : world) (p : page) : page :=
  mkPage (currentUser p) (flags w) (isReady p) (pg_status p) (configVersion w) (pickedVizKey p).
Definition set_ready (p : page) : page :=
  mkPage (currentUser p) (allFlags p) true (pg_status p) (clientVersion p) (pickedVizKey p).
Definition setStatus_page (s : ConnectionStatus) (p : page) : page :=
  mkPage (currentUser p) (allFlags p) (isReady p) s (clientVersion p) (pickedVizKey p).
Definition setCurrentUser (u : jstr) (p : page) : page :=
  mkPage u (allFlags p) (isReady p) (pg_status p) (clientVersion p) (pickedVizKey p).
Definition setPickedVizKey (k : jstr) (p : page) : page :=
  if bool_decide (k = []) then p
  else mkPage (currentUser p) (allFlags p) (isReady p) (pg_status p) (clientVersion p) (Some k).

Section demo.
(** The page's two subscriptions *)
Context (config : SDKConfig) (update_cb status_cb : nat).

(** One effect of the client, seen by the page; [w] is the client by then. *)
Definition observe (w : world) (p : page) (e : effect) : page :=
  match e with
  | UpdateCallback l _ => if decide (l = update_cb) then syncFlags w p else p
  | StatusCallback l s => if decide (l = status_cb) then setStatus_page s p else p
  | InitResolved => set_ready (syncFlags w p)
  | InitRejected => set_ready p
  | _ => p
  end.

(** The page after a step of the client from [w] to [w']. *)
Definition page_after (w w' : world) (p : page) : page :=
  foldl (observe w') p (drop (length (trace w)) (trace w')).

(** *** Render *)
Definition isOn (w : world) (p : page) (key : jstr) : bool := isEnabled (flags w) key (currentUser p).

Definition CUSTOM_FLAG_COMPONENTS : list (jstr * jstr) :=
  [(js "dark-mode", js "Dark mode"); (js "beta-dashboard", js "Beta dashboard"); (js "ai-assistant", js "AI assistant")].

(** [FeatureCard]: title, key, badge, and the hint when it is off. *)
Record card := mkCard { k_title : jstr; k_flagKey : jstr; k_on : bool; k_text : jstr }.

Definition or_text (d dflt : jstr) : jstr := if bool_decide (d = []) then dflt else d.
Definition DynamicFlagCard (flagKey : jstr) (isEnabled : bool) (description : jstr) : card :=
  mkCard flagKey flagKey isEnabled
    (if isEnabled then or_text description (js "This feature is currently enabled for you.")
     else or_text description (js "This feature is not available for this user.")).

Definition disabled_hint (key : jstr) : jstr :=
  if decide (key = js "dark-mode") then js "Enable this flag to switch this user to the dark theme."
  else if decide (key = js "beta-dashboard") then js "Enable this flag to reveal the analytics panel for this user."
  else js "Enable this flag to show the AI chat widget for this user.".

Definition description_of (o : FlagObj) : jstr := match o with FullFlag f => fc_description f | KeyOnly _ => [] end.

Definition cards (w : world) (p : page) : list card :=
  map (λ c, mkCard c.2 c.1 (isOn w p c.1) (if isOn w p c.1 then [] else disabled_hint c.1)) CUSTOM_FLAG_COMPONENTS
  ++ map (λ c, DynamicFlagCard c.1 (isOn w p c.1) (description_of c.2))
       (filter (λ c, map_get CUSTOM_FLAG_COMPONENTS c.1 = None) (allFlags p)).

(** The flag under the magnifier: picked, or the first partial rollout, or the
    first. *)
Definition partial_rollout (o : FlagObj) : bool :=
  match o with
  | FullFlag f => fc_enabled f && (0 <? fc_rollout_percentage f) && (fc_rollout_percentage f <? 100)
  | KeyOnly _ => false
  end.
Definition defaultVizKey (p : page) : jstr :=
  match head (filter (λ o, partial_rollout o = true) (map_values (allFlags p))) with
  | Some o => obj_key o
  | None => match map_values (allFlags p) with o :: _ => obj_key o | [] => [] end
  end.
Definition vizKey (p : page) : jstr := default (defaultVizKey p) (pickedVizKey p).
Definition vizFlag (p : page) : option FlagObj := map_get (allFlags p) (vizKey p).

Definition STATUS_META (s : ConnectionStatus) : jstr :=
  match s with
  | Connecting => js "Connecting" | Live => js "Live" | Reconnecting => js "Reconnecting"
  | Reconciling => js "Reconciling" | Offline => js "Disconnected"
  end.

Definition stale (w : world) (p : page) (serverVersion : Z) : bool := isReady p && isStale serverVersion w.
Definition missed (p : page) (serverVersion : Z) : Z := Z.max 0 (serverVersion - clientVersion p).

Definition plural_s (n : Z) : jstr := if n >? 1 then js "s" else [].
(** [ReconnectPanel]: pill, sentence, and which of its buttons are disabled. *)
Record panel := mkPanel { n_pill : jstr; n_text : jstr; n_disconnect_off : bool; n_reconnect_off : bool }.
Definition ReconnectPanel (w : world) (p : page) (serverVersion : Z) : panel :=
  let offline := bool_decide (pg_status p = Offline) in
  mkPanel (STATUS_META (pg_status p))
    (if offline then
       if missed p serverVersion >? 0 then
         js "Stream closed — " ++ show (missed p serverVersion) ++ js " update" ++ plural_s (missed p serverVersion)
         ++ js " missed. Reconnect to reconcile."
       else js "Stream closed. Make changes in Flags, then reconnect."
     else if stale w p serverVersion then js "Behind — reconciling to the latest version…"
     else js "Streaming live from the control plane.")
    offline (negb offline).

Record view := mkView {
  v_badge : option (jstr * jstr); v_panel : option panel; v_user : switcher; v_cards : option (list card);
  v_viz : option (jstr * list jstr) }.
Definition DemoPage (w : world) (p : page) (serverVersion : Z) : view :=
  mkView
    (if isReady p then
       Some (if stale w p serverVersion then js "SDK behind" else js "In sync",
             js "client v" ++ show (clientVersion p) ++ js " · server v" ++ show serverVersion)
     else None)
    (if isReady p then Some (ReconnectPanel w p serverVersion) else None)
    (UserSwitcher (currentUser p)) (if isReady p then Some (cards w p) else None)
    (match vizFlag p with
     | Some _ => if isReady p then Some (vizKey p, map obj_key (map_values (allFlags p))) else None
     | None => None
     end).

(** *** What the page keeps up with *)
Definition synced (w : world) (p : page) : Prop := allFlags p = flags w ∧ clientVersion p = configVersion w.

(** [w'] comes after [w] with these effects, and either holds the same flags
    and version or has told the listener. *)
Definition same (w w' : world) : Prop :=
  (∃ es, trace w' = trace w ++ es) ∧ flags w' = flags w ∧ configVersion w' = configVersion w
  ∧ listeners w' = listeners w.
#[export] Instance same_preorder : PreOrder same.
Proof.
  split.
  - intros w. split_and!; [exists []; by rewrite app_nil_r|done..].
  - intros w1 w2 w3 [[e1 He1] (Hf1 & Hv1 & Hl1)] [[e2 He2] (Hf2 & Hv2 & Hl2)]. split_and!; try congruence.
    exists (e1 ++ e2). by rewrite He2, He1, <-app_assoc.
Qed.

Definition told (w w' : world) : Prop :=
  ∃ es, trace w' = trace w ++ es ∧ ∃ v, UpdateCallback update_cb v ∈ es.

Lemma same_of w w' es : trace w' = trace w ++ es → flags w' = flags w → configVersion w' = configVersion w →
  listeners w' = listeners w → same w w'.
Proof. intros. split_and!; eauto. Qed.

Lemma same_pure w w' : trace w' = trace w → flags w' = flags w → configVersion w' = configVersion w →
  listeners w' = listeners w → same w w'.
Proof. intros Ht. apply (same_of w w' []). by rewrite app_nil_r. Qed.

Lemma same_emit e w : same w (emit e w).
Proof. by apply (same_of w (emit e w) [e]). Qed.

Lemma same_setStatus s w : same w (setStatus s w).
Proof. unfold setStatus. case_decide; [done|]. by eapply same_of. Qed.

Lemma same_closeStream w : same w (closeStream w).
Proof. unfold closeStream. destruct (eventSource w); [|done]. by eapply (same_of _ _ [_]). Qed.

Lemma same_notify w : same w (notifyListeners w).
Proof. by eapply same_of. Qed.

Lemma told_notify w w0 :
  (∃ es, trace w = trace w0 ++ es) → update_cb ∈ listeners w → told w0 (notifyListeners w).
Proof.
  intros [es He] Hl. exists (es ++ map (λ l, UpdateCallback l (configVersion w)) (listeners w)).
  unfold notifyListeners. simpl. rewrite He, <-app_assoc. split; [done|]. exists (configVersion w).
  apply elem_of_app. right. apply (list_elem_of_fmap_2 (λ l, UpdateCallback l (configVersion w))). done.
Qed.

Lemma told_same w w1 w2 : told w w1 → same w1 w2 → told w w2.
Proof.
  intros (es & He & v & Hv) [[es' He'] _]. exists (es ++ es'). rewrite He', He, <-app_assoc.
  split; [done|]. exists v. apply elem_of_app. by left.
Qed.

Lemma same_told w w1 w2 : same w w1 → told w1 w2 → told w w2.
Proof.
  intros [[es He] _] (es' & He' & v & Hv). exists (es ++ es'). rewrite He', He, <-app_assoc.
  split; [done|]. exists v. apply elem_of_app. by right.
Qed.

Ltac same_tac :=
  repeat match goal with
  | |- same ?w ?w => reflexivity
  | |- same _ (setStatus _ _) => etransitivity; [|apply same_setStatus]
  | |- same _ (emit _ _) => etransitivity; [|apply same_emit]
  | |- same _ (closeStream _) => etransitivity; [|apply same_closeStream]
  | |- same _ (notifyListeners _) => etransitivity; [|apply same_notify]
  | |- same _ (if ?b then _ else _) => destruct b
  | |- same _ (match ?o with Some _ => _ | None => _ end) => destruct o
  | |- same _ (?f _ ?w) => transitivity w; [|apply same_pure; reflexivity]
  end.

Definition in_flight (w : world) : Prop := ∃ p c g s, ReconFetch p c g s ∈ tasks w.

Definition still (w w' : world) : Prop :=
  (∃ es, trace w' = trace w ++ es) ∧ flags w' = flags w ∧ configVersion w' = configVersion w.
Definition keeps (w w' : world) : Prop := still w w' ∨ told w w' ∨ in_flight w'.

Lemma same_still w w' : same w w' → still w w'.
Proof. intros (? & ? & ? & _). by split_and!. Qed.
Lemma same_keeps w w' : same w w' → keeps w w'.
Proof. intros H. left. by apply same_still. Qed.

Lemma same_recon_done c w : same w (recon_done c w).
Proof. unfold recon_done. same_tac. Qed.

Lemma told_recon_done w0 w :
  (∃ es, trace w = trace w0 ++ es) → update_cb ∈ listeners w → told w0 (recon_done true w).
Proof.
  intros [es He] Hl. unfold recon_done. apply (told_same _ (notifyListeners (setStatus Live w))); [|by apply same_pure].
  destruct (same_setStatus Live w) as [[es' He'] (_ & _ & Hl')]. apply told_notify; [|by rewrite Hl'].
  exists (es ++ es'). by rewrite He', He, <-app_assoc.
Qed.

Lemma same_recon_loop p c g w : same w (recon_loop config p c g w).
Proof. unfold recon_loop. destruct (_ <? _); [same_tac|apply same_recon_done]. Qed.

Lemma same_reconcile w : same w (reconcile config w).
Proof.
  unfold reconcile. destruct (reconciling w); [done|]. etransitivity; [|apply same_recon_loop]. same_tac.
Qed.

Lemma keeps_recon_page p c g evs w : update_cb ∈ listeners w → keeps w (recon_page config p c g evs w).
Proof.
  intros Hl. unfold recon_page. destruct evs as [|ev evs]; [apply same_keeps, same_recon_done|].
  destruct (foldl page_step _ _) as [[m v] adv] eqn:Hf. destruct adv.
  - unfold recon_loop. rewrite orb_true_r. destruct (_ <? _).
    + right; right. do 4 eexists. simpl. apply elem_of_app. right. apply list_elem_of_singleton. reflexivity.
    + right; left. apply told_recon_done; [|done]. exists []. by rewrite app_nil_r.
  - apply same_keeps. etransitivity; [|apply same_recon_done].
    assert (∀ l st m' v', foldl page_step st l = (m', v', false) → st = (m', v', false)) as Hnone.
    { intros l. induction l as [|e l IH]; intros [[m0 v0] a0] m' v'; simpl; [done|]. intros H.
      specialize (IH _ _ _ H). unfold page_step in IH. by destruct (ev_version e <=? v0). }
    apply Hnone in Hf. simplify_eq. by apply same_pure.
Qed.

Lemma keeps_applyEvent v mu w : update_cb ∈ listeners w → keeps w (applyEvent config v mu w).
Proof.
  intros Hl. unfold applyEvent. destruct (_ <=? _); [by apply same_keeps|].
  destruct (_ >? _); [apply same_keeps, same_reconcile|].
  right; left. set (w1 := set_configVersion v (set_flags (mu (flags w)) w)).
  destruct (same_setStatus Live w1) as [Ht (_ & _ & Hl')].
  apply told_notify; [exact Ht|]. by rewrite Hl'.
Qed.

Lemma keeps_same_l w w1 w2 : same w w1 → keeps w1 w2 → keeps w w2.
Proof.
  intros Hs [([es He] & Hf & Hv)|[H|H]]; [left|right; left; by eapply same_told|by right; right].
  destruct Hs as ([es' He'] & Hf' & Hv' & _). split_and!; try congruence.
  exists (es' ++ es). by rewrite He, He', <-app_assoc.
Qed.

Lemma same_connectSSE w : same w (connectSSE config w).
Proof.
  unfold connectSSE. transitivity (closeStream w); [apply same_closeStream|].
  generalize (closeStream w) as w1. intros w1. by apply (same_of _ _ [OpenStream (nextId w1) (stream_url config)]).
Qed.

Lemma same_init_rest w : same w (init_rest config w).
Proof.
  unfold init_rest. etransitivity; [|apply same_emit]. transitivity (connectSSE config w); [apply same_connectSSE|].
  generalize (connectSSE config w) as w1. intros w1. destruct (refreshInterval config) as [ms|]; [|done].
  destruct (ms =? 0); [done|]. by apply (same_of _ _ [SetInterval (nextId w1) ms]).
Qed.

(** The one step that replaces the flags without telling: the body of the
    first load, whose promise the page awaits instead. *)
Definition is_boot (l : label) (w : world) : Prop :=
  ∃ i fl v, l = LResume i (BootBody fl v) ∧ tasks w !! i = Some BootJson.

Lemma keeps_resume t a w w' :
  resume config t a w = Some w' → (t = BootJson → ∀ fl v, a ≠ BootBody fl v) →
  update_cb ∈ listeners w → keeps w w'.
Proof.
  intros Hr Hb Hl. destruct t as [| | |p c g s|p c g s], a as [|st|fl v|evs|]; simpl in Hr; simplify_eq.
  - apply same_keeps, same_emit.
  - destruct (res_ok st); apply same_keeps; [by apply same_pure|apply same_emit].
  - apply same_keeps, same_emit.
  - by destruct (Hb eq_refl fl v).
  - apply same_keeps, same_init_rest.
  - apply same_keeps. unfold recon_catch. same_tac.
  - destruct (res_ok st); apply same_keeps; [by apply same_pure|]. unfold recon_not_ok. same_tac.
  - apply same_keeps. unfold recon_catch. same_tac.
  - by apply keeps_recon_page.
Qed.

Lemma keeps_exec l w w' :
  exec config l w = Some w' → ¬ is_boot l w → update_cb ∈ listeners w → keeps w w'.
Proof.
  intros He Hb Hl. destruct l as [| | | | |l|l|l|l|es|es id d|es id d|es g|t|i a]; simpl in He; try case_decide; simplify_eq.
  - apply same_keeps. unfold init. same_tac.
  - apply same_keeps. unfold disconnect. same_tac.
  - apply same_keeps. unfold reconnect. etransitivity; [|apply same_connectSSE]. same_tac.
  - left. unfold destroy. set (w1 := closeStream _).
    assert (same w w1) as Hs by (unfold w1; same_tac).
    set (w2 := match refreshTimer w1 with Some _ => _ | None => _ end).
    assert (same w w2) as Hs2 by (unfold w2; same_tac; exact Hs).
    destruct Hs2 as ([e2 He2] & Hf2 & Hv2 & _).
    set (w3 := set_statusListeners [] _). destruct (same_setStatus Offline w3) as ([e3 He3] & Hf3 & Hv3 & _).
    split_and!; [|by rewrite Hf3|by rewrite Hv3]. exists (e2 ++ e3). rewrite He3. simpl. by rewrite He2, app_assoc.
  - apply same_keeps, same_reconcile.
  - left. split_and!; [exists []; by rewrite app_nil_r|done..].
  - left. split_and!; [exists []; by rewrite app_nil_r|done..].
  - by apply same_keeps, same_pure.
  - by apply same_keeps, same_pure.
  - apply same_keeps. etransitivity; [|apply same_reconcile]. by apply same_pure.
  - unfold on_flag_updated. destruct d; [by apply keeps_applyEvent|by apply same_keeps].
  - unfold on_flag_deleted. destruct d; [by apply keeps_applyEvent|by apply same_keeps].
  - apply same_keeps. unfold onerror, closeStreamIfClosed. same_tac.
  - apply same_keeps, same_reconcile.
  - destruct (tasks w !! i) as [t|] eqn:Ht; [|done].
    apply (keeps_same_l _ (set_tasks (delete i (tasks w)) w)); [by apply same_pure|].
    eapply keeps_resume; [exact He| |done]. intros -> fl v ->. apply Hb. by exists i, fl, v.
Qed.

(** A page that reads the effects of a step ends with a copy of the client if
    it started with one and the flags did not move, or if it was told. *)
Lemma observe_synced w es p : synced w p → synced w (foldl (observe w) p es).
Proof.
  revert p. induction es as [|e es IH]; intros p Hp; [done|]. simpl. apply IH.
  destruct e; simpl; try done; case_decide; done.
Qed.

Lemma observe_told w es p v : UpdateCallback update_cb v ∈ es → synced w (foldl (observe w) p es).
Proof.
  revert p. induction es as [|e es IH]; intros p Hin; [set_solver|]. simpl.
  apply elem_of_cons in Hin as [<-|Hin]; [|by apply IH].
  apply observe_synced. simpl. by rewrite decide_True.
Qed.

Lemma keeps_synced w w' p : keeps w w' → synced w p → synced w' (page_after w w' p) ∨ in_flight w'.
Proof.
  intros Hk Hp. unfold page_after. destruct Hk as [([es He] & Hf & Hv)|[(es & He & v & Hin)|H]]; [| |by right].
  - left. apply observe_synced. destruct Hp. split; congruence.
  - left. rewrite He, drop_app_length. by eapply observe_told.
Qed.

Lemma demo_decides w p k f :
  synced w p → map_get (allFlags p) k = Some (FullFlag f) → fc_key f = k →
  isOn w p k = et_on (evaluate (Some (evaluable f)) (currentUser p)).
Proof.
  intros [Hf _] Hk <-. unfold isOn. rewrite Hf in Hk.
  by rewrite evaluate_decision, (isEnabled_decision _ _ _ f).
Qed.


(** The users a visitor can get to. *)
Inductive visited : jstr → Prop :=
| visited_first : visited (currentUser mount)
| visited_switch e u u' : visited u → switch e u = Some u' → visited u'.

(** The custom user of the demo cannot be reached.  The select's item
    Custom is ignored, and the text box shows only for a user that is not a
    preset; so from the first user on, whatever is picked and typed, the user
    stays one of the ten presets, no flag is ever decided for another, and the box
    is never there. *)
Theorem custom_user_unreachable (u : jstr) :
  visited u → u ∈ PRESET_USERS ∧ sw_input (UserSwitcher u) = None ∧ ∀ text, switch (Type_ text) u = None.
Proof.
  intros Hu. assert (u ∈ PRESET_USERS) as Hp.
  { induction Hu as [|e u u' _ IH Hs]; [by apply (bool_decide_unpack _); vm_compute|].
    assert (isPreset u = true) as Hpre by (by apply bool_decide_eq_true). destruct e as [v|v]; unfold switch in Hs;
      cbn [sw_items sw_input UserSwitcher] in Hs.
    - case_decide as Hv; [|done]. destruct (bool_decide (v = []) || bool_decide (v = js "custom")) eqn:E; simplify_eq; [done|].
      boolify. apply elem_of_app in Hv as [Hv|Hv%list_elem_of_singleton]; done.
    - rewrite Hpre in Hs. done. }
  assert (isPreset u = true) as Hpre by (by apply bool_decide_eq_true).
  unfold switch. cbn [sw_input UserSwitcher]. by rewrite Hpre.
Qed.
End demo.

(** ** [app/playground/page.tsx] *)
Module Playground.

Definition SANDBOX_KEY : jstr := js "playground".

Record sandbox := mkSandbox {
  enabled : bool; rollout : Z; targeted : list jstr; userInput : jstr; evalUser : jstr }.
Definition mount : sandbox := mkSandbox true 30 [js "alice"] [] (js "user-1").

Definition flag (s : sandbox) : EvaluableFlag := mkEvaluableFlag SANDBOX_KEY (enabled s) (rollout s) (targeted s).

(** [addTargeted] empties the box whether or not it added. *)
Definition addTargeted (s : sandbox) : sandbox :=
  let u := trim (userInput s) in
  mkSandbox (enabled s) (rollout s)
    (if negb (bool_decide (u = [])) && negb (bool_decide (u ∈ targeted s)) then targeted s ++ [u] else targeted s)
    [] (evalUser s).
Definition removeTargeted (u : jstr) (s : sandbox) : sandbox :=
  mkSandbox (enabled s) (rollout s) (filter (λ x, x ≠ u) (targeted s)) (userInput s) (evalUser s).

(** The claim of the guide note: at 0 % only the targeted users stay on, and
    off is off for them as well. *)
Lemma kill_by_percentage s u :
  rollout s = 0 → et_on (evaluate (Some (flag s)) u) = enabled s && includes (targeted s) u.
Proof.
  intros Hr. rewrite evaluate_decision. unfold decision, flag. simpl. rewrite Hr.
  pose proof (rolloutBucket_range SANDBOX_KEY u). rewrite (proj2 (Z.ltb_ge _ _)) by lia. by rewrite orb_false_r.
Qed.

Lemma added_stays_on s u :
  enabled s = true → trim u ≠ [] → et_on (evaluate (Some (flag (addTargeted (mkSandbox (enabled s) (rollout s) (targeted s) u (evalUser s))))) (trim u)) = true.
Proof.
  intros He Hu. rewrite evaluate_decision. unfold decision, flag, addTargeted, includes. simpl. rewrite He. simpl.
  apply orb_true_iff. left. rewrite (bool_decide_eq_false_2 _ Hu). simpl. apply bool_decide_eq_true.
  destruct (bool_decide (trim u ∈ targeted s)) eqn:E; simpl.
  - by apply bool_decide_eq_true in E.
  - apply elem_of_app. right. by apply list_elem_of_singleton.
Qed.

(** The page's own copy of the demo's labels. *)
Definition STATUS_META (s : ConnectionStatus) : jstr :=
  match s with
  | Connecting => js "Connecting" | Live => js "Live" | Reconnecting => js "Reconnecting"
  | Reconciling => js "Reconciling" | Offline => js "Disconnected"
  end.
Lemma STATUS_META_copies s : STATUS_META s = Demo.STATUS_META s.
Proof. reflexivity. Qed.

(** [FailureLab]: the client's status and version against the server's. *)
Record lab := mkLab { lb_status : ConnectionStatus; lb_version : Z }.
Definition mount_lab : lab := mkLab Connecting 0.
Definition observe_lab (update_cb status_cb : nat) (w : world) (p : lab) (e : effect) : lab :=
  match e with
  | UpdateCallback l _ => if decide (l = update_cb) then mkLab (lb_status p) (configVersion w) else p
  | StatusCallback l s => if decide (l = status_cb) then mkLab s (lb_version p) else p
  | InitResolved => mkLab (lb_status p) (configVersion w)
  | _ => p
  end.

Record lab_view := mkLabView { lv_pill : jstr; lv_versions : jstr; lv_missed : option jstr; lv_disconnect_off : bool; lv_reconnect_off : bool }.
Definition FailureLab (serverVersion : Z) (p : lab) : lab_view :=
  let offline := bool_decide (lb_status p = Offline) in
  let missed := Z.max 0 (serverVersion - lb_version p) in
  mkLabView (STATUS_META (lb_status p))
    (js "client v" ++ show (lb_version p) ++ js " · server v" ++ show serverVersion)
    (if offline && (missed >? 0) then Some (show missed ++ js " behind") else None)
    offline (negb offline).
End Playground.

(** ** Witnesses *)
Definition half : FlagConfig := mkFlagConfig (js "id-1") (js "dark-mode") [] true 50 [] 2.

(** The page subscribes, loads at version 1, and the stream opens and is
    caught up. *)
Definition live_run : list label :=
  [LOnStatus 1; LOnUpdate 0; LInit; LResume 0 (Response 200); LResume 0 (BootBody (Some []) (Some 1));
   LResume 0 Settled; LStreamOpen 0; LResume 0 (Response 200); LResume 0 (EventsBody [])].
Definition live_world : world := default new_client (run demo_config live_run new_client).
Definition live_page : page := set_ready (syncFlags live_world mount).
Definition next_world : world :=
  default new_client (exec demo_config (LStreamUpdated 0 (js "2") (Some (FullFlag half))) live_world).


Lemma custom_user_unreachable_witness :
  visited (js "user-7") ∧ js "user-7" ∈ PRESET_USERS ∧ sw_input (UserSwitcher (js "user-7")) = None ∧
  ∀ text, switch (Type_ text) (js "user-7") = None.
Proof.
  assert (visited (js "user-7")) as Hv.
  { apply (visited_switch (Pick (js "user-7")) (js "user-1")); [apply visited_first|vm_compute; reflexivity]. }
  split; [exact Hv|]. apply (custom_user_unreachable (js "user-7") Hv).
Defined.
