(* ===== verification/Markup.v ===== *)
(** * Elements as a browser and a screen reader find them ([components/ui])

    A page is a tree of the elements that matter to someone who reads or operates
    it: texts, links, controls with their labels, and ids.  Class names, icons,
    tooltips, loading skeletons and the wrappers that only carry them are left out.  The second half is the
    dashboard's router, as the files under [app] define it. *)
From S2P Require Import Prelude JsMap Teach.

(** ** The tree *)

(** What names and describes a control. *)
Record ctl := mkCtl {
  c_id : option jstr; c_aria : option jstr; c_placeholder : jstr; c_describedby : option jstr; c_disabled : bool }.

Inductive node :=
| Text (s : jstr)
| Box (l : list node)                       (* any element that only holds others *)
| Ident (id : jstr) (l : list node)         (* an element with an id *)
| Region (name : jstr) (l : list node)      (* a landmark or group with an [aria-label] *)
| Anchor (href : jstr) (l : list node)      (* a link within the dashboard *)
| External (href : jstr) (l : list node)    (* a link to another site *)
| LabelFor (id : option jstr) (l : list node)
| Control (c : ctl) (l : list node).

Definition children (n : node) : list node :=
  match n with
  | Text _ => []
  | Box l | Ident _ l | Region _ l | Anchor _ l | External _ l | LabelFor _ l | Control _ l => l
  end.

(** Every element of a tree, the tree itself first. *)
Fixpoint nodes (n : node) : list node :=
  n :: match n with
       | Text _ => []
       | Box l | Ident _ l | Region _ l | Anchor _ l | External _ l | LabelFor _ l | Control _ l => flat_map nodes l
       end.

(** [textContent] *)
Fixpoint text (n : node) : jstr :=
  match n with
  | Text s => s
  | Box l | Ident _ l | Region _ l | Anchor _ l | External _ l | LabelFor _ l | Control _ l => flat_map text l
  end.

Definition link_of (n : node) : option jstr := match n with Anchor h _ => Some h | _ => None end.
Definition id_of (n : node) : option jstr :=
  match n with Ident i _ => Some i | Control c _ => c_id c | _ => None end.
Definition field_of (n : node) : option jstr := match n with Control c _ => c_id c | _ => None end.
Definition label_of (n : node) : option (jstr * jstr) :=
  match n with LabelFor (Some i) l => Some (i, text (Box l)) | _ => None end.
Definition control_of (n : node) : option (ctl * jstr) :=
  match n with Control c l => Some (c, text (Box l)) | _ => None end.

Definition links (n : node) : list jstr := omap link_of (nodes n).
Definition ids (n : node) : list jstr := omap id_of (nodes n).
Definition field_ids (n : node) : list jstr := omap field_of (nodes n).
Definition labels (n : node) : list (jstr * jstr) := omap label_of (nodes n).
Definition controls (n : node) : list (ctl * jstr) := omap control_of (nodes n).

(** The accessible name of a control: its [aria-label], its content, the label
    that points at it, or the placeholder, in the order browsers take them. *)
Definition acc_name (labs : list (jstr * jstr)) (c : ctl * jstr) : jstr :=
  match c_aria c.1 with
  | Some (x :: s) => x :: s
  | _ => match c_id c.1 ≫= map_get labs with
         | Some (x :: s) => x :: s
         | _ => match c.2 with [] => c_placeholder c.1 | s => s end
         end
  end.

(** ** The controls of the design system *)
Definition plain (disabled : bool) : ctl := mkCtl None None [] None disabled.

Definition Button (disabled : bool) (l : list node) : node := Control (plain disabled) l.
(** A button that shows an icon only. *)
Definition IconButton (label : jstr) : node := Control (mkCtl None (Some label) [] None false) [].
Definition Input (id aria : option jstr) (placeholder : jstr) (describedby : option jstr) (disabled : bool) : node :=
  Control (mkCtl id aria placeholder describedby disabled) [].
Definition Switch (id aria : option jstr) (disabled : bool) : node := Input id aria [] None disabled.
Definition Label (for_ : option jstr) (l : list node) : node := LabelFor for_ l.

(** [Slider]: a thumb for each value, or two when no value is given; each thumb
    is the control and takes the label. *)
Definition slider_values (value defaultValue : option (list Z)) (min max : Z) : list Z :=
  match value, defaultValue with Some v, _ => v | None, Some v => v | None, None => [min; max] end.
Definition Slider (value defaultValue : option (list Z)) (min max : Z) (aria : option jstr) (disabled : bool) : node :=
  Box (map (λ _, Input None aria [] None disabled) (slider_values value defaultValue min max)).

(** [Select] with its trigger, which shows the chosen item, and its items. *)
Definition Select (id : jstr) (value : jstr) (items : list (jstr * jstr)) : node :=
  Box [Control (mkCtl (Some id) None [] None false) [Text (default [] (map_get items value))];
       Box (map (λ p, Button false [Text p.2]) items)].

(** [DialogContent]: the close button comes with it. *)
Definition DialogContent (showCloseButton : bool) (l : list node) : node :=
  Box (l ++ if showCloseButton then [Button false [Text (js "Close")]] else []).
Definition DialogFooter (showCloseButton : bool) (l : list node) : node :=
  Box (l ++ if showCloseButton then [Button false [Text (js "Close")]] else []).
Definition Dialog (open : bool) (trigger content : list node) : node :=
  Box (Button false trigger :: if open then content else []).

(** ** The dashboard's routes ([app/**/page.tsx]) *)
Inductive route :=
| ROverview | RFlags | RNewFlag | RFlag (id : jstr) | RDemo | RCluster | RHealth | RResilience | RLearn
| RPlayground | RGlossary.
#[export] Instance route_eq_dec : EqDecision route.
Proof. solve_decision. Defined.

Definition static_routes : list (jstr * route) :=
  [(js "/", ROverview); (js "/flags", RFlags); (js "/flags/new", RNewFlag); (js "/demo", RDemo);
   (js "/cluster", RCluster); (js "/health", RHealth); (js "/resilience", RResilience); (js "/learn", RLearn);
   (js "/playground", RPlayground); (js "/glossary", RGlossary)].

(** A static path wins over [/flags/[id]]. *)
Definition route_of (path : jstr) : option route :=
  match map_get static_routes path with
  | Some r => Some r
  | None => match split_on 47 path with
            | [[]; f; id] => if bool_decide (f = js "flags") && negb (bool_decide (id = [])) then Some (RFlag id) else None
            | _ => None
            end
  end.

(** A link's path and fragment *)
Fixpoint cut_hash (s : jstr) : jstr * option jstr :=
  match s with
  | [] => ([], None)
  | c :: r => if c =? 35 then ([], Some r) else let '(p, f) := cut_hash r in (c :: p, f)
  end.

(** ** Properties of every element of a tree *)
Definition holds (P : node → Prop) (n : node) : Prop := Forall P (nodes n).
Definition opt_holds {A} (Q : A → Prop) (o : option A) : Prop := match o with Some a => Q a | None => True end.

Lemma holds_node P n : holds P n ↔ P n ∧ Forall (holds P) (children n).
Proof.
  destruct n; unfold holds; cbn [nodes children]; rewrite Forall_cons, ?Forall_nil; try done;
    by rewrite List.Forall_flat_map.
Qed.

Lemma holds_omap {A} (f : node → option A) (Q : A → Prop) n :
  holds (λ m, opt_holds Q (f m)) n → Forall Q (omap f (nodes n)).
Proof.
  unfold holds. induction (nodes n) as [|m l IH]; [constructor|]. intros [Hm Hl]%Forall_cons. cbn.
  destruct (f m) as [a|]; [constructor|]; auto.
Qed.

Lemma holds_elem P n m : holds P n → m ∈ nodes n → P m.
Proof. intros Hn Hm. by eapply Forall_forall in Hn. Qed.

(** A tree without elements of a kind adds none. *)
Lemma omap_none {A} (f : node → option A) n : holds (λ m, f m = None) n → omap f (nodes n) = [].
Proof.
  unfold holds. induction (nodes n) as [|m l IH]; [done|]. intros [Hm Hl]%Forall_cons. cbn. by rewrite Hm, IH.
Qed.

Lemma omap_flat {A} (f : node → option A) l : omap f (flat_map nodes l) = flat_map (λ n, omap f (nodes n)) l.
Proof. induction l as [|n l IH]; [done|]. cbn [flat_map]. by rewrite omap_app, IH. Qed.

Lemma holds_impl (P Q : node → Prop) n : (∀ m, P m → Q m) → holds P n → holds Q n.
Proof. intros H Hn. by eapply Forall_impl. Qed.

(** Goes through a tree whose shape is known, down to the elements [P] says
    something about. *)
Ltac walk :=
  repeat match goal with
  | |- holds _ (Text _) => apply holds_node; split; [|apply Forall_nil; exact I]
  | |- holds _ (Box _) => apply holds_node; split; [|cbn [children]]
  | |- holds _ (Region _ _) => apply holds_node; split; [|cbn [children]]
  | |- holds _ (Ident _ _) => apply holds_node; split; [|cbn [children]]
  | |- holds _ (Anchor _ _) => apply holds_node; split; [|cbn [children]]
  | |- holds _ (External _ _) => apply holds_node; split; [|cbn [children]]
  | |- holds _ (LabelFor _ _) => apply holds_node; split; [|cbn [children]]
  | |- holds _ (Control _ _) => apply holds_node; split; [|cbn [children]]
  | |- Forall _ [] => apply Forall_nil; exact I
  | |- Forall _ (_ :: _) => apply Forall_cons; split
  | |- Forall _ (_ ++ _) => apply Forall_app; split
  | |- Forall _ (map _ _) => apply List.Forall_map
  | |- Forall _ (match ?b with _ => _ end) => destruct b eqn:?
  | |- holds _ (match ?b with _ => _ end) => destruct b eqn:?
  end.

(** *** Links that lead somewhere *)

(** The page exists, and the fragment is an entry of the glossary. *)
Definition goes (href : jstr) : bool :=
  let '(p, f) := cut_hash href in
  match route_of p, f with
  | Some _, None => true
  | Some r, Some a => bool_decide (r = RGlossary) && bool_decide (a ∈ map Glossary.g_id Glossary.GLOSSARY)
  | None, _ => false
  end.

Lemma cut_hash_none s : 35 ∉ s → cut_hash s = (s, None).
Proof.
  induction s as [|c s IH]; intros Hs; [done|]. apply not_elem_of_cons in Hs as [Hc Hs]. cbn [cut_hash].
  by rewrite (proj2 (Z.eqb_neq c 35)), IH by done.
Qed.

(** *** What every element must satisfy

    A link leads somewhere and has a text; a control has an accessible name, given
    the page's labels. *)
Definition ok (labs : list (jstr * jstr)) (n : node) : Prop :=
  match n with
  | Anchor h l => goes h = true ∧ text (Box l) ≠ []
  | Control c l => acc_name labs (c, text (Box l)) ≠ []
  | _ => True
  end.

(** The same of a part that has no ids and labels of its own *)
Definition fine (n : node) : Prop :=
  match n with
  | Anchor h l => goes h = true ∧ text (Box l) ≠ []
  | Control c l => c_id c = None ∧ acc_name [] (c, text (Box l)) ≠ []
  | Ident _ _ | LabelFor (Some _) _ => False
  | _ => True
  end.

Lemma fine_ok labs n : holds fine n → holds (ok labs) n.
Proof.
  apply holds_impl. intros m. destruct m as [| | | | | | |c l]; try done. cbn [fine ok]. intros [Hc Ha].
  unfold acc_name in *. cbn [fst snd] in *. by rewrite Hc in *.
Qed.

Lemma fine_quiet n : holds fine n → ids n = [] ∧ labels n = [] ∧ field_ids n = [].
Proof.
  intros Hn. split_and!; apply omap_none; (eapply holds_impl; [|exact Hn]); intros m;
    destruct m as [| | | | | |[i|] l|c l]; try done; cbn; by intros [? ?].
Qed.

Definition fine_all (l : list node) : Prop := Forall (holds fine) l.

(** Ids and labels of a tree, element by element *)
Create Rewrite HintDb markup.
Lemma omap_node {A} (f : node → option A) n :
  omap f (nodes n) = match f n with Some a => [a] | None => [] end ++ flat_map (λ m, omap f (nodes m)) (children n).
Proof. destruct n; cbn [nodes children omap list_omap]; destruct (f _); cbn [app]; rewrite ?omap_flat; done. Qed.
Lemma ids_text s : ids (Text s) = [].
Proof. done. Qed.
Lemma ids_box l : ids (Box l) = flat_map ids l.
Proof. exact (omap_node _ (Box l)). Qed.
Lemma ids_region i l : ids (Region i l) = flat_map ids l.
Proof. exact (omap_node _ (Region i l)). Qed.
Lemma ids_anchor i l : ids (Anchor i l) = flat_map ids l.
Proof. exact (omap_node _ (Anchor i l)). Qed.
Lemma ids_ident i l : ids (Ident i l) = i :: flat_map ids l.
Proof. exact (omap_node _ (Ident i l)). Qed.
Lemma ids_label i l : ids (LabelFor i l) = flat_map ids l.
Proof. exact (omap_node _ (LabelFor i l)). Qed.
Lemma ids_control c l : ids (Control c l) = match c_id c with Some i => [i] | None => [] end ++ flat_map ids l.
Proof. exact (omap_node _ (Control c l)). Qed.
Lemma labels_text s : labels (Text s) = [].
Proof. done. Qed.
Lemma labels_box l : labels (Box l) = flat_map labels l.
Proof. exact (omap_node _ (Box l)). Qed.
Lemma labels_region i l : labels (Region i l) = flat_map labels l.
Proof. exact (omap_node _ (Region i l)). Qed.
Lemma labels_anchor i l : labels (Anchor i l) = flat_map labels l.
Proof. exact (omap_node _ (Anchor i l)). Qed.
Lemma labels_ident i l : labels (Ident i l) = flat_map labels l.
Proof. exact (omap_node _ (Ident i l)). Qed.
Lemma labels_label i l :
  labels (LabelFor i l) = match i with Some i => [(i, text (Box l))] | None => [] end ++ flat_map labels l.
Proof. unfold labels at 1. rewrite omap_node. by destruct i. Qed.
Lemma labels_control c l : labels (Control c l) = flat_map labels l.
Proof. exact (omap_node _ (Control c l)). Qed.
Lemma field_ids_text s : field_ids (Text s) = [].
Proof. done. Qed.
Lemma field_ids_box l : field_ids (Box l) = flat_map field_ids l.
Proof. exact (omap_node _ (Box l)). Qed.
Lemma field_ids_region i l : field_ids (Region i l) = flat_map field_ids l.
Proof. exact (omap_node _ (Region i l)). Qed.
Lemma field_ids_anchor i l : field_ids (Anchor i l) = flat_map field_ids l.
Proof. exact (omap_node _ (Anchor i l)). Qed.
Lemma field_ids_ident i l : field_ids (Ident i l) = flat_map field_ids l.
Proof. exact (omap_node _ (Ident i l)). Qed.
Lemma field_ids_label i l : field_ids (LabelFor i l) = flat_map field_ids l.
Proof. exact (omap_node _ (LabelFor i l)). Qed.
Lemma field_ids_control c l : field_ids (Control c l) = match c_id c with Some i => [i] | None => [] end ++ flat_map field_ids l.
Proof. exact (omap_node _ (Control c l)). Qed.
Lemma flat_map_none {A B} (f : A → list B) l : Forall (λ x, f x = []) l → flat_map f l = [].
Proof. induction 1 as [|x l Hx _ IH]; [done|]. cbn. by rewrite Hx, IH. Qed.
#[export] Hint Rewrite ids_text ids_box ids_ident ids_region ids_anchor ids_label ids_control labels_text labels_box
  labels_ident labels_region labels_anchor labels_label labels_control field_ids_text field_ids_box field_ids_region
  field_ids_anchor field_ids_ident field_ids_label field_ids_control : markup.

Lemma fine_all_quiet l : fine_all l → flat_map ids l = [] ∧ flat_map labels l = [] ∧ flat_map field_ids l = [].
Proof. intros Hl. split_and!; apply flat_map_none; (eapply Forall_impl; [exact Hl|]); intros n Hn; by apply fine_quiet. Qed.
