(* ===== verification/Ui.v ===== *)
(** * The design system's components ([components/ui])

    Thin components around the elements of a library of primitives and of HTML: they give
    an element a slot name and class names, take the props they are for, and
    spread the others.  Elements are as React creates them: a type and props, the
    children among them.  [clsx], [tailwind-merge] and [class-variance-authority] are
    parameters.  The theorems say that what a caller passes arrives. *)
From S2P Require Import Prelude JsMap Markup.

(** ** Elements *)
Inductive val :=
| VUndef | VStr (s : jstr) | VBool (b : bool) | VNum (n : Z)
| VRef (n : nat)                                   (* a function or an object *)
| VList (l : list val)
| VEl (type : jstr) (ps : list (jstr * val)).
Notation props := (list (jstr * val)).

(** Destructured props, with and without a default, and the rest of them *)
Definition prop (ps : props) (k : jstr) : val := default VUndef (map_get ps k).
Definition prop_or (ps : props) (k : jstr) (d : val) : val :=
  match prop ps k with VUndef => d | v => v end.
Definition without (ks : list jstr) (ps : props) : props := foldr (λ k m, map_delete m k) ps ks.

(** The attributes of an element, in order *)
Inductive attribute := Attr (k : jstr) (v : val) | Spread (ps : props).
Definition set_attr (m : props) (a : attribute) : props :=
  match a with
  | Attr k v => map_set m k v
  | Spread ps => foldl (λ m p, map_set m p.1 p.2) m ps
  end.
Definition attrs (l : list attribute) : props := foldl set_attr [] l.

(** Children written between the tags replace those among the attributes. *)
Definition with_kids (ps : props) (kids : list val) : props :=
  match kids with
  | [] => ps
  | [c] => map_set ps (js "children") c
  | _ => map_set ps (js "children") (VList kids)
  end.
Definition createElement (type : jstr) (l : list attribute) (kids : list val) : val :=
  VEl type (with_kids (attrs l) kids).

(** [c && e] *)
Definition and_also (c e : val) : val :=
  match c with VUndef | VBool false => c | VStr [] => c | VNum 0 => c | _ => e end.

Abbreviation E t l kids := (createElement (js t) l kids) (only parsing).
Abbreviation A k v := (Attr (js k) v) (only parsing).
Abbreviation S k v := (Attr (js k) (VStr (js v))) (only parsing).
Abbreviation str s := (VStr (js s)) (only parsing).
Abbreviation arg ps k := (prop ps (js k)) (only parsing).
Abbreviation arg_or ps k d := (prop_or ps (js k) d) (only parsing).

Section ui.
Context (clsx : list val → jstr) (twMerge : jstr → jstr).
(** Base classes, the variants with their classes, the default variants, and the
    call's props *)
Context (cva_ : jstr → list (jstr * list (jstr * jstr)) → list (jstr * jstr) → props → val).

(** ** [lib/utils.ts] *)
Definition cn (inputs : list val) : val := VStr (twMerge (clsx inputs)).
Abbreviation C ps base := (Attr (js "className") (cn [VStr (js base); prop ps (js "className")])) (only parsing).

(** ** The components *)
(** *** [button.tsx] *)
Definition buttonVariants (ps : props) : val :=
  cva_
    (js "group/button inline-flex shrink-0 items-center justify-center rounded-lg border border-transparent bg-clip-padding text-sm font-medium whitespace-nowrap transition-all outline-none select-none focus-visible:border-ring focus-visible:ring-3 focus-visible:ring-ring/50 disabled:pointer-events-none disabled:opacity-50 aria-invalid:border-destructive aria-invalid:ring-3 aria-invalid:ring-destructive/20 dark:aria-invalid:border-destructive/50 dark:aria-invalid:ring-destructive/40 [&_svg]:pointer-events-none [&_svg]:shrink-0 [&_svg:not([class*='size-'])]:size-4")
    [(js "variant", [(js "default", js "bg-primary text-primary-foreground [a]:hover:bg-primary/80");
       (js "outline", js "border-border bg-background hover:bg-muted hover:text-foreground aria-expanded:bg-muted aria-expanded:text-foreground dark:border-input dark:bg-input/30 dark:hover:bg-input/50");
       (js "secondary", js "bg-secondary text-secondary-foreground hover:bg-secondary/80 aria-expanded:bg-secondary aria-expanded:text-secondary-foreground");
       (js "ghost", js "hover:bg-muted hover:text-foreground aria-expanded:bg-muted aria-expanded:text-foreground dark:hover:bg-muted/50");
       (js "destructive", js "bg-destructive/10 text-destructive hover:bg-destructive/20 focus-visible:border-destructive/40 focus-visible:ring-destructive/20 dark:bg-destructive/20 dark:hover:bg-destructive/30 dark:focus-visible:ring-destructive/40");
       (js "link", js "text-primary underline-offset-4 hover:underline")]);
     (js "size", [(js "default", js "h-8 gap-1.5 px-2.5 has-data-[icon=inline-end]:pr-2 has-data-[icon=inline-start]:pl-2");
       (js "xs", js "h-6 gap-1 rounded-[min(var(--radius-md),10px)] px-2 text-xs in-data-[slot=button-group]:rounded-lg has-data-[icon=inline-end]:pr-1.5 has-data-[icon=inline-start]:pl-1.5 [&_svg:not([class*='size-'])]:size-3");
       (js "sm", js "h-7 gap-1 rounded-[min(var(--radius-md),12px)] px-2.5 text-[0.8rem] in-data-[slot=button-group]:rounded-lg has-data-[icon=inline-end]:pr-1.5 has-data-[icon=inline-start]:pl-1.5 [&_svg:not([class*='size-'])]:size-3.5");
       (js "lg", js "h-9 gap-1.5 px-2.5 has-data-[icon=inline-end]:pr-3 has-data-[icon=inline-start]:pl-3");
       (js "icon", js "size-8");
       (js "icon-xs", js "size-6 rounded-[min(var(--radius-md),10px)] in-data-[slot=button-group]:rounded-lg [&_svg:not([class*='size-'])]:size-3");
       (js "icon-sm", js "size-7 rounded-[min(var(--radius-md),12px)] in-data-[slot=button-group]:rounded-lg");
       (js "icon-lg", js "size-9")])]
    [(js "variant", js "default"); (js "size", js "default")] ps.
Definition Button (ps : props) : val :=
  E "ButtonPrimitive"
    [S "data-slot" "button";
     A "className" (cn [buttonVariants (attrs [A "variant" (arg_or ps "variant" (str "default"));
                                               A "size" (arg_or ps "size" (str "default"));
                                               A "className" (arg ps "className")])]);
     Spread (without [js "className"; js "variant"; js "size"] ps)] [].

(** *** [label.tsx] *)
Definition Label (ps : props) : val :=
  E "label"
    [S "data-slot" "label";
     C ps "flex items-center gap-2 text-sm leading-none font-medium select-none group-data-[disabled=true]:pointer-events-none group-data-[disabled=true]:opacity-50 peer-disabled:cursor-not-allowed peer-disabled:opacity-50";
     Spread (without [js "className"] ps)] [].

(** *** [input.tsx] *)
Definition Input (ps : props) : val :=
  E "InputPrimitive"
    [A "type" (arg ps "type");
     S "data-slot" "input";
     C ps "h-8 w-full min-w-0 rounded-lg border border-input bg-transparent px-2.5 py-1 text-base transition-colors outline-none file:inline-flex file:h-6 file:border-0 file:bg-transparent file:text-sm file:font-medium file:text-foreground placeholder:text-muted-foreground focus-visible:border-ring focus-visible:ring-3 focus-visible:ring-ring/50 disabled:pointer-events-none disabled:cursor-not-allowed disabled:bg-input/50 disabled:opacity-50 aria-invalid:border-destructive aria-invalid:ring-3 aria-invalid:ring-destructive/20 md:text-sm dark:bg-input/30 dark:disabled:bg-input/80 dark:aria-invalid:border-destructive/50 dark:aria-invalid:ring-destructive/40";
     Spread (without [js "className"; js "type"] ps)] [].

(** *** [textarea.tsx] *)
Definition Textarea (ps : props) : val :=
  E "textarea"
    [S "data-slot" "textarea";
     C ps "flex field-sizing-content min-h-16 w-full rounded-lg border border-input bg-transparent px-2.5 py-2 text-base transition-colors outline-none placeholder:text-muted-foreground focus-visible:border-ring focus-visible:ring-3 focus-visible:ring-ring/50 disabled:cursor-not-allowed disabled:bg-input/50 disabled:opacity-50 aria-invalid:border-destructive aria-invalid:ring-3 aria-invalid:ring-destructive/20 md:text-sm dark:bg-input/30 dark:disabled:bg-input/80 dark:aria-invalid:border-destructive/50 dark:aria-invalid:ring-destructive/40";
     Spread (without [js "className"] ps)] [].

(** *** [switch.tsx] *)
Definition Switch (ps : props) : val :=
  E "SwitchPrimitive.Root"
    [S "data-slot" "switch";
     A "data-size" (arg_or ps "size" (str "default"));
     C ps "peer group/switch relative inline-flex shrink-0 items-center rounded-full border border-transparent transition-all outline-none after:absolute after:-inset-x-3 after:-inset-y-2 focus-visible:border-ring focus-visible:ring-3 focus-visible:ring-ring/50 aria-invalid:border-destructive aria-invalid:ring-3 aria-invalid:ring-destructive/20 data-[size=default]:h-[18.4px] data-[size=default]:w-[32px] data-[size=sm]:h-[14px] data-[size=sm]:w-[24px] dark:aria-invalid:border-destructive/50 dark:aria-invalid:ring-destructive/40 data-checked:bg-primary data-unchecked:bg-input dark:data-unchecked:bg-input/80 data-disabled:cursor-not-allowed data-disabled:opacity-50";
     Spread (without [js "className"; js "size"] ps)]
    [E "SwitchPrimitive.Thumb"
       [S "data-slot" "switch-thumb";
        S "className" "pointer-events-none block rounded-full bg-background ring-0 transition-transform group-data-[size=default]/switch:size-4 group-data-[size=sm]/switch:size-3 group-data-[size=default]/switch:data-checked:translate-x-[calc(100%-2px)] group-data-[size=sm]/switch:data-checked:translate-x-[calc(100%-2px)] dark:data-checked:bg-primary-foreground group-data-[size=default]/switch:data-unchecked:translate-x-0 group-data-[size=sm]/switch:data-unchecked:translate-x-0 dark:data-unchecked:bg-foreground"] []].

(** *** [card.tsx] *)
Definition Card (ps : props) : val :=
  E "div"
    [S "data-slot" "card";
     A "data-size" (arg_or ps "size" (str "default"));
     C ps "group/card flex flex-col gap-4 overflow-hidden rounded-xl bg-card py-4 text-sm text-card-foreground ring-1 ring-foreground/10 has-data-[slot=card-footer]:pb-0 has-[>img:first-child]:pt-0 data-[size=sm]:gap-3 data-[size=sm]:py-3 data-[size=sm]:has-data-[slot=card-footer]:pb-0 *:[img:first-child]:rounded-t-xl *:[img:last-child]:rounded-b-xl";
     Spread (without [js "className"; js "size"] ps)] [].
Definition CardHeader (ps : props) : val :=
  E "div"
    [S "data-slot" "card-header";
     C ps "group/card-header @container/card-header grid auto-rows-min items-start gap-1 rounded-t-xl px-4 group-data-[size=sm]/card:px-3 has-data-[slot=card-action]:grid-cols-[1fr_auto] has-data-[slot=card-description]:grid-rows-[auto_auto] [.border-b]:pb-4 group-data-[size=sm]/card:[.border-b]:pb-3";
     Spread (without [js "className"] ps)] [].
Definition CardTitle (ps : props) : val :=
  E "div"
    [S "data-slot" "card-title";
     C ps "text-base leading-snug font-medium group-data-[size=sm]/card:text-sm";
     Spread (without [js "className"] ps)] [].
Definition CardDescription (ps : props) : val :=
  E "div"
    [S "data-slot" "card-description";
     C ps "text-sm text-muted-foreground";
     Spread (without [js "className"] ps)] [].
Definition CardAction (ps : props) : val :=
  E "div"
    [S "data-slot" "card-action";
     C ps "col-start-2 row-span-2 row-start-1 self-start justify-self-end";
     Spread (without [js "className"] ps)] [].
Definition CardContent (ps : props) : val :=
  E "div"
    [S "data-slot" "card-content";
     C ps "px-4 group-data-[size=sm]/card:px-3";
     Spread (without [js "className"] ps)] [].
Definition CardFooter (ps : props) : val :=
  E "div"
    [S "data-slot" "card-footer";
     C ps "flex items-center rounded-b-xl border-t bg-muted/50 p-4 group-data-[size=sm]/card:p-3";
     Spread (without [js "className"] ps)] [].

(** *** [table.tsx] *)
Definition Table (ps : props) : val :=
  E "div" [S "data-slot" "table-container"; S "className" "relative w-full overflow-x-auto"]
    [E "table"
       [S "data-slot" "table"; C ps "w-full caption-bottom text-sm"; Spread (without [js "className"] ps)] []].
Definition TableHeader (ps : props) : val :=
  E "thead" [S "data-slot" "table-header"; C ps "[&_tr]:border-b"; Spread (without [js "className"] ps)] [].
Definition TableBody (ps : props) : val :=
  E "tbody"
    [S "data-slot" "table-body"; C ps "[&_tr:last-child]:border-0"; Spread (without [js "className"] ps)] [].
Definition TableFooter (ps : props) : val :=
  E "tfoot"
    [S "data-slot" "table-footer";
     C ps "border-t bg-muted/50 font-medium [&>tr]:last:border-b-0";
     Spread (without [js "className"] ps)] [].
Definition TableRow (ps : props) : val :=
  E "tr"
    [S "data-slot" "table-row";
     C ps "border-b transition-colors hover:bg-muted/50 data-[state=selected]:bg-muted";
     Spread (without [js "className"] ps)] [].
Definition TableHead (ps : props) : val :=
  E "th"
    [S "data-slot" "table-head";
     C ps "h-10 px-2 text-left align-middle font-medium whitespace-nowrap text-foreground [&:has([role=checkbox])]:pr-0";
     Spread (without [js "className"] ps)] [].
Definition TableCell (ps : props) : val :=
  E "td"
    [S "data-slot" "table-cell";
     C ps "p-2 align-middle whitespace-nowrap [&:has([role=checkbox])]:pr-0";
     Spread (without [js "className"] ps)] [].
Definition TableCaption (ps : props) : val :=
  E "caption"
    [S "data-slot" "table-caption";
     C ps "mt-4 text-sm text-muted-foreground";
     Spread (without [js "className"] ps)] [].

(** *** [dialog.tsx] *)
Definition Dialog (ps : props) : val :=
  E "DialogPrimitive.Root" [S "data-slot" "dialog"; Spread ps] [].
Definition DialogTrigger (ps : props) : val :=
  E "DialogPrimitive.Trigger" [S "data-slot" "dialog-trigger"; Spread ps] [].
Definition DialogPortal (ps : props) : val :=
  E "DialogPrimitive.Portal" [S "data-slot" "dialog-portal"; Spread ps] [].
Definition DialogClose (ps : props) : val :=
  E "DialogPrimitive.Close" [S "data-slot" "dialog-close"; Spread ps] [].
Definition DialogOverlay (ps : props) : val :=
  E "DialogPrimitive.Backdrop"
    [S "data-slot" "dialog-overlay";
     C ps "fixed inset-0 isolate z-50 bg-black/10 duration-100 supports-backdrop-filter:backdrop-blur-xs data-open:animate-in data-open:fade-in-0 data-closed:animate-out data-closed:fade-out-0";
     Spread (without [js "className"] ps)] [].
Definition DialogContent (ps : props) : val :=
  DialogPortal (with_kids (attrs [])
    [DialogOverlay (attrs []);
     E "DialogPrimitive.Popup"
       [S "data-slot" "dialog-content";
        C ps "fixed top-1/2 left-1/2 z-50 grid w-full max-w-[calc(100%-2rem)] -translate-x-1/2 -translate-y-1/2 gap-4 rounded-xl bg-background p-4 text-sm ring-1 ring-foreground/10 duration-100 outline-none sm:max-w-sm data-open:animate-in data-open:fade-in-0 data-open:zoom-in-95 data-closed:animate-out data-closed:fade-out-0 data-closed:zoom-out-95";
        Spread (without [js "className"; js "children"; js "showCloseButton"] ps)]
       [arg ps "children";
        and_also (arg_or ps "showCloseButton" (VBool true)) (E "DialogPrimitive.Close" [S "data-slot" "dialog-close"; A "render" (Button (attrs [S "variant" "ghost"; S "className" "absolute top-2 right-2"; S "size" "icon-sm"]))] [E "XIcon" [] []; E "span" [S "className" "sr-only"] [str "Close"]])]]).
Definition DialogHeader (ps : props) : val :=
  E "div" [S "data-slot" "dialog-header"; C ps "flex flex-col gap-2"; Spread (without [js "className"] ps)] [].
Definition DialogFooter (ps : props) : val :=
  E "div"
    [S "data-slot" "dialog-footer";
     C ps "-mx-4 -mb-4 flex flex-col-reverse gap-2 rounded-b-xl border-t bg-muted/50 p-4 sm:flex-row sm:justify-end";
     Spread (without [js "className"; js "showCloseButton"; js "children"] ps)]
    [arg ps "children";
     and_also (arg_or ps "showCloseButton" (VBool false)) (E "DialogPrimitive.Close" [A "render" (Button (attrs [S "variant" "outline"]))] [str "Close"])].
Definition DialogTitle (ps : props) : val :=
  E "DialogPrimitive.Title"
    [S "data-slot" "dialog-title";
     C ps "text-base leading-none font-medium";
     Spread (without [js "className"] ps)] [].
Definition DialogDescription (ps : props) : val :=
  E "DialogPrimitive.Description"
    [S "data-slot" "dialog-description";
     C ps "text-sm text-muted-foreground *:[a]:underline *:[a]:underline-offset-3 *:[a]:hover:text-foreground";
     Spread (without [js "className"] ps)] [].

(** *** [tooltip.tsx] *)
Definition TooltipProvider (ps : props) : val :=
  E "TooltipPrimitive.Provider"
    [S "data-slot" "tooltip-provider";
     A "delay" (arg_or ps "delay" (VNum 0));
     Spread (without [js "delay"] ps)] [].
Definition Tooltip (ps : props) : val :=
  E "TooltipPrimitive.Root" [S "data-slot" "tooltip"; Spread ps] [].
Definition TooltipTrigger (ps : props) : val :=
  E "TooltipPrimitive.Trigger" [S "data-slot" "tooltip-trigger"; Spread ps] [].
Definition TooltipContent (ps : props) : val :=
  E "TooltipPrimitive.Portal" []
    [E "TooltipPrimitive.Positioner"
       [A "align" (arg_or ps "align" (str "center"));
        A "alignOffset" (arg_or ps "alignOffset" (VNum 0));
        A "side" (arg_or ps "side" (str "top"));
        A "sideOffset" (arg_or ps "sideOffset" (VNum 4));
        S "className" "isolate z-50"]
       [E "TooltipPrimitive.Popup"
          [S "data-slot" "tooltip-content";
           C ps "z-50 inline-flex w-fit max-w-xs origin-(--transform-origin) items-center gap-1.5 rounded-md bg-foreground px-3 py-1.5 text-xs text-background has-data-[slot=kbd]:pr-1.5 data-[side=bottom]:slide-in-from-top-2 data-[side=inline-end]:slide-in-from-left-2 data-[side=inline-start]:slide-in-from-right-2 data-[side=left]:slide-in-from-right-2 data-[side=right]:slide-in-from-left-2 data-[side=top]:slide-in-from-bottom-2 **:data-[slot=kbd]:relative **:data-[slot=kbd]:isolate **:data-[slot=kbd]:z-50 **:data-[slot=kbd]:rounded-sm data-[state=delayed-open]:animate-in data-[state=delayed-open]:fade-in-0 data-[state=delayed-open]:zoom-in-95 data-open:animate-in data-open:fade-in-0 data-open:zoom-in-95 data-closed:animate-out data-closed:fade-out-0 data-closed:zoom-out-95";
           Spread (without [js "className"; js "side"; js "sideOffset"; js "align"; js "alignOffset"; js "children"] ps)]
          [arg ps "children";
           E "TooltipPrimitive.Arrow"
             [S "className" "z-50 size-2.5 translate-y-[calc(-50%-2px)] rotate-45 rounded-[2px] bg-foreground fill-foreground data-[side=bottom]:top-1 data-[side=inline-end]:top-1/2! data-[side=inline-end]:-left-1 data-[side=inline-end]:-translate-y-1/2 data-[side=inline-start]:top-1/2! data-[side=inline-start]:-right-1 data-[side=inline-start]:-translate-y-1/2 data-[side=left]:top-1/2! data-[side=left]:-right-1 data-[side=left]:-translate-y-1/2 data-[side=right]:top-1/2! data-[side=right]:-left-1 data-[side=right]:-translate-y-1/2 data-[side=top]:-bottom-2.5"] []]]].

(** *** [dropdown-menu.tsx] *)
Definition DropdownMenu (ps : props) : val :=
  E "MenuPrimitive.Root" [S "data-slot" "dropdown-menu"; Spread ps] [].
Definition DropdownMenuPortal (ps : props) : val :=
  E "MenuPrimitive.Portal" [S "data-slot" "dropdown-menu-portal"; Spread ps] [].
Definition DropdownMenuTrigger (ps : props) : val :=
  E "MenuPrimitive.Trigger" [S "data-slot" "dropdown-menu-trigger"; Spread ps] [].
Definition DropdownMenuContent (ps : props) : val :=
  E "MenuPrimitive.Portal" []
    [E "MenuPrimitive.Positioner"
       [S "className" "isolate z-50 outline-none";
        A "align" (arg_or ps "align" (str "start"));
        A "alignOffset" (arg_or ps "alignOffset" (VNum 0));
        A "side" (arg_or ps "side" (str "bottom"));
        A "sideOffset" (arg_or ps "sideOffset" (VNum 4))]
       [E "MenuPrimitive.Popup"
          [S "data-slot" "dropdown-menu-content";
           C ps "z-50 max-h-(--available-height) w-(--anchor-width) min-w-32 origin-(--transform-origin) overflow-x-hidden overflow-y-auto rounded-lg bg-popover p-1 text-popover-foreground shadow-md ring-1 ring-foreground/10 duration-100 outline-none data-[side=bottom]:slide-in-from-top-2 data-[side=inline-end]:slide-in-from-left-2 data-[side=inline-start]:slide-in-from-right-2 data-[side=left]:slide-in-from-right-2 data-[side=right]:slide-in-from-left-2 data-[side=top]:slide-in-from-bottom-2 data-open:animate-in data-open:fade-in-0 data-open:zoom-in-95 data-closed:animate-out data-closed:overflow-hidden data-closed:fade-out-0 data-closed:zoom-out-95";
           Spread (without [js "align"; js "alignOffset"; js "side"; js "sideOffset"; js "className"] ps)] []]].
Definition DropdownMenuGroup (ps : props) : val :=
  E "MenuPrimitive.Group" [S "data-slot" "dropdown-menu-group"; Spread ps] [].
Definition DropdownMenuLabel (ps : props) : val :=
  E "MenuPrimitive.GroupLabel"
    [S "data-slot" "dropdown-menu-label";
     A "data-inset" (arg ps "inset");
     C ps "px-1.5 py-1 text-xs font-medium text-muted-foreground data-inset:pl-7";
     Spread (without [js "className"; js "inset"] ps)] [].
Definition DropdownMenuItem (ps : props) : val :=
  E "MenuPrimitive.Item"
    [S "data-slot" "dropdown-menu-item";
     A "data-inset" (arg ps "inset");
     A "data-variant" (arg_or ps "variant" (str "default"));
     C ps "group/dropdown-menu-item relative flex cursor-default items-center gap-1.5 rounded-md px-1.5 py-1 text-sm outline-hidden select-none focus:bg-accent focus:text-accent-foreground not-data-[variant=destructive]:focus:**:text-accent-foreground data-inset:pl-7 data-[variant=destructive]:text-destructive data-[variant=destructive]:focus:bg-destructive/10 data-[variant=destructive]:focus:text-destructive dark:data-[variant=destructive]:focus:bg-destructive/20 data-disabled:pointer-events-none data-disabled:opacity-50 [&_svg]:pointer-events-none [&_svg]:shrink-0 [&_svg:not([class*='size-'])]:size-4 data-[variant=destructive]:*:[svg]:text-destructive";
     Spread (without [js "className"; js "inset"; js "variant"] ps)] [].
Definition DropdownMenuSub (ps : props) : val :=
  E "MenuPrimitive.SubmenuRoot" [S "data-slot" "dropdown-menu-sub"; Spread ps] [].
Definition DropdownMenuSubTrigger (ps : props) : val :=
  E "MenuPrimitive.SubmenuTrigger"
    [S "data-slot" "dropdown-menu-sub-trigger";
     A "data-inset" (arg ps "inset");
     C ps "flex cursor-default items-center gap-1.5 rounded-md px-1.5 py-1 text-sm outline-hidden select-none focus:bg-accent focus:text-accent-foreground not-data-[variant=destructive]:focus:**:text-accent-foreground data-inset:pl-7 data-popup-open:bg-accent data-popup-open:text-accent-foreground data-open:bg-accent data-open:text-accent-foreground [&_svg]:pointer-events-none [&_svg]:shrink-0 [&_svg:not([class*='size-'])]:size-4";
     Spread (without [js "className"; js "inset"; js "children"] ps)]
    [arg ps "children"; E "ChevronRightIcon" [S "className" "ml-auto"] []].
Definition DropdownMenuSubContent (ps : props) : val :=
  DropdownMenuContent (attrs
    [S "data-slot" "dropdown-menu-sub-content";
     C ps "w-auto min-w-[96px] rounded-lg bg-popover p-1 text-popover-foreground shadow-lg ring-1 ring-foreground/10 duration-100 data-[side=bottom]:slide-in-from-top-2 data-[side=left]:slide-in-from-right-2 data-[side=right]:slide-in-from-left-2 data-[side=top]:slide-in-from-bottom-2 data-open:animate-in data-open:fade-in-0 data-open:zoom-in-95 data-closed:animate-out data-closed:fade-out-0 data-closed:zoom-out-95";
     A "align" (arg_or ps "align" (str "start"));
     A "alignOffset" (arg_or ps "alignOffset" (VNum (-3)));
     A "side" (arg_or ps "side" (str "right"));
     A "sideOffset" (arg_or ps "sideOffset" (VNum 0));
     Spread (without [js "align"; js "alignOffset"; js "side"; js "sideOffset"; js "className"] ps)]).
Definition DropdownMenuCheckboxItem (ps : props) : val :=
  E "MenuPrimitive.CheckboxItem"
    [S "data-slot" "dropdown-menu-checkbox-item";
     A "data-inset" (arg ps "inset");
     C ps "relative flex cursor-default items-center gap-1.5 rounded-md py-1 pr-8 pl-1.5 text-sm outline-hidden select-none focus:bg-accent focus:text-accent-foreground focus:**:text-accent-foreground data-inset:pl-7 data-disabled:pointer-events-none data-disabled:opacity-50 [&_svg]:pointer-events-none [&_svg]:shrink-0 [&_svg:not([class*='size-'])]:size-4";
     A "checked" (arg ps "checked");
     Spread (without [js "className"; js "children"; js "checked"; js "inset"] ps)]
    [E "span"
       [S "className" "pointer-events-none absolute right-2 flex items-center justify-center";
        S "data-slot" "dropdown-menu-checkbox-item-indicator"]
       [E "MenuPrimitive.CheckboxItemIndicator" []
          [E "CheckIcon" [] []]];
     arg ps "children"].
Definition DropdownMenuRadioGroup (ps : props) : val :=
  E "MenuPrimitive.RadioGroup" [S "data-slot" "dropdown-menu-radio-group"; Spread ps] [].
Definition DropdownMenuRadioItem (ps : props) : val :=
  E "MenuPrimitive.RadioItem"
    [S "data-slot" "dropdown-menu-radio-item";
     A "data-inset" (arg ps "inset");
     C ps "relative flex cursor-default items-center gap-1.5 rounded-md py-1 pr-8 pl-1.5 text-sm outline-hidden select-none focus:bg-accent focus:text-accent-foreground focus:**:text-accent-foreground data-inset:pl-7 data-disabled:pointer-events-none data-disabled:opacity-50 [&_svg]:pointer-events-none [&_svg]:shrink-0 [&_svg:not([class*='size-'])]:size-4";
     Spread (without [js "className"; js "children"; js "inset"] ps)]
    [E "span"
       [S "className" "pointer-events-none absolute right-2 flex items-center justify-center";
        S "data-slot" "dropdown-menu-radio-item-indicator"]
       [E "MenuPrimitive.RadioItemIndicator" []
          [E "CheckIcon" [] []]];
     arg ps "children"].
Definition DropdownMenuSeparator (ps : props) : val :=
  E "MenuPrimitive.Separator"
    [S "data-slot" "dropdown-menu-separator";
     C ps "-mx-1 my-1 h-px bg-border";
     Spread (without [js "className"] ps)] [].
Definition DropdownMenuShortcut (ps : props) : val :=
  E "span"
    [S "data-slot" "dropdown-menu-shortcut";
     C ps "ml-auto text-xs tracking-widest text-muted-foreground group-focus/dropdown-menu-item:text-accent-foreground";
     Spread (without [js "className"] ps)] [].

(** *** [select.tsx] *)
Definition SelectScrollUpButton (ps : props) : val :=
  E "SelectPrimitive.ScrollUpArrow"
    [S "data-slot" "select-scroll-up-button";
     C ps "top-0 z-10 flex w-full cursor-default items-center justify-center bg-popover py-1 [&_svg:not([class*='size-'])]:size-4";
     Spread (without [js "className"] ps)]
    [E "ChevronUpIcon" [] []].
Definition SelectScrollDownButton (ps : props) : val :=
  E "SelectPrimitive.ScrollDownArrow"
    [S "data-slot" "select-scroll-down-button";
     C ps "bottom-0 z-10 flex w-full cursor-default items-center justify-center bg-popover py-1 [&_svg:not([class*='size-'])]:size-4";
     Spread (without [js "className"] ps)]
    [E "ChevronDownIcon" [] []].
Definition SelectGroup (ps : props) : val :=
  E "SelectPrimitive.Group"
    [S "data-slot" "select-group"; C ps "scroll-my-1 p-1"; Spread (without [js "className"] ps)] [].
Definition SelectValue (ps : props) : val :=
  E "SelectPrimitive.Value"
    [S "data-slot" "select-value"; C ps "flex flex-1 text-left"; Spread (without [js "className"] ps)] [].
Definition SelectTrigger (ps : props) : val :=
  E "SelectPrimitive.Trigger"
    [S "data-slot" "select-trigger";
     A "data-size" (arg_or ps "size" (str "default"));
     C ps "flex w-fit items-center justify-between gap-1.5 rounded-lg border border-input bg-transparent py-2 pr-2 pl-2.5 text-sm whitespace-nowrap transition-colors outline-none select-none focus-visible:border-ring focus-visible:ring-3 focus-visible:ring-ring/50 disabled:cursor-not-allowed disabled:opacity-50 aria-invalid:border-destructive aria-invalid:ring-3 aria-invalid:ring-destructive/20 data-placeholder:text-muted-foreground data-[size=default]:h-8 data-[size=sm]:h-7 data-[size=sm]:rounded-[min(var(--radius-md),10px)] *:data-[slot=select-value]:line-clamp-1 *:data-[slot=select-value]:flex *:data-[slot=select-value]:items-center *:data-[slot=select-value]:gap-1.5 dark:bg-input/30 dark:hover:bg-input/50 dark:aria-invalid:border-destructive/50 dark:aria-invalid:ring-destructive/40 [&_svg]:pointer-events-none [&_svg]:shrink-0 [&_svg:not([class*='size-'])]:size-4";
     Spread (without [js "className"; js "size"; js "children"] ps)]
    [arg ps "children";
     E "SelectPrimitive.Icon"
       [A "render" (E "ChevronDownIcon" [S "className" "pointer-events-none size-4 text-muted-foreground"] [])] []].
Definition SelectContent (ps : props) : val :=
  E "SelectPrimitive.Portal" []
    [E "SelectPrimitive.Positioner"
       [A "side" (arg_or ps "side" (str "bottom"));
        A "sideOffset" (arg_or ps "sideOffset" (VNum 4));
        A "align" (arg_or ps "align" (str "center"));
        A "alignOffset" (arg_or ps "alignOffset" (VNum 0));
        A "alignItemWithTrigger" (arg_or ps "alignItemWithTrigger" (VBool true));
        S "className" "isolate z-50"]
       [E "SelectPrimitive.Popup"
          [S "data-slot" "select-content";
           A "data-align-trigger" (arg_or ps "alignItemWithTrigger" (VBool true));
           C ps "relative isolate z-50 max-h-(--available-height) w-(--anchor-width) min-w-36 origin-(--transform-origin) overflow-x-hidden overflow-y-auto rounded-lg bg-popover text-popover-foreground shadow-md ring-1 ring-foreground/10 duration-100 data-[align-trigger=true]:animate-none data-[side=bottom]:slide-in-from-top-2 data-[side=inline-end]:slide-in-from-left-2 data-[side=inline-start]:slide-in-from-right-2 data-[side=left]:slide-in-from-right-2 data-[side=right]:slide-in-from-left-2 data-[side=top]:slide-in-from-bottom-2 data-open:animate-in data-open:fade-in-0 data-open:zoom-in-95 data-closed:animate-out data-closed:fade-out-0 data-closed:zoom-out-95";
           Spread (without [js "className"; js "children"; js "side"; js "sideOffset"; js "align"; js "alignOffset"; js "alignItemWithTrigger"] ps)]
          [SelectScrollUpButton (attrs []);
           E "SelectPrimitive.List" []
             [arg ps "children"];
           SelectScrollDownButton (attrs [])]]].
Definition SelectLabel (ps : props) : val :=
  E "SelectPrimitive.GroupLabel"
    [S "data-slot" "select-label";
     C ps "px-1.5 py-1 text-xs text-muted-foreground";
     Spread (without [js "className"] ps)] [].
Definition SelectItem (ps : props) : val :=
  E "SelectPrimitive.Item"
    [S "data-slot" "select-item";
     C ps "relative flex w-full cursor-default items-center gap-1.5 rounded-md py-1 pr-8 pl-1.5 text-sm outline-hidden select-none focus:bg-accent focus:text-accent-foreground not-data-[variant=destructive]:focus:**:text-accent-foreground data-disabled:pointer-events-none data-disabled:opacity-50 [&_svg]:pointer-events-none [&_svg]:shrink-0 [&_svg:not([class*='size-'])]:size-4 *:[span]:last:flex *:[span]:last:items-center *:[span]:last:gap-2";
     Spread (without [js "className"; js "children"] ps)]
    [E "SelectPrimitive.ItemText" [S "className" "flex flex-1 shrink-0 gap-2 whitespace-nowrap"]
       [arg ps "children"];
     E "SelectPrimitive.ItemIndicator"
       [A "render" (E "span"
            [S "className" "pointer-events-none absolute right-2 flex size-4 items-center justify-center"] [])]
       [E "CheckIcon" [S "className" "pointer-events-none"] []]].
Definition SelectSeparator (ps : props) : val :=
  E "SelectPrimitive.Separator"
    [S "data-slot" "select-separator";
     C ps "pointer-events-none -mx-1 my-1 h-px bg-border";
     Spread (without [js "className"] ps)] [].

(** *** [badge.tsx]

    [useRender] and [mergeProps] belong to the library of primitives. *)
Definition badgeVariants (ps : props) : val :=
  cva_
    (js "group/badge inline-flex h-5 w-fit shrink-0 items-center justify-center gap-1 overflow-hidden rounded-4xl border border-transparent px-2 py-0.5 text-xs font-medium whitespace-nowrap transition-all focus-visible:border-ring focus-visible:ring-[3px] focus-visible:ring-ring/50 has-data-[icon=inline-end]:pr-1.5 has-data-[icon=inline-start]:pl-1.5 aria-invalid:border-destructive aria-invalid:ring-destructive/20 dark:aria-invalid:ring-destructive/40 [&>svg]:pointer-events-none [&>svg]:size-3!")
    [(js "variant", [(js "default", js "bg-primary text-primary-foreground [a]:hover:bg-primary/80");
       (js "secondary", js "bg-secondary text-secondary-foreground [a]:hover:bg-secondary/80");
       (js "destructive", js "bg-destructive/10 text-destructive focus-visible:ring-destructive/20 dark:bg-destructive/20 dark:focus-visible:ring-destructive/40 [a]:hover:bg-destructive/20");
       (js "outline", js "border-border text-foreground [a]:hover:bg-muted [a]:hover:text-muted-foreground");
       (js "ghost", js "hover:bg-muted hover:text-muted-foreground dark:hover:bg-muted/50");
       (js "link", js "text-primary underline-offset-4 hover:underline")])]
    [(js "variant", js "default")] ps.
Definition Badge (useRender : jstr → props → val → props → val) (mergeProps : props → props → props) (ps : props) : val :=
  useRender (js "span")
    (mergeProps
       [(js "className", cn [badgeVariants [(js "variant", arg_or ps "variant" (str "default"))]; arg ps "className"])]
       (without [js "className"; js "variant"; js "render"] ps))
    (arg ps "render")
    [(js "slot", str "badge"); (js "variant", arg_or ps "variant" (str "default"))].

(** *** [slider.tsx] *)
Definition is_array (v : val) : option (list val) := match v with VList l => Some l | _ => None end.
(** The values given, the default ones, or both ends. *)
Definition _values (value defaultValue min max : val) : list val :=
  match is_array value, is_array defaultValue with Some l, _ => l | None, Some l => l | None, None => [min; max] end.
Definition thumb (ariaLabel ariaLabelledby : val) (index : nat) : val :=
  E "SliderPrimitive.Thumb"
    [S "data-slot" "slider-thumb"; A "key" (VNum (Z.of_nat index)); A "aria-label" ariaLabel;
     A "aria-labelledby" ariaLabelledby;
     S "className" "relative block size-3 shrink-0 rounded-full border border-ring bg-white ring-ring/50 transition-[color,box-shadow] select-none after:absolute after:-inset-2 hover:ring-3 focus-visible:ring-3 focus-visible:outline-hidden active:ring-3 disabled:pointer-events-none disabled:opacity-50"] [].
Definition Slider (ps : props) : val :=
  let min := arg_or ps "min" (VNum 0) in
  let max := arg_or ps "max" (VNum 100) in
  let values := _values (arg ps "value") (arg ps "defaultValue") min max in
  E "SliderPrimitive.Root"
    [C ps "data-horizontal:w-full data-vertical:h-full"; S "data-slot" "slider";
     A "defaultValue" (arg ps "defaultValue"); A "value" (arg ps "value"); A "min" min; A "max" max;
     S "thumbAlignment" "edge";
     Spread (without [js "className"; js "defaultValue"; js "value"; js "min"; js "max"; js "aria-label"; js "aria-labelledby"] ps)]
    [E "SliderPrimitive.Control"
       [S "className" "relative flex w-full touch-none items-center select-none data-disabled:opacity-50 data-vertical:h-full data-vertical:min-h-40 data-vertical:w-auto data-vertical:flex-col"]
       [E "SliderPrimitive.Track"
          [S "data-slot" "slider-track";
           S "className" "relative grow overflow-hidden rounded-full bg-muted select-none data-horizontal:h-1 data-horizontal:w-full data-vertical:h-full data-vertical:w-1"]
          [E "SliderPrimitive.Indicator"
             [S "data-slot" "slider-range"; S "className" "bg-primary select-none data-horizontal:h-full data-vertical:w-full"] []];
        VList (map (thumb (arg ps "aria-label") (arg ps "aria-labelledby")) (seq 0 (length values)))]].

(** *** [sonner.tsx]: the icons, [style] and [toastOptions] are objects of their own. *)
Definition Toaster (useTheme : val) (icons style toastOptions : nat) (ps : props) : val :=
  E "Sonner"
    [A "theme" (match useTheme with VUndef => str "system" | t => t end); S "className" "toaster group";
     A "icons" (VRef icons); A "style" (VRef style); A "toastOptions" (VRef toastOptions); Spread ps] [].

(** ** Where the caller's props go

    Each component passes on the props it does not take itself, to the element at
    [w_path] (indices of children from the element it returns). *)
Record wrapper := mkWrapper {
  w_render : props → val; w_own : list jstr; w_slot : jstr; w_merges : bool; w_path : list nat }.
Definition wrappers : list wrapper :=
  [mkWrapper Button [js "className"; js "variant"; js "size"] (js "button") false [];
   mkWrapper Label [js "className"] (js "label") true [];
   mkWrapper Input [js "className"; js "type"] (js "input") true [];
   mkWrapper Textarea [js "className"] (js "textarea") true [];
   mkWrapper Switch [js "className"; js "size"; js "children"] (js "switch") true [];
   mkWrapper Card [js "className"; js "size"] (js "card") true [];
   mkWrapper CardHeader [js "className"] (js "card-header") true [];
   mkWrapper CardTitle [js "className"] (js "card-title") true [];
   mkWrapper CardDescription [js "className"] (js "card-description") true [];
   mkWrapper CardAction [js "className"] (js "card-action") true [];
   mkWrapper CardContent [js "className"] (js "card-content") true [];
   mkWrapper CardFooter [js "className"] (js "card-footer") true [];
   mkWrapper Table [js "className"] (js "table") true [0]%nat;
   mkWrapper TableHeader [js "className"] (js "table-header") true [];
   mkWrapper TableBody [js "className"] (js "table-body") true [];
   mkWrapper TableFooter [js "className"] (js "table-footer") true [];
   mkWrapper TableRow [js "className"] (js "table-row") true [];
   mkWrapper TableHead [js "className"] (js "table-head") true [];
   mkWrapper TableCell [js "className"] (js "table-cell") true [];
   mkWrapper TableCaption [js "className"] (js "table-caption") true [];
   mkWrapper Dialog [] (js "dialog") false [];
   mkWrapper DialogTrigger [] (js "dialog-trigger") false [];
   mkWrapper DialogPortal [] (js "dialog-portal") false [];
   mkWrapper DialogClose [] (js "dialog-close") false [];
   mkWrapper DialogOverlay [js "className"] (js "dialog-overlay") true [];
   mkWrapper DialogContent [js "className"; js "children"; js "showCloseButton"] (js "dialog-content") true [1]%nat;
   mkWrapper DialogHeader [js "className"] (js "dialog-header") true [];
   mkWrapper DialogFooter [js "className"; js "showCloseButton"; js "children"] (js "dialog-footer") true [];
   mkWrapper DialogTitle [js "className"] (js "dialog-title") true [];
   mkWrapper DialogDescription [js "className"] (js "dialog-description") true [];
   mkWrapper TooltipProvider [js "delay"] (js "tooltip-provider") false [];
   mkWrapper Tooltip [] (js "tooltip") false [];
   mkWrapper TooltipTrigger [] (js "tooltip-trigger") false [];
   mkWrapper TooltipContent [js "className"; js "side"; js "sideOffset"; js "align"; js "alignOffset"; js "children"] (js "tooltip-content") true [0; 0]%nat;
   mkWrapper DropdownMenu [] (js "dropdown-menu") false [];
   mkWrapper DropdownMenuPortal [] (js "dropdown-menu-portal") false [];
   mkWrapper DropdownMenuTrigger [] (js "dropdown-menu-trigger") false [];
   mkWrapper DropdownMenuContent [js "align"; js "alignOffset"; js "side"; js "sideOffset"; js "className"] (js "dropdown-menu-content") true [0; 0]%nat;
   mkWrapper DropdownMenuGroup [] (js "dropdown-menu-group") false [];
   mkWrapper DropdownMenuLabel [js "className"; js "inset"] (js "dropdown-menu-label") true [];
   mkWrapper DropdownMenuItem [js "className"; js "inset"; js "variant"] (js "dropdown-menu-item") true [];
   mkWrapper DropdownMenuSub [] (js "dropdown-menu-sub") false [];
   mkWrapper DropdownMenuSubTrigger [js "className"; js "inset"; js "children"] (js "dropdown-menu-sub-trigger") true [];
   mkWrapper DropdownMenuSubContent [js "align"; js "alignOffset"; js "side"; js "sideOffset"; js "className"] (js "dropdown-menu-sub-content") false [0; 0]%nat;
   mkWrapper DropdownMenuCheckboxItem [js "className"; js "children"; js "checked"; js "inset"] (js "dropdown-menu-checkbox-item") true [];
   mkWrapper DropdownMenuRadioGroup [] (js "dropdown-menu-radio-group") false [];
   mkWrapper DropdownMenuRadioItem [js "className"; js "children"; js "inset"] (js "dropdown-menu-radio-item") true [];
   mkWrapper DropdownMenuSeparator [js "className"] (js "dropdown-menu-separator") true [];
   mkWrapper DropdownMenuShortcut [js "className"] (js "dropdown-menu-shortcut") true [];
   mkWrapper SelectScrollUpButton [js "className"; js "children"] (js "select-scroll-up-button") true [];
   mkWrapper SelectScrollDownButton [js "className"; js "children"] (js "select-scroll-down-button") true [];
   mkWrapper SelectGroup [js "className"] (js "select-group") true [];
   mkWrapper SelectValue [js "className"] (js "select-value") true [];
   mkWrapper SelectTrigger [js "className"; js "size"; js "children"] (js "select-trigger") true [];
   mkWrapper SelectContent [js "className"; js "children"; js "side"; js "sideOffset"; js "align"; js "alignOffset"; js "alignItemWithTrigger"] (js "select-content") true [0; 0]%nat;
   mkWrapper SelectLabel [js "className"] (js "select-label") true [];
   mkWrapper SelectItem [js "className"; js "children"] (js "select-item") true [];
   mkWrapper SelectSeparator [js "className"] (js "select-separator") true []].

Definition kids_of (v : val) : list val :=
  match v with
  | VEl _ ps => match map_get ps (js "children") with Some (VList l) => l | Some c => [c] | None => [] end
  | _ => []
  end.
Fixpoint at_path (p : list nat) (v : val) : option props :=
  match p with
  | [] => match v with VEl _ ps => Some ps | _ => None end
  | i :: p => kids_of v !! i ≫= at_path p
  end.

(** The element has every prop of the caller's that the component does not take,
    its own slot name when the caller gives none, and the caller's class merged
    after its own. *)
Record lands (w : wrapper) (ps : props) (q : props) : Prop := {
  la_props : ∀ k v, k ∉ w_own w → map_get ps k = Some v → map_get q k = Some v;
  la_slot : map_get ps (js "data-slot") = None → map_get q (js "data-slot") = Some (VStr (w_slot w));
  la_class : w_merges w = true → ∃ base, map_get q (js "className") = Some (cn [base; prop ps (js "className")]) }.

Lemma get_spread m ps k : map_wf ps →
  map_get (set_attr m (Spread ps)) k = match map_get ps k with Some v => Some v | None => map_get m k end.
Proof.
  intros Hps. cbn [set_attr]. revert m. induction ps as [|[k0 v0] ps IH]; intros m; [done|].
  apply NoDup_cons in Hps as [Hk Hps]. cbn [foldl fst snd]. rewrite IH by done. cbn [map_get].
  rewrite map_get_set. case_decide as Hd; [subst|done].
  by rewrite (proj2 (map_get_None ps k)).
Qed.
Lemma wf_without ks ps : map_wf ps → map_wf (without ks ps).
Proof. intros Hps. unfold without. induction ks; [done|]. by apply map_wf_delete. Qed.
Lemma get_without ks ps k : map_get (without ks ps) k = if decide (k ∈ ks) then None else map_get ps k.
Proof.
  unfold without. induction ks as [|k0 ks IH]; cbn [foldr]; [by rewrite decide_False by apply not_elem_of_nil|].
  rewrite map_get_delete, IH. repeat case_decide; set_solver.
Qed.
Lemma get_with_kids m kids k : k ≠ js "children" ∨ kids = [] → map_get (with_kids m kids) k = map_get m k.
Proof. intros [Hk| ->]; [|done]. destruct kids as [|? [|]]; cbn [with_kids]; by rewrite ?map_get_set_ne. Qed.

Lemma spread_lands w ps m own kids : map_wf ps → own ⊆ w_own w →
  (kids = [] ∨ js "children" ∈ w_own w) → js "data-slot" ∉ w_own w →
  map_get m (js "data-slot") = Some (VStr (w_slot w)) →
  (w_merges w = true → js "className" ∈ own ∧ ∃ b, map_get m (js "className") = Some (cn [b; prop ps (js "className")])) →
  lands w ps (with_kids (set_attr m (Spread (without own ps))) kids).
Proof.
  intros Hps Hown Hkids Hds Hslot Hcls. assert (map_wf (without own ps)) as Hw by by apply wf_without.
  split.
  - intros k v Hk Hv. rewrite get_with_kids, get_spread, get_without, decide_False, Hv; [done|set_solver|done|].
    destruct Hkids as [->|Hc]; [by right|left]. intros ->. done.
  - intros Hn. rewrite get_with_kids, get_spread, get_without, Hn, Hslot by first [done | left; vm_compute; discriminate].
    by case_decide.
  - intros (Hin & b & Hb)%Hcls. exists b.
    rewrite get_with_kids, get_spread, get_without, decide_True, Hb by first [done | left; vm_compute; discriminate].
    done.
Qed.

(** What a component promises about the props it is given *)
Definition forwards (w : wrapper) : Prop :=
  ∀ ps, map_wf ps → ∃ q, at_path (w_path w) (w_render w ps) = Some q ∧ lands w ps q.

Ltac listed := apply (bool_decide_unpack _); vm_compute; exact I.
Ltac landed :=
  intros ps Hps; eexists; split; [reflexivity|]; cbn [attrs foldl];
  match goal with
  | |- lands _ ?p (with_kids (set_attr _ (Spread ?p)) _) => apply (spread_lands _ p _ [])
  | _ => apply spread_lands
  end;
  [ exact Hps | listed | first [left; reflexivity | right; listed] | listed | vm_compute; reflexivity
  | intros Hm; first [discriminate Hm | split; [listed|eexists; reflexivity]] ].

Lemma wf_set_attr m a : map_wf m → map_wf (set_attr m a).
Proof.
  destruct a as [k v|ps]; cbn [set_attr]; [apply map_wf_set|]. revert m.
  induction ps as [|p ps IH]; intros m Hm; [done|]. by apply IH, map_wf_set.
Qed.
Lemma wf_attrs l : map_wf (attrs l).
Proof.
  assert (∀ m, map_wf m → map_wf (foldl set_attr m l)) as H; [|by apply H, map_wf_nil].
  induction l as [|a l IH]; intros m Hm; [done|]. by apply IH, wf_set_attr.
Qed.

(** The submenu's content is a menu's content with other defaults. *)
Definition menu_content : wrapper :=
  mkWrapper DropdownMenuContent [js "align"; js "alignOffset"; js "side"; js "sideOffset"; js "className"]
    (js "dropdown-menu-content") true [0; 0]%nat.
Lemma menu_content_forwards : forwards menu_content.
Proof. landed. Qed.
Lemma sub_content_forwards :
  forwards (mkWrapper DropdownMenuSubContent [js "align"; js "alignOffset"; js "side"; js "sideOffset"; js "className"]
    (js "dropdown-menu-sub-content") false [0; 0]%nat).
Proof.
  intros ps Hps. unfold w_render, w_path, DropdownMenuSubContent.
  match goal with |- context [DropdownMenuContent ?m] => destruct (menu_content_forwards m) as (q & Hq & [Hf _ _]); [apply wf_attrs|] end.
  exists q. split; [exact Hq|]. cbn [attrs foldl w_own menu_content] in Hf. split; cbn [w_own w_slot w_merges].
  - intros k v Hk Hv. apply Hf; [exact Hk|]. by rewrite get_spread, get_without, decide_False, Hv by (done || by apply wf_without).
  - intros Hn. apply Hf; [listed|]. rewrite get_spread, get_without, Hn by by apply wf_without. by case_decide; vm_compute.
  - done.
Qed.

Lemma all_forward : Forall forwards wrappers.
Proof.
  unfold wrappers. repeat (apply Forall_cons; split; [first [exact sub_content_forwards | landed]|]). by apply Forall_nil.
Qed.

(** The components of the design system lose nothing their caller passes:
    whatever the props, each of them renders one element that has every prop the
    component does not take for itself, with the caller's value where both give
    one; it has the component's slot name unless the caller gives another, and the
    caller's class merged after the component's. *)
Theorem wrappers_forward (w : wrapper) (ps : props) : w ∈ wrappers → map_wf ps →
  ∃ q, at_path (w_path w) (w_render w ps) = Some q ∧ lands w ps q.
Proof. intros Hw. exact (proj1 (Forall_forall _ _) all_forward w Hw ps). Qed.

(** *** The slider

    Its name goes to the thumbs, which are the controls, one for each value. *)
Definition thumbs_of (v : val) : list val :=
  match kids_of v with
  | [c] => match kids_of c !! 1%nat with Some (VList l) => l | _ => [] end
  | _ => []
  end.
Lemma slider_names_thumbs ps :
  length (thumbs_of (Slider ps)) =
    length (_values (prop ps (js "value")) (prop ps (js "defaultValue")) (prop_or ps (js "min") (VNum 0))
              (prop_or ps (js "max") (VNum 100))) ∧
  Forall (λ t, ∃ q, t = VEl (js "SliderPrimitive.Thumb") q ∧
            map_get q (js "aria-label") = Some (prop ps (js "aria-label"))) (thumbs_of (Slider ps)).
Proof.
  set (n := length (_values _ _ _ _)).
  assert (thumbs_of (Slider ps) = map (thumb (prop ps (js "aria-label")) (prop ps (js "aria-labelledby"))) (seq 0 n)) as ->.
  { unfold thumbs_of. assert (∀ t l c, (∀ l', c ≠ VList l') → kids_of (createElement t l [c]) = [c]) as Hone.
    { intros t l c Hc. unfold createElement, kids_of, with_kids. rewrite map_get_set_eq. destruct c; try done. by destruct (Hc l0). }
    unfold Slider. rewrite Hone by done. reflexivity. }
  split; [by rewrite length_map, length_seq|]. apply List.Forall_map, Forall_true. intros i. eexists.
  split; [reflexivity|]. reflexivity.
Qed.

(** The values and the thumbs of [Markup.Slider] *)
Definition arg_of (v : option (list Z)) : val := match v with Some l => VList (map VNum l) | None => VUndef end.
Lemma slider_values_as_drawn v d mn mx :
  _values (arg_of v) (arg_of d) (VNum mn) (VNum mx) = map VNum (slider_values v d mn mx).
Proof. by destruct v, d. Qed.
End ui.

Definition plain_cva : jstr → list (jstr * list (jstr * jstr)) → list (jstr * jstr) → props → val := λ base _ _ _, VStr base.
Lemma wrappers_forward_witness :
  ∃ q, at_path [] (Input (λ _, []) id [(js "id", VStr (js "key")); (js "aria-describedby", VStr (js "key-hint"))]) = Some q ∧
    map_get q (js "id") = Some (VStr (js "key")) ∧ map_get q (js "aria-describedby") = Some (VStr (js "key-hint")).
Proof.
  destruct (wrappers_forward (λ _, []) id plain_cva
    (mkWrapper (Input (λ _, []) id) [js "className"; js "type"] (js "input") true [])
    [(js "id", VStr (js "key")); (js "aria-describedby", VStr (js "key-hint"))]) as (q & Hq & [Hf _ _]).
  - unfold wrappers. do 2 right. left.
  - apply (bool_decide_unpack _). vm_compute. exact I.
  - exists q. split; [exact Hq|]. split; (apply Hf; [apply (bool_decide_unpack _); vm_compute; exact I|vm_compute; reflexivity]).
Defined.
