(* ===== verification/Screens.v ===== *)
(** * The screens ([app/**/page.tsx], [components])

    Every page of the dashboard with the frame around it, as the tree of its
    texts, links and controls ([Markup]), for every state the other files give
    its parts. *)
From S2P Require Import Prelude JsMap Types Evaluate Client Fleet Visualizer Why Hero Feed Forms Teach Pages Demo Markup.

Abbreviation T s := (Text (js s)) (only parsing).
Abbreviation go h t := (Anchor (js h) [Text (js t)]) (only parsing).
Definition when (b : bool) (l : list node) : list node := if b then l else [].
Definition maybe {A} (o : option A) (f : A → list node) : list node := match o with Some a => f a | None => [] end.

(** ** The guide's voice ([components/explain]) *)
Definition Term (name : jstr) (label : jstr) : node :=
  match Glossary.Term name (Some label) with
  | Glossary.Plain l => Text l
  | Glossary.TermLink href l _ => Anchor href [Text l]
  end.
Abbreviation term n t := (Term (js n) (js t)) (only parsing).

Definition GuideCallout (explain : bool) (l : list node) : node := Box (default [] (Explain.GuideCallout explain l)).

(** Title, subtitle, and the optional status line and actions. *)
Definition PageIntro (title subtitle status actions : list node) : node :=
  Box [Box [Box [Box title; Box subtitle]; Box actions]; Box status].

Definition AdvancedDetails (open : bool) (label : jstr) (l : list node) : node :=
  Box (Button false [Text label] :: when open [Box l]).

Definition ExplainToggle : node := Control (mkCtl None (Some (js "Explain mode")) [] None false) [T "Explain"].
Definition TourButton : node := Button false [T "Take the tour"].

Definition ColorLegend : node :=
  Region (js "Color legend")
    [Box [T "Live"; T "on / healthy / caught up"]; Box [T "Down"; T "unreachable / conflict"];
     Box [T "Act"; T "you can act here"]].

(** [GuidedTour]: the panel of the open tour. *)
Definition GuidedTour (t : Tour.tour) : node :=
  match Tour.GuidedTour t with
  | Some (Some v) =>
      let s := Tour.v_step v in
      Region (js "Guided tour")
        [Box [T "A 60-second tour"; IconButton (js "Close tour")];
         Box [Text (Tour.s_chapter s); Text (Tour.s_title s); Text (Tour.s_body s);
              Anchor (Tour.s_href s) [Text (Tour.s_linkLabel s)]];
         Box [Button false [Text (Tour.v_first v)]; Button false [Text (Tour.v_last v)]]]
  | _ => Box []
  end.

Definition Legend (label : jstr) : node := Text label.
(** [RolloutVisualizer]: the grid, its legend, the slider and the roll. *)
Definition RolloutVisualizer (explain : bool) (flag : EvaluableFlag) (highlight : option jstr)
    (s : Visualizer.state) : node :=
  let v := Visualizer.RolloutVisualizer flag highlight s in
  Region (js "Rollout visualizer")
    ([Box [T "Who gets it at "; Text (Visualizer.v_title v); T "?"]; Text (Visualizer.v_count v);
      GuideCallout explain
        [T "Each square is a user. Drag the slider — squares flip on or off "; T "in place";
         T ", never reshuffling, because every user has one fixed "; term "hash-bucket" "dice roll"; T ". That's ";
         term "determinism" "determinism";
         T ": the same person always lands on the same side. Click any square to see its roll."];
      Box (map (λ q, IconButton (Visualizer.sq_label q)) (Visualizer.v_squares v));
      Box ([Legend (js "On (in rollout)"); Legend (js "On (targeted — overrides %)"); Legend (js "Off")]
           ++ maybe (Visualizer.v_legend_current v) (λ t, [Legend t]));
      Box [Slider (Some [Visualizer.v_slider v]) None 0 100 (Some (js "Explore rollout percentage")) false;
           Text (Visualizer.v_title v)];
      Box (T "Exploring hypothetically — this doesn't change the flag. " :: T "Actual rollout: "
           :: Text (Visualizer.v_actual v)
           :: when (Visualizer.v_reset v) [Button false [T "Reset to actual"]])]
     ++ maybe (Visualizer.v_roll v) (λ r, [Box [Text r.1; Text r.2]])).

Definition why_step (s : Why.icon * jstr * Why.Step) : node :=
  Box [Region s.1.2 []; Text (Why.st_label s.2); Text (Why.st_detail s.2)].
Definition WhyExplainer (flag : EvaluableFlag) (user : jstr) : node :=
  let v := Why.WhyExplainer flag user in
  Region (js "Why is this user on or off?")
    [Box [T "Why is a user "; term "local-evaluation" "ON or OFF"; T "?"];
     T "Enter any user id and watch the three checks the SDK runs, in order.";
     Box [Label (Some (js "why-user")) [T "User id"];
          Input (Some (js "why-user")) None (js "user-42") None false];
     Box [Text (Why.v_user v); Text (Why.v_verdict v); Text (Why.v_reason v)];
     Box (map why_step (Why.v_steps v))].

(** [SseConsole]: pill, buttons when it is not compact, and the entries. *)
Definition entry_row (r : Console.row) : node :=
  Box ([Text (Console.r_version r)] ++ maybe (Console.r_key r) (λ k, [Text k]) ++ [Text (Console.r_verdict r).1]
       ++ maybe (Console.r_verdict r).2 (λ p, [Text p]) ++ [Text (Console.r_time r)]).
Definition IconBtn (label : jstr) : node := IconButton label.
Definition SseConsole (explain compact : bool) (now : Z) (c : Console.console) : node :=
  let v := Console.SseConsole compact now c in
  Region (js "Live event stream")
    ([Box (Box [T "Live event stream"; Text (Console.v_pill v).2]
           :: maybe (Console.v_buttons v) (λ b, [Box [IconBtn b.1; IconBtn b.2]]))]
     ++ when (negb compact)
          [GuideCallout explain
             [T "This is the actual "; term "sse" "server-sent event";
              T " stream — the same push the SDK listens to. Change a flag anywhere and its new ";
              term "config-version" "version";
              T " shows up here within milliseconds, in plain words. Try flipping the hero above."]]
     ++ [Region (js "Live flag events, newest first")
           (match Console.v_body v with inl t => [Text t] | inr rows => map entry_row rows end)]).

Definition tick_button (t : Timeline.tick) : node :=
  Control (mkCtl None (Some (js "Version " ++ show (Timeline.k_version t) ++ js ": " ++ Timeline.k_flag_key t
                             ++ js " " ++ (Timeline.k_style t).2)) [] None false)
    [Text (ver (Timeline.k_version t)); Text (Timeline.k_flag_key t); Text (Timeline.k_style t).2;
     Text (Timeline.k_time t)].
Definition VersionTimeline (now : Z) (parse : jstr → Z) (isLoading : bool) (data : option (list FlagEvent))
    (selected : option Z) : node :=
  let '(r, detail) := Timeline.VersionTimeline now parse isLoading data selected in
  Region (js "Version timeline")
    (Box [T "Version timeline"; Box [T "The durable "; term "event-log" "event log"; T " as ";
                                     term "versioning" "save points"; T " — newest on the right."]]
     :: match r with
        | Timeline.Skeleton => Box []
        | Timeline.NoChanges =>
            T "No changes recorded yet. Flip a flag and it'll appear here as a new version."
        | Timeline.Ticks l =>
            Region (js "Version history, oldest to newest. Scroll horizontally.") (map tick_button l)
        end
     :: maybe detail (λ d, [Box [Text d.1; Text d.2]])).

(** ** The heroes *)
Definition hero_buttons (flip_disabled replay : bool) : node :=
  Box (Button flip_disabled [T "Flip it"] :: when replay [Button false [T "Replay"]]).

Definition propagation_badge (urls : list jstr) (h : Propagation.hero) : list node :=
  match Propagation.targetVersion h, Propagation.phase h with
  | Some v, Converged =>
      [Box ([term "convergence" "Converged"; T " at "; Text (ver v)]
            ++ maybe (Propagation.browserMs h) (λ t, [T " · "; Text (show (round_ms t) ++ js " ms")]))]
  | Some v, Settled =>
      [Text (show (Propagation.arrivedCount h) ++ js "/" ++ show (count urls) ++ js " on v" ++ show v)]
  | _, _ => []
  end.

Definition PropagationHero (urls : list jstr) (heroFlag : bool) (h : Propagation.hero) : node :=
  let v := Propagation.render urls heroFlag h in
  Box ([Box [T "Flip a flag, watch it travel";
             Box [T "hero-demo"; T " is a safe, throwaway flag. Flip it and follow the change from your click all the way to this browser — every step and every number is real."];
             hero_buttons (Propagation.v_flip_disabled v) (Propagation.v_replay v)];
        Box (map (λ s, Box [Text (Propagation.st_label s); Text (Propagation.st_sub s)]) (Propagation.v_stages v)
             ++ [Box (Text (show (count urls) ++ js " backends")
                      :: map (λ c, Box (Text c.1.1 :: maybe c.2 (λ t, [Text t]))) (Propagation.v_chips v))]);
        Text (Propagation.v_narration v)]
       ++ propagation_badge urls h
       ++ maybe (Propagation.v_error v) (λ e, [Text e])).

Definition cluster_card (c : Cluster.card) : node :=
  Box ([Text (Cluster.c_id c)] ++ maybe (Cluster.c_ms c) (λ t, [Text t]) ++ [T "config version"]
       ++ match Cluster.c_transition c with
          | Some (a, b) => [Text a; Text b]
          | None => [Text (Cluster.c_version c)]
          end).
Definition SourceStep (label : jstr) (reached : bool) : node := Text label.
Definition ClusterHero (urls : list jstr) (heroFlag : bool) (h : Cluster.hero) : node :=
  let v := Cluster.render urls heroFlag h in
  Box ([Box [T "One change, all three servers";
             Box [T "Flip the safe "; T "hero-demo";
                  T " flag and watch each backend move to the new version — diverged for a blink, then ";
                  term "convergence" "converged"; T ". Real versions, real milliseconds."];
             hero_buttons (Cluster.v_flip_disabled v) (Cluster.v_replay v)];
        Box (map (λ s, SourceStep s.1 s.2) (Cluster.v_source v) ++ [T "3 backends:"]);
        Box (map cluster_card (Cluster.v_cards v)); Text (Cluster.v_narration v)]
       ++ maybe (Cluster.v_badge v) (λ b, [Text b.2])
       ++ maybe (Cluster.v_error v) (λ e, [Text e])).

(** ** Forms ([components/flags]) *)
Definition TargetedUsersInput (users : list jstr) : node :=
  Box ([Box [Input None (Some (js "Add targeted user ID")) (js "Enter user ID and press Enter…") None false;
             Button false [T "Add"]]]
       ++ when (negb (bool_decide (users = [])))
            [Box (map (λ u, Box [Text u; IconButton (js "Remove " ++ u)]) users)]).

Definition RolloutSlider (s : slider) : node :=
  Box [Slider (Some [localValue s]) None 0 100 (Some (js "Rollout percentage")) false; Text (slider_text s)].

Definition FlagForm (isLoading : bool) (f : form) : node :=
  let v := Forms.FlagForm isLoading f in
  Box [Box [Label (Some (js "key")) (T "Flag key " :: when (v_key_star v) [T "*"]);
            Input (Some (js "key")) None (js "my-feature-flag") (Some (v_key_message v).1) (v_key_disabled v);
            Ident (v_key_message v).1 [Text (v_key_message v).2]];
       Box [Label (Some (js "description")) [T "Description"];
            Input (Some (js "description")) None (js "What does this flag control?") None false];
       Box [Box [Label (Some (js "enabled")) [T "Enabled"]; T "When off, the flag evaluates to false for everyone."];
            Switch (Some (js "enabled")) None false];
       Box [Label None [T "Rollout percentage"]; RolloutSlider (rollout_slider f);
            match v_rollout_message v with
            | Some e => Text e
            | None => T "Deterministic per user — increasing the percentage keeps existing users in the cohort."
            end];
       Box [Label None [T "Targeted users"]; TargetedUsersInput (v_chips v);
            T "Always-on for these user IDs, regardless of rollout percentage."];
       Button (v_button v).2 [Text (v_button v).1]].

Definition StatusBadge (enabled : bool) : node := Text (Pages.StatusBadge enabled).2.
Definition RolloutBar (r : Z * jstr * tone) : node := Box [Region (js "Rollout percentage") []; Text r.1.2].
Definition ToggleSwitch (s : bool * bool * jstr) : node := Switch None (Some s.2) s.1.2.

Definition event_row (e : (jstr * tone) * jstr * option jstr) : node :=
  Box ([Text e.1.1.1; Text e.1.2] ++ maybe e.2 (λ t, [Text t])).
Definition FlagHistoryDrawer (open isLoading : bool) (events : option (list FlagEvent)) : node :=
  Dialog open [T "History"]
    [Box [Box [T "Change history"; T "From the durable event log — newest first."]; IconButton (js "Close")];
     match Pages.FlagHistoryDrawer open isLoading events with
     | NoEvents => T "No events yet."
     | Events l => Box (map event_row l)
     | Closed | HistorySkeleton => Box []
     end].

(** The delete dialog of the detail page *)
Definition DeleteDialog (open isPending : bool) (key : jstr) : node :=
  Dialog open [T "Delete"]
    [DialogContent true
       [Box [T "Delete flag?"; Box [T "This permanently deletes "; Text key; T ". This action cannot be undone."]];
        DialogFooter false [Button isPending [if isPending then T "Deleting…" else T "Delete flag"]]]].

(** ** The flag pages ([app/flags]) *)
Definition flag_row_tree (r : flag_row) : node :=
  Box [Text (r_status r).2; Anchor (r_href r) [Text (r_key r)]; Text (r_description r); RolloutBar (r_rollout r);
       Text (r_version r); Text (r_targeting r); ToggleSwitch (r_switch r)].

Definition EmptyState : node :=
  Box [T "No flags yet";
       T "A feature flag is a named switch for your app. Turn a feature on or off, or open it to a percentage of users — all without shipping new code. Create one to see it evaluate live in the Demo.";
       go "/flags/new" "Create your first flag"].
Definition ErrorState : node :=
  Box [T "Couldn't reach the control plane"; T "Check that the API is running on :8080, then retry."].

Definition Th (children : jstr) : node := Text children.
(** Six rows of placeholders *)
Definition skeleton_table : node := Box (repeat (Box []) 6).
Definition FlagList (explain isError isLoading toggling : bool) (data : option FlagsResponse) : node :=
  Box [PageIntro [T "Feature flags"]
         [T "Every switch you can flip, with its rollout and version. Each device ";
          term "local-evaluation" "evaluates flags locally"; T " and gets changes in real time."]
         [] [go "/flags/new" "New flag"];
       GuideCallout explain
         [T "Each row is one flag. The toggle turns it on or off for everyone; the "; term "rollout" "rollout";
          T " % opens it to a slice of users; the "; term "config-version" "version";
          T " bumps on every change so clients always know what they've applied. Click a key to edit, target users, or see its history."];
       match Pages.FlagList isError isLoading toggling data with
       | Pages.ErrorState => ErrorState
       | SkeletonTable => skeleton_table
       | Pages.EmptyState => EmptyState
       | Rows l =>
           Box (Box (map Th [js "Status"; js "Key"; js "Description"; js "Rollout"; js "Version"; js "Targeting"; js "Enabled"])
                :: map flag_row_tree l)
       end].

Definition NewFlagPage (explain isPending : bool) (f : form) : node :=
  Box [go "/flags" "Flags"; T "New flag";
       T "Give it a key, then choose who sees it — everyone, a percentage, or a named list.";
       GuideCallout explain
         [T "The "; T "key"; T " is how your code asks for this flag, so keep it stable. Start it off or at a small ";
          term "rollout" "rollout"; T " %, then dial it up as you gain confidence. You can always add specific ";
          term "targeting" "targeted users"; T " who get it right away."];
       FlagForm isPending f].

(** [created] and [updated] are the row's times as the browser's locale prints them. *)
Definition FlagDetailPage (explain open updating isPending : bool) (p : Forms.page)
    (deleting history loading : bool) (events : option (list FlagEvent)) (viz : Visualizer.state) (user : jstr)
    (created updated : jstr) : node :=
  match Forms.FlagDetailPage updating p, p_flag p, p_form p with
  | Editing h _, Some fl, Some f =>
      let flag := mkEvaluableFlag (fl_key fl) (fl_enabled fl) (fl_rollout_percentage fl) (fl_targeted_users fl) in
      Box [go "/flags" "Flags";
           Box ([Text (h_key h); StatusBadge (h_enabled h); Text (h_version h)]
                ++ maybe (h_description h) (λ d, [Text d]));
           Box [FlagHistoryDrawer history loading events; DeleteDialog deleting isPending (h_key h)];
           GuideCallout explain
             [T "Editing here changes the flag for real. Every save bumps the "; term "config-version" "version";
              T " and propagates to all servers within milliseconds. Your save carries the version you loaded, so if someone else edited it first you'll get a heads-up instead of silently overwriting them — that's ";
              term "optimistic-concurrency" "optimistic concurrency"; T "."];
           FlagForm updating f; RolloutVisualizer explain flag None viz; WhyExplainer flag user;
           AdvancedDetails open (js "Metadata")
             [Box [T "Version "; Text (h_version h)]; Box [T "Created "; Text created]; Box [T "Updated "; Text updated]]]
  | PageSkeleton, _, _ => Box []
  | _, _, _ => Box [T "Flag not found"; go "/flags" "Back to flags"]
  end.

(** ** The other pages *)
Definition stat_tile (label value : jstr) (hint : option jstr) : node :=
  Box ([Text label; Text value] ++ maybe hint (λ h, [Text h])).
Definition ActionCard (title description href cta : jstr) : node :=
  Box [Text title; Text description; Anchor href [Text cta]].
Definition StripMetric (value unit : jstr) : node := Box [Text value; Text unit].
Definition HealthStrip (s : strip) : node :=
  Anchor (js "/health")
    [T "Fleet health"; Box [Text (s_ready s); T "ready"]; StripMetric (s_clients s) (js "SSE");
     StripMetric (s_p99 s) (js "ms p99"); T "Health"].

Definition OverviewPage (explain open : bool) (data : option FlagsResponse) (readiness : option (list NodeReadiness))
    (metrics : option FleetMetrics) (urls : list jstr) (heroFlag : bool) (h : Propagation.hero) (now : Z)
    (c : Console.console) : node :=
  let '(i, s) := Pages.OverviewPage data readiness metrics in
  Box [PageIntro [T "Watch a feature flag come to life"]
         [T "A feature flag is a switch for your app you can flip without a redeploy. This one runs for real across three servers — flip it below and follow the change end to end."]
         [] [TourButton];
       GuideCallout explain
         [T "Start here. Flip "; T "hero-demo";
          T " and watch a single change become a new version, save to the database, and reach every server and this browser — all live. That trip is called ";
          term "propagation" "propagation"; T ", and it's the whole point of the system."];
       PropagationHero urls heroFlag h; SseConsole explain true now c; HealthStrip s;
       AdvancedDetails open (js "Flag inventory")
         [stat_tile (js "Total flags") (show (i_total i)) None; stat_tile (js "Enabled") (show (i_enabled i)) (i_hint i);
          stat_tile (js "Avg rollout") (i_avg i) None; stat_tile (js "With targeting") (show (i_targeted i)) None];
       Box [ActionCard (js "Manage flags") (js "Create, roll out, target, and toggle feature flags.") (js "/flags") (js "Open flags");
            ActionCard (js "Try the demo") (js "See per-user local evaluation as flags change live.") (js "/demo") (js "Open demo")]].

Definition cluster_node (c : ClusterPage.card) : node :=
  Box [Text (ClusterPage.c_nodeId c); Text (ClusterPage.c_up c); T "config version"; Text (ClusterPage.c_version c);
       Text (ClusterPage.c_clients c)].
Definition in_grid {A} (f : A → node) (g : ClusterPage.grid A) : node :=
  match g with ClusterPage.Skeletons _ => Box [] | ClusterPage.Cards l => Box (map f l) end.
Definition banner (text detail : jstr) : node := Box [Text text; Text detail].

Definition ClusterPage (explain open isLoading : bool) (data : option ClusterState) (urls : list jstr) (heroFlag : bool)
    (h : Cluster.hero) (now : Z) (c : Console.console) (parse : jstr → Z) (loading : bool)
    (events : option (list FlagEvent)) (selected : option Z) : node :=
  let v := ClusterPage.ClusterPage data isLoading in
  Box [PageIntro [T "One change, every server"]
         [T "Flags run on three backends at once. This page shows whether they all agree on the latest version yet."]
         [Text (ClusterPage.v_status v)] [];
       GuideCallout explain
         [T "Each server keeps its own copy of the config and reports which "; term "config-version" "version";
          T " it's on. Right after a change they can briefly differ; the moment they all match, the cluster has ";
          term "convergence" "converged"; T ". Green means caught up."];
       ClusterHero urls heroFlag h;
       banner (ClusterPage.b_text (ClusterPage.v_banner v)) (ClusterPage.b_detail (ClusterPage.v_banner v));
       Box [SseConsole explain false now c; VersionTimeline now parse loading events selected];
       AdvancedDetails open (js "Per-node detail")
         [in_grid cluster_node (ClusterPage.v_grid v);
          Box [T "Polling each node’s "; T "/api/client/version";
               T " every 1.5s. Writes and streams flow through the load balancer on "; T ":8080"; T "."]]].

Definition dep_tree (d : ResiliencePage.dep) : node := Text (ResiliencePage.d_label d).
Definition resilience_node (c : ResiliencePage.card) : node :=
  Box [Text (ResiliencePage.c_nodeId c); Text (ResiliencePage.c_pill c).1; T "config version";
       Text (ResiliencePage.c_version c); Text (ResiliencePage.c_clients c); Box (map dep_tree (ResiliencePage.c_deps c))].
Definition signal_tile (t : ResiliencePage.tile) : node :=
  Box ([Text (ResiliencePage.t_label t); Text (ResiliencePage.t_value t)] ++ maybe (ResiliencePage.t_sub t) (λ s, [Text s])).

Definition GuaranteesPanel : node :=
  Box [T "What this system guarantees";
       Box [T "Eventual convergence with bounded, measured propagation latency and a durable source of truth"; T " — ";
            T "not"; T " high availability, and "; T "not"; T " strong consistency."];
       Box [T "Last-known-good on infra failure.";
            T " Writes commit to Postgres (the source of truth) before best-effort Redis fan-out; if Redis or a node drops, clients hold their last-known-good version and never regress or corrupt it."];
       Box [T "Reconcile from the durable log."; T " Any missed live event is backfilled by replaying ";
            T "/api/client/events?since=V";
            T " in version order, so a reconnecting client catches up to the exact latest version."]].

Definition ResiliencePage (explain isLoading : bool) (cluster : option ClusterState)
    (readiness : option (list NodeReadiness)) (errors : option RedisPublishErrors) : node :=
  let v := ResiliencePage.ResiliencePage cluster isLoading readiness errors in
  Box [PageIntro [T "What happens when things break"]
         [T "A live, observe-only view of the cluster under failure. Faults are injected out-of-band by the "; T "chaos/";
          T " scripts; this page just watches each server "; T "diverge and reconverge"; T " in real time."] [] [];
       GuideCallout explain
         [T "The database is the memory; Redis is the messenger. Lose the messenger and writes still work — servers hold their last-known-good version and never go backwards. When the connection returns, each one quietly ";
          term "reconcile" "reconciles"; T " by replaying what it missed, and the cluster ";
          term "convergence" "converges"; T " again."];
       banner (ClusterPage.b_text (ResiliencePage.v_banner v)) (ClusterPage.b_detail (ResiliencePage.v_banner v));
       Box (map signal_tile (ResiliencePage.v_tiles v));
       Box [T "Per-node state"; in_grid resilience_node (ResiliencePage.v_grid v)]; GuaranteesPanel;
       Box [T "Polling each node's "; T "/api/client/version"; T " and "; T "/readyz";
            T " every 1.5s; Redis publish errors from Prometheus every 2s."]].

Definition metric_tree (m : HealthPage.metric_tile) : node :=
  match m with
  | HealthPage.Unavailable label => Box [Text label; T "metrics unavailable"]
  | HealthPage.Metric label value unit sub =>
      Box ([Text label; Text value] ++ maybe unit (λ u, [Text u]) ++ maybe sub (λ s, [Text s]))
  end.
Definition health_node (c : HealthPage.card) : node :=
  Box [Text (HealthPage.c_nodeId c); Text (HealthPage.c_pill c).1; T "config version"; Text (HealthPage.c_version c);
       Box (map dep_tree (HealthPage.c_deps c))].

Definition HealthPage (explain open isLoading : bool) (grafana : jstr) (data : option (list NodeReadiness))
    (metrics : option FleetMetrics) : node :=
  let v := HealthPage.HealthPage data isLoading metrics in
  Box [PageIntro [T "Is the fleet healthy?"]
         [T "Whether every server is ready to serve correct data, and how fast a change reaches all of them. Each server answers its own ";
          term "readyz" "/readyz"; T " check."]
         [Text (HealthPage.v_status v)] [External grafana [T "Open Grafana"]];
       GuideCallout explain
         [T "A server is "; term "readyz" "ready";
          T " only when it can reach its database and message bus and holds current config — so the load balancer never sends you to one that can't answer correctly. ";
          term "p99" "p99"; T " propagation is the near-worst case: 99% of changes land faster than that."];
       AdvancedDetails open (js "Metrics & per-node readiness")
         [metric_tree (HealthPage.v_clients v); metric_tree (HealthPage.v_p99 v);
          Box [T "Nodes ready"; Text (HealthPage.v_ready v).1.1; Text (HealthPage.v_ready v).2.1];
          Box [T "Node readiness"; in_grid health_node (HealthPage.v_grid v)];
          Box [T "Polling each node's "; T "/readyz"; T " every 4s; fleet metrics from Prometheus every 5s."]]].

Definition glossary_card (e : jstr * jstr * jstr * jstr) : node :=
  let '(id, t, d, a) := e in Ident id [Text t; Text d; Box [T "Like"; Text a]].
Definition GlossaryPage (explain : bool) : node :=
  Box [PageIntro [T "Glossary"]
         [T "Every concept this system teaches, in plain English — with the everyday analogy that makes it stick."] [] [];
       GuideCallout explain
         [T "These are the words the rest of the app links to. Wherever you see a "; T "dotted underline";
          T ", it points back here — so you never have to already know the jargon."];
       Box (map glossary_card Glossary.GlossaryPage)].

Definition chapter (k : Glossary.chapter_card) : node :=
  Box ([Text (Glossary.k_number k); Text (Glossary.k_title k); Text (Glossary.k_line k)]
       ++ maybe (Glossary.k_analogy k) (λ a, [T "Like"; Text a])
       ++ [Anchor (Glossary.k_see k).1 [Text (Glossary.k_see k).2]]
       ++ maybe (Glossary.k_definition k) (λ h, [Anchor h [T "Definition"]])).
Definition LearnPage (explain : bool) : node :=
  Box [PageIntro [T "Learn feature flags by doing"]
         [T "Eight short chapters, in order, from “what's a flag” to “how it survives a server going down.” Each one links to the live screen where you can watch it happen."]
         [] [TourButton];
       GuideCallout explain
         [T "New here? Read these top to bottom — each concept builds on the last. Or jump straight to whatever you're curious about and follow the ";
          T "See it"; T " link to the real thing."];
       Box (map chapter Glossary.LearnPage);
       Box [T "Ready to experiment?"; T "Build a flag with zero risk — nothing you do there is saved.";
            go "/glossary" "Glossary"; go "/playground" "Open the Playground"]].

(** ** The pages that run the SDK *)
Definition FeatureCard (c : Demo.card) (enabledContent : list node) : node :=
  Box [Text (k_title c); Text (k_flagKey c); StatusBadge (k_on c);
       Box (if k_on c then enabledContent else [Text (k_text c)])].
Definition DarkModeFeature (c : Demo.card) : node :=
  FeatureCard c [T "Dark mode is active"; T "The UI renders in dark theme for this user."].
Definition STATS : list (jstr * jstr) :=
  [(js "1.2k", js "Users"); (js "89%", js "Uptime"); (js "42ms", js "Latency")].
Definition BetaDashboard (c : Demo.card) : node :=
  FeatureCard c (map (λ s, Box [Text s.1; Text s.2]) STATS).
Definition AiAssistant (c : Demo.card) : node :=
  FeatureCard c
    [Box [T "Assistant"; T "Hello! How can I help you today?"]; T "Tell me about feature flags";
     Input None None (js "Type a message…") None true; Button true [T "Send"]].
Definition DynamicFlagCard (c : Demo.card) : node :=
  FeatureCard c [T "Enabled for this user"; Text (k_text c)].
(** The three cards the page names, then one for every other flag. *)
Definition feature (c : Demo.card) : node :=
  if decide (k_flagKey c = js "dark-mode") then DarkModeFeature c
  else if decide (k_flagKey c = js "beta-dashboard") then BetaDashboard c
  else if decide (k_flagKey c = js "ai-assistant") then AiAssistant c
  else DynamicFlagCard c.

Definition UserSwitcher (currentUser : jstr) : node :=
  let s := Demo.UserSwitcher currentUser in
  Box ([Box [Label (Some (js "user-select")) [T "Evaluate as"];
             Select (js "user-select") (sw_value s)
               (map (λ u, (u, if decide (u = js "custom") then js "Custom…" else u)) (sw_items s))]]
       ++ maybe (sw_input s) (λ _,
            [Box [Label (Some (js "custom-user")) [T "Custom user ID"];
                  Input (Some (js "custom-user")) None (js "custom-user-id") None false]])
       ++ [Text currentUser]).

Definition reconnect_buttons (disconnect_off reconnect_off : bool) : node :=
  Box [Button disconnect_off [T "Disconnect"]; Button reconnect_off [T "Reconnect"]].

Definition DemoPage (explain : bool) (w : world) (p : Demo.page) (serverVersion : Z) (viz : Visualizer.state)
    (user : jstr) : node :=
  let v := Demo.DemoPage w p serverVersion in
  Box ([Box (PageIntro [T "See it decide, per user"]
               [T "This is a real app using the SDK. It "; term "local-evaluation" "evaluates every flag locally";
                T " for the selected user — switch users and watch the same flags land differently."] [] []
             :: maybe (v_badge v) (λ b, [Box [Text b.1; Text b.2]]));
        GuideCallout explain
          [T "Notice a user always gets the same answer — that's the "; term "rollout" "rollout"; T " being ";
           term "determinism" "deterministic";
           T ", not random. Switch users below and watch the cards react — then scroll down to ";
           T "see who a percentage includes"; T " and check exactly why any user is on or off."]]
       ++ maybe (v_panel v) (λ n,
            [Box [Text (n_pill n); Text (n_text n); reconnect_buttons (n_disconnect_off n) (n_reconnect_off n)]])
       ++ [UserSwitcher (currentUser p);
           Box (maybe (v_cards v) (map feature))]
       ++ match v_viz v, vizFlag p with
          | Some (key, items), Some (FullFlag f) =>
              [PageIntro [T "Understand the rollout"]
                 [T "A percentage isn't random — it maps to a fixed set of users. Pick a flag, drag the percentage to see exactly who flips, and check why any single user lands on or off."] [] [];
               Box [Label (Some (js "viz-flag")) [T "Flag"]; Select (js "viz-flag") key (map (λ k, (k, k)) items)];
               RolloutVisualizer explain (evaluable f) (Some (currentUser p)) viz; WhyExplainer (evaluable f) user]
          | _, _ => []
          end).

Definition FailureLab (explain : bool) (v : Playground.lab_view) : node :=
  Region (js "Failure and recovery")
    [T "What happens when it breaks?";
     GuideCallout explain
       [T "Cut your own connection below. The client keeps its last-known-good config (never wrong, just frozen); when you reconnect it ";
        term "reconcile" "reconciles"; T " the gap from the durable "; term "event-log" "log";
        T ". For a server or cache going down, the "; go "/resilience" "Resilience";
        T " page watches the real cluster recover."];
     Box ([Text (Playground.lv_pill v); Text (Playground.lv_versions v)]
          ++ maybe (Playground.lv_missed v) (λ m, [Text m]));
     reconnect_buttons (Playground.lv_disconnect_off v) (Playground.lv_reconnect_off v);
     go "/resilience" "Watch real server & cache failures on Resilience"].

Definition PlaygroundPage (explain : bool) (s : Playground.sandbox) (viz : Visualizer.state) (user : jstr)
    (serverVersion : Z) (lab : Playground.lab) : node :=
  let flag := Playground.flag s in
  Box [PageIntro [T "Playground"]
         [T "Build a flag and watch every concept react — the rollout, who's in, and exactly why. It's a real evaluator on a make-believe flag, so you can't break anything."] [] [];
       Box [T "Sandbox — nothing here is saved."; T " This flag never touches the server. To create a real one, head to ";
            go "/flags" "Flags"; T "."];
       Box [T "Build your flag";
            Box [Label (Some (js "pg-enabled")) [T "Enabled"];
                 T "Off = a kill switch: off for everyone, targeting included.";
                 Switch (Some (js "pg-enabled")) None false];
            Box [Label None [term "rollout" "Rollout"; T " percentage"];
                 Text (show (Playground.rollout s) ++ js "%");
                 Slider (Some [Playground.rollout s]) None 0 100 (Some (js "Rollout percentage"))
                   (negb (Playground.enabled s))];
            Box [Label (Some (js "pg-target")) [term "targeting" "Targeted"; T " users"];
                 T "Always on for these users, regardless of the percentage.";
                 Box (map (λ u, Box [Text u; IconButton (js "Remove " ++ u)]) (Playground.targeted s));
                 Input (Some (js "pg-target")) None (js "add a user id…") None false; Button false [T "Add"]]];
       GuideCallout explain
         [T "Everything below updates the instant you change the flag above — same math the real SDK ships. Try dragging the rollout to 0% (a kill by percentage), then add a user to targeting and watch them stay on anyway."];
       RolloutVisualizer explain flag (Some (Playground.evalUser s)) viz;
       Box [Label (Some (js "pg-eval")) [T "Spotlight a user"];
            T "Highlights them in the grid and pre-fills the explainer below.";
            Input (Some (js "pg-eval")) None (js "user-1") None false];
       WhyExplainer flag user; FailureLab explain (Playground.FailureLab serverVersion lab)].

(** ** The frame ([app/layout.tsx], [components/layout]) *)
Definition ThemeToggle (open : bool) : node :=
  Box (IconButton (js "Toggle theme") :: when open (map (λ t, Button false [Text t]) [js "Light"; js "Dark"; js "System"])).

Definition mobile_items : list (jstr * jstr) :=
  [(js "/flags", js "Flags"); (js "/demo", js "Demo"); (js "/cluster", js "Cluster"); (js "/health", js "Health");
   (js "/resilience", js "Resilience"); (js "/learn", js "Learn"); (js "/playground", js "Playground");
   (js "/glossary", js "Glossary")].
Definition MobileNav (open : bool) : node :=
  Box (IconButton (js "Open navigation") :: when open (map (λ i, Anchor i.1 [Text i.2]) mobile_items)).

(** The state the frame has of its own *)
Record frame := mkFrame {
  fr_pathname : jstr; fr_data : option FlagsResponse; fr_isError : bool; fr_isSuccess : bool;
  fr_menu : bool; fr_theme : bool; fr_tour : Tour.tour }.

Definition TopBar (f : frame) : node :=
  let b := Pages.TopBar (fr_pathname f) (fr_data f) (fr_isError f) (fr_isSuccess f) in
  Box [MobileNav (fr_menu f); Text (b_title b); T "local"; Box [T "config "; Text (b_version b)];
       Text (b_status b).1.2; TourButton; ExplainToggle; ThemeToggle (fr_theme f)].

Definition Sidebar (pathname : jstr) : node :=
  let item i := Anchor i.1.2 [Text i.1.1] in
  let items := Pages.Sidebar pathname in
  Box [go "/" "FlagPlane";
       Box (T "Control plane" :: map item (take (length navItems) items)
            ++ T "Learn" :: map item (drop (length navItems) items));
       ColorLegend;
       T "Self-hosted · Go + Postgres + Redis"].

Definition RootLayout (f : frame) (page : node) : node :=
  Box [Sidebar (fr_pathname f); TopBar f; page; GuidedTour (fr_tour f)].

(** ** Every screen *)
Inductive screen :=
| Overview (open : bool) (data : option FlagsResponse) (readiness : option (list NodeReadiness))
    (metrics : option FleetMetrics) (urls : list jstr) (heroFlag : bool) (h : Propagation.hero) (now : Z)
    (c : Console.console)
| Flags (isError isLoading toggling : bool) (data : option FlagsResponse)
| NewFlag (isPending : bool) (f : form)
| Detail (open updating isPending : bool) (p : Forms.page) (deleting history loading : bool)
    (events : option (list FlagEvent)) (viz : Visualizer.state) (user created updated : jstr)
| Demo_ (w : world) (p : Demo.page) (serverVersion : Z) (viz : Visualizer.state) (user : jstr)
| Cluster_ (open isLoading : bool) (data : option ClusterState) (urls : list jstr) (heroFlag : bool)
    (h : Cluster.hero) (now : Z) (c : Console.console) (parse : jstr → Z) (loading : bool)
    (events : option (list FlagEvent)) (selected : option Z)
| Health_ (open isLoading : bool) (grafana : jstr) (data : option (list NodeReadiness)) (metrics : option FleetMetrics)
| Resilience_ (isLoading : bool) (cluster : option ClusterState) (readiness : option (list NodeReadiness))
    (errors : option RedisPublishErrors)
| Learn_
| Playground_ (s : Playground.sandbox) (viz : Visualizer.state) (user : jstr) (serverVersion : Z) (lab : Playground.lab)
| Glossary_.

Definition render (explain : bool) (s : screen) : node :=
  match s with
  | Overview open data r m urls hf h now c => OverviewPage explain open data r m urls hf h now c
  | Flags e l t data => FlagList explain e l t data
  | NewFlag p f => NewFlagPage explain p f
  | Detail open u i p d h l ev viz user cr up => FlagDetailPage explain open u i p d h l ev viz user cr up
  | Demo_ w p v viz user => DemoPage explain w p v viz user
  | Cluster_ open l data urls hf h now c parse ld ev sel => ClusterPage explain open l data urls hf h now c parse ld ev sel
  | Health_ open l g data m => HealthPage explain open l g data m
  | Resilience_ l c r e => ResiliencePage explain l c r e
  | Learn_ => LearnPage explain
  | Playground_ s viz user v lab => PlaygroundPage explain s viz user v lab
  | Glossary_ => GlossaryPage explain
  end.

Definition app (explain : bool) (f : frame) (s : screen) : node := RootLayout f (render explain s).
