(* ===== verification/Access.v ===== *)
(** * What holds of every screen

    Links lead to pages that exist, controls have names, ids are not used twice
    and labels point at fields, on every page and in every state ([Screens]);
    the guide's Explain mode changes none of the controls; the frame names the
    page that is shown. *)
From S2P Require Import Prelude JsMap Types Evaluate Client Fleet Visualizer Why Hero Feed Forms Teach Pages Demo Markup Screens.

(** What the server guarantees of the flags a screen shows: an id that is one
    path segment, and a key. *)
Definition shown_ok (f : Flag) : Prop := fl_id f ≠ [] ∧ 47 ∉ fl_id f ∧ 35 ∉ fl_id f ∧ fl_key f ≠ [].
Definition data_ok (d : option FlagsResponse) : Prop :=
  match d with Some r => Forall shown_ok (fr_flags r) | None => True end.

(** The same of the flags the SDK holds on the demo page *)
Definition demo_ok (p : Demo.page) : Prop := Forall (λ o, obj_key o ≠ []) (map_values (allFlags p)).
Definition screen_ok (s : screen) : Prop :=
  match s with Flags _ _ _ d => data_ok d | Demo_ _ p _ _ _ => demo_ok p | _ => True end.

(** ** Links *)

(** The names the pages use are entries of the glossary. *)
Definition term_goes (n : jstr) : bool :=
  match map_get Glossary.GLOSSARY_BY_ID n with Some e => goes (js "/glossary#" ++ Glossary.g_id e) | None => false end.
Lemma term_names_go : forallb term_goes Glossary.term_names = true.
Proof. vm_compute. reflexivity. Qed.
Lemma term_entry n : term_goes n = true →
  ∃ e, map_get Glossary.GLOSSARY_BY_ID n = Some e ∧ goes (js "/glossary#" ++ Glossary.g_id e) = true.
Proof.
  unfold term_goes. generalize Glossary.GLOSSARY_BY_ID. intros g. destruct (map_get g n) as [e|]; [by exists e|discriminate].
Qed.
Lemma term_named n : n ∈ Glossary.term_names → term_goes n = true.
Proof. intros Hn%list_elem_of_In. exact (proj1 (forallb_forall _ _) term_names_go n Hn). Qed.
Lemma link_fine h t : goes h = true → t ≠ [] → holds fine (Anchor h [Text t]).
Proof. intros Hg Ht. walk; try exact I. split; [exact Hg|]. cbn. by rewrite app_nil_r. Qed.
Lemma term_fine n t : n ∈ Glossary.term_names → t ≠ [] → holds fine (Term n t).
Proof.
  intros (e & He & Hg)%term_named%term_entry Ht. unfold Term, Glossary.Term. rewrite He. exact (link_fine _ _ Hg Ht).
Qed.

Lemma callout_fine e l : fine_all l → holds fine (GuideCallout e l).
Proof.
  intros Hl. destruct e; [change (GuideCallout true l) with (Box l)|change (GuideCallout false l) with (Box [])];
    walk; first [exact I|exact Hl].
Qed.
Lemma button_fine d l : text (Box l) ≠ [] → fine_all l → holds fine (Button d l).
Proof.
  intros Ht Hl. unfold Button. walk; [|exact Hl]. split; [done|]. unfold acc_name. cbn in Ht |- *.
  by destruct (flat_map text l).
Qed.
Lemma named_fine a p d b l : a ≠ [] → fine_all l → holds fine (Control (mkCtl None (Some a) p d b) l).
Proof. intros Ha Hl. walk; [|exact Hl]. split; [done|]. by destruct a. Qed.
Lemma placeholder_fine p d b : p ≠ [] → holds fine (Input None None p d b).
Proof. intros Hp. unfold Input. walk. split; [done|]. by destruct p. Qed.
Lemma slider_fine v dv mn mx a d : a ≠ [] → holds fine (Slider v dv mn mx (Some a) d).
Proof.
  intros Ha. unfold Slider. walk; [exact I|]. apply Forall_true. intros _. by apply named_fine; [|apply Forall_nil].
Qed.
Lemma anchor_fine h l : goes h = true → text (Box l) ≠ [] → fine_all l → holds fine (Anchor h l).
Proof. intros Hh Ht Hl. by walk. Qed.
#[export] Hint Resolve callout_fine : markup.

(** Goes through a part without variables in its names. *)
Ltac nonempty := first [assumption | discriminate | vm_compute; discriminate
  | cbn [text flat_map]; rewrite ?app_nil_r; assumption].
Ltac part := unfold fine_all in *;
  repeat (walk; try exact I; try match goal with
  | H : Forall (holds fine) ?l |- Forall (holds fine) ?l => exact H
  | |- Forall _ (when ?b _) => destruct b; cbn [when]
  | |- Forall _ (maybe ?o _) => destruct o; cbn [maybe]
  | |- holds fine (Term _ _) => apply term_fine; [apply (bool_decide_unpack _); vm_compute; exact I | nonempty]
  | |- holds fine (GuideCallout _ _) => apply callout_fine; unfold fine_all
  | |- holds fine (Button _ _) => apply button_fine; [nonempty|unfold fine_all]
  | |- holds fine (IconButton _) => apply named_fine; [try nonempty|apply Forall_nil; exact I]
  | |- holds fine (Slider _ _ _ _ _ _) => apply slider_fine; nonempty
  | |- fine (Anchor _ _) => split; [vm_compute; reflexivity|nonempty]
  | |- holds fine (PageIntro _ _ _ _) => unfold PageIntro
  | |- holds fine TourButton => unfold TourButton
  | |- holds fine (Legend _) => unfold Legend
  | |- holds fine (IconBtn _) => unfold IconBtn
  | |- holds fine (StripMetric _ _) => unfold StripMetric
  | |- holds fine (Th _) => unfold Th
  | |- holds fine (Label None _) => unfold Label
  | |- holds fine _ => solve [eauto with markup]
  end).

Lemma app_nonempty (a b : jstr) : b ≠ [] → a ++ b ≠ [].
Proof. intros Hb [_ H]%app_nil. by destruct Hb. Qed.
Lemma prefix_nonempty (a b : jstr) : a ≠ [] → a ++ b ≠ [].
Proof. intros Ha [H _]%app_nil. by destruct Ha. Qed.

Lemma RolloutVisualizer_fine e flag hl s : holds fine (RolloutVisualizer e flag hl s).
Proof.
  unfold RolloutVisualizer. part. unfold Visualizer.RolloutVisualizer. cbn [Visualizer.v_squares].
  apply Forall_forall. intros q Hq. apply list_elem_of_lookup in Hq as [i Hi].
  rewrite list_lookup_imap in Hi. apply fmap_Some in Hi as (c & _ & ->).
  apply named_fine; [|by apply Forall_nil]. unfold Visualizer.square_of. cbn [Visualizer.sq_label].
  apply app_nonempty, prefix_nonempty. nonempty.
Qed.

Lemma entry_row_fine r : holds fine (entry_row r).
Proof. unfold entry_row. part. Qed.
Lemma SseConsole_fine e b now c : holds fine (SseConsole e b now c).
Proof.
  unfold SseConsole, Console.SseConsole. cbn [Console.v_buttons Console.v_body Console.v_pill].
  destruct b; cbn [maybe negb when app fst snd]; part.
  all: first [destruct (Console.paused c); nonempty | apply Forall_true; intros r; apply entry_row_fine].
Qed.
Lemma VersionTimeline_fine now parse l d sel : holds fine (VersionTimeline now parse l d sel).
Proof.
  unfold VersionTimeline. part. apply Forall_true. intros t. unfold tick_button. apply named_fine; [|by part].
  apply prefix_nonempty. nonempty.
Qed.
Lemma PropagationHero_fine urls hf h : holds fine (PropagationHero urls hf h).
Proof.
  unfold PropagationHero, hero_buttons, propagation_badge. part.
  all: try (apply Forall_true; intros ?); part.
Qed.
Lemma ClusterHero_fine urls hf h : holds fine (ClusterHero urls hf h).
Proof.
  unfold ClusterHero, SourceStep, hero_buttons. part.
  all: apply Forall_true; intros ?; unfold cluster_card; part.
Qed.
Lemma TargetedUsersInput_fine users : holds fine (TargetedUsersInput users).
Proof.
  unfold TargetedUsersInput. part.
  - apply named_fine; [nonempty|by apply Forall_nil].
  - apply Forall_true. intros u. part.
Qed.
Lemma FlagHistoryDrawer_fine o l e : holds fine (FlagHistoryDrawer o l e).
Proof.
  unfold FlagHistoryDrawer, Dialog. part. apply Forall_true. intros r. unfold event_row. part.
Qed.
Lemma DeleteDialog_fine o p k : holds fine (DeleteDialog o p k).
Proof. unfold DeleteDialog, Dialog, DialogContent, DialogFooter. destruct p; part. Qed.
Lemma RolloutSlider_fine s : holds fine (RolloutSlider s).
Proof. unfold RolloutSlider. part. Qed.
Lemma form_button_fine p f : holds fine (Button (v_button (Forms.FlagForm p f)).2 [Text (v_button (Forms.FlagForm p f)).1]).
Proof. unfold Forms.FlagForm. cbn [v_button fst snd]. destruct p, (isEdit f); part. Qed.
Lemma reconnect_fine a b : holds fine (reconnect_buttons a b).
Proof. unfold reconnect_buttons. part. Qed.
Lemma FailureLab_fine e v : holds fine (FailureLab e v).
Proof. unfold FailureLab, reconnect_buttons. part. Qed.
Lemma FeatureCard_fine c l : fine_all l → holds fine (FeatureCard c l).
Proof. intros Hl. unfold FeatureCard, StatusBadge. part. Qed.
Lemma feature_fine c : holds fine (feature c).
Proof.
  unfold feature, DarkModeFeature, BetaDashboard, AiAssistant, DynamicFlagCard. repeat case_decide;
    apply FeatureCard_fine; part; [|apply placeholder_fine; nonempty].
  unfold STATS. part.
Qed.
Lemma why_steps_fine l : holds fine (Box (map why_step l)).
Proof. unfold why_step. part. apply Forall_true. intros x. part. Qed.
Lemma chips_fine (us : list jstr) : holds fine (Box (map (λ u, Box [Text u; IconButton (js "Remove " ++ u)]) us)).
Proof. part. apply Forall_true. intros u. part. Qed.
Lemma cards_fine o : holds fine (Box (maybe o (map feature))).
Proof. part. apply Forall_true, feature_fine. Qed.
#[export] Hint Resolve why_steps_fine chips_fine cards_fine RolloutSlider_fine form_button_fine reconnect_fine FailureLab_fine feature_fine RolloutVisualizer_fine SseConsole_fine VersionTimeline_fine PropagationHero_fine ClusterHero_fine
  TargetedUsersInput_fine FlagHistoryDrawer_fine DeleteDialog_fine : markup.

Lemma details_fine o l c : l ≠ [] → fine_all c → holds fine (AdvancedDetails o l c).
Proof. intros Hl Hc. unfold AdvancedDetails. part. Qed.

(** *** The pages without fields *)
Lemma OverviewPage_fine e o data r m urls hf h now c : holds fine (OverviewPage e o data r m urls hf h now c).
Proof.
  unfold OverviewPage, HealthStrip, ActionCard, stat_tile. destruct (Pages.OverviewPage data r m) as [i s]. part.
  apply details_fine; [nonempty|]. part.
Qed.

Lemma flag_href id : id ≠ [] → 47 ∉ id → 35 ∉ id → goes (js "/flags/" ++ id) = true.
Proof.
  intros Hn Hs Hh. unfold goes. rewrite cut_hash_none.
  - unfold route_of. destruct (map_get static_routes _); [done|].
    assert (split_on 47 (js "/flags/" ++ id) = [[]; js "flags"; id]) as ->.
    { change (js "/flags/" ++ id) with ([] ++ 47 :: (js "flags" ++ 47 :: id)).
      rewrite !split_on_app by (apply (bool_decide_unpack _); vm_compute; exact I).
      f_equal. f_equal. by apply split_on_none. }
    by rewrite bool_decide_true, bool_decide_false.
  - rewrite elem_of_app. intros [H|H]; [|done]. vm_compute in H. set_solver.
Qed.

Lemma ActionCards_fine (A : Type) (f : A → node) l : (∀ x, holds fine (f x)) → holds fine (Box (map f l)).
Proof. intros Hf. walk; [exact I|]. by apply Forall_true. Qed.

Lemma in_grid_fine {A} (f : A → node) g : (∀ x, holds fine (f x)) → holds fine (in_grid f g).
Proof. intros Hf. destruct g; cbn [in_grid]; [part|by apply ActionCards_fine]. Qed.

Lemma ClusterPage_fine e o l d urls hf h now c parse ld ev sel :
  holds fine (ClusterPage e o l d urls hf h now c parse ld ev sel).
Proof.
  unfold ClusterPage, banner. part. apply details_fine; [nonempty|]. part.
  apply in_grid_fine. intros x. unfold cluster_node. part.
Qed.


Lemma HealthPage_fine e o l g d m : holds fine (HealthPage e o l g d m).
Proof.
  unfold HealthPage. part. apply details_fine; [nonempty|]. part.
  1, 2: unfold metric_tree; part.
  apply in_grid_fine. intros x. unfold health_node. part.
    apply Forall_true. intros dep. unfold dep_tree. part.
Qed.

Lemma ResiliencePage_fine e l c r er : holds fine (ResiliencePage e l c r er).
Proof.
  unfold ResiliencePage, banner, GuaranteesPanel. part.
  - apply Forall_true. intros t. unfold signal_tile. part.
  - apply in_grid_fine. intros x. unfold resilience_node. part.
    apply Forall_true. intros dep. unfold dep_tree. part.
Qed.

Lemma LearnPage_fine e : holds fine (LearnPage e).
Proof.
  unfold LearnPage. part. apply Forall_forall. intros k Hk.
  assert (Forall (λ k, goes (Glossary.k_see k).1 = true ∧ (Glossary.k_see k).2 ≠ []
    ∧ opt_holds (λ h, goes h = true) (Glossary.k_definition k)) Glossary.LearnPage) as Hall.
  { repeat (apply Forall_cons; split; [split_and!; [vm_compute; reflexivity|vm_compute; discriminate|vm_compute; try reflexivity; exact I]|]).
    apply Forall_nil. exact I. }
  eapply Forall_forall in Hall as (Hg & Ht & Hd); [|exact Hk]. unfold chapter. part.
  - split; [done|]. cbn [text flat_map]. by rewrite app_nil_r.
  - split; [exact Hd|nonempty].
Qed.

Lemma FlagList_rows er l t d rows r : data_ok d → Pages.FlagList er l t d = Rows rows → r ∈ rows →
  goes (r_href r) = true ∧ r_key r ≠ [] ∧ (r_switch r).2 ≠ [].
Proof.
  unfold Pages.FlagList. intros Hd. destruct er, l; try done. destruct d as [[[|f0 fs] v]|]; try done.
  intros [= <-] Hr. change (r ∈ map (flag_row_of t) (f0 :: fs)) in Hr. apply list_elem_of_In, in_map_iff in Hr as (f & <- & Hf).
  apply list_elem_of_In in Hf. cbn [data_ok fr_flags] in Hd. eapply Forall_forall in Hd as (Hn & Hs & Hh & Hk); [|exact Hf].
  split_and!; [by apply flag_href|done|]. unfold flag_row_of, Pages.ToggleSwitch. cbn. destruct (fl_enabled f); nonempty.
Qed.

Lemma FlagList_fine e er l t d : data_ok d → holds fine (FlagList e er l t d).
Proof.
  intros Hd. unfold FlagList, EmptyState, ErrorState, RolloutBar, skeleton_table. cbn [repeat]. part.
  apply Forall_forall. intros r Hr. destruct (FlagList_rows _ _ _ _ _ _ Hd Heqf Hr) as (Hg & Hk & Hs).
  unfold flag_row_tree, RolloutBar, ToggleSwitch, Switch, Input. part.
  - split; [done|nonempty].
  - split; [done|]. unfold acc_name. cbn. by destruct ((r_switch r).2).
Qed.

(** *** Fields and their labels *)

(** A tree whose ids are [ii], whose labels are [ls] and whose fields are [need];
    they count on their labels for their names. *)
Record carries (n : node) (ii : list jstr) (ls : list (jstr * jstr)) (need : list jstr) : Prop := {
  ca_ids : ids n = ii; ca_labels : labels n = ls; ca_fields : field_ids n = need;
  ca_ok : ∀ labs, Forall (λ i, opt_holds (λ t, t ≠ []) (map_get labs i) ∧ map_get labs i ≠ None) need →
    holds (ok labs) n }.

Lemma fine_carries n : holds fine n → carries n [] [] [].
Proof. intros Hn. destruct (fine_quiet n Hn) as (? & ? & ?). split; [done..|]. intros labs _. by apply fine_ok. Qed.
Lemma carries_nil : carries (Box []) [] [] [].
Proof. apply fine_carries. part. Qed.

Lemma carries_app l1 l2 i1 i2 ls1 ls2 n1 n2 :
  carries (Box l1) i1 ls1 n1 → carries (Box l2) i2 ls2 n2 →
  carries (Box (l1 ++ l2)) (i1 ++ i2) (ls1 ++ ls2) (n1 ++ n2).
Proof.
  intros [Hi Hl Hf Ho] [Hi' Hl' Hf' Ho']. rewrite ids_box in *. rewrite labels_box in *. rewrite field_ids_box in *.
  split; rewrite ?ids_box, ?labels_box, ?field_ids_box, ?flat_map_app;
    [by rewrite Hi, Hi'|by rewrite Hl, Hl'|by rewrite Hf, Hf'|].
  intros labs [H1 H2]%Forall_app. apply holds_node. split; [exact I|]. cbn [children]. rewrite Forall_app.
  split; [by apply (holds_node _ (Box l1)), Ho|by apply (holds_node _ (Box l2)), Ho'].
Qed.
Lemma carries_single n ii ls need : carries n ii ls need → carries (Box [n]) ii ls need.
Proof.
  intros [Hi Hl Hf Ho]. split; rewrite ?ids_box, ?labels_box, ?field_ids_box; cbn [flat_map]; rewrite ?app_nil_r; [done..|].
  intros labs H. apply holds_node. split; [exact I|]. apply Forall_singleton, Ho, H.
Qed.
Lemma carries_cons n l i1 i2 l1 l2 n1 n2 : carries n i1 l1 n1 → carries (Box l) i2 l2 n2 →
  carries (Box (n :: l)) (i1 ++ i2) (l1 ++ l2) (n1 ++ n2).
Proof. intros Hn. apply (carries_app [n] l), carries_single, Hn. Qed.
Lemma carries_fine n l ii ls need : holds fine n → carries (Box l) ii ls need → carries (Box (n :: l)) ii ls need.
Proof. intros Hn. apply (carries_cons _ _ [] _ [] _ []). by apply fine_carries. Qed.

Lemma carries_region x l ii ls need : carries (Box l) ii ls need → carries (Region x l) ii ls need.
Proof.
  intros [Hi Hl Hf Ho]. rewrite ids_box in Hi. rewrite labels_box in Hl. rewrite field_ids_box in Hf.
  split; [by rewrite ids_region|by rewrite labels_region|by rewrite field_ids_region|]. intros labs H.
  apply holds_node. split; [exact I|]. by apply (holds_node _ (Box l)), Ho.
Qed.
Lemma carries_ident i l : fine_all l → carries (Ident i l) [i] [] [].
Proof.
  intros Hl. destruct (fine_all_quiet _ Hl) as (Hi & Hs & Hf).
  split; [by rewrite ids_ident, Hi|by rewrite labels_ident, Hs|by rewrite field_ids_ident, Hf|].
  intros labs _. apply holds_node. split; [exact I|]. eapply Forall_impl; [exact Hl|]. intros n. apply fine_ok.
Qed.
Lemma carries_label i l : fine_all l → carries (Label (Some i) l) [] [(i, text (Box l))] [].
Proof.
  intros Hl. destruct (fine_all_quiet _ Hl) as (Hi & Hs & Hf). unfold Label.
  split; [by rewrite ids_label, Hi|by rewrite labels_label, Hs|by rewrite field_ids_label, Hf|].
  intros labs _. apply holds_node. split; [exact I|]. eapply Forall_impl; [exact Hl|]. intros n. apply fine_ok.
Qed.
Lemma carries_control i p d b l : fine_all l → carries (Control (mkCtl (Some i) None p d b) l) [i] [] [i].
Proof.
  intros Hl. destruct (fine_all_quiet _ Hl) as (Hi & Hs & Hf).
  split; [by rewrite ids_control, Hi|by rewrite labels_control, Hs|by rewrite field_ids_control, Hf|].
  intros labs [[Ht Hn] _]%Forall_cons. apply holds_node. split.
  - cbn [ok]. unfold acc_name. cbn. destruct (map_get labs i) as [[|c t]|]; done.
  - eapply Forall_impl; [exact Hl|]. intros n. apply fine_ok.
Qed.
Lemma carries_select i v items : fine_all (map (λ p, Button false [Text p.2]) items) →
  carries (Select i v items) [i] [] [i].
Proof.
  intros Hi. apply (carries_cons _ _ [i] [] [] [] [i] []).
  - apply carries_control. part.
  - apply carries_fine, carries_nil. walk; [exact I|]. by apply (List.Forall_map (λ p, Button false [Text p.2]) (holds fine)).
Qed.
Lemma carries_eq n ii ls need ii' ls' need' :
  carries n ii ls need → ii = ii' → ls = ls' → need = need' → carries n ii' ls' need'.
Proof. by intros H <- <- <-. Qed.

(** A page or part whose fields and labels are listed: goes down to them. *)
Ltac fields := repeat match goal with
  | |- carries (Box []) _ _ _ => apply carries_nil
  | |- carries (Box (_ :: _)) _ _ _ => first [apply carries_fine; [solve [eauto with markup|part]|] | eapply carries_cons]
  | |- carries (Box (_ ++ _)) _ _ _ => eapply carries_app
  | |- carries (Region _ _) _ _ _ => apply carries_region
  | |- carries (Ident _ _) _ _ _ => apply carries_ident; part
  | |- carries (Label (Some _) _) _ _ _ => apply carries_label; part
  | |- carries (Input (Some _) None _ _ _) _ _ _ => apply carries_control; part
  | |- carries (Switch (Some _) None _) _ _ _ => apply carries_control; part
  | |- carries (Select _ _ _) _ _ _ => apply carries_select
  | |- carries _ _ _ _ => solve [eauto with markup]
  end.

(** *** The pages with fields *)

(** The id of the message under the key, and the text of the key's label *)
Definition key_message (f : form) : jstr := (v_key_message (Forms.FlagForm false f)).1.
Definition key_label (f : form) : jstr := js "Flag key " ++ (if isEdit f then [] else js "*").

Lemma FlagForm_carries p f :
  carries (FlagForm p f) [js "key"; key_message f; js "description"; js "enabled"]
    [(js "key", key_label f); (js "description", js "Description"); (js "enabled", js "Enabled")]
    [js "key"; js "description"; js "enabled"].
Proof.
  unfold FlagForm. eapply carries_eq.
  - fields.
  - reflexivity.
  - cbn [app text flat_map]. unfold key_label, Forms.FlagForm. cbn [v_key_star]. by destruct (isEdit f).
  - reflexivity.
Qed.
Lemma WhyExplainer_carries flag u :
  carries (WhyExplainer flag u) [js "why-user"] [(js "why-user", js "User id")] [js "why-user"].
Proof. unfold WhyExplainer. eapply carries_eq; [fields|reflexivity..]. Qed.

Lemma items_fine (items : list (jstr * jstr)) :
  Forall (λ p, p.2 ≠ []) items → fine_all (map (λ p, Button false [Text p.2]) items).
Proof.
  intros Hi. apply List.Forall_map. eapply Forall_impl; [exact Hi|]. intros [v t] Ht. cbn [snd] in *. part.
Qed.
(** The box for a custom user id is there or not. *)
Definition custom {A} (u : jstr) (l : list A) : list A :=
  match sw_input (Demo.UserSwitcher u) with Some _ => l | None => [] end.
Lemma users_named u : Forall (λ v, v ≠ []) (sw_items (Demo.UserSwitcher u)).
Proof. apply (bool_decide_unpack _). vm_compute. exact I. Qed.
Lemma UserSwitcher_carries u :
  carries (UserSwitcher u) (js "user-select" :: custom u [js "custom-user"])
    ((js "user-select", js "Evaluate as") :: custom u [(js "custom-user", js "Custom user ID")])
    (js "user-select" :: custom u [js "custom-user"]).
Proof.
  assert (fine_all (map (λ p, Button false [Text p.2]) (map (λ u, (u, if decide (u = js "custom") then js "Custom…" else u))
    (sw_items (Demo.UserSwitcher u))))) as Hi.
  { apply items_fine, List.Forall_map. eapply Forall_impl; [apply users_named|]. intros v Hv. cbn.
    by destruct (decide _). }
  unfold UserSwitcher, custom. destruct (sw_input (Demo.UserSwitcher u)); cbn [maybe];
    (eapply carries_eq; [fields; exact Hi|reflexivity..]).
Qed.
#[export] Hint Resolve FlagForm_carries WhyExplainer_carries UserSwitcher_carries : markup.

(** No id twice, every label for a field that is there, every field with a
    label that says something. *)
Record consistent (ii : list jstr) (ls : list (jstr * jstr)) (need : list jstr) : Prop := {
  co_ids : NoDup ii; co_once : NoDup ls.*1; co_targets : Forall (λ i, i ∈ need) ls.*1;
  co_need : Forall (λ i, i ∈ ls.*1) need; co_said : Forall (λ t, t ≠ []) ls.*2 }.
Definition settled (n : node) : Prop := ∃ ii ls need, carries n ii ls need ∧ consistent ii ls need.
Definition consistentb (ii : list jstr) (ls : list (jstr * jstr)) (need : list jstr) : bool :=
  bool_decide (NoDup ii) && bool_decide (NoDup ls.*1) && bool_decide (Forall (λ i, i ∈ need) ls.*1)
  && bool_decide (Forall (λ i, i ∈ ls.*1) need) && bool_decide (Forall (λ t, t ≠ []) ls.*2).
Lemma consistentb_true ii ls need : consistentb ii ls need = true → consistent ii ls need.
Proof. unfold consistentb. rewrite !andb_true_iff, !bool_decide_eq_true. by intros [[[[? ?] ?] ?] ?]. Qed.

Lemma fine_settled n : holds fine n → settled n.
Proof. intros Hn. exists [], [], []. split; [by apply fine_carries|]. by apply consistentb_true. Qed.
Ltac settle := eexists _, _, _; split; [fields|apply consistentb_true; vm_compute; reflexivity].
Lemma form_cases f : key_message f = js "key-error" ∨ key_message f = js "key-hint".
Proof. unfold key_message, Forms.FlagForm. cbn. destruct (map_get (errors f) (js "key")); auto. Qed.
Lemma label_cases f : key_label f = js "Flag key *" ∨ key_label f = js "Flag key ".
Proof. unfold key_label. destruct (isEdit f); auto. Qed.
Ltac form f := destruct (form_cases f) as [Hm|Hm], (label_cases f) as [Hk|Hk];
  pose proof (FlagForm_carries) as HF; 
  eexists _, _, _; (split; [fields|rewrite Hm, Hk; apply consistentb_true; vm_compute; reflexivity]).

Lemma NewFlagPage_settled e p f : settled (NewFlagPage e p f).
Proof. unfold NewFlagPage. form f. Qed.
Lemma FlagDetailPage_settled e o u i p d h l ev viz user cr up :
  settled (FlagDetailPage e o u i p d h l ev viz user cr up).
Proof.
  unfold FlagDetailPage. destruct (Forms.FlagDetailPage u p), (p_flag p) as [fl|], (p_form p) as [g|].
  all: first [solve [apply fine_settled; part] | idtac].
  assert (holds fine (AdvancedDetails o (js "Metadata")
    [Box [Text (js "Version "); Text (h_version h0)]; Box [Text (js "Created "); Text cr];
     Box [Text (js "Updated "); Text up]])) as Ha by (apply details_fine; [nonempty|part]).
  assert (holds fine (StatusBadge (h_enabled h0))) as Hb by (unfold StatusBadge; part).
  form g.
Qed.
Lemma GlossaryPage_settled e : settled (GlossaryPage e).
Proof.
  exists (map Glossary.g_id Glossary.GLOSSARY), [], []. split.
  - unfold GlossaryPage, Glossary.GlossaryPage. 
    apply carries_fine; [part|]. apply carries_fine; [part|]. apply carries_single.
    induction Glossary.GLOSSARY as [|x l IH]; [apply carries_nil|].
    apply (carries_cons _ _ [_] _ [] [] [] []); [|exact IH]. apply carries_ident. part.
  - split; [apply Glossary.glossary_ids_unique|apply NoDup_nil_2|apply Forall_nil..]; exact I.
Qed.
Lemma PlaygroundPage_settled e s viz user v lab : settled (PlaygroundPage e s viz user v lab).
Proof.
  unfold PlaygroundPage. assert (holds fine (Slider (Some [Playground.rollout s]) None 0 100 (Some (js "Rollout percentage"))
                   (negb (Playground.enabled s)))) as Hs by part.
  settle.
Qed.

Lemma carries_after l1 l2 ii ls need : fine_all l1 → carries (Box l2) ii ls need → carries (Box (l1 ++ l2)) ii ls need.
Proof.
  intros H1. apply (carries_app l1 l2 [] _ [] _ [] _). apply fine_carries. walk; [exact I|exact H1].
Qed.
Lemma carries_maybe l (o : option panel) f ii ls need :
  carries (Box l) ii ls need → (∀ x, fine_all (f x)) → carries (Box (maybe o f ++ l)) ii ls need.
Proof. intros Hl Hf. apply carries_after; [|exact Hl]. destruct o; [apply Hf|by apply Forall_nil]. Qed.

(** What explains the rollout of the flag picked *)
Definition viz_ids (o : bool) : list jstr := if o then [js "viz-flag"; js "why-user"] else [].
Definition viz_labels (o : bool) : list (jstr * jstr) :=
  if o then [(js "viz-flag", js "Flag"); (js "why-user", js "User id")] else [].
Lemma demo_rollout_carries e w p v viz user : demo_ok p → ∃ o,
  carries (Box match v_viz (Demo.DemoPage w p v), vizFlag p with
    | Some (key, items), Some (FullFlag f) =>
        [PageIntro [T "Understand the rollout"]
           [T "A percentage isn't random — it maps to a fixed set of users. Pick a flag, drag the percentage to see exactly who flips, and check why any single user lands on or off."] [] [];
         Box [Label (Some (js "viz-flag")) [T "Flag"]; Select (js "viz-flag") key (map (λ k, (k, k)) items)];
         RolloutVisualizer e (evaluable f) (Some (currentUser p)) viz; WhyExplainer (evaluable f) user]
    | _, _ => []
    end) (viz_ids o) (viz_labels o) (viz_ids o).
Proof.
  intros Hp. assert (fine_all (map (λ p, Button false [Text p.2])
    (map (λ k, (k, k)) (map obj_key (map_values (allFlags p)))))) as Hi.
  { by apply items_fine, List.Forall_map, List.Forall_map. }
  cbn [v_viz Demo.DemoPage]. destruct (vizFlag p) as [[|f]|], (isReady p).
  all: first [exists false; apply carries_nil | exists true; eapply carries_eq; [fields; exact Hi|reflexivity..]].
Qed.
Lemma DemoPage_settled e w p v viz user : demo_ok p → settled (DemoPage e w p v viz user).
Proof.
  intros Hp. destruct (demo_rollout_carries e w p v viz user Hp) as [o Ho].
  eexists _, _, _. unfold DemoPage. split.
  - apply carries_after; [part|]. apply carries_maybe; [|intros n; part].
    apply carries_app; [|exact Ho]. fields.
  - unfold custom. destruct o, (sw_input _); apply consistentb_true; vm_compute; reflexivity.
Qed.

(** *** The frame *)
Definition step_goes (s : Tour.Step) : bool := goes (Tour.s_href s) && negb (bool_decide (Tour.s_linkLabel s = [])).
Lemma steps_go : forallb step_goes Tour.STEPS = true.
Proof. vm_compute. reflexivity. Qed.
Lemma GuidedTour_fine t : holds fine (GuidedTour t).
Proof.
  unfold GuidedTour, Tour.GuidedTour. destruct (Tour.readOpen t); [|part].
  destruct (Tour.STEPS !! Tour.step t) as [s|] eqn:Hs; cbn [fmap option_fmap option_map Tour.v_step Tour.v_first Tour.v_last]; [|part].
  apply list_elem_of_lookup_2, list_elem_of_In in Hs.
  pose proof (proj1 (forallb_forall _ _) steps_go s Hs) as Hg. unfold step_goes in Hg.
  apply andb_true_iff in Hg as [Hg Hl%negb_true_iff%bool_decide_eq_false].
  assert (holds fine (Anchor (Tour.s_href s) [Text (Tour.s_linkLabel s)])) as Ha by by apply link_fine.
  destruct (Tour.isFirst t), (Tour.isLast t); part; exact (proj1 (proj1 (holds_node _ _) Ha)).
Qed.
Definition items_go (items : list (jstr * jstr)) : bool :=
  forallb (λ i, goes i.1 && negb (bool_decide (i.2 = []))) items.
Lemma nav_fine items : items_go items = true → Forall (λ i, holds fine (Anchor i.1 [Text i.2])) items.
Proof.
  intros Hi. apply Forall_forall. intros [h t] Ht%list_elem_of_In.
  pose proof (proj1 (forallb_forall _ _) Hi _ Ht) as [Hg Hl%negb_true_iff%bool_decide_eq_false]%andb_true_iff.
  by apply link_fine.
Qed.
Lemma MobileNav_fine o : holds fine (MobileNav o).
Proof.
  assert (Forall (λ i, holds fine (Anchor i.1 [Text i.2])) mobile_items) as Hi
    by (apply nav_fine; vm_compute; reflexivity).
  unfold MobileNav. part. exact Hi.
Qed.
Lemma Sidebar_fine path : holds fine (Sidebar path).
Proof.
  assert (Forall (λ x, holds fine (Anchor x.1.2 [Text x.1.1])) (Pages.Sidebar path)) as Hi
    by (apply List.Forall_map, nav_fine; vm_compute; reflexivity).
  unfold Sidebar, ColorLegend. part; [by apply Forall_take|by apply Forall_drop].
Qed.
Lemma TopBar_fine f : holds fine (TopBar f).
Proof.
  unfold TopBar, ExplainToggle, ThemeToggle. apply holds_node. split; [exact I|]. cbn [children].
  apply Forall_cons. split; [apply MobileNav_fine|by part].
Qed.

(** ** Every screen *)
Lemma render_settled e s : screen_ok s → settled (render e s).
Proof.
  destruct s; cbn [screen_ok render]; intros Hs.
  - apply fine_settled, OverviewPage_fine.
  - by apply fine_settled, FlagList_fine.
  - apply NewFlagPage_settled.
  - apply FlagDetailPage_settled.
  - by apply DemoPage_settled.
  - apply fine_settled, ClusterPage_fine.
  - apply fine_settled, HealthPage_fine.
  - apply fine_settled, ResiliencePage_fine.
  - apply fine_settled, LearnPage_fine.
  - apply PlaygroundPage_settled.
  - apply GlossaryPage_settled.
Qed.

Lemma app_settled e f s : screen_ok s → settled (app e f s).
Proof.
  intros (ii & ls & need & Hc & Hk)%(render_settled e). exists ii, ls, need. split; [|exact Hk].
  unfold app, RootLayout. apply carries_fine; [apply Sidebar_fine|]. apply carries_fine; [apply TopBar_fine|].
  rewrite <- (app_nil_r ii), <- (app_nil_r ls), <- (app_nil_r need). apply carries_cons; [exact Hc|].
  apply carries_fine; [apply GuidedTour_fine|apply carries_nil].
Qed.

(** What makes a page usable: links that lead somewhere and say where, controls
    with an accessible name, no id twice, labels for fields that are there. *)
Record accessible (n : node) : Prop := {
  ac_links : Forall (λ h, goes h = true) (links n);
  ac_texts : ∀ h l, Anchor h l ∈ nodes n → text (Box l) ≠ [];
  ac_names : Forall (λ c, acc_name (labels n) c ≠ []) (controls n);
  ac_ids : NoDup (ids n);
  ac_labels : Forall (λ p, p.1 ∈ field_ids n) (labels n) }.

Lemma settled_accessible n : settled n → accessible n.
Proof.
  intros (ii & ls & need & [Hi Hl Hf Ho] & [K1 K2 K3 K4 K5]).
  assert (holds (ok (labels n)) n) as Hn.
  { rewrite Hl. apply Ho. eapply Forall_impl; [exact K4|]. intros i Hin. cbn beta in Hin.
    apply list_elem_of_fmap in Hin as ([i' t] & -> & Hin). cbn [fst].
    rewrite (map_get_wf ls i' t K2 Hin). split; [|done]. cbn.
    eapply (proj1 (Forall_forall _ _) K5). apply list_elem_of_fmap. by exists (i', t). }
  split.
  - apply holds_omap. eapply holds_impl; [|exact Hn]. intros [| | | |h l| | |]; try done. by intros [? _].
  - intros h l Hin. by destruct (holds_elem _ _ _ Hn Hin).
  - apply holds_omap. eapply holds_impl; [|exact Hn]. by intros [].
  - by rewrite Hi.
  - rewrite Hl, Hf. apply Forall_fmap in K3. exact K3.
Qed.

(** C34: A visitor can reach and use every screen.  Whatever the page and its
    state, with or without the Explain switch, for flags with a key and an id that
    is a path segment: every link leads to a page of the
    application, or out of it, and says where; every button, field and slider has
    a name that a screen reader can say; no id occurs twice in the document, the
    frame included; and every label points at a field that is on the page. *)
Theorem screens_accessible explain f s : screen_ok s → accessible (app explain f s).
Proof. intros Hs. by apply settled_accessible, app_settled. Qed.

(** ** What Explain mode changes *)
Section explain.
Context {A : Type} (f : node → option A).
(** A kind of element that is not a text, a plain box, a region or a link *)
Hypothesis f_text : ∀ s, f (Text s) = None.
Hypothesis f_box : ∀ l, f (Box l) = None.
Hypothesis f_region : ∀ x l, f (Region x l) = None.
Hypothesis f_anchor : ∀ h l, f (Anchor h l) = None.

Definition found (n : node) : list A := omap f (nodes n).

Lemma found_box l : found (Box l) = flat_map found l.
Proof. unfold found. rewrite omap_node, f_box. done. Qed.
Lemma found_cons n n' l l' : found n = found n' → found (Box l) = found (Box l') →
  found (Box (n :: l)) = found (Box (n' :: l')).
Proof. rewrite !found_box. cbn [flat_map]. by intros -> ->. Qed.
Lemma found_app l1 l1' l2 l2' : found (Box l1) = found (Box l1') → found (Box l2) = found (Box l2') →
  found (Box (l1 ++ l2)) = found (Box (l1' ++ l2')).
Proof. rewrite !found_box, !flat_map_app. by intros -> ->. Qed.
Lemma found_region x l l' : found (Box l) = found (Box l') → found (Region x l) = found (Region x l').
Proof.
  rewrite !found_box. intros H. unfold found. rewrite !omap_node, !f_region. exact H.
Qed.

(** A part of texts and links only *)
Definition prose (n : node) : Prop := found n = [].
Lemma prose_text s : prose (Text s).
Proof. unfold prose, found. by rewrite omap_node, f_text. Qed.
Lemma prose_anchor h l : Forall prose l → prose (Anchor h l).
Proof. intros Hl. unfold prose, found. rewrite omap_node, f_anchor. cbn. by apply flat_map_none. Qed.
Lemma prose_term n t : prose (Term n t).
Proof. 
  unfold Term. destruct (Glossary.Term n (Some t)); [apply prose_text|].
  apply prose_anchor, Forall_singleton, prose_text.
Qed.
Lemma prose_callout e l : Forall prose l → prose (GuideCallout e l).
Proof.
  intros Hl. unfold prose. destruct e; [change (GuideCallout true l) with (Box l)|change (GuideCallout false l) with (Box [])];
    rewrite found_box; [by apply flat_map_none|done].
Qed.
Lemma callout_same l : Forall prose l → found (GuideCallout true l) = found (GuideCallout false l).
Proof. intros Hl. by rewrite !prose_callout. Qed.

Ltac prose := repeat first [apply Forall_cons; split | apply Forall_nil; exact I | apply prose_text | apply prose_term
  | apply prose_anchor | apply Forall_singleton].
Ltac same := repeat match goal with
  | |- ?x = ?x => reflexivity
  | |- found (GuideCallout _ _) = _ => apply callout_same; prose
  | |- found (Box (_ :: _)) = _ => apply found_cons
  | |- found (Box (_ ++ _)) = _ => apply found_app
  | |- found (Region _ _) = _ => apply found_region
  | |- found (Box (when ?b _)) = _ => destruct b; cbn [when]
  | H : found _ = _ |- _ => exact H
  end.

Lemma SseConsole_same b now c : found (SseConsole true b now c) = found (SseConsole false b now c).
Proof. unfold SseConsole. destruct b; cbn [negb when]; same. Qed.
Lemma RolloutVisualizer_same flag hl s : found (RolloutVisualizer true flag hl s) = found (RolloutVisualizer false flag hl s).
Proof. unfold RolloutVisualizer. same. Qed.
Lemma FailureLab_same v : found (FailureLab true v) = found (FailureLab false v).
Proof. unfold FailureLab. same. Qed.
Lemma details_same o l c c' : found (Box c) = found (Box c') → found (AdvancedDetails o l c) = found (AdvancedDetails o l c').
Proof. intros H. unfold AdvancedDetails. destruct o; cbn [when]; same. Qed.

Lemma render_same s : found (render true s) = found (render false s).
Proof.
  destruct s; cbn [render].
  - pose proof (SseConsole_same true now c) as Hc. unfold OverviewPage. destruct (Pages.OverviewPage _ _ _). same.
  - unfold FlagList. same.
  - unfold NewFlagPage. same.
  - unfold FlagDetailPage. destruct (Forms.FlagDetailPage updating p), (p_flag p) as [fl|], (p_form p) as [g|]; same.
    apply RolloutVisualizer_same.
  - unfold DemoPage. same. destruct (v_viz _) as [[k i]|], (vizFlag p) as [[|g]|]; same. apply RolloutVisualizer_same.
  - pose proof (SseConsole_same false now c) as Hc. unfold ClusterPage. same.
  - unfold HealthPage. same.
  - unfold ResiliencePage. same.
  - unfold LearnPage. same.
  - unfold PlaygroundPage. same; [apply RolloutVisualizer_same|apply FailureLab_same].
  - unfold GlossaryPage. same.
Qed.
Lemma app_same fr s : found (app true fr s) = found (app false fr s).
Proof. pose proof (render_same s) as H. unfold app, RootLayout. same. Qed.
End explain.

(** Explain mode only adds and removes guide text: with it on or off, a
    screen has the same controls with the same contents, the same ids and the
    same labels. *)
Theorem explain_keeps_controls f s :
  controls (app true f s) = controls (app false f s) ∧ ids (app true f s) = ids (app false f s) ∧
  labels (app true f s) = labels (app false f s).
Proof. split_and!; by apply app_same. Qed.

(** ** The frame follows the page *)

(** The title of a page and the item of the sidebar it belongs to *)
Definition title_of (r : route) : jstr :=
  match r with
  | ROverview => js "Overview" | RFlags => js "Flags" | RNewFlag => js "New flag" | RFlag _ => js "Flag detail"
  | RDemo => js "Demo" | RCluster => js "Cluster" | RHealth => js "Health" | RResilience => js "Resilience"
  | RLearn => js "Learn" | RPlayground => js "Playground" | RGlossary => js "Glossary"
  end.
Definition section_of (r : route) : jstr :=
  match r with RNewFlag | RFlag _ => js "Flags" | _ => title_of r end.

Definition current (path : jstr) : list jstr :=
  map (λ i, i.1.1) (filter (λ i : jstr * jstr * bool, i.2 = true) (Pages.Sidebar path)).

Lemma static_frame : Forall (λ p, pageTitle p.1 = title_of p.2 ∧ current p.1 = [section_of p.2]) static_routes.
Proof. repeat (apply Forall_cons; split); [..|by apply Forall_nil]; vm_compute; auto. Qed.

Lemma split_on_parts c s x rest : split_on c s = x :: rest → s = x ++ flat_map (λ p, c :: p) rest.
Proof.
  revert x rest. induction s as [|y s IH]; intros x rest; cbn [split_on]; [by intros [= <- <-]|].
  destruct (Z.eqb_spec y c) as [->|Hy].
  - intros [= <- <-]. destruct (split_on c s) as [|x r] eqn:Hs; [by destruct s; cbn in Hs; repeat case_match|]. cbn. by rewrite (IH x r).
  - destruct (split_on c s) as [|x' r] eqn:Hs; intros [= <- <-]; cbn; [|by rewrite (IH x' r)].
    by destruct s; cbn in Hs; repeat case_match.
Qed.
Lemma route_cases path r : route_of path = Some r →
  (path, r) ∈ static_routes ∨ ∃ id, r = RFlag id ∧ path = js "/flags/" ++ id ∧ id ≠ [].
Proof.
  unfold route_of. destruct (map_get static_routes path) as [r'|] eqn:Hr; [intros [= ->]; left; by apply map_get_elem|].
  destruct (split_on 47 path) as [|[|] [|f [|id [|]]]] eqn:Hs; try done.
  destruct (bool_decide (f = js "flags")) eqn:Hf, (bool_decide (id = [])) eqn:Hi; try done. intros [= <-].
  right. exists id. apply bool_decide_eq_true in Hf as ->. apply bool_decide_eq_false in Hi.
  split_and!; [done|rewrite (split_on_parts _ _ _ _ Hs); cbn [flat_map]; by rewrite app_nil_r|done].
Qed.

Lemma startsWith_prefix p s : startsWith p (p ++ s) = true.
Proof. unfold startsWith. by rewrite take_app_length, bool_decide_true. Qed.

(** On every page of the dashboard the top bar shows the page's title and
    the sidebar marks exactly one item as current, the section the page belongs
    to; a flag's page is told from the form for a new one as long as its id does
    not begin with [new]. *)
Theorem frame_follows_route path r : route_of path = Some r →
  (∀ id, r = RFlag id → ¬ js "new" `prefix_of` id) →
  pageTitle path = title_of r ∧ current path = [section_of r].
Proof.
  intros [Hs|(id & -> & -> & Hi)]%route_cases Hn.
  - by apply (proj1 (Forall_forall _ _) static_frame _ Hs).
  - specialize (Hn id eq_refl). destruct id as [|c id]; [done|]. split.
    + unfold pageTitle. rewrite decide_False by (vm_compute; discriminate). rewrite startsWith_prefix.
      unfold startsWith. rewrite bool_decide_false; [done|]. intros H. apply Hn.
      assert (take 3 (c :: id) = js "new") as <- by exact (f_equal (drop 7) H). exists (drop 3 (c :: id)).
      by rewrite take_drop.
    + vm_compute. reflexivity.
Qed.

(** The links of the menu on a small screen, where the sidebar is hidden, leave
    out the overview. *)
Lemma mobile_nav_misses_overview :
  mobile_items = tail (navItems ++ learnItems) ∧ head (navItems ++ learnItems) = Some (js "/", js "Overview") ∧
  ∀ o, js "/" ∉ links (MobileNav o).
Proof.
  split; [reflexivity|]. split; [reflexivity|]. intros [|]; apply (bool_decide_unpack _); vm_compute; exact I.
Qed.

(** *** Instances *)
Definition sample_flag : Flag :=
  mkFlag (js "f1") (js "dark-mode") (js "Dark theme") true 25 [js "user-1"] 3 (js "2026-01-01") (js "2026-01-02").
Definition sample_frame : frame := mkFrame (js "/flags") None false true true true (Tour.load (mkStorage false false [])).

Lemma screens_accessible_witness :
  accessible (app true sample_frame (Flags false false false (Some (mkFlagsResponse [sample_flag] 3)))).
Proof.
  apply (screens_accessible true sample_frame). cbn. apply Forall_singleton.
  split_and!; try (vm_compute; discriminate); apply (bool_decide_unpack _); vm_compute; exact I.
Defined.

Lemma frame_follows_route_witness :
  pageTitle (js "/flags/42") = js "Flag detail" ∧ current (js "/flags/42") = [js "Flags"].
Proof.
  apply (frame_follows_route (js "/flags/42") (RFlag (js "42"))); [vm_compute; reflexivity|].
  intros id [= <-] [k Hk]. vm_compute in Hk. discriminate Hk.
Defined.
